(** * BFS block allocator: block bitmap handling and allocation policies

    A shallow embedding of
    [src/add-ons/kernel/file_systems/bfs/BlockAllocator.cpp]:
    the bitmap block view ([AllocationBlock]), the allocation group
    ([AllocationGroup]) and the allocator ([BlockAllocator]), followed by
    the properties of the allocator's specification.

    Conventions of the embedding:
    - machine integers are [Z]; narrowing conversions ([uint16] parameters
      at the head of the callee, [uint32] arithmetic) are written out
      with [u16], [u32] and [s32];
      plain [int32] arithmetic is left in [Z] (signed overflow is undefined
      in the source and does not occur for groups of at most 65536 bits);
    - a bitmap block is the list of its 32-bit chunks; the on-disk byte
      order is the host's (BFS is little endian), so
      [HOST_ENDIAN_TO_BFS_INT32] is the identity;
    - the block cache is a finite map from block numbers to bitmap blocks;
      a block that is not in the map cannot be obtained (I/O error);
    - the allocator lock, tracing and debug-only self checks are not part
      of the functional behaviour and are left out. *)

From Stdlib Require Import ZArith Lia Bool.
From stdpp Require Import base option list gmap.

Local Open Scope Z_scope.

(** ** Machine integers *)

Definition u16 (x : Z) : Z := x mod 65536.
Definition u32 (x : Z) : Z := x mod 4294967296.
Definition s32 (x : Z) : Z := (x + 2147483648) mod 4294967296 - 2147483648.

(** The complement of a 32-bit word ([~mask] on [uint32]). *)
Definition not32 (x : Z) : Z := Z.land (Z.lnot x) 4294967295.

Inductive status_t : Set :=
| B_OK
| B_BAD_VALUE
| B_DEVICE_FULL
| B_IO_ERROR
| B_ERROR
| B_BAD_DATA.

Definition status_eqb (a b : status_t) : bool :=
  match a, b with
  | B_OK, B_OK | B_BAD_VALUE, B_BAD_VALUE | B_DEVICE_FULL, B_DEVICE_FULL
  | B_IO_ERROR, B_IO_ERROR | B_ERROR, B_ERROR | B_BAD_DATA, B_BAD_DATA => true
  | _, _ => false
  end.

(** ** Data model *)

(** [block_run]: group index ([int32]), start and length ([uint16]). *)
Record block_run : Set := mk_block_run {
  allocation_group : Z;
  run_start : Z;
  run_length : Z
}.

(** The part of [Volume] the allocator reads and updates: the geometry
    of the super block (block size and shift, number of blocks, number,
    shift and bitmap blocks of the allocation groups, the log run), the
    super block's [used_blocks] and the cached bitmap blocks. *)
Record Volume : Type := mk_Volume {
  BlockSize : Z;
  BlockShift : Z;
  NumBlocks : Z;
  AllocationGroups : Z;
  AllocationGroupShift : Z;
  BlocksPerAllocationGroup : Z;
  Log : block_run;
  used_blocks : Z;
  block_cache : gmap Z (list Z)
}.

Definition set_block_cache (v : Volume) (c : gmap Z (list Z)) : Volume :=
  mk_Volume (BlockSize v) (BlockShift v) (NumBlocks v) (AllocationGroups v)
    (AllocationGroupShift v) (BlocksPerAllocationGroup v) (Log v)
    (used_blocks v) c.

Definition set_used_blocks (v : Volume) (n : Z) : Volume :=
  mk_Volume (BlockSize v) (BlockShift v) (NumBlocks v) (AllocationGroups v)
    (AllocationGroupShift v) (BlocksPerAllocationGroup v) (Log v)
    n (block_cache v).

Definition UsedBlocks (v : Volume) : Z := used_blocks v.

Record AllocationGroup : Set := mk_AllocationGroup {
  fNumBits : Z;
  fNumBitmapBlocks : Z;
  fStart : Z;
  fFirstFree : Z;
  fFreeBits : Z;
  fLargestStart : Z;
  fLargestLength : Z;
  fLargestValid : bool
}.

Definition set_fFirstFree (g : AllocationGroup) (x : Z) : AllocationGroup :=
  mk_AllocationGroup (fNumBits g) (fNumBitmapBlocks g) (fStart g) x
    (fFreeBits g) (fLargestStart g) (fLargestLength g) (fLargestValid g).

Definition set_fFreeBits (g : AllocationGroup) (x : Z) : AllocationGroup :=
  mk_AllocationGroup (fNumBits g) (fNumBitmapBlocks g) (fStart g)
    (fFirstFree g) x (fLargestStart g) (fLargestLength g) (fLargestValid g).

Definition set_fLargest (g : AllocationGroup) (s l : Z) (valid : bool)
  : AllocationGroup :=
  mk_AllocationGroup (fNumBits g) (fNumBitmapBlocks g) (fStart g)
    (fFirstFree g) (fFreeBits g) s l valid.

Definition set_fLargestValid (g : AllocationGroup) (valid : bool)
  : AllocationGroup :=
  set_fLargest g (fLargestStart g) (fLargestLength g) valid.

Definition NumBits (g : AllocationGroup) : Z := fNumBits g.
Definition NumBitmapBlocks (g : AllocationGroup) : Z := fNumBitmapBlocks g.
Definition Start (g : AllocationGroup) : Z := fStart g.
Definition IsFull (g : AllocationGroup) : bool := fFreeBits g =? 0.

(** The view onto one bitmap block ([AllocationBlock : CachedBlock]).
    [fNumBlockBits] is the class's [fNumBits] (read through
    [NumBlockBits()]); the group has a field of that name already. *)
Record AllocationBlock : Set := mk_AllocationBlock {
  fBlockNumber : Z;
  fBlock : list Z;
  fNumBlockBits : Z
}.

Definition NumBlockBits (b : AllocationBlock) : Z := fNumBlockBits b.

(** [Chunk(index)]: the block is accessed in 32-bit chunks. Reading past
    the block is undefined in the source; the model reads 0 there. *)
Definition Chunk (b : AllocationBlock) (index : Z) : Z :=
  default 0 (fBlock b !! Z.to_nat index).

Record BlockAllocator : Type := mk_BlockAllocator {
  fVolume : Volume;
  fNumGroups : Z;
  fBlocksPerGroup : Z;
  fGroups : list AllocationGroup
}.

(** ** AllocationBlock *)

(** Modelled from the spec: [CachedBlock::SetTo] and
    [CachedBlock::SetToWritable] belong to the block cache, which is not
    part of this file. The cache gives cached block access and may fail;
    here a block is obtained exactly when the cache holds it. *)
Definition CachedBlock_SetTo (v : Volume) (blockNumber : Z)
  : option (list Z) :=
  block_cache v !! blockNumber.

(** The number of valid bits of bitmap block [block] of a group, as
    computed at the start of [SetTo] and [SetToWritable]. *)
Definition block_bits (v : Volume) (group : AllocationGroup) (block : Z) : Z :=
  let fNumBits := u32 (Z.shiftl (BlockSize v) 3) in
  if u32 ((block + 1) * fNumBits) >? NumBits group
  then NumBits group mod fNumBits
  else fNumBits.

Definition AllocationBlock_SetTo (v : Volume) (group : AllocationGroup)
    (block : Z) : option AllocationBlock :=
  let block := u16 block in
  match CachedBlock_SetTo v (Start group + block) with
  | Some data =>
      Some (mk_AllocationBlock (Start group + block) data
              (block_bits v group block))
  | None => None
  end.

Definition AllocationBlock_SetToWritable (v : Volume)
    (group : AllocationGroup) (block : Z) : option AllocationBlock :=
  let block := u16 block in
  match CachedBlock_SetTo v (Start group + block) with
  | Some data =>
      Some (mk_AllocationBlock (Start group + block) data
              (block_bits v group block))
  | None => None
  end.

Definition AllocationBlock_IsUsed (b : AllocationBlock) (block : Z) : bool :=
  let block := u16 block in
  if block >? fNumBlockBits b then true
  else negb (Z.land (Chunk b (Z.shiftr block 5))
                    (Z.shiftl 1 (block mod 32)) =? 0).

(** The inner [for] of [Allocate] and [Free]: builds the mask of one
    chunk from bit [i] on, consuming [numBlocks]. At most 32 rounds. *)
Fixpoint chunk_mask (rounds : nat) (i numBlocks mask : Z) : Z * Z :=
  match rounds with
  | O => (mask, numBlocks)
  | S r =>
      if (i <? 32) && negb (numBlocks =? 0)
      then chunk_mask r (i + 1) (numBlocks - 1) (Z.lor mask (Z.shiftl 1 i))
      else (mask, numBlocks)
  end.

Fixpoint chunk_mask_free (rounds : nat) (i numBlocks mask : Z) : Z * Z :=
  match rounds with
  | O => (mask, numBlocks)
  | S r =>
      if (i <? 32) && negb (numBlocks =? 0)
      then chunk_mask_free r (i + 1) (numBlocks - 1)
             (Z.lor mask (Z.shiftl 1 (i mod 32)))
      else (mask, numBlocks)
  end.

(** The [while (numBlocks > 0)] loop of [AllocationBlock::Allocate]. Every
    round consumes at least one of [numBlocks], which bounds the rounds.
    A chunk index past the block is a stray write in the source; the
    model's list update leaves the block as it is there. *)
Fixpoint Allocate_chunks (rounds : nat) (data : list Z)
    (block start numBlocks : Z) : list Z :=
  match rounds with
  | O => data
  | S r =>
      if numBlocks >? 0 then
        let '(mask, rest) := chunk_mask 32 (start mod 32) numBlocks 0 in
        let old := default 0 (data !! Z.to_nat block) in
        Allocate_chunks r (<[Z.to_nat block := Z.lor old mask]> data)
          (block + 1) 0 rest
      else data
  end.

Definition AllocationBlock_Allocate (b : AllocationBlock)
    (start numBlocks : Z) : AllocationBlock :=
  let start := u16 start in
  let numBlocks := u16 numBlocks in
  mk_AllocationBlock (fBlockNumber b)
    (Allocate_chunks (Z.to_nat numBlocks) (fBlock b)
       (Z.shiftr start 5) start numBlocks)
    (fNumBlockBits b).

Fixpoint Free_chunks (rounds : nat) (data : list Z)
    (block start numBlocks : Z) : list Z :=
  match rounds with
  | O => data
  | S r =>
      if numBlocks >? 0 then
        let '(mask, rest) := chunk_mask_free 32 (start mod 32) numBlocks 0 in
        let old := default 0 (data !! Z.to_nat block) in
        Free_chunks r (<[Z.to_nat block := Z.land old (not32 mask)]> data)
          (block + 1) 0 rest
      else data
  end.

Definition AllocationBlock_Free (b : AllocationBlock)
    (start numBlocks : Z) : AllocationBlock :=
  let start := u16 start in
  let numBlocks := u16 numBlocks in
  mk_AllocationBlock (fBlockNumber b)
    (Free_chunks (Z.to_nat numBlocks) (fBlock b)
       (Z.shiftr start 5) start numBlocks)
    (fNumBlockBits b).

(** Writes through the view reach the cached block itself. *)
Definition write_back (v : Volume) (b : AllocationBlock) : Volume :=
  set_block_cache v (<[fBlockNumber b := fBlock b]> (block_cache v)).

(** ** AllocationGroup *)

(** [AllocationGroup::AllocationGroup()]; the fields the constructor
    leaves uninitialised are 0 here. *)
Definition AllocationGroup_new : AllocationGroup :=
  mk_AllocationGroup 0 0 0 (-1) 0 0 0 false.

Definition AddFreeRange (g : AllocationGroup) (start blocks : Z)
  : AllocationGroup :=
  let g := if fFirstFree g =? -1 then set_fFirstFree g start else g in
  let g := if negb (fLargestValid g) || (fLargestLength g <? blocks)
           then set_fLargest g start blocks true else g in
  set_fFreeBits g (fFreeBits g + blocks).

(** The first half of [AllocationGroup::Allocate]: the group info. *)
Definition Allocate_info (g : AllocationGroup) (start length : Z)
  : AllocationGroup :=
  let g := if start =? fFirstFree g
           then set_fFirstFree g (start + length) else g in
  let g := set_fFreeBits g (fFreeBits g - length) in
  if fLargestValid g then
    let '(largestStart, largestLength, cut) :=
      if fLargestStart g =? start then
        (* cut from start *)
        (fLargestStart g + length, fLargestLength g - length, true)
      else if (start >? fLargestStart g)
              && (start <? fLargestStart g + fLargestLength g) then
        (* cut from end *)
        (fLargestStart g, start - fLargestStart g, true)
      else (fLargestStart g, fLargestLength g, false) in
    if cut && ((largestLength <? largestStart)
               || (largestLength
                   <? s32 (fNumBits g) - (largestStart + largestLength)))
    then (* might not be the largest block anymore *)
      set_fLargest g largestStart largestLength false
    else set_fLargest g largestStart largestLength true
  else g.

(** The [while (length > 0)] loop of [AllocationGroup::Allocate] over the
    bitmap blocks of the run. [None]: the loop is still running when the
    rounds are used up (a round that consumes nothing repeats forever in
    the source). The error result carries the volume as it is then. *)
Fixpoint Allocate_blocks (rounds : nat) (v : Volume) (g : AllocationGroup)
    (block start length : Z) : option (status_t * Volume) :=
  if length >? 0 then
    match rounds with
    | O => None
    | S r =>
        match AllocationBlock_SetToWritable v g block with
        | None => Some (B_IO_ERROR, v)
        | Some cached =>
            let numBlocks := u32 length in
            let numBlocks :=
              if u32 (start + numBlocks) >? NumBlockBits cached
              then u32 (NumBlockBits cached - start) else numBlocks in
            let cached := AllocationBlock_Allocate cached start numBlocks in
            Allocate_blocks r (write_back v cached) g (u32 (block + 1)) 0
              (s32 (length - numBlocks))
        end
    end
  else Some (B_OK, v).

Definition AllocationGroup_Allocate (v : Volume) (g : AllocationGroup)
    (start length : Z) : option (status_t * AllocationGroup * Volume) :=
  let start := u16 start in
  let g := Allocate_info g start length in
  let bitsPerBlock := u32 (Z.shiftl (BlockSize v) 3) in
  let block := start / bitsPerBlock in
  let start := u16 (start mod bitsPerBlock) in
  match Allocate_blocks (Z.to_nat length) v g block start length with
  | None => None
  | Some (B_OK, v') => Some (B_OK, g, v')
  | Some (status, v') => Some (status, set_fLargestValid g false, v')
  end.

(** The first half of [AllocationGroup::Free]: the group info. *)
Definition Free_info (g : AllocationGroup) (start length : Z)
  : AllocationGroup :=
  let g := if fFirstFree g >? start then set_fFirstFree g start else g in
  let g := set_fFreeBits g (fFreeBits g + length) in
  if fLargestValid g
     && ((start + length =? fLargestStart g)
         || (fLargestStart g + fLargestLength g =? start)
         || ((start <? fLargestStart g)
             && (fLargestStart g >? fLargestLength g))
         || ((start >? fLargestStart g)
             && (s32 (fNumBits g) - (fLargestStart g + fLargestLength g)
                 >? fLargestLength g)))
  then set_fLargestValid g false
  else g.

Fixpoint Free_blocks (rounds : nat) (v : Volume) (g : AllocationGroup)
    (block start length : Z) : option (status_t * Volume) :=
  if length >? 0 then
    match rounds with
    | O => None
    | S r =>
        match AllocationBlock_SetToWritable v g block with
        | None => Some (B_IO_ERROR, v)
        | Some cached =>
            let freeLength := u16 length in
            let freeLength :=
              if u32 (start + length) >? NumBlockBits cached
              then u16 (NumBlockBits cached - start) else freeLength in
            let cached := AllocationBlock_Free cached start freeLength in
            Free_blocks r (write_back v cached) g (u32 (block + 1)) 0
              (length - freeLength)
        end
    end
  else Some (B_OK, v).

Definition AllocationGroup_Free (v : Volume) (g : AllocationGroup)
    (start length : Z) : option (status_t * AllocationGroup * Volume) :=
  let start := u16 start in
  let g := Free_info g start length in
  let bitsPerBlock := u32 (Z.shiftl (BlockSize v) 3) in
  let block := start / bitsPerBlock in
  let start := u16 (start mod bitsPerBlock) in
  match Free_blocks (Z.to_nat length) v g block start length with
  | None => None
  | Some (status, v') => Some (status, g, v')
  end.

(** ** BlockAllocator *)

(** [fGroups[index]]: the array has [fNumGroups] entries; an index
    outside it is undefined in the source; here it reads a fresh group
    and a write to it is dropped. *)
Definition group_at (a : BlockAllocator) (index : Z) : AllocationGroup :=
  if index <? 0 then AllocationGroup_new
  else default AllocationGroup_new (fGroups a !! Z.to_nat index).

Definition set_group (a : BlockAllocator) (index : Z) (g : AllocationGroup)
  : BlockAllocator :=
  if index <? 0 then a
  else mk_BlockAllocator (fVolume a) (fNumGroups a) (fBlocksPerGroup a)
         (<[Z.to_nat index := g]> (fGroups a)).

Definition set_fVolume (a : BlockAllocator) (v : Volume) : BlockAllocator :=
  mk_BlockAllocator v (fNumGroups a) (fBlocksPerGroup a) (fGroups a).

Definition set_fGroups (a : BlockAllocator) (gs : list AllocationGroup)
  : BlockAllocator :=
  mk_BlockAllocator (fVolume a) (fNumGroups a) (fBlocksPerGroup a) gs.

(** Modelled from the spec: [round_down] is declared outside this file;
    the chosen length is rounded down to the nearest multiple of
    [minimum]. *)
Definition round_down (value to : Z) : Z := value / to * to.

(** *** The search of [AllocateBlocks] *)

Record scan_state : Set := mk_scan_state {
  bestGroup : Z;
  bestStart : Z;
  bestLength : Z;
  currentStart : Z;
  currentLength : Z;
  groupLargestStart : Z;
  groupLargestLength : Z;
  currentBit : Z
}.

Definition set_best (s : scan_state) (g st l : Z) : scan_state :=
  mk_scan_state g st l (currentStart s) (currentLength s)
    (groupLargestStart s) (groupLargestLength s) (currentBit s).

Definition set_current (s : scan_state) (st l : Z) : scan_state :=
  mk_scan_state (bestGroup s) (bestStart s) (bestLength s) st l
    (groupLargestStart s) (groupLargestLength s) (currentBit s).

Definition set_groupLargest (s : scan_state) (st l : Z) : scan_state :=
  mk_scan_state (bestGroup s) (bestStart s) (bestLength s)
    (currentStart s) (currentLength s) st l (currentBit s).

Definition set_currentBit (s : scan_state) (bit : Z) : scan_state :=
  mk_scan_state (bestGroup s) (bestStart s) (bestLength s)
    (currentStart s) (currentLength s)
    (groupLargestStart s) (groupLargestLength s) bit.

(** How the loop over the bits of one bitmap block is left: at the end of
    the block, by the [break] on a range of [maximum] bits, or by the
    [break] that skips the rest of the group. *)
Inductive scan_exit : Set := ScanEnd | ScanFound | ScanSkip.

(** "end of a range": the two updates made when a used bit closes the
    current free range. *)
Definition end_of_range (groupIndex : Z) (s : scan_state) : scan_state :=
  if currentLength s =? 0 then s
  else
    let s := if currentLength s >? bestLength s
             then set_best s groupIndex (currentStart s) (currentLength s)
             else s in
    let s := if currentLength s >? groupLargestLength s
             then set_groupLargest s (currentStart s) (currentLength s)
             else s in
    set_current s (currentStart s) 0.

(** [for (bit = ...; bit < cached.NumBlockBits(); bit++)]: [rounds] is the
    number of bits left in the block. *)
Fixpoint scan_bits (rounds : nat) (cached : AllocationBlock)
    (group : AllocationGroup) (groupIndex maximum bit : Z) (s : scan_state)
  : scan_exit * scan_state :=
  match rounds with
  | O => (ScanEnd, s)
  | S r =>
      if negb (AllocationBlock_IsUsed cached bit) then
        let s := if currentLength s =? 0
                 then set_current s (currentBit s) (currentLength s)
                 else s in
        let s := set_current s (currentStart s) (currentLength s + 1) in
        if currentLength s >=? maximum then
          (ScanFound,
           set_best s groupIndex (currentStart s) (currentLength s))
        else
          scan_bits r cached group groupIndex maximum (bit + 1)
            (set_currentBit s (currentBit s + 1))
      else
        let s := end_of_range groupIndex s in
        if s32 (NumBits group) - currentBit s <=? groupLargestLength s then
          (ScanSkip, s)
        else
          scan_bits r cached group groupIndex maximum (bit + 1)
            (set_currentBit s (currentBit s + 1))
  end.

(** [for (; block < group.NumBitmapBlocks(); block++)]: [rounds] is the
    number of bitmap blocks left. [None] is the [RETURN_ERROR(B_ERROR)] of
    a block that cannot be obtained. The boolean is
    [canFindGroupLargest]. *)
Fixpoint scan_blocks (rounds : nat) (v : Volume) (group : AllocationGroup)
    (groupIndex maximum block start : Z) (s : scan_state)
    (canFindGroupLargest : bool) : option (scan_state * bool) :=
  match rounds with
  | O => Some (s, canFindGroupLargest)
  | S r =>
      match AllocationBlock_SetTo v group block with
      | None => None
      | Some cached =>
          let bitsPerFullBlock := u32 (Z.shiftl (BlockSize v) 3) in
          let bit := start mod bitsPerFullBlock in
          let '(exit, s) :=
            scan_bits (Z.to_nat (NumBlockBits cached - bit)) cached group
              groupIndex maximum bit s in
          if bestLength s >=? maximum then Some (s, false)
          else
            match exit with
            | ScanSkip => Some (s, canFindGroupLargest)
            | _ =>
                scan_blocks r v group groupIndex maximum (block + 1) 0 s
                  canFindGroupLargest
            end
      end
  end.

(** How one round of the loop over the groups ends. *)
Inductive group_exit : Set := GroupContinue | GroupBreak.

(** The scan of the bits of one group from [start] on: the second half
    of the body of the loop over the groups. [best] carries [bestGroup],
    [bestStart] and [bestLength] in a [scan_state]. The result has the
    group with its largest-range hint possibly refreshed; [None] is the
    [RETURN_ERROR(B_ERROR)] of a block that cannot be obtained. *)
Definition scan_group (v : Volume) (group : AllocationGroup)
    (groupIndex start maximum : Z) (best : scan_state)
  : option (group_exit * scan_state * AllocationGroup) :=
  let block := start / u32 (Z.shiftl (BlockSize v) 3) in
  let s := mk_scan_state (bestGroup best) (bestStart best)
             (bestLength best) 0 0 (-1) (-1) start in
  let canFindGroupLargest := start =? 0 in
  match scan_blocks (Z.to_nat (NumBitmapBlocks group - block)) v group
          groupIndex maximum block start s canFindGroupLargest with
  | None => None
  | Some (s, canFindGroupLargest) =>
      let s :=
        if currentBit s =? s32 (NumBits group) then
          let s := if currentLength s >? bestLength s
                   then set_best s groupIndex (currentStart s)
                          (currentLength s)
                   else s in
          if canFindGroupLargest
             && (currentLength s >? groupLargestLength s)
          then set_groupLargest s (currentStart s) (currentLength s)
          else s
        else s in
      let group :=
        if canFindGroupLargest && negb (fLargestValid group)
           && (groupLargestLength s >=? 0)
        then set_fLargest group (groupLargestStart s)
               (groupLargestLength s) true
        else group in
      if bestLength s >=? maximum then Some (GroupBreak, s, group)
      else Some (GroupContinue, s, group)
  end.

(** The body of the loop over the groups: the group is skipped, or its
    valid largest-range hint answers, or its bits are scanned. *)
Definition visit_group (v : Volume) (group : AllocationGroup)
    (groupIndex start maximum : Z) (best : scan_state)
  : option (group_exit * scan_state * AllocationGroup) :=
  if (start >=? NumBits group) || IsFull group then
    Some (GroupContinue, best, group)
  else
    let start := if start <? fFirstFree group
                 then u16 (fFirstFree group) else start in
    if fLargestValid group && (fLargestLength group <? bestLength best) then
      Some (GroupContinue, best, group)
    else if fLargestValid group && (fLargestStart group >=? start) then
      if fLargestLength group >=? bestLength best then
        let best := set_best best groupIndex (fLargestStart group)
                      (fLargestLength group) in
        if bestLength best >=? maximum then Some (GroupBreak, best, group)
        else Some (GroupContinue, best, group)
      else Some (GroupContinue, best, group)
    else scan_group v group groupIndex start maximum best.

(** [for (i = 0; i < fNumGroups + 1; i++, groupIndex++, start = 0)]. *)
Fixpoint visit_groups (rounds : nat) (a : BlockAllocator)
    (groupIndex start maximum : Z) (best : scan_state)
  : option scan_state * BlockAllocator :=
  match rounds with
  | O => (Some best, a)
  | S r =>
      let groupIndex := Z.rem groupIndex (fNumGroups a) in
      match visit_group (fVolume a) (group_at a groupIndex) groupIndex
              start maximum best with
      | None => (None, a)
      | Some (GroupBreak, best, group) =>
          (Some best, set_group a groupIndex group)
      | Some (GroupContinue, best, group) =>
          visit_groups r (set_group a groupIndex group) (groupIndex + 1) 0
            maximum best
      end
  end.

Definition no_best : scan_state := mk_scan_state (-1) (-1) (-1) 0 0 0 0 0.

(** [BlockAllocator::AllocateBlocks]. [block_cache_discard] acts on the
    cached copies of the blocks of the new run, which are not bitmap
    blocks, and is left out. [None]: the group's allocation loop does not
    return. On an error the allocator is returned as the source leaves
    it. *)
Definition AllocateBlocks (a : BlockAllocator)
    (groupIndex start maximum minimum : Z)
  : option (status_t * option block_run * BlockAllocator) :=
  let start := u16 start in
  let maximum := u16 maximum in
  let minimum := u16 minimum in
  if maximum =? 0 then Some (B_BAD_VALUE, None, a)
  else
    match visit_groups (Z.to_nat (fNumGroups a + 1)) a groupIndex start
            maximum no_best with
    | (None, a) => Some (B_ERROR, None, a)
    | (Some best, a) =>
        if bestLength best <? minimum then Some (B_DEVICE_FULL, None, a)
        else
          let length :=
            if bestLength best >? maximum then maximum
            else if minimum >? 1 then round_down (bestLength best) minimum
            else bestLength best in
          match AllocationGroup_Allocate (fVolume a)
                  (group_at a (bestGroup best)) (bestStart best) length with
          | None => None
          | Some (B_OK, group, v) =>
              let a := set_fVolume (set_group a (bestGroup best) group) v in
              let run := mk_block_run (bestGroup best)
                           (u16 (bestStart best)) (u16 length) in
              Some (B_OK, Some run,
                    set_fVolume a
                      (set_used_blocks (fVolume a)
                         (UsedBlocks (fVolume a) + length)))
          | Some (_, group, v) =>
              Some (B_IO_ERROR, None,
                    set_fVolume (set_group a (bestGroup best) group) v)
          end
    end.

(** [BlockAllocator::Free]. *)
Definition Free (a : BlockAllocator) (run : block_run)
  : option (status_t * BlockAllocator) :=
  let group := allocation_group run in
  let start := run_start run in
  let length := run_length run in
  if (group <? 0) || (group >=? fNumGroups a)
     || (start >? NumBits (group_at a group))
     || (u32 (start + length) >? NumBits (group_at a group))
     || (length =? 0)
  then Some (B_BAD_VALUE, a)
  else if (group <? allocation_group (Log (fVolume a)))
          || ((group =? allocation_group (Log (fVolume a)))
              && (start <? u32 (u32 (run_start (Log (fVolume a)))
                               + run_length (Log (fVolume a)))))
  then Some (B_BAD_VALUE, a)
  else
    match AllocationGroup_Free (fVolume a) (group_at a group) start
            length with
    | None => None
    | Some (B_OK, g, v) =>
        let a := set_fVolume (set_group a group g) v in
        Some (B_OK,
              set_fVolume a
                (set_used_blocks (fVolume a)
                   (UsedBlocks (fVolume a) - run_length run)))
    | Some (_, g, v) =>
        Some (B_IO_ERROR, set_fVolume (set_group a group g) v)
    end.

(** Modelled from the spec: [Volume::ToBlock] is declared outside this
    file. A run names blocks of the volume's block address space: the
    first block of its group, which is the group index shifted by the
    allocation group shift, plus its start offset. *)
Definition ToBlock (v : Volume) (run : block_run) : Z :=
  Z.lor (Z.shiftl (allocation_group run) (AllocationGroupShift v))
        (run_start run).

(** [BlockAllocator::AllocateForInode]. Modelled from the spec: the mode
    bits [S_DIRECTORY], [S_INDEX_DIR] and [S_ATTR_DIR] are declared
    outside this file; [directory] is the outcome of the test
    [(type & (S_DIRECTORY | S_INDEX_DIR | S_ATTR_DIR)) == S_DIRECTORY]. *)
Definition AllocateForInode (a : BlockAllocator) (parent : block_run)
    (directory : bool)
  : option (status_t * option block_run * BlockAllocator) :=
  let group := u16 (allocation_group parent) in
  let group := if directory then u16 (group + 8) else group in
  AllocateBlocks a group 0 1 1.

(** *** Checking runs against the bitmap *)

(** [BlockAllocator::IsValidBlockRun]. *)
Definition IsValidBlockRun (a : BlockAllocator) (run : block_run) : bool :=
  let group := group_at a (allocation_group run) in
  negb ((allocation_group run <? 0)
        || (allocation_group run >=? fNumGroups a)
        || (run_start run >? fNumBits group)
        || (u32 (run_start run + run_length run) >? fNumBits group)
        || (run_length run =? 0)).

(** The inner [for] of [CheckBlocks] over the bits of one bitmap block,
    at most [NumBlockBits] rounds. The result is the first block whose
    state is not the expected one, if any, and [length] and [block] as the
    loop leaves them. *)
Fixpoint check_bits (rounds : nat) (cached : AllocationBlock)
    (allocated : bool) (blockOffset length block : Z) : option Z * Z * Z :=
  match rounds with
  | O => (None, length, block)
  | S r =>
      if (blockOffset <? NumBlockBits cached) && (length >? 0) then
        if negb (eqb (AllocationBlock_IsUsed cached blockOffset) allocated)
        then (Some block, length, block)
        else check_bits r cached allocated (blockOffset + 1) (length - 1)
               (block + 1)
      else (None, length, block)
  end.

(** The [while] of [CheckBlocks] over the bitmap blocks; every round
    looks at one bitmap block of one group. [None]: the rounds are used
    up. The second component is [*firstError]. *)
Fixpoint check_blocks (rounds : nat) (a : BlockAllocator) (allocated : bool)
    (group groupBlock blockOffset length block : Z)
  : option (status_t * option Z) :=
  if (groupBlock <? NumBitmapBlocks (group_at a group)) && (length >? 0)
  then
    match rounds with
    | O => None
    | S r =>
        match AllocationBlock_SetTo (fVolume a) (group_at a group)
                groupBlock with
        | None => Some (B_IO_ERROR, None)
        | Some cached =>
            match check_bits (Z.to_nat (NumBlockBits cached)) cached
                    allocated blockOffset length block with
            | (Some error, _, _) => Some (B_BAD_DATA, Some error)
            | (None, length, block) =>
                let groupBlock := u32 (groupBlock + 1) in
                if groupBlock >=? NumBitmapBlocks (group_at a group)
                then check_blocks r a allocated (group + 1) 0 0 length block
                else check_blocks r a allocated group groupBlock 0 length
                       block
            end
        end
    end
  else Some (B_OK, None).

(** The bitmap blocks of all the groups: no more rounds than that are
    made, one bitmap block being left behind in every round. *)
Definition bitmap_blocks (a : BlockAllocator) : Z :=
  foldr Z.add 0 (map (fun g => Z.max 0 (fNumBitmapBlocks g)) (fGroups a)).

(** [BlockAllocator::CheckBlocks]. *)
Definition CheckBlocks (a : BlockAllocator) (start length : Z)
    (allocated : bool) : option (status_t * option Z) :=
  let v := fVolume a in
  if (start <? 0) || (start + length >? NumBlocks v)
  then Some (B_BAD_VALUE, None)
  else
    let group := s32 (Z.shiftr start (AllocationGroupShift v)) in
    let bitmapBlock := u32 (start / u32 (Z.shiftl (BlockSize v) 3)) in
    let blockOffset := u32 (start mod u32 (Z.shiftl (BlockSize v) 3)) in
    let groupBlock := bitmapBlock mod fBlocksPerGroup a in
    check_blocks (S (Z.to_nat (bitmap_blocks a))) a allocated group
      groupBlock blockOffset length start.

(** [BlockAllocator::CheckBlockRun]. *)
Definition CheckBlockRun (a : BlockAllocator) (run : block_run)
    (allocated : bool) : option status_t :=
  if negb (IsValidBlockRun a run) then Some B_BAD_DATA
  else
    match CheckBlocks a (ToBlock (fVolume a) run) (run_length run)
            allocated with
    | Some (status, _) => Some status
    | None => None
    end.

(** *** Format-time initialisation *)

(** [Initialize(false)]: sizes the group array. *)
Definition Initialize (v : Volume) : BlockAllocator :=
  mk_BlockAllocator v (AllocationGroups v) (BlocksPerAllocationGroup v)
    (replicate (Z.to_nat (AllocationGroups v)) AllocationGroup_new).

(** The zeroed buffer written over the bitmap blocks of one group by
    [write_pos]; the raw write is taken to succeed and is seen by later
    cached reads. *)
Fixpoint clear_blocks (count : nat) (offset : Z) (data : list Z)
    (cache : gmap Z (list Z)) : gmap Z (list Z) :=
  match count with
  | O => cache
  | S n => clear_blocks n (offset + 1) data (<[offset := data]> cache)
  end.

(** The first loop of [InitializeAndClearBitmap]: clears the bitmap and
    fills in the groups [i], [i + 1], ... *)
Fixpoint clear_groups (rounds : nat) (a : BlockAllocator)
    (numBits i offset : Z) : BlockAllocator :=
  match rounds with
  | O => a
  | S r =>
      let v := fVolume a in
      let zero := replicate (Z.to_nat (BlockSize v / 4)) 0 in
      let v := set_block_cache v
                 (clear_blocks (Z.to_nat (fBlocksPerGroup a)) offset zero
                    (block_cache v)) in
      let '(bits, blocks) :=
        if i =? fNumGroups a - 1 then
          let bits := u32 (NumBlocks v - i * numBits) in
          (bits, u32 (1 + Z.shiftr (u32 (bits - 1)) (BlockShift v + 3)))
        else (numBits, fBlocksPerGroup a) in
      let g := mk_AllocationGroup bits blocks offset 0 bits 0 bits true in
      clear_groups r (set_group (set_fVolume a v) i g) numBits (i + 1)
        (offset + fBlocksPerGroup a)
  end.

(** The second loop: reserves the boot block, the block bitmap and the
    log area, group by group. [Some B_ERROR] is the [FATAL] exit. *)
Fixpoint reserve_groups (rounds : nat) (a : BlockAllocator)
    (numBits i blocksToReserve : Z) : option (status_t * BlockAllocator) :=
  match rounds with
  | O => Some (B_OK, a)
  | S r =>
      let reservedBlocksInGroup := s32 (Z.min blocksToReserve numBits) in
      match AllocationGroup_Allocate (fVolume a) (group_at a i) 0
              reservedBlocksInGroup with
      | None => None
      | Some (B_OK, g, v) =>
          let a := set_fVolume (set_group a i g) v in
          let blocksToReserve :=
            u32 (blocksToReserve - reservedBlocksInGroup) in
          if blocksToReserve =? 0 then Some (B_OK, a)
          else reserve_groups r a numBits (i + 1) blocksToReserve
      | Some (_, g, v) =>
          Some (B_ERROR, set_fVolume (set_group a i g) v)
      end
  end.

(** [BlockAllocator::InitializeAndClearBitmap]. *)
Definition InitializeAndClearBitmap (v : Volume)
  : option (status_t * BlockAllocator) :=
  let a := Initialize v in
  let numBits := u32 (8 * fBlocksPerGroup a * BlockSize v) in
  let a := clear_groups (Z.to_nat (fNumGroups a)) a numBits 0 1 in
  let reservedBlocks :=
    u32 (ToBlock (fVolume a) (Log (fVolume a))
         + run_length (Log (fVolume a))) in
  match reserve_groups (Z.to_nat (fNumGroups a)) a numBits 0
          reservedBlocks with
  | None => None
  | Some (B_OK, a) =>
      Some (B_OK,
            set_fVolume a (set_used_blocks (fVolume a) reservedBlocks))
  | Some (status, a) => Some (status, a)
  end.

(** *** Mount-time initialisation *)

(** The bitmap blocks of a group as [read_pos] puts them into the buffer,
    chunk after chunk; the raw read sees the blocks the cache holds and
    fails when one of them cannot be had. *)
Fixpoint read_blocks (count : nat) (v : Volume) (offset : Z)
  : option (list Z) :=
  match count with
  | O => Some []
  | S n =>
      match block_cache v !! offset, read_blocks n v (offset + 1) with
      | Some data, Some rest => Some (data ++ rest)
      | _, _ => None
      end
  end.

(** [for (j = 0; j < 32 && bit < numBits; j++, bit++)] over the bits of
    one chunk of the buffer: a used bit closes the free range that was
    running, a free bit starts or extends one. At most 32 rounds. *)
Fixpoint scan_chunk (rounds : nat) (chunk numBits j bit start range : Z)
    (g : AllocationGroup) : Z * Z * Z * AllocationGroup :=
  match rounds with
  | O => (bit, start, range, g)
  | S r =>
      if (j <? 32) && (bit <? numBits) then
        if negb (Z.land chunk (Z.shiftl 1 j) =? 0) then
          if range >? 0
          then scan_chunk r chunk numBits (j + 1) (bit + 1) start 0
                 (AddFreeRange g start range)
          else scan_chunk r chunk numBits (j + 1) (bit + 1) start range g
        else
          scan_chunk r chunk numBits (j + 1) (bit + 1)
            (if range =? 0 then bit else start) (range + 1) g
      else (bit, start, range, g)
  end.

(** [for (k = 0; k < count; k++)] over the chunks of the buffer. *)
Fixpoint scan_buffer (rounds : nat) (buffer : list Z)
    (numBits k bit start range : Z) (g : AllocationGroup)
  : Z * Z * AllocationGroup :=
  match rounds with
  | O => (start, range, g)
  | S r =>
      let '(bit, start, range, g) :=
        scan_chunk 32 (default 0 (buffer !! Z.to_nat k)) numBits 0 bit start
          range g in
      scan_buffer r buffer numBits (k + 1) bit start range g
  end.

(** One round of the loop of [_Initialize] over the groups: the group [i]
    with its size, its place and the hints the scan of its bits gives.
    [None]: the bitmap blocks cannot be read. *)
Definition scan_group_bitmap (a : BlockAllocator) (bitsPerGroup i offset : Z)
  : option AllocationGroup :=
  let v := fVolume a in
  match read_blocks (Z.to_nat (u32 (fBlocksPerGroup a))) v offset with
  | None => None
  | Some buffer =>
      let g := group_at a i in
      let '(bits, blocks) :=
        if i =? fNumGroups a - 1 then
          let bits := u32 (NumBlocks v - i * bitsPerGroup) in
          (bits, u32 (1 + Z.shiftr (u32 (bits - 1)) (u32 (BlockShift v) + 3)))
        else (bitsPerGroup, u32 (fBlocksPerGroup a)) in
      let g := mk_AllocationGroup bits blocks offset (fFirstFree g)
                 (fFreeBits g) (fLargestStart g) (fLargestLength g)
                 (fLargestValid g) in
      let numBits := s32 (fNumBits g) in
      let count := Z.quot (numBits + 31) 32 in
      let '(start, range, g) :=
        scan_buffer (Z.to_nat count) buffer numBits 0 0 (-1) 0 g in
      Some (if negb (range =? 0) then AddFreeRange g start range else g)
  end.

(** [for (i = 0; i < numGroups; i++)]: a failed read leaves the loop. The
    second component is [freeBlocks]. *)
Fixpoint scan_groups (rounds : nat) (a : BlockAllocator)
    (bitsPerGroup i offset freeBlocks : Z) : BlockAllocator * Z :=
  match rounds with
  | O => (a, freeBlocks)
  | S r =>
      match scan_group_bitmap a bitsPerGroup i offset with
      | None => (a, freeBlocks)
      | Some g =>
          scan_groups r (set_group a i g) bitsPerGroup (i + 1)
            (offset + u32 (fBlocksPerGroup a)) (freeBlocks + fFreeBits g)
      end
  end.

(** [BlockAllocator::_Initialize], on the allocator [Initialize] has set
    up. [readOnly] is [Volume::IsReadOnly()]; a panic of the volume is
    not modelled, the function goes on after it as the source does.
    [None]: a loop of [CheckBlocks] or of the group's [Allocate] does not
    return. *)
Definition _Initialize (a : BlockAllocator) (readOnly : bool)
  : option (status_t * BlockAllocator) :=
  let blocks := u32 (fBlocksPerGroup a) in
  let blockShift := u32 (BlockShift (fVolume a)) in
  let bitsPerGroup := u32 (8 * u32 (Z.shiftl blocks blockShift)) in
  let '(a, freeBlocks) :=
    scan_groups (Z.to_nat (fNumGroups a)) a bitsPerGroup 0 1 0 in
  let v := fVolume a in
  let reservedBlocks := u32 (ToBlock v (Log v) + run_length (Log v)) in
  let fixed :=
    match CheckBlocks a 0 reservedBlocks true with
    | None => None
    | Some (B_OK, _) => Some a
    | Some (_, _) =>
        if readOnly then Some a
        else
          match AllocationGroup_Allocate v (group_at a 0) 0
                  (s32 reservedBlocks) with
          | None => None
          | Some (_, g, v') => Some (set_fVolume (set_group a 0 g) v')
          end
    end in
  match fixed with
  | None => None
  | Some a =>
      let usedBlocks := NumBlocks (fVolume a) - freeBlocks in
      Some (B_OK,
            if UsedBlocks (fVolume a) =? usedBlocks then a
            else set_fVolume a (set_used_blocks (fVolume a) usedBlocks))
  end.

(** ** Trim *)

Definition u64 (x : Z) : Z := x mod 18446744073709551616.

(** What [Trim] returns: a status of the allocator, [B_UNSUPPORTED], or
    the [errno] the device left. *)
Inductive trim_status_t : Set :=
| Status (s : status_t)
| B_UNSUPPORTED
| Errno (e : Z).

(** [fs_trim_data]: [ranges] are pairs of an offset and a size in
    bytes. *)
Record fs_trim_data : Set := mk_fs_trim_data {
  range_count : Z;
  ranges : list (Z * Z);
  trimmed_size : Z
}.

Definition kTrimRanges : Z := 128.

(** [BlockAllocator::_AddTrim]; the [ASSERT] is left out. *)
Definition _AddTrim (trimData : fs_trim_data) (maxRanges offset size : Z)
  : bool * fs_trim_data :=
  if size =? 0 then (false, trimData)
  else
    let trimData :=
      mk_fs_trim_data (u32 (range_count trimData + 1))
        (<[Z.to_nat (range_count trimData) := (offset, size)]>
           (ranges trimData))
        (trimmed_size trimData) in
    (range_count trimData =? maxRanges, trimData).

Section Trim.

(** The device: [B_TRIM_DEVICE] is given the first [range_count] ranges
    and answers, in a state of its own, with the [errno] of a failed
    [ioctl] or with the number of bytes it trimmed. *)
Variable Device : Type.
Variable B_TRIM_DEVICE : Device -> list (Z * Z) -> Device * (Z + Z).

(** The locals of [Trim] that its loops change, and the device. *)
Record trim_state : Type := mk_trim_state {
  trimData : fs_trim_data;
  firstFree : Z;
  freeLength : Z;
  currentBlock : Z;
  trimmedSize : Z;
  device : Device
}.

(** [BlockAllocator::_TrimNext]. *)
Definition _TrimNext (trimData : fs_trim_data)
    (maxRanges offset size : Z) (force : bool) (trimmedSize : Z)
    (device : Device)
  : trim_status_t * fs_trim_data * Z * Device :=
  let '(rangesFilled, trimData) :=
    _AddTrim trimData maxRanges offset size in
  if rangesFilled || force then
    let trimData :=
      mk_fs_trim_data (range_count trimData) (ranges trimData) 0 in
    match B_TRIM_DEVICE device
            (take (Z.to_nat (range_count trimData)) (ranges trimData)) with
    | (device, inl errno) => (Errno errno, trimData, trimmedSize, device)
    | (device, inr trimmed) =>
        (Status B_OK,
         mk_fs_trim_data 0 (ranges trimData) trimmed,
         u64 (trimmedSize + trimmed), device)
    end
  else (Status B_OK, trimData, trimmedSize, device).

(** The body of the loop over the bits of a bitmap block, for a bit that
    is [used] or not, up to [currentBlock++]; a status is a [return]. *)
Definition trim_bit (blockShift : Z) (used : bool) (s : trim_state)
  : option trim_status_t * trim_state :=
  if used then
    if freeLength s >? 0 then
      if negb (Z.shiftr (u64 (Z.shiftl (firstFree s) blockShift)) blockShift
               =? firstFree s)
         || negb (Z.shiftr (u64 (Z.shiftl (freeLength s) blockShift))
                    blockShift
                  =? freeLength s)
      then (Some (Status B_ERROR), s)
      else
        match _TrimNext (trimData s) kTrimRanges
                (u64 (Z.shiftl (firstFree s) blockShift))
                (u64 (Z.shiftl (freeLength s) blockShift)) false
                (trimmedSize s) (device s) with
        | (Status B_OK, trimData, trimmedSize, device) =>
            (None,
             mk_trim_state trimData (firstFree s) 0 (currentBlock s)
               trimmedSize device)
        | (status, trimData, trimmedSize, device) =>
            (Some status,
             mk_trim_state trimData (firstFree s) (freeLength s)
               (currentBlock s) trimmedSize device)
        end
    else (None, s)
  else
    (None,
     mk_trim_state (trimData s)
       (if freeLength s =? 0 then currentBlock s else firstFree s)
       (u64 (freeLength s + 1)) (currentBlock s) (trimmedSize s)
       (device s)).

(** [for (uint32 i = firstBit; i < cached.NumBlockBits(); i++)]. *)
Fixpoint trim_bits (rounds : nat) (cached : AllocationBlock)
    (blockShift i : Z) (s : trim_state)
  : option trim_status_t * trim_state :=
  match rounds with
  | O => (None, s)
  | S r =>
      match trim_bit blockShift (AllocationBlock_IsUsed cached i) s with
      | (Some status, s) => (Some status, s)
      | (None, s) =>
          trim_bits r cached blockShift (u32 (i + 1))
            (mk_trim_state (trimData s) (firstFree s) (freeLength s)
               (u64 (currentBlock s + 1)) (trimmedSize s) (device s))
      end
  end.

(** [for (uint32 block = firstBlock; block < group.NumBitmapBlocks();
    block++)]. The source does not look at what [SetTo] returns and goes
    on to read the block; [None]: the block could not be read. *)
Fixpoint trim_blocks (rounds : nat) (v : Volume) (group : AllocationGroup)
    (blockShift block : Z) (s : trim_state)
  : option (option trim_status_t * trim_state) :=
  match rounds with
  | O => Some (None, s)
  | S r =>
      match AllocationBlock_SetTo v group block with
      | None => None
      | Some cached =>
          match trim_bits (Z.to_nat (NumBlockBits cached)) cached blockShift
                  0 s with
          | (Some status, s) => Some (Some status, s)
          | (None, s) => trim_blocks r v group blockShift (u32 (block + 1)) s
          end
      end
  end.

(** [for (int32 groupIndex = 0; groupIndex <= lastGroup; groupIndex++)]. *)
Fixpoint trim_groups (rounds : nat) (a : BlockAllocator)
    (blockShift groupIndex : Z) (s : trim_state)
  : option (option trim_status_t * trim_state) :=
  match rounds with
  | O => Some (None, s)
  | S r =>
      let group := group_at a groupIndex in
      match trim_blocks (Z.to_nat (NumBitmapBlocks group)) (fVolume a) group
              blockShift 0 s with
      | None => None
      | Some (Some status, s) => Some (Some status, s)
      | Some (None, s) => trim_groups r a blockShift (groupIndex + 1) s
      end
  end.

(** [BlockAllocator::Trim]: the status, [trimmedSize] (which the caller
    passes by reference, [trimmedSize0] is what it held) and the device. The memory of the 128 ranges is
    taken to be there, and to hold zeroes. [None]: a bitmap block could
    not be read. *)
Definition Trim (a : BlockAllocator) (offset size trimmedSize0 : Z)
    (device0 : Device) : option (trim_status_t * Z * Device) :=
  let v := fVolume a in
  if negb (offset =? 0) || (NumBlocks v <? 0)
     || (size <? u64 (u64 (NumBlocks v) * BlockSize v))
  then Some (B_UNSUPPORTED, trimmedSize0, device0)
  else
    let lastGroup := s32 (fNumGroups a - 1) in
    let blockShift := u32 (BlockShift v) in
    let s :=
      mk_trim_state
        (mk_fs_trim_data 0 (replicate (Z.to_nat kTrimRanges) (0, 0)) 0)
        0 0 0 0 device0 in
    match trim_groups (Z.to_nat (lastGroup + 1)) a blockShift 0 s with
    | None => None
    | Some (Some status, s) => Some (status, trimmedSize s, device s)
    | Some (None, s) =>
        let '(status, _, trimmedSize, device) :=
          _TrimNext (trimData s) kTrimRanges
            (u64 (Z.shiftl (firstFree s) blockShift))
            (u64 (Z.shiftl (freeLength s) blockShift)) true
            (trimmedSize s) (device s) in
        Some (status, trimmedSize, device)
    end.

End Trim.

Arguments mk_trim_state {Device}.
Arguments trimData {Device}.
Arguments firstFree {Device}.
Arguments freeLength {Device}.
Arguments currentBlock {Device}.
Arguments trimmedSize {Device}.
Arguments device {Device}.
Arguments _TrimNext {Device}.
Arguments trim_bit {Device}.
Arguments trim_bits {Device}.
Arguments trim_blocks {Device}.
Arguments trim_groups {Device}.
Arguments Trim {Device}.

(** A device that keeps the requests it was given, the last one first,
    and trims all of every range. *)
Definition ranges_size (request : list (Z * Z)) : Z :=
  foldr Z.add 0 (map snd request).

Definition recording_device (requests : list (list (Z * Z)))
    (request : list (Z * Z)) : list (list (Z * Z)) * (Z + Z) :=
  (request :: requests, inr (ranges_size request)).

(** ** The bitmap as the specification sees it *)

Definition bitsPerBlock (v : Volume) : Z := u32 (Z.shiftl (BlockSize v) 3).

(** Bit [bit] of a bitmap block: bit [bit mod 32] of chunk [bit / 32]. *)
Definition chunk_bit (data : list Z) (bit : Z) : bool :=
  Z.testbit (default 0 (data !! Z.to_nat (bit / 32))) (bit mod 32).

(** Bit [bit] of cached block [blockNumber], if the cache holds it. *)
Definition cache_bit (cache : gmap Z (list Z)) (blockNumber bit : Z)
  : option bool :=
  match cache !! blockNumber with
  | Some data => Some (chunk_bit data bit)
  | None => None
  end.

(** Bit [b] of a group's region of the bitmap: [true] is allocated. A
    block the cache does not hold offers no free bit. *)
Definition group_bit (v : Volume) (g : AllocationGroup) (b : Z) : bool :=
  match block_cache v !! (fStart g + b / bitsPerBlock v) with
  | Some data => chunk_bit data (b mod bitsPerBlock v)
  | None => true
  end.

(** A direct scan's count of the unset bits among [from], ...,
    [from + n - 1]. *)
Fixpoint count_unset (f : Z -> bool) (from : Z) (n : nat) : Z :=
  match n with
  | O => 0
  | S k => (if f from then 0 else 1) + count_unset f (from + 1) k
  end.

Fixpoint all_unset (f : Z -> bool) (from : Z) (n : nat) : bool :=
  match n with
  | O => true
  | S k => negb (f from) && all_unset f (from + 1) k
  end.

Fixpoint all_set (f : Z -> bool) (from : Z) (n : nat) : bool :=
  match n with
  | O => true
  | S k => f from && all_set f (from + 1) k
  end.

(** The length of the longest run of unset bits among [from], ...,
    [from + n - 1]; [cur] is the length of the run that ends at [from]
    and [best] the longest run closed so far. *)
Fixpoint longest_from (f : Z -> bool) (from : Z) (n : nat) (cur best : Z)
  : Z :=
  match n with
  | O => Z.max cur best
  | S k =>
      if f from then longest_from f (from + 1) k 0 (Z.max cur best)
      else longest_from f (from + 1) k (cur + 1) best
  end.

Definition longest_unset (f : Z -> bool) (from : Z) (n : nat) : Z :=
  longest_from f from n 0 0.

Definition free_count (v : Volume) (g : AllocationGroup) : Z :=
  count_unset (group_bit v g) 0 (Z.to_nat (fNumBits g)).

(** The run [start], [length] of the group is free (every bit unset),
    or allocated (every bit set). *)
Definition run_free (v : Volume) (g : AllocationGroup) (start length : Z)
  : bool :=
  all_unset (group_bit v g) start (Z.to_nat length).

Definition run_used (v : Volume) (g : AllocationGroup) (start length : Z)
  : bool :=
  all_set (group_bit v g) start (Z.to_nat length).

Definition longest_free (v : Volume) (g : AllocationGroup) : Z :=
  longest_unset (group_bit v g) 0 (Z.to_nat (fNumBits g)).

(** *** Well-formed volumes and groups *)

(** The block size is a positive number of 32-bit chunks and a block
    holds at most 65536 bits (BFS block sizes are 1024 to 8192 bytes). *)
Definition volume_ok (v : Volume) : bool :=
  (0 <? BlockSize v) && (BlockSize v mod 4 =? 0) && (BlockSize v <=? 8192).

Fixpoint blocks_cached (v : Volume) (first : Z) (count : nat) : bool :=
  match count with
  | O => true
  | S n =>
      match block_cache v !! first with
      | Some data =>
          (Z.of_nat (length data) =? BlockSize v / 4)
          && blocks_cached v (first + 1) n
      | None => false
      end
  end.

(** A group has between 1 and 65536 bits (a run's start is a [uint16]),
    the bitmap blocks these bits need, and every one of them cached. *)
Definition geometry_ok (v : Volume) (g : AllocationGroup) : bool :=
  (0 <? fNumBits g) && (fNumBits g <=? 65536)
  && (fNumBitmapBlocks g
      =? (fNumBits g + bitsPerBlock v - 1) / bitsPerBlock v)
  && blocks_cached v (fStart g) (Z.to_nat (fNumBitmapBlocks g)).

(** The three hints of a group against a direct scan of its bits. *)
Definition count_ok (v : Volume) (g : AllocationGroup) : bool :=
  fFreeBits g =? free_count v g.

Definition first_free_ok (v : Volume) (g : AllocationGroup) : bool :=
  all_set (group_bit v g) 0
    (Z.to_nat (Z.min (fFirstFree g) (fNumBits g))).

Definition largest_ok (v : Volume) (g : AllocationGroup) : bool :=
  negb (fLargestValid g)
  || ((0 <=? fLargestStart g) && (0 <=? fLargestLength g)
      && (fLargestStart g + fLargestLength g <=? fNumBits g)
      && run_free v g (fLargestStart g) (fLargestLength g)
      && (longest_free v g <=? fLargestLength g)).

Definition group_ok (v : Volume) (g : AllocationGroup) : bool :=
  geometry_ok v g && count_ok v g && first_free_ok v g && largest_ok v g.

Definition allocator_ok (a : BlockAllocator) : bool :=
  volume_ok (fVolume a)
  && (0 <? fNumGroups a)
  && (fNumGroups a =? Z.of_nat (length (fGroups a)))
  && forallb (group_ok (fVolume a)) (fGroups a).

(** The longest free run of the whole volume. *)
Definition longest_free_run (a : BlockAllocator) : Z :=
  foldr Z.max 0 (map (longest_free (fVolume a)) (fGroups a)).

(** The reserved prefix is allocated: every bit of the groups before the
    log's group, and the bits of the log's group up to the end of the
    log. *)
Fixpoint groups_used (a : BlockAllocator) (count : nat) : bool :=
  match count with
  | O => true
  | S k =>
      groups_used a k
      && run_used (fVolume a) (group_at a (Z.of_nat k)) 0
           (fNumBits (group_at a (Z.of_nat k)))
  end.

Definition reserved_allocated (a : BlockAllocator) : bool :=
  let log := Log (fVolume a) in
  let group := group_at a (allocation_group log) in
  groups_used a (Z.to_nat (allocation_group log))
  && run_used (fVolume a) group 0
       (Z.min (run_start log + run_length log) (fNumBits group)).

(** *** A volume to try the operations on *)

(** Two groups of 8192 blocks of 1024 bytes; the bitmap is blocks 1 and
    2 and the log the 61 blocks after it, so that the reserved prefix is
    the first 64 blocks. *)
Definition example_volume : Volume :=
  mk_Volume 1024 10 16384 2 13 1 (mk_block_run 0 3 61) 0 ∅.

(** The volume freshly formatted. *)
Definition example_allocator : BlockAllocator :=
  match InitializeAndClearBitmap example_volume with
  | Some (_, a) => a
  | None => Initialize example_volume
  end.

(** The bitmap starts directly after the super block, and the bitmap
    blocks of group [i] are among the [fBlocksPerGroup] blocks from block
    [1 + i * fBlocksPerGroup] on. *)
Fixpoint groups_laid_out (a : BlockAllocator) (count : nat) : bool :=
  match count with
  | O => true
  | S k =>
      groups_laid_out a k
      && (fStart (group_at a (Z.of_nat k))
          =? 1 + Z.of_nat k * fBlocksPerGroup a)
      && (fNumBitmapBlocks (group_at a (Z.of_nat k)) <=? fBlocksPerGroup a)
  end.

Definition layout_ok (a : BlockAllocator) : bool :=
  groups_laid_out a (Z.to_nat (fNumGroups a)).

(** The freshly formatted volume after ten blocks were allocated. *)
Definition example_allocated : BlockAllocator :=
  match AllocateBlocks example_allocator 0 0 10 1 with
  | Some (_, _, a) => a
  | None => example_allocator
  end.

(** The freshly formatted volume after all the free blocks of its first
    group were allocated. *)
Definition example_full_first : BlockAllocator :=
  match AllocateBlocks example_allocator 0 0 8128 1 with
  | Some (_, _, a) => a
  | None => example_allocator
  end.

(** A volume that can be formatted: block size [2 ^ BlockShift], at least
    one group, every group but the last with
    [8 * BlocksPerAllocationGroup * BlockSize] blocks, at most 65536, the
    last with the rest, and the log in the first group, so that the
    reserved prefix is within it. *)
Definition format_ok (v : Volume) : bool :=
  let numBits := 8 * BlocksPerAllocationGroup v * BlockSize v in
  let reserved := run_start (Log v) + run_length (Log v) in
  volume_ok v
  && (0 <=? BlockShift v) && (BlockSize v =? 2 ^ BlockShift v)
  && (1 <=? AllocationGroups v)
  && (1 <=? BlocksPerAllocationGroup v) && (numBits <=? 65536)
  && ((AllocationGroups v - 1) * numBits <? NumBlocks v)
  && (NumBlocks v <=? AllocationGroups v * numBits)
  && (allocation_group (Log v) =? 0)
  && (0 <=? run_start (Log v)) && (0 <=? run_length (Log v))
  && (1 <=? reserved) && (reserved <=? 65535)
  && (reserved <=? Z.min numBits (NumBlocks v)).

(** The free blocks of the volume as the groups count them. *)
Definition free_blocks (a : BlockAllocator) : Z :=
  foldr Z.add 0 (map fFreeBits (fGroups a)).

(** The volume after the ten blocks were freed again. *)
Definition example_freed : BlockAllocator :=
  match Free example_allocated (mk_block_run 0 64 10) with
  | Some (_, a) => a
  | None => example_allocated
  end.

(** The block address space: a group holds [2 ^ AllocationGroupShift]
    block numbers, as many as the bits of its [fBlocksPerGroup] bitmap
    blocks, the blocks of every group are blocks of the volume, and the
    numbers of groups and of bitmap blocks fit their integer types. *)
Fixpoint groups_fit (a : BlockAllocator) (count : nat) : bool :=
  match count with
  | O => true
  | S k =>
      groups_fit a k
      && (Z.of_nat k * 2 ^ AllocationGroupShift (fVolume a)
          + fNumBits (group_at a (Z.of_nat k)) <=? NumBlocks (fVolume a))
  end.

Definition addressing_ok (a : BlockAllocator) : bool :=
  let v := fVolume a in
  (0 <=? AllocationGroupShift v)
  && (2 ^ AllocationGroupShift v =? fBlocksPerGroup a * bitsPerBlock v)
  && (fNumGroups a <=? 2147483647)
  && (fNumGroups a * fBlocksPerGroup a <? 4294967296)
  && groups_fit a (Z.to_nat (fNumGroups a)).

(** Every bit of the run has the state [allocated]. *)
Definition run_in_state (v : Volume) (g : AllocationGroup)
    (allocated : bool) (start length : Z) : bool :=
  if allocated then run_used v g start length
  else run_free v g start length.

(** A volume that can be mounted: sized as a formatted volume is, a group
    holding [2 ^ AllocationGroupShift] block numbers, and all the bitmap
    blocks of all the groups readable. *)
Definition mount_ok (v : Volume) : bool :=
  let numBits := 8 * BlocksPerAllocationGroup v * BlockSize v in
  let reserved := run_start (Log v) + run_length (Log v) in
  volume_ok v
  && (0 <=? BlockShift v) && (BlockSize v =? 2 ^ BlockShift v)
  && (1 <=? AllocationGroups v) && (AllocationGroups v <=? 2147483647)
  && (AllocationGroups v * BlocksPerAllocationGroup v <? 4294967296)
  && (1 <=? BlocksPerAllocationGroup v) && (numBits <=? 65536)
  && ((AllocationGroups v - 1) * numBits <? NumBlocks v)
  && (NumBlocks v <=? AllocationGroups v * numBits)
  && (0 <=? AllocationGroupShift v)
  && (2 ^ AllocationGroupShift v =? numBits)
  && (allocation_group (Log v) =? 0)
  && (0 <=? run_start (Log v)) && (0 <=? run_length (Log v))
  && (1 <=? reserved) && (reserved <=? 65535)
  && (reserved <=? Z.min numBits (NumBlocks v))
  && blocks_cached v 1
       (Z.to_nat (AllocationGroups v * BlocksPerAllocationGroup v)).

(** Bit [b] of the bitmap of the first group as it is on the disk. *)
Definition first_group_bit (v : Volume) (b : Z) : bool :=
  group_bit v (mk_AllocationGroup 0 0 1 (-1) 0 0 0 false) b.

(** The blocks of the reserved prefix are all allocated, or all free, in
    the bitmap on the disk. *)
Definition reserved_on_disk (v : Volume) (allocated : bool) : bool :=
  let reserved := Z.to_nat (run_start (Log v) + run_length (Log v)) in
  if allocated then all_set (first_group_bit v) 0 reserved
  else all_unset (first_group_bit v) 0 reserved.

(** The volume of the example after ten blocks were allocated, mounted
    anew. *)
Definition example_mounted : BlockAllocator :=
  match _Initialize (Initialize (fVolume example_allocated)) false with
  | Some (_, a) => a
  | None => example_allocated
  end.

(** The volume of the example with a bitmap of zeroes: nothing is
    allocated, not even the reserved prefix. *)
Definition example_blank : Volume :=
  set_block_cache example_volume
    (clear_blocks 2 1 (replicate 256 0) ∅).

(** The volume of the example with a bitmap in which only block 0 is
    allocated: the reserved prefix is partly allocated. *)
Definition example_partial : Volume :=
  set_block_cache example_volume
    (<[1 := 1 :: replicate 255 0]> (clear_blocks 2 1 (replicate 256 0) ∅)).

(** * The statements

    The predicates and relations the lemmas and theorems are stated
    with. *)

(** ** Chunk masks *)

Definition in_range (lo len j : Z) : bool := (lo <=? j) && (j <? lo + len).

(** ** Geometry of a volume and of a group *)

Definition blocks_present (v : Volume) (g : AllocationGroup) : Prop :=
  forall k, 0 <= k < fNumBitmapBlocks g ->
    exists data, block_cache v !! (fStart g + k) = Some data
                 /\ Z.of_nat (length data) = BlockSize v / 4.

Definition same_shape (c c' : gmap Z (list Z)) : Prop :=
  forall n, length <$> (c' !! n) = length <$> (c !! n).

(** What a group is to a volume for its operations to work: the
    propositional reading of [geometry_ok]. *)
Definition group_geometry (v : Volume) (g : AllocationGroup) : Prop :=
  0 < fNumBits g <= 65536
  /\ fNumBitmapBlocks g
     = (fNumBits g + bitsPerBlock v - 1) / bitsPerBlock v
  /\ blocks_present v g.

(** A free interval of [f]: every bit of [x], ..., [y - 1] is unset. *)
Definition free_interval (f : Z -> bool) (x y : Z) : Prop :=
  forall b, x <= b < y -> f b = false.

(** [start], [len] is a run of unset bits among the first [n] bits. *)
Definition free_run_in (f : Z -> bool) (n start len : Z) : Prop :=
  0 <= start /\ 0 <= len /\ start + len <= n
  /\ free_interval f start (start + len).

Definition best_of (s : scan_state) : Z * Z * Z :=
  (bestGroup s, bestStart s, bestLength s).

(** ** One round of the loop over the groups *)

Definition same_group_but_largest (g g' : AllocationGroup) : Prop :=
  fNumBits g' = fNumBits g /\ fNumBitmapBlocks g' = fNumBitmapBlocks g
  /\ fStart g' = fStart g /\ fFirstFree g' = fFirstFree g
  /\ fFreeBits g' = fFreeBits g.

Definition visit_post (v : Volume) (g : AllocationGroup)
    (gi maximum start : Z) (best : scan_state)
    (r : group_exit * scan_state * AllocationGroup) : Prop :=
  let f := group_bit v g in
  let N := fNumBits g in
  same_group_but_largest g r.2
  /\ largest_ok v r.2 = true
  /\ bestLength best <= bestLength r.1.2
  /\ (best_of r.1.2 = best_of best
      \/ (bestGroup r.1.2 = gi
          /\ free_run_in f N (bestStart r.1.2) (bestLength r.1.2)))
  /\ match r.1.1 with
     | GroupBreak => maximum <= bestLength r.1.2
     | GroupContinue =>
         bestLength r.1.2 < maximum
         /\ forall x y, start <= x < y /\ y <= N -> free_interval f x y ->
              y - x <= bestLength r.1.2
     end.

(** The propositional reading of [allocator_ok]. *)
Definition allocator_inv (a : BlockAllocator) : Prop :=
  volume_ok (fVolume a) = true
  /\ 0 < fNumGroups a
  /\ fNumGroups a = Z.of_nat (length (fGroups a))
  /\ forall i, 0 <= i < fNumGroups a ->
       group_ok (fVolume a) (group_at a i) = true.

(** [a'] is [a] with some largest-range hints refreshed. *)
Definition hints_refreshed (a a' : BlockAllocator) : Prop :=
  fVolume a' = fVolume a /\ fNumGroups a' = fNumGroups a
  /\ fBlocksPerGroup a' = fBlocksPerGroup a
  /\ length (fGroups a') = length (fGroups a)
  /\ forall i, 0 <= i < fNumGroups a ->
       same_group_but_largest (group_at a i) (group_at a' i).

(** The run is a free run of group [gi] of the allocator. *)
Definition run_is_free (a : BlockAllocator) (gi start len : Z) : Prop :=
  0 <= gi < fNumGroups a
  /\ free_run_in (group_bit (fVolume a) (group_at a gi))
       (fNumBits (group_at a gi)) start len.

Definition best_ok (a : BlockAllocator) (best : scan_state) : Prop :=
  bestLength best = -1
  \/ run_is_free a (bestGroup best) (bestStart best) (bestLength best).

(** No free interval of group [gi] that begins at [from] or later is
    longer than [len]. *)
Definition none_longer (a : BlockAllocator) (gi from len : Z) : Prop :=
  forall x y, from <= x < y /\ y <= fNumBits (group_at a gi) ->
    free_interval (group_bit (fVolume a) (group_at a gi)) x y ->
    y - x <= len.

(** The groups visited by [rounds] rounds from [groupIndex] on: the first
    from [start], the others from their beginning. *)
Definition visited (a : BlockAllocator) (groupIndex start : Z)
    (rounds : nat) (len : Z) : Prop :=
  forall j, 0 <= j < Z.of_nat rounds ->
    none_longer a ((groupIndex + j) mod fNumGroups a)
      (if j =? 0 then start else 0) len.

(** The length [AllocateBlocks] allocates of a best run of [bestLength]
    bits. *)
Definition chosen_length (bestLength maximum minimum : Z) : Z :=
  if bestLength >? maximum then maximum
  else if minimum >? 1 then round_down bestLength minimum
  else bestLength.

(** The allocator [a'] is [a] after the run of [len] bits at [start] of
    group [gi] was allocated, with the cache [c'] for the old one. *)
Definition allocated_in (a a' : BlockAllocator) (gi start len : Z)
    (c' : gmap Z (list Z)) : Prop :=
  let g := group_at a gi in
  fVolume a'
  = set_used_blocks (set_block_cache (fVolume a) c')
      (used_blocks (fVolume a) + len)
  /\ fNumGroups a' = fNumGroups a
  /\ fBlocksPerGroup a' = fBlocksPerGroup a
  /\ fGroups a' = <[Z.to_nat gi := Allocate_info g start len]> (fGroups a)
  /\ same_shape (block_cache (fVolume a)) c'
  /\ (forall n, ~ (fStart g <= n < fStart g + fNumBitmapBlocks g) ->
        c' !! n = block_cache (fVolume a) !! n)
  /\ (forall b,
        group_bit (set_block_cache (fVolume a) c') g b
        = group_bit (fVolume a) g b || in_range start len b).

(** The allocator [a'] is [a] after the run of [len] bits at [start] of
    group [gi] was freed, with the cache [c'] for the old one. *)
Definition freed_in (a a' : BlockAllocator) (gi start len : Z)
    (c' : gmap Z (list Z)) : Prop :=
  let g := group_at a gi in
  fVolume a'
  = set_used_blocks (set_block_cache (fVolume a) c')
      (used_blocks (fVolume a) - len)
  /\ fNumGroups a' = fNumGroups a
  /\ fBlocksPerGroup a' = fBlocksPerGroup a
  /\ fGroups a' = <[Z.to_nat gi := Free_info g start len]> (fGroups a)
  /\ same_shape (block_cache (fVolume a)) c'
  /\ (forall n, ~ (fStart g <= n < fStart g + fNumBitmapBlocks g) ->
        c' !! n = block_cache (fVolume a) !! n)
  /\ (forall b,
        group_bit (set_block_cache (fVolume a) c') g b
        = group_bit (fVolume a) g b && negb (in_range start len b)).

(** [a'] is [a] with the group [gi] replaced by [g'], and the cache, of
    the same shape, changed in the bitmap blocks of that group only. *)
Definition group_changed (a a' : BlockAllocator) (gi : Z)
    (g' : AllocationGroup) : Prop :=
  BlockSize (fVolume a') = BlockSize (fVolume a)
  /\ Log (fVolume a') = Log (fVolume a)
  /\ fNumGroups a' = fNumGroups a
  /\ fBlocksPerGroup a' = fBlocksPerGroup a
  /\ fGroups a' = <[Z.to_nat gi := g']> (fGroups a)
  /\ fStart g' = fStart (group_at a gi)
  /\ fNumBitmapBlocks g' = fNumBitmapBlocks (group_at a gi)
  /\ fNumBits g' = fNumBits (group_at a gi)
  /\ (forall n,
        ~ (fStart g' <= n < fStart g' + fNumBitmapBlocks g') ->
        block_cache (fVolume a') !! n = block_cache (fVolume a) !! n).

(** The group [i] as the first loop of [InitializeAndClearBitmap] fills
    it in, its bitmap at [offset]. *)
Definition cleared_group (v : Volume) (groups bpg numBits i offset : Z)
  : AllocationGroup :=
  let '(bits, blocks) :=
    if i =? groups - 1 then
      let bits := u32 (NumBlocks v - i * numBits) in
      (bits, u32 (1 + Z.shiftr (u32 (bits - 1)) (BlockShift v + 3)))
    else (numBits, bpg) in
  mk_AllocationGroup bits blocks offset 0 bits 0 bits true.

(** What the scan knows when the bits before [p] are done: [range] free
    bits are running up to [p], and the hints of the group are those of
    the bits before them. *)
Definition scanned (f : Z -> bool) (p start range : Z) (g : AllocationGroup)
  : Prop :=
  let c := p - range in
  0 <= range <= p
  /\ (0 < range -> start = c)
  /\ (forall b, c <= b < p -> f b = false)
  /\ (0 < c -> f (c - 1) = true)
  /\ fFreeBits g = count_unset f 0 (Z.to_nat c)
  /\ ((fFirstFree g = -1 /\ forall b, 0 <= b < c -> f b = true)
      \/ (0 <= fFirstFree g < c /\ f (fFirstFree g) = false
          /\ forall b, 0 <= b < fFirstFree g -> f b = true))
  /\ ((fLargestValid g = false /\ forall b, 0 <= b < c -> f b = true)
      \/ (fLargestValid g = true
          /\ free_run_in f c (fLargestStart g) (fLargestLength g)
          /\ 0 < fLargestLength g
          /\ forall x y, 0 <= x < y /\ y <= c -> free_interval f x y ->
               y - x <= fLargestLength g)).

Definition same_geometry (g g' : AllocationGroup) : Prop :=
  fNumBits g' = fNumBits g /\ fNumBitmapBlocks g' = fNumBitmapBlocks g
  /\ fStart g' = fStart g.

(** The hints at the end of the scan of the [N] bits. *)
Definition hints_exact (f : Z -> bool) (N : Z) (g : AllocationGroup) : Prop :=
  fFreeBits g = count_unset f 0 (Z.to_nat N)
  /\ ((fFirstFree g = -1 /\ forall b, 0 <= b < N -> f b = true)
      \/ (0 <= fFirstFree g < N /\ f (fFirstFree g) = false
          /\ forall b, 0 <= b < fFirstFree g -> f b = true))
  /\ ((fLargestValid g = false /\ forall b, 0 <= b < N -> f b = true)
      \/ (fLargestValid g = true
          /\ free_run_in f N (fLargestStart g) (fLargestLength g)
          /\ 0 < fLargestLength g
          /\ forall x y, 0 <= x < y /\ y <= N -> free_interval f x y ->
               y - x <= fLargestLength g)).

(** The size of group [i] of a volume that can be mounted. *)
Definition group_bits (v : Volume) (i : Z) : Z :=
  if i =? AllocationGroups v - 1
  then NumBlocks v - i * (8 * BlocksPerAllocationGroup v * BlockSize v)
  else 8 * BlocksPerAllocationGroup v * BlockSize v.

(** What the scan of group [i] leaves. *)
Definition scanned_group (v : Volume) (i : Z) (g : AllocationGroup) : Prop :=
  group_ok v g = true
  /\ fStart g = 1 + i * BlocksPerAllocationGroup v
  /\ fNumBitmapBlocks g <= BlocksPerAllocationGroup v
  /\ fNumBits g = group_bits v i
  /\ hints_exact (group_bit v g) (fNumBits g) g.

(** The groups before [i] are scanned, the others as the constructor left
    them. *)
Definition groups_scanned (v : Volume) (a : BlockAllocator) (i : Z) : Prop :=
  fVolume a = v
  /\ fNumGroups a = AllocationGroups v
  /\ fBlocksPerGroup a = BlocksPerAllocationGroup v
  /\ Z.of_nat (length (fGroups a)) = AllocationGroups v
  /\ (forall j, i <= j < AllocationGroups v ->
        group_at a j = AllocationGroup_new)
  /\ (forall j, 0 <= j < i -> scanned_group v j (group_at a j)).

(** The bits of a group in the order of the bitmap, and those of all the
    groups one after the other: bit number [n] of the walk of [Trim]. *)
Definition group_bitmap (v : Volume) (g : AllocationGroup) : list bool :=
  map (group_bit v g) (seqZ 0 (fNumBits g)).

Definition volume_bitmap (a : BlockAllocator) : list bool :=
  concat (map (group_bitmap (fVolume a)) (fGroups a)).

(** The maximal runs of unset bits of [bits], as pairs of a first bit and
    a length, where the first bit of [bits] has the number [pos] and the
    [len] bits before it are the end of a run that begins at [start]:
    [closed_runs] are those a set bit ends, [open_run] is the one that
    lasts to the end of [bits], if there is one. *)
Fixpoint closed_runs (bits : list bool) (pos start len : Z)
  : list (Z * Z) :=
  match bits with
  | [] => []
  | true :: rest =>
      if len >? 0 then (start, len) :: closed_runs rest (pos + 1) start 0
      else closed_runs rest (pos + 1) start len
  | false :: rest =>
      closed_runs rest (pos + 1) (if len =? 0 then pos else start) (len + 1)
  end.

Fixpoint open_run (bits : list bool) (pos start len : Z) : list (Z * Z) :=
  match bits with
  | [] => if len =? 0 then [] else [(start, len)]
  | true :: rest =>
      open_run rest (pos + 1) start (if len >? 0 then 0 else len)
  | false :: rest =>
      open_run rest (pos + 1) (if len =? 0 then pos else start) (len + 1)
  end.

Definition free_runs (bits : list bool) : list (Z * Z) :=
  closed_runs bits 0 0 0 ++ open_run bits 0 0 0.

(** A run of blocks in bytes. *)
Definition in_bytes (blockSize : Z) (run : Z * Z) : Z * Z :=
  (run.1 * blockSize, run.2 * blockSize).

(** The requests of a trim: the ranges are collected, [pending] being
    those not yet sent, and sent to the device when there are 128 of them;
    at the end the pending ones are sent together with [last]. The first
    failure of the device ends it. *)
Fixpoint send_ranges {Device : Type}
    (B_TRIM_DEVICE : Device -> list (Z * Z) -> Device * (Z + Z))
    (todo last pending : list (Z * Z)) (trimmed : Z) (d : Device)
  : trim_status_t * Z * Device :=
  match todo with
  | [] =>
      match B_TRIM_DEVICE d (pending ++ last) with
      | (d, inl errno) => (Errno errno, trimmed, d)
      | (d, inr n) => (Status B_OK, u64 (trimmed + n), d)
      end
  | range :: todo =>
      if Z.of_nat (length pending) + 1 =? kTrimRanges then
        match B_TRIM_DEVICE d (pending ++ [range]) with
        | (d, inl errno) => (Errno errno, trimmed, d)
        | (d, inr n) =>
            send_ranges B_TRIM_DEVICE todo last [] (u64 (trimmed + n)) d
        end
      else
        send_ranges B_TRIM_DEVICE todo last (pending ++ [range]) trimmed d
  end.

(** A volume [Trim] can walk: well-formed groups, their number an
    [int32], and blocks of [2 ^ BlockShift] bytes. *)
Definition trim_ok (a : BlockAllocator) : bool :=
  allocator_ok a
  && (fNumGroups a <=? 2147483647)
  && (0 <=? BlockShift (fVolume a))
  && (BlockSize (fVolume a) =? 2 ^ BlockShift (fVolume a))
  && (0 <=? NumBlocks (fVolume a))
  && (NumBlocks (fVolume a) * BlockSize (fVolume a)
      <? 18446744073709551616).

(** ** The free runs of a bitmap *)

Definition runs_from (bits : list bool) (pos start len : Z) : list (Z * Z) :=
  closed_runs bits pos start len ++ open_run bits pos start len.

(** The number of unset bits. *)
Definition unset_bits (bits : list bool) : Z :=
  foldr Z.add 0 (map (fun b : bool => if b then 0 else 1) bits).

(** The runs lie one after the other from [lo] on and no two of them
    touch. *)
Fixpoint separated (lo : Z) (runs : list (Z * Z)) : Prop :=
  match runs with
  | [] => True
  | run :: rest =>
      lo <= run.1 /\ 0 < run.2 /\ separated (run.1 + run.2 + 1) rest
  end.

(** Bit [n] is one of [bits], whose first bit has the number [pos], and is
    unset, or is one of the [len] bits before them. *)
Definition unset_at (bits : list bool) (pos len n : Z) : Prop :=
  pos - len <= n < pos
  \/ (pos <= n /\ bits !! Z.to_nat (n - pos) = Some false).

(** A device that trims all of every range it is given. *)
Definition trims_all {Device : Type}
    (B_TRIM_DEVICE : Device -> list (Z * Z) -> Device * (Z + Z)) : Prop :=
  forall d request, (B_TRIM_DEVICE d request).2 = inr (ranges_size request).

(** * The proofs *)

(** * Properties *)

(** ** Machine integers *)

Lemma u16_small x : 0 <= x < 65536 -> u16 x = x.
Proof. intros H. unfold u16. apply Z.mod_small. lia. Qed.

Lemma u32_small x : 0 <= x < 4294967296 -> u32 x = x.
Proof. intros H. unfold u32. apply Z.mod_small. lia. Qed.

Lemma s32_small x : -2147483648 <= x < 2147483648 -> s32 x = x.
Proof. intros H. unfold s32. rewrite Z.mod_small by lia. lia. Qed.

Lemma u16_range x : 0 <= u16 x < 65536.
Proof. unfold u16. apply Z.mod_pos_bound. lia. Qed.

Lemma chunk_mask_spec r : forall i n m,
  0 <= i <= 32 -> 0 <= n -> (Z.to_nat (32 - i) <= r)%nat ->
  exists m',
    chunk_mask r i n m = (m', n - Z.min n (32 - i))
    /\ forall j, 0 <= j ->
         Z.testbit m' j = Z.testbit m j || in_range i (Z.min n (32 - i)) j.
Proof.
  induction r as [|r IH]; intros i n m Hi Hn Hr.
  - assert (i = 32) by lia. subst i. exists m. simpl. split.
    + f_equal. lia.
    + intros j Hj. unfold in_range.
      replace (32 <=? j) with (negb (j <? 32)) by lia.
      destruct (j <? 32) eqn:E; simpl.
      * now rewrite orb_false_r.
      * replace (j <? 32 + Z.min n (32 - 32)) with false by lia.
        now rewrite orb_false_r.
  - simpl. destruct (i <? 32) eqn:Ei; simpl.
    + destruct (n =? 0) eqn:En; simpl.
      * apply Z.eqb_eq in En. subst n. exists m. split.
        { f_equal. lia. }
        intros j Hj. unfold in_range.
        replace ((i <=? j) && (j <? i + Z.min 0 (32 - i))) with false by lia.
        now rewrite orb_false_r.
      * destruct (IH (i + 1) (n - 1) (Z.lor m (Z.shiftl 1 i)))
          as (m' & Hm & Hbits); [lia | lia | lia |].
        exists m'. split.
        { rewrite Hm. f_equal. lia. }
        intros j Hj. rewrite Hbits by lia.
        rewrite Z.lor_spec, Z.shiftl_spec by lia.
        unfold in_range.
        destruct (Z.eq_dec j i) as [->|Hne].
        -- rewrite Z.sub_diag. simpl.
           replace (i <=? i) with true by lia.
           replace (i <? i + Z.min n (32 - i)) with true by lia.
           simpl. now rewrite !orb_true_r.
        -- assert (Hz : Z.testbit 1 (j - i) = false).
           { destruct (Z.ltb_spec j i).
             - apply Z.testbit_neg_r. lia.
             - apply (Z.bits_above_log2 1 (j - i)); simpl; lia. }
           rewrite Hz, orb_false_r. f_equal.
           destruct (i + 1 <=? j) eqn:E1, (i <=? j) eqn:E2; try lia; simpl; lia.
    + assert (i = 32) by lia. subst i. exists m. split.
      { f_equal. lia. }
      intros j Hj. unfold in_range.
      replace ((32 <=? j) && (j <? 32 + Z.min n (32 - 32))) with false by lia.
      now rewrite orb_false_r.
Qed.

Lemma chunk_mask_free_eq r : forall i n m,
  0 <= i -> chunk_mask_free r i n m = chunk_mask r i n m.
Proof.
  induction r as [|r IH]; intros i n m Hi; simpl; [reflexivity|].
  destruct (i <? 32) eqn:Ei; simpl; [|reflexivity].
  destruct (n =? 0); simpl; [reflexivity|].
  rewrite Z.mod_small by lia. apply IH. lia.
Qed.

(** ** Bits of a bitmap block *)

Lemma testbit_one j : Z.testbit 1 j = (j =? 0).
Proof.
  destruct (Z.eqb_spec j 0) as [->|Hne]; [reflexivity|].
  destruct (Z.ltb_spec j 0).
  - apply Z.testbit_neg_r. lia.
  - apply (Z.bits_above_log2 1 j); simpl; lia.
Qed.

Lemma land_bit_test c k :
  0 <= k -> negb (Z.land c (Z.shiftl 1 k) =? 0) = Z.testbit c k.
Proof.
  intros Hk. destruct (Z.testbit c k) eqn:E.
  - destruct (Z.eqb_spec (Z.land c (Z.shiftl 1 k)) 0) as [H0|]; [|reflexivity].
    assert (Hb : Z.testbit (Z.land c (Z.shiftl 1 k)) k = true).
    { rewrite Z.land_spec, Z.shiftl_spec, E, Z.sub_diag by lia. reflexivity. }
    rewrite H0, Z.bits_0 in Hb. discriminate.
  - assert (H0 : Z.land c (Z.shiftl 1 k) = 0).
    { apply Z.bits_inj'. intros j Hj.
      rewrite Z.land_spec, Z.shiftl_spec, Z.bits_0, testbit_one by lia.
      destruct (Z.eqb_spec (j - k) 0) as [H|H].
      - replace j with k by lia. rewrite E. reflexivity.
      - apply andb_false_r. }
    rewrite H0. reflexivity.
Qed.

Lemma chunk_bit_insert (data : list Z) k c bit :
  (k < length data)%nat -> 0 <= bit ->
  chunk_bit (<[k := c]> data) bit
  = if bit / 32 =? Z.of_nat k then Z.testbit c (bit mod 32)
    else chunk_bit data bit.
Proof.
  intros Hk Hbit. unfold chunk_bit.
  destruct (Z.eqb_spec (bit / 32) (Z.of_nat k)) as [E|E].
  - rewrite E, Nat2Z.id, list_lookup_insert_eq by assumption. reflexivity.
  - rewrite list_lookup_insert_ne; [reflexivity|].
    intros ->. apply E. rewrite Z2Nat.id; [reflexivity|].
    apply Z.div_pos; lia.
Qed.

Ltac Zbool :=
  repeat match goal with
    | |- context [?a <=? ?b] => destruct (Z.leb_spec a b)
    | |- context [?a <? ?b] => destruct (Z.ltb_spec a b)
    | |- context [?a =? ?b] => destruct (Z.eqb_spec a b)
    end;
  simpl; try reflexivity; try lia.

Lemma in_range_split p n i t block bit :
  0 <= block -> 0 <= i < 32 -> 0 <= n -> p = 32 * block + i ->
  t = Z.min n (32 - i) -> 0 <= bit ->
  in_range p n bit
  = ((bit / 32 =? block) && in_range i t (bit mod 32))
    || in_range (32 * (block + 1) + 0 mod 32) (n - t) bit.
Proof.
  intros Hb Hi Hn -> -> Hbit. unfold in_range.
  rewrite Z.mod_0_l by lia.
  pose proof (Z.div_mod bit 32 ltac:(lia)) as Hdm.
  pose proof (Z.mod_pos_bound bit 32 ltac:(lia)) as Hm.
  set (q := bit / 32) in *. set (m := bit mod 32) in *.
  Zbool.
Qed.

Lemma in_range_empty p bit : in_range p 0 bit = false.
Proof. unfold in_range. Zbool. Qed.

Lemma Allocate_chunks_spec r : forall data block s n,
  0 <= block -> 0 <= s -> 0 <= n -> (Z.to_nat n <= r)%nat ->
  32 * block + s mod 32 + n <= 32 * Z.of_nat (length data) ->
  length (Allocate_chunks r data block s n) = length data
  /\ forall bit, 0 <= bit ->
       chunk_bit (Allocate_chunks r data block s n) bit
       = chunk_bit data bit || in_range (32 * block + s mod 32) n bit.
Proof.
  induction r as [|r IH]; intros data block s n Hb Hs Hn Hr Hlen.
  - assert (n = 0) by lia. subst n. simpl. split; [reflexivity|].
    intros bit Hbit. now rewrite in_range_empty, orb_false_r.
  - cbn [Allocate_chunks]. destruct (Z.gtb_spec n 0) as [Hpos|Hz].
    + pose proof (Z.mod_pos_bound s 32 ltac:(lia)) as Hi.
      destruct (chunk_mask_spec 32 (s mod 32) n 0) as (mask & Hm & Hbits);
        [lia | lia | lia |].
      rewrite Hm.
      set (t := Z.min n (32 - s mod 32)) in *.
      assert (Hk : (Z.to_nat block < length data)%nat) by lia.
      set (old := default 0 (data !! Z.to_nat block)).
      destruct (IH (<[Z.to_nat block := Z.lor old mask]> data) (block + 1) 0
                  (n - t)) as [Hl Hspec].
      { lia. } { lia. } { lia. } { lia. }
      { rewrite length_insert, Z.mod_0_l by lia. lia. }
      split.
      { rewrite Hl. apply length_insert. }
      intros bit Hbit. rewrite Hspec by assumption.
      rewrite chunk_bit_insert by assumption.
      rewrite (in_range_split (32 * block + s mod 32) n (s mod 32) t block bit)
        by (try reflexivity; lia).
      rewrite Z2Nat.id by lia.
      destruct (Z.eqb_spec (bit / 32) block) as [E|E]; simpl.
      * rewrite Z.lor_spec, Hbits by (apply Z.mod_pos_bound; lia).
        rewrite Z.bits_0. simpl.
        unfold chunk_bit, old. rewrite E. now rewrite orb_assoc.
      * reflexivity.
    + assert (n = 0) by lia. subst n. split; [reflexivity|].
      intros bit Hbit. now rewrite in_range_empty, orb_false_r.
Qed.

Lemma testbit_not32 m j :
  0 <= j < 32 -> Z.testbit (not32 m) j = negb (Z.testbit m j).
Proof.
  intros Hj. unfold not32. change 4294967295 with (Z.ones 32).
  rewrite Z.land_spec, Z.lnot_spec, Z.ones_spec_low by lia.
  apply andb_true_r.
Qed.

Lemma Free_chunks_spec r : forall data block s n,
  0 <= block -> 0 <= s -> 0 <= n -> (Z.to_nat n <= r)%nat ->
  32 * block + s mod 32 + n <= 32 * Z.of_nat (length data) ->
  length (Free_chunks r data block s n) = length data
  /\ forall bit, 0 <= bit ->
       chunk_bit (Free_chunks r data block s n) bit
       = chunk_bit data bit && negb (in_range (32 * block + s mod 32) n bit).
Proof.
  induction r as [|r IH]; intros data block s n Hb Hs Hn Hr Hlen.
  - assert (n = 0) by lia. subst n. simpl. split; [reflexivity|].
    intros bit Hbit. now rewrite in_range_empty, andb_true_r.
  - cbn [Free_chunks]. destruct (Z.gtb_spec n 0) as [Hpos|Hz].
    + pose proof (Z.mod_pos_bound s 32 ltac:(lia)) as Hi.
      rewrite chunk_mask_free_eq by lia.
      destruct (chunk_mask_spec 32 (s mod 32) n 0) as (mask & Hm & Hbits);
        [lia | lia | lia |].
      rewrite Hm.
      set (t := Z.min n (32 - s mod 32)) in *.
      assert (Hk : (Z.to_nat block < length data)%nat) by lia.
      set (old := default 0 (data !! Z.to_nat block)).
      destruct (IH (<[Z.to_nat block := Z.land old (not32 mask)]> data)
                  (block + 1) 0 (n - t)) as [Hl Hspec].
      { lia. } { lia. } { lia. } { lia. }
      { rewrite length_insert, Z.mod_0_l by lia. lia. }
      split.
      { rewrite Hl. apply length_insert. }
      intros bit Hbit. rewrite Hspec by assumption.
      rewrite chunk_bit_insert by assumption.
      rewrite (in_range_split (32 * block + s mod 32) n (s mod 32) t block bit)
        by (try reflexivity; lia).
      rewrite Z2Nat.id by lia.
      pose proof (Z.mod_pos_bound bit 32 ltac:(lia)) as Hbm.
      destruct (Z.eqb_spec (bit / 32) block) as [E|E]; simpl.
      * rewrite Z.land_spec, testbit_not32, Hbits by lia.
        rewrite Z.bits_0. simpl.
        unfold chunk_bit, old. rewrite E.
        rewrite negb_orb. now rewrite andb_assoc.
      * reflexivity.
    + assert (n = 0) by lia. subst n. split; [reflexivity|].
      intros bit Hbit. now rewrite in_range_empty, andb_true_r.
Qed.

Lemma shiftr5_pos start : 0 <= start -> 32 * Z.shiftr start 5 + start mod 32 = start.
Proof.
  intros H. rewrite Z.shiftr_div_pow2 by lia. change (2 ^ 5) with 32.
  symmetry. apply Z.div_mod. lia.
Qed.

Lemma AllocationBlock_Allocate_spec b start n :
  0 <= start < 65536 -> 0 <= n < 65536 ->
  start + n <= 32 * Z.of_nat (length (fBlock b)) ->
  let b' := AllocationBlock_Allocate b start n in
  fBlockNumber b' = fBlockNumber b
  /\ fNumBlockBits b' = fNumBlockBits b
  /\ length (fBlock b') = length (fBlock b)
  /\ forall bit, 0 <= bit ->
       chunk_bit (fBlock b') bit
       = chunk_bit (fBlock b) bit || in_range start n bit.
Proof.
  intros Hs Hn Hlen. unfold AllocationBlock_Allocate. simpl.
  rewrite !u16_small by lia.
  split; [reflexivity|]. split; [reflexivity|].
  pose proof (shiftr5_pos start ltac:(lia)) as E.
  assert (0 <= Z.shiftr start 5) by (apply Z.shiftr_nonneg; lia).
  destruct (Allocate_chunks_spec (Z.to_nat n) (fBlock b) (Z.shiftr start 5)
              start n) as [Hl Hspec]; try lia.
  split; [exact Hl|]. intros bit Hbit. rewrite Hspec by assumption.
  now rewrite E.
Qed.

Lemma AllocationBlock_Free_spec b start n :
  0 <= start < 65536 -> 0 <= n < 65536 ->
  start + n <= 32 * Z.of_nat (length (fBlock b)) ->
  let b' := AllocationBlock_Free b start n in
  fBlockNumber b' = fBlockNumber b
  /\ fNumBlockBits b' = fNumBlockBits b
  /\ length (fBlock b') = length (fBlock b)
  /\ forall bit, 0 <= bit ->
       chunk_bit (fBlock b') bit
       = chunk_bit (fBlock b) bit && negb (in_range start n bit).
Proof.
  intros Hs Hn Hlen. unfold AllocationBlock_Free. simpl.
  rewrite !u16_small by lia.
  split; [reflexivity|]. split; [reflexivity|].
  pose proof (shiftr5_pos start ltac:(lia)) as E.
  assert (0 <= Z.shiftr start 5) by (apply Z.shiftr_nonneg; lia).
  destruct (Free_chunks_spec (Z.to_nat n) (fBlock b) (Z.shiftr start 5)
              start n) as [Hl Hspec]; try lia.
  split; [exact Hl|]. intros bit Hbit. rewrite Hspec by assumption.
  now rewrite E.
Qed.

Lemma IsUsed_chunk_bit b bit :
  0 <= bit < 65536 -> bit <= fNumBlockBits b ->
  AllocationBlock_IsUsed b bit = chunk_bit (fBlock b) bit.
Proof.
  intros Hb Hle. unfold AllocationBlock_IsUsed.
  rewrite u16_small by lia.
  destruct (Z.gtb_spec bit (fNumBlockBits b)); [lia|].
  rewrite land_bit_test by (apply Z.mod_pos_bound; lia).
  unfold chunk_bit, Chunk.
  rewrite Z.shiftr_div_pow2 by lia. reflexivity.
Qed.

Lemma volume_ok_spec v :
  volume_ok v = true ->
  0 < BlockSize v <= 8192 /\ BlockSize v mod 4 = 0
  /\ bitsPerBlock v = 8 * BlockSize v.
Proof.
  unfold volume_ok. rewrite !andb_true_iff.
  rewrite Z.ltb_lt, Z.eqb_eq, Z.leb_le. intros [[H1 H2] H3].
  repeat split; try assumption.
  unfold bitsPerBlock. rewrite Z.shiftl_mul_pow2 by lia.
  change (2 ^ 3) with 8. rewrite u32_small; lia.
Qed.

Lemma bitsPerBlock_chunks v :
  volume_ok v = true -> 32 * (BlockSize v / 4) = bitsPerBlock v.
Proof.
  intros H. destruct (volume_ok_spec v H) as (H1 & H2 & H3).
  rewrite H3. pose proof (Z.div_mod (BlockSize v) 4 ltac:(lia)). lia.
Qed.

Lemma bitsPerBlock_range v :
  volume_ok v = true -> 0 < bitsPerBlock v <= 65536.
Proof.
  intros H. destruct (volume_ok_spec v H) as (H1 & H2 & H3). lia.
Qed.

Lemma volume_ok_set_block_cache v c :
  volume_ok (set_block_cache v c) = volume_ok v.
Proof. reflexivity. Qed.

Lemma set_block_cache_twice v c c' :
  set_block_cache (set_block_cache v c) c' = set_block_cache v c'.
Proof. reflexivity. Qed.

Lemma set_block_cache_id v : set_block_cache v (block_cache v) = v.
Proof. destruct v; reflexivity. Qed.

Lemma blocks_cached_spec v : forall count first,
  blocks_cached v first count = true <->
  (forall k, 0 <= k < Z.of_nat count ->
     exists data, block_cache v !! (first + k) = Some data
                  /\ Z.of_nat (length data) = BlockSize v / 4).
Proof.
  induction count as [|n IH]; intros first; simpl blocks_cached.
  - split; [intros _ k Hk; lia | reflexivity].
  - split.
    + destruct (block_cache v !! first) as [data|] eqn:E; [|discriminate].
      rewrite andb_true_iff, Z.eqb_eq. intros [Hl Hrest] k Hk.
      destruct (Z.eq_dec k 0) as [->|Hne].
      * exists data. rewrite Z.add_0_r. auto.
      * destruct (proj1 (IH (first + 1)) Hrest (k - 1)) as (d & Hd & Hld);
          [lia|].
        exists d. replace (first + k) with (first + 1 + (k - 1)) by lia. auto.
    + intros H. destruct (H 0) as (data & Hd & Hl); [lia|].
      rewrite Z.add_0_r in Hd. rewrite Hd, andb_true_iff, Z.eqb_eq.
      split; [assumption|]. apply IH. intros k Hk.
      destruct (H (k + 1)) as (d & Hd' & Hl'); [lia|].
      exists d. replace (first + 1 + k) with (first + (k + 1)) by lia. auto.
Qed.

Lemma geometry_ok_spec v g :
  geometry_ok v g = true <->
  0 < fNumBits g <= 65536
  /\ fNumBitmapBlocks g
     = (fNumBits g + bitsPerBlock v - 1) / bitsPerBlock v
  /\ (0 <= fNumBitmapBlocks g -> blocks_present v g).
Proof.
  unfold geometry_ok, blocks_present.
  rewrite !andb_true_iff, Z.ltb_lt, Z.leb_le, Z.eqb_eq, blocks_cached_spec.
  split.
  - intros [[[H1 H2] H3] H4]. repeat split; try assumption.
    intros Hnb k Hk. apply H4. lia.
  - intros [[H1 H2] [H3 H4]]. repeat split; try assumption.
    intros k Hk. apply H4; lia.
Qed.

Section Geometry.

Variable v : Volume.

Variable g : AllocationGroup.

Hypothesis Hv : volume_ok v = true.

Hypothesis HN : 0 < fNumBits g <= 65536.

Hypothesis Hnb :
  fNumBitmapBlocks g = (fNumBits g + bitsPerBlock v - 1) / bitsPerBlock v.

Let bpb := bitsPerBlock v.

Lemma blocks_cover :
  fNumBits g <= fNumBitmapBlocks g * bpb
  /\ (fNumBitmapBlocks g - 1) * bpb < fNumBits g
  /\ 0 < fNumBitmapBlocks g <= 65536.
Proof.
  pose proof (bitsPerBlock_range v Hv) as Hb. fold bpb in Hb.
  rewrite Hnb. fold bpb.
  pose proof (Z.div_mod (fNumBits g + bpb - 1) bpb ltac:(lia)) as Hdm.
  pose proof (Z.mod_pos_bound (fNumBits g + bpb - 1) bpb ltac:(lia)) as Hm.
  set (q := (fNumBits g + bpb - 1) / bpb) in *.
  assert (0 < q) by nia.
  assert (q <= 65536) by nia.
  nia.
Qed.

Lemma block_index_lt k :
  0 <= k -> k * bpb < fNumBits g -> k < fNumBitmapBlocks g.
Proof.
  intros Hk Hlt. destruct blocks_cover as (H1 & _ & _).
  pose proof (bitsPerBlock_range v Hv) as Hb. fold bpb in Hb. nia.
Qed.

Lemma block_bits_eq k :
  0 <= k < fNumBitmapBlocks g ->
  block_bits v g k = Z.min bpb (fNumBits g - k * bpb)
  /\ 0 < block_bits v g k.
Proof.
  intros Hk. destruct blocks_cover as (H1 & H2 & H3).
  pose proof (bitsPerBlock_range v Hv) as Hb. fold bpb in Hb.
  assert (Hk1 : k * bpb < fNumBits g) by nia.
  unfold block_bits, NumBits. change (u32 (Z.shiftl (BlockSize v) 3)) with bpb.
  rewrite u32_small by nia.
  destruct (Z.gtb_spec ((k + 1) * bpb) (fNumBits g)) as [Hgt|Hle].
  - assert (E : fNumBits g mod bpb = fNumBits g - k * bpb).
    { symmetry. apply (Z.mod_unique_pos _ _ k); lia. }
    rewrite E. lia.
  - lia.
Qed.

Lemma div_block b k :
  b / bpb = k <-> k * bpb <= b < (k + 1) * bpb.
Proof.
  pose proof (bitsPerBlock_range v Hv) as Hb. fold bpb in Hb.
  pose proof (Z.div_mod b bpb ltac:(lia)) as Hdm.
  pose proof (Z.mod_pos_bound b bpb ltac:(lia)) as Hm.
  split.
  - intros <-. lia.
  - intros H. symmetry. apply (Z.div_unique_pos b bpb k (b - k * bpb)); lia.
Qed.

Lemma mod_block b k :
  b / bpb = k -> b mod bpb = b - k * bpb.
Proof.
  pose proof (bitsPerBlock_range v Hv) as Hb. fold bpb in Hb.
  intros <-. pose proof (Z.div_mod b bpb ltac:(lia)). lia.
Qed.

End Geometry.

(** ** The bits a group operation changes *)

Lemma same_shape_refl c : same_shape c c.
Proof. intros n. reflexivity. Qed.

Lemma same_shape_trans c1 c2 c3 :
  same_shape c1 c2 -> same_shape c2 c3 -> same_shape c1 c3.
Proof. intros H1 H2 n. rewrite H2. apply H1. Qed.

Lemma same_shape_insert (c : gmap Z (list Z)) n data data' :
  c !! n = Some data -> length data' = length data ->
  same_shape c (<[n := data']> c).
Proof.
  intros Hc Hl m. destruct (Z.eq_dec n m) as [->|Hne].
  - rewrite lookup_insert_eq, Hc. simpl. now rewrite Hl.
  - now rewrite lookup_insert_ne.
Qed.

Lemma blocks_present_shape v g c :
  blocks_present v g -> same_shape (block_cache v) c ->
  blocks_present (set_block_cache v c) g.
Proof.
  intros Hp Hs k Hk. destruct (Hp k Hk) as (data & Hd & Hl).
  specialize (Hs (fStart g + k)). rewrite Hd in Hs. simpl in *.
  destruct (c !! (fStart g + k)) as [d|] eqn:E; [|discriminate].
  exists d. split; [reflexivity|]. simpl in Hs. injection Hs as Hs. lia.
Qed.

Section GroupBits.

Variable g : AllocationGroup.

Hypothesis HN : 0 < fNumBits g <= 65536.

Lemma group_bit_write v k data data' b :
  volume_ok v = true ->
  block_cache v !! (fStart g + k) = Some data ->
  group_bit (set_block_cache v (<[fStart g + k := data']> (block_cache v)))
    g b
  = if b / bitsPerBlock v =? k then chunk_bit data' (b mod bitsPerBlock v)
    else group_bit v g b.
Proof.
  intros Hv Hc. unfold group_bit.
  change (bitsPerBlock (set_block_cache v _)) with (bitsPerBlock v).
  change (block_cache (set_block_cache v ?c)) with c.
  destruct (Z.eqb_spec (b / bitsPerBlock v) k) as [E|E].
  - rewrite E, lookup_insert_eq. reflexivity.
  - rewrite lookup_insert_ne by lia. reflexivity.
Qed.

Lemma Allocate_blocks_spec : forall rounds v k s len,
  volume_ok v = true ->
  fNumBitmapBlocks g
  = (fNumBits g + bitsPerBlock v - 1) / bitsPerBlock v ->
  blocks_present v g ->
  0 <= k -> 0 <= s < bitsPerBlock v -> 0 <= len <= 65535 ->
  (len = 0 \/ k * bitsPerBlock v + s + len <= fNumBits g) ->
  (Z.to_nat len <= rounds)%nat ->
  exists c',
    Allocate_blocks rounds v g k s len = Some (B_OK, set_block_cache v c')
    /\ same_shape (block_cache v) c'
    /\ (forall n, ~ (fStart g <= n < fStart g + fNumBitmapBlocks g) ->
          c' !! n = block_cache v !! n)
    /\ (forall b,
          group_bit (set_block_cache v c') g b
          = group_bit v g b || in_range (k * bitsPerBlock v + s) len b).
Proof.
  induction rounds as [|r IH]; intros v k s len Hv Hnb Hp Hk Hs Hlen Hfit Hr.
  - assert (len = 0) by lia. subst len. exists (block_cache v).
    cbn [Allocate_blocks]. rewrite set_block_cache_id.
    split; [reflexivity|]. split; [apply same_shape_refl|].
    split; [reflexivity|]. intros b.
    now rewrite in_range_empty, orb_false_r.
  - cbn [Allocate_blocks].
    destruct (Z.gtb_spec len 0) as [Hpos|Hz].
    2:{ assert (len = 0) by lia. subst len. exists (block_cache v).
        rewrite set_block_cache_id.
        split; [reflexivity|]. split; [apply same_shape_refl|].
        split; [reflexivity|]. intros b.
        now rewrite in_range_empty, orb_false_r. }
    destruct Hfit as [?|Hfit]; [lia|].
    pose proof (bitsPerBlock_range v Hv) as Hb.
    pose proof (blocks_cover v g Hv HN Hnb) as (Hc1 & Hc2 & Hc3).
    set (bpb := bitsPerBlock v) in *.
    assert (Hkn : k < fNumBitmapBlocks g).
    { apply (block_index_lt v g Hv HN Hnb); [lia|]. fold bpb. lia. }
    destruct (Hp k ltac:(lia)) as (data & Hd & Hl).
    pose proof (block_bits_eq v g Hv HN Hnb k ltac:(lia)) as [Hbb Hbbpos].
    fold bpb in Hbb.
    unfold AllocationBlock_SetToWritable, CachedBlock_SetTo, Start.
    rewrite (u16_small k) by lia. rewrite Hd.
    unfold NumBlockBits. cbn [fNumBlockBits].
    rewrite (u32_small len) by lia.
    set (NBB := block_bits v g k) in *.
    set (numBlocks :=
           if u32 (s + len) >? NBB then u32 (NBB - s) else len).
    assert (HnB : numBlocks = Z.min len (NBB - s)).
    { unfold numBlocks. rewrite (u32_small (s + len)) by lia.
      destruct (Z.gtb_spec (s + len) NBB).
      - rewrite u32_small by lia. lia.
      - lia. }
    clearbody numBlocks.
    set (cached := mk_AllocationBlock (fStart g + k) data NBB).
    pose proof (bitsPerBlock_chunks v Hv) as Hch. fold bpb in Hch.
    destruct (AllocationBlock_Allocate_spec cached s numBlocks)
      as (Hbn & _ & Hl' & Hbits).
    { lia. } { lia. } { cbn [fBlock cached]. lia. }
    cbn [fBlock fBlockNumber cached] in Hbn, Hl', Hbits.
    set (cached' := AllocationBlock_Allocate cached s numBlocks) in *.
    unfold write_back. rewrite Hbn.
    set (v1 := set_block_cache v
                 (<[fStart g + k := fBlock cached']> (block_cache v))).
    rewrite (u32_small (k + 1)) by lia.
    rewrite (s32_small (len - numBlocks)) by lia.
    assert (Hsh1 : same_shape (block_cache v) (block_cache v1)).
    { apply (same_shape_insert _ _ data); assumption. }
    destruct (IH v1 (k + 1) 0 (len - numBlocks)) as (c' & Hres & Hsh & Hfr & Hgb).
    { exact Hv. } { exact Hnb. }
    { unfold v1. apply blocks_present_shape; assumption. }
    { lia. } { change (bitsPerBlock v1) with bpb. lia. } { lia. }
    { change (bitsPerBlock v1) with bpb.
      destruct (Z.eq_dec (len - numBlocks) 0); [left; assumption|right].
      lia. }
    { lia. }
    exists c'. split.
    { rewrite Hres. reflexivity. }
    split.
    { eapply same_shape_trans; eassumption. }
    split.
    { intros n Hn. rewrite Hfr by assumption. unfold v1.
      change (block_cache (set_block_cache v ?c)) with c.
      apply lookup_insert_ne. lia. }
    intros b.
    change (set_block_cache v1 c') with (set_block_cache v c') in Hgb.
    rewrite Hgb. change (bitsPerBlock v1) with bpb.
    unfold v1. rewrite (group_bit_write v k data) by assumption. fold bpb.
    pose proof (div_block v Hv b k) as Hdiv. fold bpb in Hdiv.
    destruct (Z.eqb_spec (b / bpb) k) as [E|E].
    + pose proof (mod_block v Hv b k E) as Hm. fold bpb in Hm.
      rewrite Hbits by (rewrite Hm; lia).
      assert (Hgbd : group_bit v g b = chunk_bit data (b mod bpb)).
      { unfold group_bit. fold bpb. rewrite E, Hd. reflexivity. }
      rewrite Hgbd, <- orb_assoc. f_equal.
      unfold in_range. rewrite Hm. apply proj1 in Hdiv.
      specialize (Hdiv E). Zbool.
    + f_equal. unfold in_range.
      assert (~ (k * bpb <= b < (k + 1) * bpb)) by tauto. Zbool.
Qed.

Lemma Free_blocks_spec : forall rounds v k s len,
  volume_ok v = true ->
  fNumBitmapBlocks g
  = (fNumBits g + bitsPerBlock v - 1) / bitsPerBlock v ->
  blocks_present v g ->
  0 <= k -> 0 <= s < bitsPerBlock v -> 0 <= len <= 65535 ->
  (len = 0 \/ k * bitsPerBlock v + s + len <= fNumBits g) ->
  (Z.to_nat len <= rounds)%nat ->
  exists c',
    Free_blocks rounds v g k s len = Some (B_OK, set_block_cache v c')
    /\ same_shape (block_cache v) c'
    /\ (forall n, ~ (fStart g <= n < fStart g + fNumBitmapBlocks g) ->
          c' !! n = block_cache v !! n)
    /\ (forall b,
          group_bit (set_block_cache v c') g b
          = group_bit v g b
            && negb (in_range (k * bitsPerBlock v + s) len b)).
Proof.
  induction rounds as [|r IH]; intros v k s len Hv Hnb Hp Hk Hs Hlen Hfit Hr.
  - assert (len = 0) by lia. subst len. exists (block_cache v).
    cbn [Free_blocks]. rewrite set_block_cache_id.
    split; [reflexivity|]. split; [apply same_shape_refl|].
    split; [reflexivity|]. intros b.
    now rewrite in_range_empty, andb_true_r.
  - cbn [Free_blocks].
    destruct (Z.gtb_spec len 0) as [Hpos|Hz].
    2:{ assert (len = 0) by lia. subst len. exists (block_cache v).
        rewrite set_block_cache_id.
        split; [reflexivity|]. split; [apply same_shape_refl|].
        split; [reflexivity|]. intros b.
        now rewrite in_range_empty, andb_true_r. }
    destruct Hfit as [?|Hfit]; [lia|].
    pose proof (bitsPerBlock_range v Hv) as Hb.
    pose proof (blocks_cover v g Hv HN Hnb) as (Hc1 & Hc2 & Hc3).
    set (bpb := bitsPerBlock v) in *.
    assert (Hkn : k < fNumBitmapBlocks g).
    { apply (block_index_lt v g Hv HN Hnb); [lia|]. fold bpb. lia. }
    destruct (Hp k ltac:(lia)) as (data & Hd & Hl).
    pose proof (block_bits_eq v g Hv HN Hnb k ltac:(lia)) as [Hbb Hbbpos].
    fold bpb in Hbb.
    unfold AllocationBlock_SetToWritable, CachedBlock_SetTo, Start.
    rewrite (u16_small k) by lia. rewrite Hd.
    unfold NumBlockBits. cbn [fNumBlockBits].
    rewrite (u16_small len) by lia.
    set (NBB := block_bits v g k) in *.
    set (numBlocks :=
           if u32 (s + len) >? NBB then u16 (NBB - s) else len).
    assert (HnB : numBlocks = Z.min len (NBB - s)).
    { unfold numBlocks. rewrite (u32_small (s + len)) by lia.
      destruct (Z.gtb_spec (s + len) NBB).
      - rewrite u16_small by lia. lia.
      - lia. }
    clearbody numBlocks.
    set (cached := mk_AllocationBlock (fStart g + k) data NBB).
    pose proof (bitsPerBlock_chunks v Hv) as Hch. fold bpb in Hch.
    destruct (AllocationBlock_Free_spec cached s numBlocks)
      as (Hbn & _ & Hl' & Hbits).
    { lia. } { lia. } { cbn [fBlock cached]. lia. }
    cbn [fBlock fBlockNumber cached] in Hbn, Hl', Hbits.
    set (cached' := AllocationBlock_Free cached s numBlocks) in *.
    unfold write_back. rewrite Hbn.
    set (v1 := set_block_cache v
                 (<[fStart g + k := fBlock cached']> (block_cache v))).
    rewrite (u32_small (k + 1)) by lia.
    assert (Hsh1 : same_shape (block_cache v) (block_cache v1)).
    { apply (same_shape_insert _ _ data); assumption. }
    destruct (IH v1 (k + 1) 0 (len - numBlocks)) as (c' & Hres & Hsh & Hfr & Hgb).
    { exact Hv. } { exact Hnb. }
    { unfold v1. apply blocks_present_shape; assumption. }
    { lia. } { change (bitsPerBlock v1) with bpb. lia. } { lia. }
    { change (bitsPerBlock v1) with bpb.
      destruct (Z.eq_dec (len - numBlocks) 0); [left; assumption|right].
      lia. }
    { lia. }
    exists c'. split.
    { rewrite Hres. reflexivity. }
    split.
    { eapply same_shape_trans; eassumption. }
    split.
    { intros n Hn. rewrite Hfr by assumption. unfold v1.
      change (block_cache (set_block_cache v ?c)) with c.
      apply lookup_insert_ne. lia. }
    intros b.
    change (set_block_cache v1 c') with (set_block_cache v c') in Hgb.
    rewrite Hgb. change (bitsPerBlock v1) with bpb.
    unfold v1. rewrite (group_bit_write v k data) by assumption. fold bpb.
    pose proof (div_block v Hv b k) as Hdiv. fold bpb in Hdiv.
    destruct (Z.eqb_spec (b / bpb) k) as [E|E].
    + pose proof (mod_block v Hv b k E) as Hm. fold bpb in Hm.
      rewrite Hbits by (rewrite Hm; lia).
      assert (Hgbd : group_bit v g b = chunk_bit data (b mod bpb)).
      { unfold group_bit. fold bpb. rewrite E, Hd. reflexivity. }
      rewrite Hgbd, <- andb_assoc. f_equal. rewrite <- negb_orb. f_equal.
      unfold in_range. rewrite Hm. apply proj1 in Hdiv.
      specialize (Hdiv E). Zbool.
    + f_equal. f_equal. unfold in_range.
      assert (~ (k * bpb <= b < (k + 1) * bpb)) by tauto. Zbool.
Qed.

End GroupBits.

(** ** Counting bits *)

Lemma all_unset_spec f : forall n from,
  all_unset f from n = true <->
  (forall b, from <= b < from + Z.of_nat n -> f b = false).
Proof.
  induction n as [|n IH]; intros from; simpl all_unset.
  - split; [intros _ b Hb; lia | reflexivity].
  - rewrite andb_true_iff, negb_true_iff, IH. split.
    + intros [H0 H] b Hb. destruct (Z.eq_dec b from) as [->|]; [assumption|].
      apply H. lia.
    + intros H. split; [apply H; lia|]. intros b Hb. apply H. lia.
Qed.

Lemma all_set_spec f : forall n from,
  all_set f from n = true <->
  (forall b, from <= b < from + Z.of_nat n -> f b = true).
Proof.
  induction n as [|n IH]; intros from; simpl all_set.
  - split; [intros _ b Hb; lia | reflexivity].
  - rewrite andb_true_iff, IH. split.
    + intros [H0 H] b Hb. destruct (Z.eq_dec b from) as [->|]; [assumption|].
      apply H. lia.
    + intros H. split; [apply H; lia|]. intros b Hb. apply H. lia.
Qed.

Lemma count_unset_ext f f' : forall n from,
  (forall b, from <= b < from + Z.of_nat n -> f b = f' b) ->
  count_unset f from n = count_unset f' from n.
Proof.
  induction n as [|n IH]; intros from H; simpl; [reflexivity|].
  rewrite (H from) by lia. rewrite (IH (from + 1)); [reflexivity|].
  intros b Hb. apply H. lia.
Qed.

Lemma count_unset_app f : forall n m from,
  count_unset f from (n + m)
  = count_unset f from n + count_unset f (from + Z.of_nat n) m.
Proof.
  induction n as [|n IH]; intros m from.
  - simpl. now rewrite Z.add_0_r.
  - cbn [count_unset Nat.add]. rewrite IH.
    replace (from + 1 + Z.of_nat n) with (from + Z.of_nat (S n)) by lia. lia.
Qed.

Lemma count_unset_bounds f : forall n from,
  0 <= count_unset f from n <= Z.of_nat n.
Proof.
  induction n as [|n IH]; intros from; simpl count_unset; [lia|].
  specialize (IH (from + 1)). destruct (f from); lia.
Qed.

Lemma count_unset_all_set f : forall n from,
  (forall b, from <= b < from + Z.of_nat n -> f b = true) ->
  count_unset f from n = 0.
Proof.
  induction n as [|n IH]; intros from H; simpl; [reflexivity|].
  rewrite (H from) by lia. rewrite IH; [reflexivity|].
  intros b Hb. apply H. lia.
Qed.

Lemma count_unset_all_unset f : forall n from,
  (forall b, from <= b < from + Z.of_nat n -> f b = false) ->
  count_unset f from n = Z.of_nat n.
Proof.
  induction n as [|n IH]; intros from H; simpl count_unset; [reflexivity|].
  rewrite (H from) by lia. rewrite IH; [lia|].
  intros b Hb. apply H. lia.
Qed.

Lemma count_unset_zero f : forall n from,
  count_unset f from n = 0 ->
  forall b, from <= b < from + Z.of_nat n -> f b = true.
Proof.
  induction n as [|n IH]; intros from H b Hb; [lia|].
  simpl count_unset in H.
  pose proof (count_unset_bounds f n (from + 1)).
  destruct (f from) eqn:E; [|lia].
  destruct (Z.eq_dec b from) as [->|]; [assumption|].
  apply (IH (from + 1)); lia.
Qed.

(** Counting over [from, from + n) when the bits of a run inside it are
    changed from unset to set, or back. *)
Lemma count_unset_run f f' from n start len :
  from <= start -> 0 <= len -> start + len <= from + Z.of_nat n ->
  (forall b, from <= b < from + Z.of_nat n ->
     f' b = if in_range start len b then negb (f b) else f b) ->
  (forall b, start <= b < start + len -> f b = false) ->
  count_unset f' from n = count_unset f from n - len.
Proof.
  intros Hs Hl He Hf Hfree.
  replace n with (Z.to_nat (start - from)
                  + (Z.to_nat len
                     + Z.to_nat (from + Z.of_nat n - (start + len))))%nat
    by lia.
  rewrite !count_unset_app.
  rewrite !Z2Nat.id by lia.
  replace (from + (start - from)) with start by lia.
  rewrite (count_unset_ext f' f (Z.to_nat (start - from)) from).
  2:{ intros b Hb. rewrite Hf by lia. unfold in_range.
      destruct (Z.leb_spec start b); [lia|]. reflexivity. }
  rewrite (count_unset_ext f' f _ (start + len)).
  2:{ intros b Hb. rewrite Hf by lia. unfold in_range.
      destruct (Z.ltb_spec b (start + len)); [lia|].
      now rewrite andb_false_r. }
  rewrite (count_unset_all_set f' (Z.to_nat len) start).
  2:{ intros b Hb. rewrite Hf by lia. unfold in_range.
      destruct (Z.leb_spec start b); [|lia].
      destruct (Z.ltb_spec b (start + len)); [|lia].
      simpl. rewrite Hfree by lia. reflexivity. }
  rewrite (count_unset_all_unset f (Z.to_nat len) start).
  2:{ intros b Hb. apply Hfree. lia. }
  lia.
Qed.

(** ** The group operations *)

Lemma Allocate_info_geometry g start len :
  fNumBits (Allocate_info g start len) = fNumBits g
  /\ fNumBitmapBlocks (Allocate_info g start len) = fNumBitmapBlocks g
  /\ fStart (Allocate_info g start len) = fStart g.
Proof.
  unfold Allocate_info.
  repeat match goal with
         | |- context [if ?c then _ else _] => destruct c
         end; simpl; auto.
Qed.

Lemma Free_info_geometry g start len :
  fNumBits (Free_info g start len) = fNumBits g
  /\ fNumBitmapBlocks (Free_info g start len) = fNumBitmapBlocks g
  /\ fStart (Free_info g start len) = fStart g.
Proof.
  unfold Free_info.
  repeat match goal with
         | |- context [if ?c then _ else _] => destruct c
         end; simpl; auto.
Qed.

Lemma group_bit_same_start v g g' b :
  fStart g' = fStart g -> group_bit v g' b = group_bit v g b.
Proof. intros H. unfold group_bit. now rewrite H. Qed.

Lemma blocks_present_same v g g' :
  fStart g' = fStart g -> fNumBitmapBlocks g' = fNumBitmapBlocks g ->
  blocks_present v g -> blocks_present v g'.
Proof. intros H1 H2 Hp k Hk. rewrite H1. apply Hp. lia. Qed.

Lemma geometry_ok_group_geometry v g :
  volume_ok v = true -> geometry_ok v g = true -> group_geometry v g.
Proof.
  intros Hv H. apply geometry_ok_spec in H. destruct H as (H1 & H2 & H3).
  repeat split; try assumption; try lia. apply H3.
  destruct (blocks_cover v g Hv ltac:(lia) H2) as (_ & _ & ?). lia.
Qed.

Lemma group_geometry_geometry_ok v g :
  group_geometry v g -> geometry_ok v g = true.
Proof.
  intros (H1 & H2 & H3). apply geometry_ok_spec. auto.
Qed.

Lemma start_split v start :
  volume_ok v = true -> 0 <= start ->
  0 <= start / bitsPerBlock v
  /\ 0 <= start mod bitsPerBlock v < bitsPerBlock v
  /\ start / bitsPerBlock v * bitsPerBlock v + start mod bitsPerBlock v
     = start.
Proof.
  intros Hv Hs. pose proof (bitsPerBlock_range v Hv) as Hb.
  pose proof (Z.div_mod start (bitsPerBlock v) ltac:(lia)).
  pose proof (Z.mod_pos_bound start (bitsPerBlock v) ltac:(lia)).
  assert (0 <= start / bitsPerBlock v) by (apply Z.div_pos; lia).
  lia.
Qed.

Lemma AllocationGroup_Allocate_spec v g start len :
  volume_ok v = true -> group_geometry v g ->
  0 <= start < 65536 -> 0 <= len <= 65535 -> start + len <= fNumBits g ->
  exists c',
    AllocationGroup_Allocate v g start len
    = Some (B_OK, Allocate_info g start len, set_block_cache v c')
    /\ same_shape (block_cache v) c'
    /\ (forall n, ~ (fStart g <= n < fStart g + fNumBitmapBlocks g) ->
          c' !! n = block_cache v !! n)
    /\ (forall b,
          group_bit (set_block_cache v c') g b
          = group_bit v g b || in_range start len b).
Proof.
  intros Hv (HN & Hnb & Hp) Hs Hl Hfit.
  destruct (Allocate_info_geometry g start len) as (G1 & G2 & G3).
  destruct (start_split v start Hv ltac:(lia)) as (Hk & Hm & Hsum).
  pose proof (bitsPerBlock_range v Hv) as Hb.
  unfold AllocationGroup_Allocate. rewrite (u16_small start) by lia.
  change (u32 (Z.shiftl (BlockSize v) 3)) with (bitsPerBlock v).
  rewrite (u16_small (start mod bitsPerBlock v)) by lia.
  set (g' := Allocate_info g start len) in *.
  destruct (Allocate_blocks_spec g' ltac:(lia) (Z.to_nat len) v
              (start / bitsPerBlock v) (start mod bitsPerBlock v) len)
    as (c' & Hres & Hsh & Hfr & Hgb); try assumption; try lia.
  { rewrite G1, G2. assumption. }
  { apply (blocks_present_same v g); auto. }
  exists c'. rewrite Hres. split; [reflexivity|]. split; [assumption|].
  split.
  { intros n Hn. apply Hfr. rewrite G2, G3. assumption. }
  intros b. rewrite <- (group_bit_same_start _ g g') by assumption.
  rewrite Hgb, Hsum. f_equal. now apply group_bit_same_start.
Qed.

Lemma AllocationGroup_Free_spec v g start len :
  volume_ok v = true -> group_geometry v g ->
  0 <= start < 65536 -> 0 <= len <= 65535 -> start + len <= fNumBits g ->
  exists c',
    AllocationGroup_Free v g start len
    = Some (B_OK, Free_info g start len, set_block_cache v c')
    /\ same_shape (block_cache v) c'
    /\ (forall n, ~ (fStart g <= n < fStart g + fNumBitmapBlocks g) ->
          c' !! n = block_cache v !! n)
    /\ (forall b,
          group_bit (set_block_cache v c') g b
          = group_bit v g b && negb (in_range start len b)).
Proof.
  intros Hv (HN & Hnb & Hp) Hs Hl Hfit.
  destruct (Free_info_geometry g start len) as (G1 & G2 & G3).
  destruct (start_split v start Hv ltac:(lia)) as (Hk & Hm & Hsum).
  pose proof (bitsPerBlock_range v Hv) as Hb.
  unfold AllocationGroup_Free. rewrite (u16_small start) by lia.
  change (u32 (Z.shiftl (BlockSize v) 3)) with (bitsPerBlock v).
  rewrite (u16_small (start mod bitsPerBlock v)) by lia.
  set (g' := Free_info g start len) in *.
  destruct (Free_blocks_spec g' ltac:(lia) (Z.to_nat len) v
              (start / bitsPerBlock v) (start mod bitsPerBlock v) len)
    as (c' & Hres & Hsh & Hfr & Hgb); try assumption; try lia.
  { rewrite G1, G2. assumption. }
  { apply (blocks_present_same v g); auto. }
  exists c'. rewrite Hres. split; [reflexivity|]. split; [assumption|].
  split.
  { intros n Hn. apply Hfr. rewrite G2, G3. assumption. }
  intros b. rewrite <- (group_bit_same_start _ g g') by assumption.
  rewrite Hgb, Hsum. f_equal. now apply group_bit_same_start.
Qed.

Lemma group_geometry_preserved v g g' c' :
  group_geometry v g -> same_shape (block_cache v) c' ->
  fNumBits g' = fNumBits g -> fNumBitmapBlocks g' = fNumBitmapBlocks g ->
  fStart g' = fStart g ->
  group_geometry (set_block_cache v c') g'.
Proof.
  intros (HN & Hnb & Hp) Hsh G1 G2 G3. repeat split; try lia.
  - rewrite G1, G2. exact Hnb.
  - apply (blocks_present_same _ g); auto.
    apply blocks_present_shape; assumption.
Qed.

Lemma run_used_spec v g start len b :
  run_used v g start len = true -> start <= b < start + len ->
  group_bit v g b = true.
Proof.
  unfold run_used. intros H Hb.
  apply (proj1 (all_set_spec _ _ _) H). lia.
Qed.

(** ** The scan of one group *)

Section Scan.

Variable f : Z -> bool.        (* the bits of the group *)

Variable N : Z.                (* its number of bits *)

Variable gi : Z.               (* its index *)

Variable maximum : Z.

Variable p0 : Z.               (* where the scan began *)

Variable best0 : Z * Z * Z.    (* the best run before the scan *)

Definition best_sound (s : scan_state) : Prop :=
  best_of s = best0
  \/ (bestGroup s = gi /\ free_run_in f N (bestStart s) (bestLength s)).

Definition largest_sound (s : scan_state) : Prop :=
  groupLargestLength s = -1
  \/ free_run_in f N (groupLargestStart s) (groupLargestLength s).

(** The invariant of the scan at [currentBit]. *)
Definition scan_inv (s : scan_state) : Prop :=
  let c := currentBit s in
  (0 <= p0 /\ p0 <= c <= N)
  /\ (0 <= currentLength s < maximum)
  /\ (0 <= currentStart s /\ currentStart s + currentLength s <= c)
  /\ (currentLength s = 0 \/ currentStart s + currentLength s = c)
  /\ free_interval f (c - currentLength s) c
  /\ (forall x, p0 <= x <= c -> free_interval f x c ->
        c - x <= currentLength s)
  /\ (forall x y, p0 <= x < y /\ y <= c -> free_interval f x y ->
        y - x <= bestLength s \/ y - x <= currentLength s)
  /\ (forall x y, p0 <= x < y /\ y <= c -> free_interval f x y ->
        y - x <= groupLargestLength s \/ y - x <= currentLength s)
  /\ (-1 <= groupLargestLength s <= bestLength s
      /\ bestLength s < maximum /\ best0.2 <= bestLength s)
  /\ best_sound s /\ largest_sound s.

(** What holds when the scan skips the rest of the group. *)
Definition skip_post (s : scan_state) : Prop :=
  (p0 <= currentBit s < N)
  /\ (-1 <= groupLargestLength s <= bestLength s
      /\ bestLength s < maximum /\ best0.2 <= bestLength s)
  /\ best_sound s /\ largest_sound s
  /\ (forall x y, p0 <= x < y /\ y <= N -> free_interval f x y ->
        y - x <= groupLargestLength s).

Definition found_post (s : scan_state) : Prop :=
  currentBit s < N /\ maximum <= bestLength s
  /\ bestGroup s = gi /\ free_run_in f N (bestStart s) (bestLength s).

Definition scan_post (cend : Z) (r : scan_exit * scan_state) : Prop :=
  match r.1 with
  | ScanEnd => scan_inv r.2 /\ currentBit r.2 = cend
  | ScanFound => found_post r.2
  | ScanSkip => skip_post r.2
  end.

Hypothesis HN : 0 < N <= 65536.

Hypothesis Hmax : 0 < maximum.

Lemma scan_step_free s :
  scan_inv s -> currentBit s < N -> f (currentBit s) = false ->
  let s1 := if currentLength s =? 0
            then set_current s (currentBit s) (currentLength s) else s in
  let s2 := set_current s1 (currentStart s1) (currentLength s1 + 1) in
  if currentLength s2 >=? maximum
  then found_post (set_best s2 gi (currentStart s2) (currentLength s2))
  else scan_inv (set_currentBit s2 (currentBit s2 + 1)).
Proof.
  intros (Hc & Hl & Hcs & Hcur & Hfree & HA & HB & HC & HD & HF & HG)
         HcN Hbit.
  destruct s as [bg bs bl cs cl gs gl c]. cbn in *.
  assert (Hfree' : free_interval f (c - cl) (c + 1)).
  { intros b Hb. destruct (Z.eq_dec b c) as [->|]; [assumption|].
    apply Hfree. lia. }
  destruct (Z.eqb_spec cl 0) as [E|E]; cbn.
  - subst cl. destruct (Z.geb_spec (0 + 1) maximum) as [Hm|Hm].
    + unfold found_post, free_run_in. cbn.
      repeat split; try lia.
      intros b Hb. replace b with c by lia. assumption.
    + unfold scan_inv. cbn.
      split; [lia|]. split; [lia|]. split; [lia|]. split; [lia|].
      split. { intros b Hb. replace b with c by lia. assumption. }
      split.
      { intros x Hx Hfx. destruct (Z.eq_dec x (c + 1)); [lia|].
        assert (c - x <= 0); [|lia]. apply HA; [lia|].
        intros b Hb. apply Hfx. lia. }
      split.
      { intros x y Hxy Hfxy. destruct (Z.eq_dec y (c + 1)) as [->|].
        - right. assert (c - x <= 0); [|lia]. apply HA; [lia|].
          intros b Hb. apply Hfxy. lia.
        - destruct (HB x y) as [?|?]; [lia|assumption|left; lia|right; lia]. }
      split.
      { intros x y Hxy Hfxy. destruct (Z.eq_dec y (c + 1)) as [->|].
        - right. assert (c - x <= 0); [|lia]. apply HA; [lia|].
          intros b Hb. apply Hfxy. lia.
        - destruct (HC x y) as [?|?]; [lia|assumption|left; lia|right; lia]. }
      split; [lia|]. split; assumption.
  - destruct (Z.geb_spec (cl + 1) maximum) as [Hm|Hm].
    + unfold found_post, free_run_in. cbn.
      repeat split; try lia.
      intros b Hb. apply Hfree'. lia.
    + unfold scan_inv. cbn.
      split; [lia|]. split; [lia|]. split; [lia|]. split; [lia|].
      split. { intros b Hb. apply Hfree'. lia. }
      split.
      { intros x Hx Hfx. destruct (Z.eq_dec x (c + 1)); [lia|].
        assert (c - x <= cl); [|lia]. apply HA; [lia|].
        intros b Hb. apply Hfx. lia. }
      split.
      { intros x y Hxy Hfxy. destruct (Z.eq_dec y (c + 1)) as [->|].
        - right. assert (c - x <= cl); [|lia]. apply HA; [lia|].
          intros b Hb. apply Hfxy. lia.
        - destruct (HB x y) as [?|?]; [lia|assumption|left; lia|right; lia]. }
      split.
      { intros x y Hxy Hfxy. destruct (Z.eq_dec y (c + 1)) as [->|].
        - right. assert (c - x <= cl); [|lia]. apply HA; [lia|].
          intros b Hb. apply Hfxy. lia.
        - destruct (HC x y) as [?|?]; [lia|assumption|left; lia|right; lia]. }
      split; [lia|]. split; assumption.
Qed.

(** After a used bit at [currentBit] has closed the current range. *)
Definition closed_inv (s : scan_state) : Prop :=
  let c := currentBit s in
  (0 <= p0 /\ p0 <= c < N)
  /\ currentLength s = 0
  /\ (0 <= currentStart s <= c)
  /\ f c = true
  /\ (forall x y, p0 <= x < y /\ y <= c -> free_interval f x y ->
        y - x <= bestLength s)
  /\ (forall x y, p0 <= x < y /\ y <= c -> free_interval f x y ->
        y - x <= groupLargestLength s)
  /\ (-1 <= groupLargestLength s <= bestLength s
      /\ bestLength s < maximum /\ best0.2 <= bestLength s)
  /\ best_sound s /\ largest_sound s.

Lemma end_of_range_closed s :
  scan_inv s -> currentBit s < N -> f (currentBit s) = true ->
  closed_inv (end_of_range gi s).
Proof.
  intros (Hc & Hl & Hcs & Hcur & Hfree & HA & HB & HC & HD & HF & HG)
         HcN Hbit.
  destruct s as [bg bs bl cs cl gs gl c]. cbn in *.
  unfold end_of_range. cbn.
  destruct (Z.eqb_spec cl 0) as [E|E].
  - subst cl. unfold closed_inv. cbn.
    split; [lia|]. split; [reflexivity|]. split; [lia|].
    split; [assumption|]. split.
    { intros x y Hxy Hfxy. destruct (HB x y Hxy Hfxy); lia. }
    split.
    { intros x y Hxy Hfxy. destruct (HC x y Hxy Hfxy); lia. }
    split; [lia|]. split; assumption.
  - assert (Hrun : free_run_in f N cs cl).
    { unfold free_run_in. repeat split; try lia.
      replace cs with (c - cl) by lia. replace (c - cl + cl) with c by lia.
      assumption. }
    destruct (Z.gtb_spec cl bl) as [Hb|Hb]; cbn;
      destruct (Z.gtb_spec cl gl) as [Hg|Hg]; cbn;
      unfold closed_inv; cbn;
      (split; [lia|]); (split; [reflexivity|]); (split; [lia|]);
      (split; [assumption|]);
      (split; [intros x y Hxy Hfxy; destruct (HB x y Hxy Hfxy); lia|]);
      (split; [intros x y Hxy Hfxy; destruct (HC x y Hxy Hfxy); lia|]);
      (split; [lia|]);
      split; try assumption;
      try (right; cbn; split; [reflexivity|assumption]);
      try (right; assumption).
Qed.

Lemma closed_skip s :
  closed_inv s -> N - currentBit s <= groupLargestLength s -> skip_post s.
Proof.
  intros (Hc & Hl & Hcs & Hbit & HB & HC & HD & HF & HG) Hskip.
  unfold skip_post. split; [lia|]. split; [assumption|].
  split; [assumption|]. split; [assumption|].
  intros x y Hxy Hfxy.
  destruct (Z.le_gt_cases y (currentBit s)) as [Hy|Hy].
  - apply HC; [lia|assumption].
  - destruct (Z.le_gt_cases x (currentBit s)) as [Hx|Hx].
    + rewrite Hfxy in Hbit by lia. discriminate.
    + lia.
Qed.

Lemma closed_next s :
  closed_inv s -> scan_inv (set_currentBit s (currentBit s + 1)).
Proof.
  intros (Hc & Hl & Hcs & Hbit & HB & HC & HD & HF & HG).
  destruct s as [bg bs bl cs cl gs gl c]. cbn in *. subst cl.
  unfold scan_inv. cbn.
  split; [lia|]. split; [lia|]. split; [lia|]. split; [lia|].
  split. { intros b Hb. lia. }
  split.
  { intros x Hx Hfx. destruct (Z.eq_dec x (c + 1)); [lia|].
    rewrite Hfx in Hbit by lia. discriminate. }
  split.
  { intros x y Hxy Hfxy. destruct (Z.eq_dec y (c + 1)) as [->|].
    - rewrite Hfxy in Hbit by lia. discriminate.
    - left. apply HB; [lia|assumption]. }
  split.
  { intros x y Hxy Hfxy. destruct (Z.eq_dec y (c + 1)) as [->|].
    - rewrite Hfxy in Hbit by lia. discriminate.
    - left. apply HC; [lia|assumption]. }
  split; [lia|]. split; assumption.
Qed.

Lemma end_of_range_currentBit s :
  currentBit (end_of_range gi s) = currentBit s.
Proof.
  unfold end_of_range.
  repeat match goal with
         | |- context [if ?c then _ else _] => destruct c
         end; reflexivity.
Qed.

Variable cached : AllocationBlock.

Variable group : AllocationGroup.

Variable base NBB : Z.

Hypothesis Hgroup : NumBits group = N.

Hypothesis Hbase : 0 <= base /\ base + NBB <= N.

Lemma scan_bits_spec : forall rounds bit s,
  0 <= bit -> Z.of_nat rounds = NBB - bit ->
  currentBit s = base + bit -> scan_inv s ->
  (forall b, bit <= b < NBB ->
     AllocationBlock_IsUsed cached b = f (base + b)) ->
  scan_post (base + NBB) (scan_bits rounds cached group gi maximum bit s).
Proof.
  induction rounds as [|r IH]; intros bit s Hbit Hr Hc Hinv Hused.
  - cbn. split; [assumption|]. lia.
  - cbn [scan_bits]. rewrite (Hused bit) by lia. rewrite <- Hc.
    assert (HcN : currentBit s < N) by lia.
    destruct (f (currentBit s)) eqn:Ef; cbn [negb].
    + pose proof (end_of_range_closed s Hinv HcN Ef) as Hcl.
      pose proof (end_of_range_currentBit s) as Hcb.
      set (s1 := end_of_range gi s) in *.
      rewrite Hgroup, (s32_small N) by lia.
      destruct (Z.leb_spec (N - currentBit s1) (groupLargestLength s1)).
      * apply closed_skip; assumption.
      * apply IH; try lia.
        -- cbn. lia.
        -- apply closed_next; assumption.
        -- intros b Hb. apply Hused. lia.
    + pose proof (scan_step_free s Hinv HcN Ef) as Hstep.
      cbv zeta in Hstep. cbv zeta.
      match goal with
      | |- context [if ?c then (ScanFound, _) else _] =>
          destruct c eqn:E
      end.
      * exact Hstep.
      * apply IH; try lia.
        -- cbn. destruct (currentLength s =? 0); cbn; lia.
        -- exact Hstep.
        -- intros b Hb. apply Hused. lia.
Qed.

End Scan.

Section ScanBlocks.

Variable v : Volume.

Variable g : AllocationGroup.

Variable gi maximum p0 : Z.

Variable best0 : Z * Z * Z.

Hypothesis Hv : volume_ok v = true.

Hypothesis Hg : group_geometry v g.

Hypothesis Hmax : 0 < maximum.

Let f := group_bit v g.

Let N := fNumBits g.

Let bpb := bitsPerBlock v.

Let nb := fNumBitmapBlocks g.

(** How the loop over the bitmap blocks of the group ends. *)
Definition blocks_post (canFind : bool) (r : scan_state * bool) : Prop :=
  (found_post f N gi maximum r.1 /\ r.2 = false)
  \/ (skip_post f N gi maximum p0 best0 r.1 /\ r.2 = canFind)
  \/ (scan_inv f N gi maximum p0 best0 r.1 /\ currentBit r.1 = N
      /\ r.2 = canFind).

Lemma view_bits k data b :
  0 <= k -> block_cache v !! (fStart g + k) = Some data ->
  0 <= b < bpb -> f (k * bpb + b) = chunk_bit data b.
Proof.
  intros Hk Hd Hb. unfold f, group_bit. unfold bpb in *.
  assert (E : (k * bitsPerBlock v + b) / bitsPerBlock v = k).
  { apply (div_block v Hv). lia. }
  rewrite (mod_block v Hv _ k E), E, Hd.
  f_equal. lia.
Qed.

Lemma scan_blocks_spec : forall rounds k st s canFind,
  0 <= k -> Z.of_nat rounds = nb - k ->
  (k < nb -> k * bpb + st mod bpb <= N) ->
  currentBit s = Z.min N (k * bpb + st mod bpb) ->
  scan_inv f N gi maximum p0 best0 s ->
  exists r,
    scan_blocks rounds v g gi maximum k st s canFind = Some r
    /\ blocks_post canFind r.
Proof.
  destruct Hg as (HN & Hnb & Hp). fold N in HN. fold nb in Hnb, Hp.
  pose proof (bitsPerBlock_range v Hv) as Hb. fold bpb in Hb.
  pose proof (blocks_cover v g Hv HN Hnb) as (Hc1 & Hc2 & Hc3).
  fold N bpb nb in Hc1, Hc2, Hc3.
  induction rounds as [|r IH]; intros k st s canFind Hk Hr Hfit Hc Hinv.
  - exists (s, canFind). split; [reflexivity|].
    right. right. cbn. split; [assumption|]. split; [|reflexivity].
    pose proof (Z.mod_pos_bound st bpb ltac:(lia)).
    rewrite Hc. assert (k = nb) by lia. subst k. lia.
  - assert (Hkn : k < nb) by lia. specialize (Hfit Hkn).
    pose proof (Z.mod_pos_bound st bpb ltac:(lia)) as Hst.
    cbn [scan_blocks].
    destruct (Hp k ltac:(lia)) as (data & Hd & Hl).
    pose proof (block_bits_eq v g Hv HN Hnb k ltac:(fold nb; lia))
      as [Hbb Hbbpos].
    fold bpb N in Hbb.
    unfold AllocationBlock_SetTo, CachedBlock_SetTo, Start.
    rewrite (u16_small k) by lia. rewrite Hd.
    change (u32 (Z.shiftl (BlockSize v) 3)) with bpb.
    unfold NumBlockBits. cbn [fNumBlockBits].
    set (NBB := block_bits v g k) in *.
    set (cached := mk_AllocationBlock (fStart g + k) data NBB).
    assert (Hpost :
      scan_post f N gi maximum p0 best0 (k * bpb + NBB)
        (scan_bits (Z.to_nat (NBB - st mod bpb)) cached g gi maximum
           (st mod bpb) s)).
    { apply (scan_bits_spec f N gi maximum p0 best0 HN Hmax cached g
               (k * bpb) NBB);
        [reflexivity | lia | lia | lia | lia | assumption |].
      intros b Hbr. rewrite IsUsed_chunk_bit by (cbn; lia).
      cbn [fBlock cached]. symmetry. apply view_bits; [lia|assumption|lia]. }
    destruct (scan_bits (Z.to_nat (NBB - st mod bpb)) cached g gi maximum
                (st mod bpb) s) as [exit s'].
    unfold scan_post in Hpost. cbn [fst snd] in Hpost.
    destruct exit.
    + destruct Hpost as [Hinv' Hc'].
      assert (HbL : bestLength s' < maximum).
      { destruct Hinv' as (_ & _ & _ & _ & _ & _ & _ & _ & HD & _). lia. }
      destruct (Z.geb_spec (bestLength s') maximum); [lia|].
      apply IH; try lia.
      * intros Hk1. rewrite Z.mod_0_l by lia.
        assert ((k + 1) * bpb <= (nb - 1) * bpb)
          by (apply Z.mul_le_mono_nonneg_r; lia).
        lia.
      * rewrite Z.mod_0_l by lia. rewrite Hc'. lia.
      * assumption.
    + pose proof Hpost as (_ & Hge & _).
      destruct (Z.geb_spec (bestLength s') maximum); [|lia].
      exists (s', false). split; [reflexivity|]. left. cbn. auto.
    + pose proof Hpost as (_ & (_ & Hlt & _) & _).
      destruct (Z.geb_spec (bestLength s') maximum); [lia|].
      exists (s', canFind). split; [reflexivity|]. right. left. cbn. auto.
Qed.

End ScanBlocks.

(** ** The longest free run of a direct scan *)

Lemma longest_from_upper f : forall n from cur best,
  0 <= cur ->
  let R := longest_from f from n cur best in
  best <= R
  /\ (forall y, from <= y <= from + Z.of_nat n -> free_interval f from y ->
        cur + (y - from) <= R)
  /\ (forall x y, from <= x < y /\ y <= from + Z.of_nat n ->
        free_interval f x y -> y - x <= R).
Proof.
  induction n as [|n IH]; intros from cur best Hcur; cbn [longest_from].
  - cbn zeta. split; [lia|]. split.
    + intros y Hy _. lia.
    + intros x y Hxy _. lia.
  - cbn zeta. destruct (f from) eqn:Ef.
    + destruct (IH (from + 1) 0 (Z.max cur best) ltac:(lia))
        as (H1 & H2 & H3).
      split; [lia|]. split.
      * intros y Hy Hfy. destruct (Z.eq_dec y from) as [->|]; [lia|].
        rewrite Hfy in Ef by lia. discriminate.
      * intros x y Hxy Hfxy. destruct (Z.eq_dec x from) as [->|].
        -- rewrite Hfxy in Ef by lia. discriminate.
        -- apply H3; [lia|assumption].
    + destruct (IH (from + 1) (cur + 1) best ltac:(lia))
        as (H1 & H2 & H3).
      split; [lia|]. split.
      * intros y Hy Hfy. destruct (Z.eq_dec y from) as [->|].
        -- specialize (H2 (from + 1) ltac:(lia)).
           assert (free_interval f (from + 1) (from + 1)) as Hi
             by (intros b Hb; lia).
           specialize (H2 Hi). lia.
        -- assert (cur + 1 + (y - (from + 1)) <= longest_from f (from + 1) n (cur + 1) best); [|lia].
           apply H2; [lia|]. intros b Hb. apply Hfy. lia.
      * intros x y Hxy Hfxy. destruct (Z.eq_dec x from) as [->|].
        -- assert (cur + 1 + (y - (from + 1)) <= longest_from f (from + 1) n (cur + 1) best).
           { apply H2; [lia|]. intros b Hb. apply Hfxy. lia. }
           specialize (H2 (from + 1) ltac:(lia)).
           assert (free_interval f (from + 1) (from + 1)) as Hi
             by (intros b Hb; lia).
           specialize (H2 Hi). lia.
        -- apply H3; [lia|assumption].
Qed.

Lemma longest_from_attained f : forall n from cur best,
  0 <= cur ->
  let R := longest_from f from n cur best in
  R = best
  \/ (exists y, from <= y <= from + Z.of_nat n /\ free_interval f from y
                /\ R = cur + (y - from))
  \/ (exists x y, from <= x < y /\ y <= from + Z.of_nat n
                  /\ free_interval f x y /\ R = y - x).
Proof.
  induction n as [|n IH]; intros from cur best Hcur; cbn [longest_from].
  - cbn zeta. destruct (Z.max_spec cur best) as [[? ->]|[? ->]].
    + left. reflexivity.
    + right. left. exists from. split; [lia|]. split; [|lia].
      intros b Hb. lia.
  - cbn zeta. destruct (f from) eqn:Ef.
    + destruct (IH (from + 1) 0 (Z.max cur best) ltac:(lia))
        as [H|[(y & Hy & Hfy & H)|(x & y & Hxy & Hyb & Hfxy & H)]].
      * rewrite H. destruct (Z.max_spec cur best) as [[? ->]|[? ->]].
        -- left. reflexivity.
        -- right. left. exists from. split; [lia|]. split; [|lia].
           intros b Hb. lia.
      * destruct (Z.eq_dec y (from + 1)) as [->|].
        -- rewrite H.
           destruct (Z.max_spec cur best) as [[? E]|[? E]].
           ++ pose proof (longest_from_upper f n (from + 1) 0 (Z.max cur best)
                            ltac:(lia))
                as (Hb & _). cbn zeta in Hb. rewrite H in Hb.
              left. lia.
           ++ pose proof (longest_from_upper f n (from + 1) 0 (Z.max cur best)
                            ltac:(lia))
                as (Hb & _). cbn zeta in Hb. rewrite H in Hb.
              right. left. exists from. split; [lia|]. split; [|lia].
              intros b Hb'. lia.
        -- right. right. exists (from + 1), y.
           split; [lia|]. split; [lia|]. split; [|lia].
           intros b Hb. apply Hfy. lia.
      * right. right. exists x, y.
        split; [lia|]. split; [lia|]. split; assumption.
    + destruct (IH (from + 1) (cur + 1) best ltac:(lia))
        as [H|[(y & Hy & Hfy & H)|(x & y & Hxy & Hyb & Hfxy & H)]].
      * left. assumption.
      * right. left. exists y. split; [lia|]. split; [|lia].
        intros b Hb. destruct (Z.eq_dec b from) as [->|]; [assumption|].
        apply Hfy. lia.
      * right. right. exists x, y.
        split; [lia|]. split; [lia|]. split; assumption.
Qed.

Lemma longest_unset_upper f n x y :
  0 <= x < y -> y <= Z.of_nat n -> free_interval f x y ->
  y - x <= longest_unset f 0 n.
Proof.
  intros Hx Hy Hf. unfold longest_unset.
  destruct (longest_from_upper f n 0 0 0 ltac:(lia)) as (_ & _ & H).
  apply H; [lia|assumption].
Qed.

Lemma longest_unset_nonneg f n : 0 <= longest_unset f 0 n.
Proof.
  unfold longest_unset.
  destruct (longest_from_upper f n 0 0 0 ltac:(lia)) as (H & _). exact H.
Qed.

Lemma longest_unset_attained f n :
  exists x, 0 <= x /\ x + longest_unset f 0 n <= Z.of_nat n
            /\ free_interval f x (x + longest_unset f 0 n).
Proof.
  unfold longest_unset.
  destruct (longest_from_attained f n 0 0 0 ltac:(lia))
    as [H|[(y & Hy & Hfy & H)|(x & y & Hxy & Hyb & Hfxy & H)]]; cbn zeta in H.
  - exists 0. rewrite H. split; [lia|]. split; [lia|]. intros b Hb. lia.
  - exists 0. rewrite H. split; [lia|]. split; [lia|].
    replace (0 + (0 + (y - 0))) with y by lia. assumption.
  - exists x. rewrite H. split; [lia|]. split; [lia|].
    replace (x + (y - x)) with y by lia. assumption.
Qed.

(** ** The hints of a group, read as propositions *)

Section Hints.

Variable v : Volume.

Variable g : AllocationGroup.

Hypothesis HN : 0 < fNumBits g <= 65536.

Let f := group_bit v g.

Let N := fNumBits g.

Lemma run_free_spec start len :
  run_free v g start len = true <->
  free_interval f start (start + Z.max 0 len).
Proof.
  unfold run_free. rewrite all_unset_spec. unfold free_interval.
  replace (Z.of_nat (Z.to_nat len)) with (Z.max 0 len) by lia.
  reflexivity.
Qed.

Lemma first_free_ok_spec :
  first_free_ok v g = true <->
  (forall b, 0 <= b < fFirstFree g -> b < N -> f b = true).
Proof.
  unfold first_free_ok. rewrite all_set_spec. split.
  - intros H b Hb HbN. apply H. fold N. lia.
  - intros H b Hb. apply H; fold N in Hb; lia.
Qed.

Lemma largest_ok_spec :
  largest_ok v g = true -> fLargestValid g = true ->
  free_run_in f N (fLargestStart g) (fLargestLength g)
  /\ (forall x y, 0 <= x < y /\ y <= N -> free_interval f x y ->
        y - x <= fLargestLength g).
Proof.
  unfold largest_ok. intros H Hvalid. rewrite Hvalid in H. cbn in H.
  rewrite !andb_true_iff, !Z.leb_le in H.
  destruct H as ((((H1 & H2) & H3) & H4) & H5).
  apply run_free_spec in H4. rewrite Z.max_r in H4 by assumption.
  split; [repeat split; assumption|].
  intros x y Hxy Hf.
  pose proof (longest_unset_upper f (Z.to_nat N) x y ltac:(lia)
                ltac:(unfold N; lia) Hf) as Hu.
  unfold longest_free in H5. fold f N in H5. lia.
Qed.

Lemma largest_ok_intro :
  free_run_in f N (fLargestStart g) (fLargestLength g) ->
  (forall x y, 0 <= x < y /\ y <= N -> free_interval f x y ->
     y - x <= fLargestLength g) ->
  largest_ok v g = true.
Proof.
  intros (H1 & H2 & H3 & H4) Hall. unfold largest_ok.
  apply orb_true_iff. right.
  rewrite !andb_true_iff, !Z.leb_le.
  repeat split; try assumption.
  - apply run_free_spec. rewrite Z.max_r by assumption. assumption.
  - unfold longest_free. fold f N.
    destruct (longest_unset_attained f (Z.to_nat N)) as (x & Hx & Hle & Hf).
    pose proof (longest_unset_nonneg f (Z.to_nat N)) as Hnn.
    destruct (Z.eq_dec (longest_unset f 0 (Z.to_nat N)) 0) as [E|E];
      [lia|].
    specialize (Hall x (x + longest_unset f 0 (Z.to_nat N))).
    assert (x + longest_unset f 0 (Z.to_nat N) - x <= fLargestLength g);
      [|lia].
    apply Hall; [unfold N in *; lia|assumption].
Qed.

Lemma largest_ok_invalid :
  fLargestValid g = false -> largest_ok v g = true.
Proof. intros H. unfold largest_ok. now rewrite H. Qed.

Lemma full_group_used :
  count_ok v g = true -> IsFull g = true ->
  forall b, 0 <= b < N -> f b = true.
Proof.
  unfold count_ok, IsFull, free_count. rewrite !Z.eqb_eq.
  intros Hc H0 b Hb. rewrite H0 in Hc.
  apply (count_unset_zero f (Z.to_nat N) 0); [symmetry; exact Hc|].
  unfold N in *. lia.
Qed.

Lemma first_free_below :
  count_ok v g = true -> first_free_ok v g = true -> IsFull g = false ->
  fFirstFree g < N.
Proof.
  unfold count_ok, IsFull, free_count. rewrite Z.eqb_eq, Z.eqb_neq.
  intros Hc Hff Hnf.
  destruct (Z.lt_ge_cases (fFirstFree g) N) as [|Hge]; [assumption|].
  exfalso. apply Hnf. rewrite Hc.
  apply count_unset_all_set. intros b Hb.
  apply first_free_ok_spec; [assumption| |]; unfold N in *; lia.
Qed.

End Hints.

Section VisitGroup.

Variable v : Volume.

Variable g : AllocationGroup.

Variable gi maximum : Z.

Hypothesis Hv : volume_ok v = true.

Hypothesis Hg : group_geometry v g.

Hypothesis Hcount : count_ok v g = true.

Hypothesis Hff : first_free_ok v g = true.

Hypothesis Hlg : largest_ok v g = true.

Hypothesis Hmax : 0 < maximum.

Let f := group_bit v g.

Let N := fNumBits g.

Lemma same_group_refl : same_group_but_largest g g.
Proof. repeat split. Qed.

Lemma initial_scan_inv start best :
  0 <= start < N -> -1 <= bestLength best < maximum ->
  scan_inv f N gi maximum start (best_of best)
    (mk_scan_state (bestGroup best) (bestStart best) (bestLength best)
       0 0 (-1) (-1) start).
Proof.
  intros Hs Hb. unfold scan_inv. cbn.
  split; [lia|]. split; [lia|]. split; [lia|]. split; [lia|].
  split. { intros b Hbb. lia. }
  split. { intros x Hx _. lia. }
  split. { intros x y Hxy _. lia. }
  split. { intros x y Hxy _. lia. }
  split; [lia|]. split; [left; reflexivity|left; reflexivity].
Qed.

Lemma refreshed_largest_ok gs gl :
  free_run_in f N gs gl ->
  (forall x y, 0 <= x < y /\ y <= N -> free_interval f x y ->
     y - x <= gl) ->
  largest_ok v (set_fLargest g gs gl true) = true.
Proof.
  intros Hrun Hall. destruct Hg as (HN & _).
  apply largest_ok_intro; [exact HN|exact Hrun|exact Hall].
Qed.

Lemma scan_group_spec start best :
  0 <= start < N -> -1 <= bestLength best < maximum ->
  exists r,
    scan_group v g gi start maximum best = Some r
    /\ visit_post v g gi maximum start best r.
Proof.
  intros Hs Hb.
  pose proof Hg as (HN & Hnb & Hp). fold N in HN.
  pose proof (bitsPerBlock_range v Hv) as Hbpb.
  destruct (start_split v start Hv ltac:(lia)) as (Hk & Hm & Hsum).
  unfold scan_group, NumBitmapBlocks, NumBits.
  change (u32 (Z.shiftl (BlockSize v) 3)) with (bitsPerBlock v).
  set (k := start / bitsPerBlock v) in *.
  assert (Hkn : k < fNumBitmapBlocks g).
  { apply (block_index_lt v g Hv HN Hnb); [lia|]. unfold N in *. lia. }
  destruct (scan_blocks_spec v g gi maximum start (best_of best) Hv Hg Hmax
              (Z.to_nat (fNumBitmapBlocks g - k)) k start
              (mk_scan_state (bestGroup best) (bestStart best)
                 (bestLength best) 0 0 (-1) (-1) start)
              (start =? 0))
    as ([s' cf'] & Hres & Hpost).
  { lia. } { lia. } { intros _. unfold N in *. lia. }
  { cbn. unfold N in *. lia. }
  { apply initial_scan_inv; assumption. }
  rewrite Hres. cbv beta iota zeta.
  rewrite (s32_small (fNumBits g)) by (unfold N in *; lia).
  unfold blocks_post in Hpost. cbn [fst snd] in Hpost.
  fold f N in Hpost.
  destruct Hpost as [[Hfound ->]|[[Hskip ->]|(Hinv & Hend & ->)]].
  - (* a range of [maximum] bits *)
    destruct Hfound as (HcN & Hge & Hbg & Hrun).
    destruct (Z.eqb_spec (currentBit s') (fNumBits g));
      [unfold N in *; lia|].
    cbn [andb].
    destruct (Z.geb_spec (bestLength s') maximum); [|lia].
    eexists. split; [reflexivity|]. unfold visit_post. cbn.
    split; [apply same_group_refl|]. split; [assumption|].
    split; [lia|]. split; [right; split; assumption|]. lia.
  - (* the rest of the group was skipped *)
    destruct Hskip as (HcN & HD & HF & HG & Hall).
    destruct (Z.eqb_spec (currentBit s') (fNumBits g));
      [unfold N in *; lia|].
    destruct (Z.geb_spec (bestLength s') maximum); [lia|].
    match goal with
    | |- context [if ?c then set_fLargest _ _ _ _ else _] =>
        destruct c eqn:Eref
    end.
    + apply andb_true_iff in Eref. destruct Eref as [Eref Egl].
      apply andb_true_iff in Eref. destruct Eref as [Ecf Env].
      apply Z.eqb_eq in Ecf. apply Z.geb_le in Egl.
      eexists. split; [reflexivity|]. unfold visit_post. cbn.
      split; [repeat split|]. split.
      { apply refreshed_largest_ok.
        - destruct HG as [HG|HG]; [lia|exact HG].
        - intros x y Hxy Hfxy. apply Hall; [lia|assumption]. }
      split; [cbn in HD; lia|]. split; [exact HF|].
      split; [lia|]. intros x y Hxy Hfxy.
      assert (y - x <= groupLargestLength s'); [|lia].
      apply Hall; assumption.
    + eexists. split; [reflexivity|]. unfold visit_post. cbn.
      split; [apply same_group_refl|]. split; [assumption|].
      split; [cbn in HD; lia|]. split; [exact HF|].
      split; [lia|]. intros x y Hxy Hfxy.
      assert (y - x <= groupLargestLength s'); [|lia].
      apply Hall; assumption.
  - (* the scan reached the end of the group *)
    destruct Hinv as (Hc & Hl & Hcs & Hcur & Hfree & HA & HB & HC & HD
                      & HF & HG).
    destruct (Z.eqb_spec (currentBit s') (fNumBits g));
      [|unfold N in *; lia].
    assert (Hrun : free_run_in f N (currentStart s') (currentLength s')).
    { unfold free_run_in. split; [lia|]. split; [lia|]. split; [lia|].
      destruct Hcur as [E0|E1].
      - rewrite E0. intros b Hbb. lia.
      - rewrite E1. replace (currentStart s') with
          (currentBit s' - currentLength s') by lia. exact Hfree. }
    destruct s' as [bg bs bl cs cl gs gl c].
    unfold largest_sound, best_sound in *. cbn in *.
    destruct (Z.gtb_spec cl bl) as [Hcb|Hcb]; cbn;
      destruct (start =? 0) eqn:Es; cbn;
      try apply Z.eqb_eq in Es;
      try (destruct (Z.gtb_spec cl gl) as [Hcg|Hcg]; cbn);
      try (destruct (fLargestValid g) eqn:Hvalid; cbn);
      try (match goal with
           | |- context [?a >=? 0] => destruct (Z.geb_spec a 0); cbn
           end);
      match goal with
      | |- context [?a >=? maximum] =>
          destruct (Z.geb_spec a maximum); [lia|]
      end;
      (eexists; split; [reflexivity|]; unfold visit_post; cbn;
       split; [repeat split|]; split;
       [ first [ exact Hlg
               | apply largest_ok_invalid; assumption
               | apply refreshed_largest_ok;
                 [ first [exact Hrun
                         | destruct HG as [HG|HG]; [lia|exact HG]]
                 | intros x y Hxy Hfxy;
                   destruct (HC x y ltac:(lia) Hfxy); lia ] ]
       | split; [lia|]; split;
         [ first [ exact HF | right; split; [reflexivity|exact Hrun] ]
         | split; [lia|]; intros x y Hxy Hfxy;
           destruct (HB x y ltac:(lia) Hfxy); lia ] ]).
Qed.

Lemma visit_post_from start' start best r :
  (forall x y, start <= x < y /\ y <= fNumBits g ->
     free_interval f x y -> start' <= x) ->
  visit_post v g gi maximum start' best r ->
  visit_post v g gi maximum start best r.
Proof.
  intros Hfrom (H1 & H2 & H3 & H4 & H5).
  split; [assumption|]. split; [assumption|]. split; [assumption|].
  split; [assumption|]. destruct (r.1.1); [|assumption].
  destruct H5 as [H5 H6]. split; [assumption|].
  intros x y Hxy Hf. apply H6; [|assumption].
  specialize (Hfrom x y Hxy Hf). lia.
Qed.

Lemma visit_group_spec start best :
  0 <= start < 65536 -> -1 <= bestLength best < maximum ->
  exists r,
    visit_group v g gi start maximum best = Some r
    /\ visit_post v g gi maximum start best r.
Proof.
  intros Hs Hb.
  pose proof Hg as (HN & Hnb & Hp).
  pose proof (bitsPerBlock_range v Hv) as Hbpb.
  unfold visit_group, NumBits.
  destruct (Z.geb_spec start (fNumBits g)) as [Hge|Hlt]; cbn [orb].
  { eexists. split; [reflexivity|]. unfold visit_post. cbn.
    split; [apply same_group_refl|]. split; [assumption|].
    split; [lia|]. split; [left; reflexivity|]. split; [lia|].
    intros x y Hxy _. lia. }
  destruct (IsFull g) eqn:Hfull.
  { eexists. split; [reflexivity|]. unfold visit_post. cbn.
    split; [apply same_group_refl|]. split; [assumption|].
    split; [lia|]. split; [left; reflexivity|]. split; [lia|].
    intros x y Hxy Hf.
    pose proof (full_group_used v g HN Hcount Hfull x ltac:(lia)) as Hu.
    rewrite Hf in Hu by lia. discriminate. }
  pose proof (first_free_below v g HN Hcount Hff Hfull) as Hfb.
  set (start' := if start <? fFirstFree g then u16 (fFirstFree g)
                 else start).
  assert (Hs' : start <= start' < fNumBits g
                /\ (start < fFirstFree g -> start' = fFirstFree g)
                /\ (fFirstFree g <= start -> start' = start)).
  { unfold start'. destruct (Z.ltb_spec start (fFirstFree g)).
    - rewrite u16_small by lia. lia.
    - lia. }
  clearbody start'. destruct Hs' as (Hs1 & Hs2 & Hs3).
  (* free intervals from [start] begin at [start'] or later *)
  assert (Hfrom : forall x y, start <= x < y /\ y <= fNumBits g ->
                    free_interval f x y -> start' <= x).
  { intros x y Hxy Hf. destruct (Z.le_gt_cases start' x); [assumption|].
    assert (Hx : x < fFirstFree g) by lia.
    pose proof (proj1 (first_free_ok_spec v g HN) Hff x ltac:(lia)
                  ltac:(lia)) as Hu.
    fold f in Hu. rewrite Hf in Hu by lia. discriminate. }
  destruct (fLargestValid g) eqn:Hvalid; cbn [andb].
  - destruct (largest_ok_spec v g HN Hlg Hvalid) as [Hrun Hall].
    fold f N in Hrun, Hall.
    destruct (Z.ltb_spec (fLargestLength g) (bestLength best)) as [Hl|Hl].
    { eexists. split; [reflexivity|]. unfold visit_post. cbn.
      split; [apply same_group_refl|]. split; [assumption|].
      split; [lia|]. split; [left; reflexivity|]. split; [lia|].
      intros x y Hxy Hf.
      assert (y - x <= fLargestLength g); [|lia].
      apply Hall; [unfold N; lia|assumption]. }
    destruct (Z.geb_spec (fLargestStart g) start') as [Hls|Hls].
    + destruct (Z.geb_spec (fLargestLength g) (bestLength best));
        [|lia].
      cbn [bestLength set_best].
      destruct (Z.geb_spec (fLargestLength g) maximum).
      * eexists. split; [reflexivity|]. unfold visit_post. cbn.
        split; [apply same_group_refl|]. split; [assumption|].
        split; [lia|]. split; [right; split; [reflexivity|assumption]|].
        lia.
      * eexists. split; [reflexivity|]. unfold visit_post. cbn.
        split; [apply same_group_refl|]. split; [assumption|].
        split; [lia|]. split; [right; split; [reflexivity|assumption]|].
        split; [lia|]. intros x y Hxy Hf.
        apply Hall; [unfold N; lia|assumption].
    + destruct (scan_group_spec start' best ltac:(unfold N; lia) Hb)
        as (r & Hr & Hpost).
      exists r. split; [exact Hr|]. apply (visit_post_from start'); auto.
  - destruct (scan_group_spec start' best ltac:(unfold N; lia) Hb)
      as (r & Hr & Hpost).
    exists r. split; [exact Hr|]. apply (visit_post_from start'); auto.
Qed.

End VisitGroup.

(** ** The loop over the groups *)

Lemma group_at_lookup a i :
  0 <= i < Z.of_nat (length (fGroups a)) ->
  fGroups a !! Z.to_nat i = Some (group_at a i).
Proof.
  intros Hi. unfold group_at. destruct (Z.ltb_spec i 0); [lia|].
  destruct (fGroups a !! Z.to_nat i) eqn:E; [reflexivity|].
  apply lookup_ge_None in E. lia.
Qed.

Lemma allocator_ok_inv a : allocator_ok a = true <-> allocator_inv a.
Proof.
  unfold allocator_ok, allocator_inv.
  rewrite !andb_true_iff, Z.ltb_lt, Z.eqb_eq, forallb_forall.
  split.
  - intros (((H1 & H2) & H3) & H4). repeat split; try assumption.
    intros i Hi. apply H4. apply list_elem_of_In.
    apply list_elem_of_lookup. exists (Z.to_nat i).
    apply group_at_lookup. lia.
  - intros (H1 & H2 & H3 & H4). repeat split; try assumption.
    intros g Hg. apply list_elem_of_In in Hg.
    apply list_elem_of_lookup in Hg. destruct Hg as [k Hk].
    pose proof (lookup_lt_Some _ _ _ Hk) as Hlt.
    specialize (H4 (Z.of_nat k) ltac:(lia)).
    unfold group_at in H4. destruct (Z.ltb_spec (Z.of_nat k) 0); [lia|].
    rewrite Nat2Z.id, Hk in H4. exact H4.
Qed.

Lemma group_at_set_group a i g j :
  0 <= i < Z.of_nat (length (fGroups a)) -> 0 <= j ->
  group_at (set_group a i g) j = if j =? i then g else group_at a j.
Proof.
  intros Hi Hj. unfold set_group, group_at.
  destruct (Z.ltb_spec i 0); [lia|]. destruct (Z.ltb_spec j 0); [lia|].
  cbn [fGroups]. destruct (Z.eqb_spec j i) as [->|Hne].
  - rewrite list_lookup_insert_eq by lia. reflexivity.
  - rewrite list_lookup_insert_ne by lia. reflexivity.
Qed.

Lemma set_group_fields a i g :
  fVolume (set_group a i g) = fVolume a
  /\ fNumGroups (set_group a i g) = fNumGroups a
  /\ fBlocksPerGroup (set_group a i g) = fBlocksPerGroup a
  /\ length (fGroups (set_group a i g)) = length (fGroups a).
Proof.
  unfold set_group. destruct (i <? 0); cbn; repeat split.
  apply length_insert.
Qed.

Lemma group_ok_spec v g :
  group_ok v g = true <->
  geometry_ok v g = true /\ count_ok v g = true
  /\ first_free_ok v g = true /\ largest_ok v g = true.
Proof. unfold group_ok. rewrite !andb_true_iff. tauto. Qed.

Lemma same_group_ok v g g' :
  same_group_but_largest g g' -> largest_ok v g' = true ->
  group_ok v g = true -> group_ok v g' = true.
Proof.
  intros (E1 & E2 & E3 & E4 & E5) Hl Hg.
  apply group_ok_spec in Hg. destruct Hg as (Hgeo & Hc & Hff & _).
  apply group_ok_spec. repeat split; try assumption.
  - unfold geometry_ok in *. rewrite E1, E2, E3. exact Hgeo.
  - unfold count_ok, free_count in *. rewrite E1, E5.
    rewrite (count_unset_ext _ (group_bit v g)); [exact Hc|].
    intros b _. now apply group_bit_same_start.
  - unfold first_free_ok in *. rewrite E1, E4.
    apply all_set_spec. intros b Hb.
    rewrite (group_bit_same_start v g g') by assumption.
    revert b Hb. apply all_set_spec. exact Hff.
Qed.

Lemma same_group_trans g1 g2 g3 :
  same_group_but_largest g1 g2 -> same_group_but_largest g2 g3 ->
  same_group_but_largest g1 g3.
Proof.
  intros (A1 & A2 & A3 & A4 & A5) (B1 & B2 & B3 & B4 & B5).
  repeat split; congruence.
Qed.

Lemma hints_refreshed_refl a : hints_refreshed a a.
Proof. repeat split. Qed.

Lemma hints_refreshed_step a a1 i g' :
  fNumGroups a = Z.of_nat (length (fGroups a)) ->
  hints_refreshed a a1 -> 0 <= i < fNumGroups a ->
  same_group_but_largest (group_at a1 i) g' ->
  hints_refreshed a (set_group a1 i g').
Proof.
  intros Hlen (H1 & H2 & H3 & H4 & H5) Hi Hs.
  destruct (set_group_fields a1 i g') as (F1 & F2 & F3 & F4).
  split; [congruence|]. split; [congruence|]. split; [congruence|].
  split; [congruence|]. intros j Hj.
  rewrite group_at_set_group by lia.
  destruct (Z.eqb_spec j i) as [->|].
  - eapply same_group_trans; [apply H5; lia|exact Hs].
  - apply H5. lia.
Qed.

Lemma allocator_inv_step a i g' :
  allocator_inv a -> 0 <= i < fNumGroups a ->
  same_group_but_largest (group_at a i) g' ->
  largest_ok (fVolume a) g' = true ->
  allocator_inv (set_group a i g').
Proof.
  intros (H1 & H2 & H3 & H4) Hi Hs Hl.
  destruct (set_group_fields a i g') as (F1 & F2 & F3 & F4).
  unfold allocator_inv. rewrite F1, F2, F4.
  repeat split; try assumption.
  intros j Hj. rewrite group_at_set_group by lia.
  destruct (Z.eqb_spec j i) as [->|].
  - eapply same_group_ok; [exact Hs|exact Hl|apply H4; lia].
  - apply H4. lia.
Qed.

Lemma best_ok_refreshed a a1 gi start len :
  hints_refreshed a a1 ->
  0 <= gi < fNumGroups a ->
  free_run_in (group_bit (fVolume a1) (group_at a1 gi))
    (fNumBits (group_at a1 gi)) start len ->
  run_is_free a gi start len.
Proof.
  intros (H1 & H2 & H3 & H4 & H5) Hgi Hrun.
  destruct (H5 gi Hgi) as (E1 & E2 & E3 & _).
  split; [assumption|]. rewrite H1, E1 in Hrun.
  destruct Hrun as (R1 & R2 & R3 & R4). repeat split; try assumption.
  intros b Hb. rewrite <- (group_bit_same_start _ _ _ b E3). now apply R4.
Qed.

Lemma none_longer_refreshed a a1 gi from len :
  hints_refreshed a a1 -> 0 <= gi < fNumGroups a ->
  none_longer a1 gi from len -> none_longer a gi from len.
Proof.
  intros (H1 & H2 & H3 & H4 & H5) Hgi Hn x y Hxy Hf.
  destruct (H5 gi Hgi) as (E1 & E2 & E3 & _).
  apply Hn; [rewrite E1; assumption|].
  intros b Hb. rewrite H1, (group_bit_same_start _ _ _ b E3). now apply Hf.
Qed.

Lemma visit_groups_spec a0 maximum :
  allocator_inv a0 -> 0 < maximum ->
  forall rounds a groupIndex start best,
    allocator_inv a -> hints_refreshed a0 a ->
    0 <= groupIndex -> 0 <= start < 65536 ->
    -1 <= bestLength best < maximum -> best_ok a0 best ->
    exists best' a',
      visit_groups rounds a groupIndex start maximum best = (Some best', a')
      /\ allocator_inv a' /\ hints_refreshed a0 a'
      /\ bestLength best <= bestLength best'
      /\ best_ok a0 best'
      /\ (maximum <= bestLength best'
          \/ visited a0 groupIndex start rounds (bestLength best')).
Proof.
  intros Hinv0 Hmax.
  induction rounds as [|r IH];
    intros a groupIndex start best Hinv Href Hgi Hs Hb Hbest.
  - exists best, a. cbn. split; [reflexivity|]. split; [assumption|].
    split; [assumption|]. split; [lia|]. split; [assumption|].
    right. intros j Hj. lia.
  - cbn [visit_groups].
    pose proof Hinv as (Hv & Hn & Hlen & Hgroups).
    pose proof Href as (R1 & R2 & R3 & R4 & R5).
    pose proof Hinv0 as (Hv0 & Hn0 & Hlen0 & Hgroups0).
    rewrite Z.rem_mod_nonneg by lia.
    pose proof (Z.mod_pos_bound groupIndex (fNumGroups a) ltac:(lia)) as Hi.
    set (i := groupIndex mod fNumGroups a) in *.
    pose proof (Hgroups i Hi) as Hgok. apply group_ok_spec in Hgok.
    destruct Hgok as (Hgeo & Hc & Hff & Hl).
    destruct (visit_group_spec (fVolume a) (group_at a i) i maximum Hv
                (geometry_ok_group_geometry _ _ Hv Hgeo) Hc Hff Hl Hmax
                start best Hs Hb)
      as ([[e best'] g'] & Hres & Hpost).
    rewrite Hres.
    destruct Hpost as (Hsame & Hl' & Hmono & Hsound & Hexit).
    cbn [fst snd] in *.
    assert (Hinv' : allocator_inv (set_group a i g'))
      by (apply allocator_inv_step; assumption).
    assert (Href' : hints_refreshed a0 (set_group a i g')).
    { apply hints_refreshed_step; try assumption. lia. }
    assert (Hbest' : best_ok a0 best').
    { destruct Hsound as [E|[Eg Hrun]].
      - unfold best_ok in *. unfold best_of in E.
        injection E as E1 E2 E3. rewrite E1, E2, E3. exact Hbest.
      - right. rewrite Eg.
        apply (best_ok_refreshed a0 a); [assumption|lia|assumption]. }
    assert (Hi0 : i = groupIndex mod fNumGroups a0)
      by (unfold i; now rewrite R2).
    destruct e.
    + destruct Hexit as [Hlt Hnone].
      destruct (IH (set_group a i g') (i + 1) 0 best')
        as (best'' & a'' & Hres' & Hinv'' & Href'' & Hmono' & Hbest'' & Hfin);
        try assumption; try lia.
      exists best'', a''. split; [exact Hres'|].
      split; [assumption|]. split; [assumption|]. split; [lia|].
      split; [assumption|].
      destruct Hfin as [Hge|Hvis]; [left; assumption|right].
      intros j Hj. destruct (Z.eqb_spec j 0) as [->|Hne].
      * rewrite Z.add_0_r, <- Hi0.
        apply (none_longer_refreshed a0 a); [assumption|lia|].
        intros x y Hxy Hf. specialize (Hnone x y Hxy Hf). lia.
      * specialize (Hvis (j - 1) ltac:(lia)).
        replace ((i + 1 + (j - 1)) mod fNumGroups a0)
          with ((groupIndex + j) mod fNumGroups a0) in Hvis.
        2:{ rewrite Hi0. replace (groupIndex mod fNumGroups a0 + 1 + (j - 1))
              with (groupIndex mod fNumGroups a0 + j) by lia.
            now rewrite Z.add_mod_idemp_l by lia. }
        destruct (Z.eqb_spec (j - 1) 0) as [E|E].
        -- exact Hvis.
        -- exact Hvis.
    + exists best', (set_group a i g'). split; [reflexivity|].
      split; [assumption|]. split; [assumption|]. split; [assumption|].
      split; [assumption|]. left. assumption.
Qed.

(** ** The search of [AllocateBlocks] as a whole *)

Lemma search_spec a groupIndex start maximum :
  allocator_inv a -> 0 <= groupIndex -> 0 <= start < 65536 ->
  0 < maximum ->
  exists best a',
    visit_groups (Z.to_nat (fNumGroups a + 1)) a groupIndex start maximum
      no_best = (Some best, a')
    /\ allocator_inv a' /\ hints_refreshed a a'
    /\ -1 <= bestLength best /\ best_ok a best
    /\ (maximum <= bestLength best
        \/ forall i, 0 <= i < fNumGroups a ->
             none_longer a i 0 (bestLength best)).
Proof.
  intros Hinv Hgi Hs Hmax.
  destruct (visit_groups_spec a maximum Hinv Hmax
              (Z.to_nat (fNumGroups a + 1)) a groupIndex start no_best)
    as (best & a' & Hres & Hinv' & Href & Hmono & Hbest & Hfin);
    try assumption.
  { apply hints_refreshed_refl. } { cbn. lia. } { left. reflexivity. }
  exists best, a'. split; [exact Hres|]. split; [assumption|].
  split; [assumption|]. split; [cbn in Hmono; lia|]. split; [assumption|].
  destruct Hfin as [Hge|Hvis]; [left; assumption|right].
  intros i Hi. destruct Hinv as (_ & Hn & _). unfold visited in Hvis.
  set (n := fNumGroups a) in *.
  set (d := (i - groupIndex) mod n).
  pose proof (Z.mod_pos_bound (i - groupIndex) n ltac:(lia)) as Hd.
  fold d in Hd.
  set (j := if d =? 0 then n else d).
  assert (Hj : 1 <= j <= n) by (unfold j; destruct (Z.eqb_spec d 0); lia).
  assert (E : (groupIndex + j) mod n = i).
  { assert (Ed : (groupIndex + d) mod n = i).
    { unfold d. rewrite Z.add_mod_idemp_r by lia.
      replace (groupIndex + (i - groupIndex)) with i by lia.
      apply Z.mod_small. lia. }
    unfold j. destruct (Z.eqb_spec d 0) as [E0|]; [|exact Ed].
    rewrite E0, Z.add_0_r in Ed.
    rewrite <- (Z.mul_1_l n) at 1. rewrite Z.mod_add by lia. exact Ed. }
  specialize (Hvis j ltac:(lia)). rewrite E in Hvis.
  destruct (Z.eqb_spec j 0); [lia|]. exact Hvis.
Qed.

(** ** The longest free run of the volume *)

Lemma foldr_max_ge (l : list Z) x : x ∈ l -> x <= foldr Z.max 0 l.
Proof.
  induction l as [|y l IH]; intros Hin.
  - inversion Hin.
  - cbn. apply elem_of_cons in Hin. destruct Hin as [->|Hin]; [lia|].
    specialize (IH Hin). lia.
Qed.

Lemma foldr_max_attained (l : list Z) :
  foldr Z.max 0 l = 0 \/ foldr Z.max 0 l ∈ l.
Proof.
  induction l as [|y l IH]; [left; reflexivity|].
  cbn. destruct (Z.max_spec y (foldr Z.max 0 l)) as [[Hlt E]|[Hle E]];
    rewrite E.
  - destruct IH as [IH|IH]; [left; assumption|right].
    apply elem_of_cons. right. assumption.
  - right. apply elem_of_cons. left. reflexivity.
Qed.

Lemma foldr_max_nonneg (l : list Z) : 0 <= foldr Z.max 0 l.
Proof. induction l; cbn; lia. Qed.

Lemma longest_free_le a i :
  fNumGroups a = Z.of_nat (length (fGroups a)) ->
  0 <= i < fNumGroups a ->
  longest_free (fVolume a) (group_at a i) <= longest_free_run a.
Proof.
  intros Hlen Hi. unfold longest_free_run. apply foldr_max_ge.
  apply list_elem_of_In, in_map_iff. exists (group_at a i).
  split; [reflexivity|]. apply list_elem_of_In, list_elem_of_lookup.
  exists (Z.to_nat i). apply group_at_lookup. lia.
Qed.

Lemma longest_free_run_attained a :
  fNumGroups a = Z.of_nat (length (fGroups a)) ->
  longest_free_run a = 0
  \/ exists i, 0 <= i < fNumGroups a
       /\ longest_free (fVolume a) (group_at a i) = longest_free_run a.
Proof.
  intros Hlen. unfold longest_free_run.
  destruct (foldr_max_attained (map (longest_free (fVolume a)) (fGroups a)))
    as [H|H]; [left; assumption|right].
  apply list_elem_of_In, in_map_iff in H. destruct H as (g & Hg & Hin).
  apply list_elem_of_In, list_elem_of_lookup in Hin. destruct Hin as [k Hk].
  pose proof (lookup_lt_Some _ _ _ Hk) as Hlt.
  exists (Z.of_nat k). split; [lia|].
  unfold group_at. destruct (Z.ltb_spec (Z.of_nat k) 0); [lia|].
  rewrite Nat2Z.id, Hk. exact Hg.
Qed.

Lemma longest_free_run_nonneg a : 0 <= longest_free_run a.
Proof. apply foldr_max_nonneg. Qed.

Lemma run_is_free_le a gi start len :
  fNumGroups a = Z.of_nat (length (fGroups a)) ->
  run_is_free a gi start len -> len <= longest_free_run a.
Proof.
  intros Hlen (Hgi & H1 & H2 & H3 & H4).
  destruct (Z.eq_dec len 0) as [->|Hne];
    [apply longest_free_run_nonneg|].
  etransitivity; [|apply (longest_free_le a gi Hlen Hgi)].
  unfold longest_free.
  replace len with (start + len - start) by lia.
  apply longest_unset_upper; [lia|lia|assumption].
Qed.

Lemma none_longer_run a len :
  fNumGroups a = Z.of_nat (length (fGroups a)) -> 0 <= len ->
  (forall i, 0 <= i < fNumGroups a -> none_longer a i 0 len) ->
  longest_free_run a <= len.
Proof.
  intros Hlen Hl Hall.
  destruct (longest_free_run_attained a Hlen) as [E|(i & Hi & E)]; [lia|].
  rewrite <- E. unfold longest_free.
  set (f := group_bit (fVolume a) (group_at a i)).
  set (n := Z.to_nat (fNumBits (group_at a i))).
  destruct (longest_unset_attained f n) as (x & Hx & Hle & Hf).
  destruct (Z.le_gt_cases (longest_unset f 0 n) 0) as [|Hpos]; [lia|].
  specialize (Hall i Hi x (x + longest_unset f 0 n)).
  assert (x + longest_unset f 0 n - x <= len); [|lia].
  apply Hall; [|exact Hf]. unfold n in *. lia.
Qed.

(** The longest free run is what the search finds, up to [maximum]. *)
Lemma search_finds_longest a groupIndex start maximum :
  allocator_inv a -> 0 <= groupIndex -> 0 <= start < 65536 ->
  0 < maximum ->
  exists best a',
    visit_groups (Z.to_nat (fNumGroups a + 1)) a groupIndex start maximum
      no_best = (Some best, a')
    /\ allocator_inv a' /\ hints_refreshed a a'
    /\ best_ok a best
    /\ bestLength best <= longest_free_run a
    /\ (longest_free_run a = 0 -> bestLength best <= 0)
    /\ (maximum <= bestLength best
        \/ (0 < longest_free_run a
            -> bestLength best = longest_free_run a)).
Proof.
  intros Hinv Hgi Hs Hmax.
  destruct (search_spec a groupIndex start maximum Hinv Hgi Hs Hmax)
    as (best & a' & Hres & Hinv' & Href & Hlow & Hbest & Hfin).
  pose proof Hinv as (_ & _ & Hlen & _).
  pose proof (longest_free_run_nonneg a) as Hnn.
  assert (Hle : bestLength best <= longest_free_run a).
  { destruct Hbest as [E|Hrun]; [lia|].
    apply (run_is_free_le a _ _ _ Hlen Hrun). }
  exists best, a'. split; [exact Hres|]. split; [assumption|].
  split; [assumption|]. split; [assumption|]. split; [assumption|].
  split; [lia|].
  destruct Hfin as [Hge|Hall]; [left; assumption|right].
  intros Hpos.
  destruct (Z.le_gt_cases 0 (bestLength best)) as [H0|H0].
  - pose proof (none_longer_run a _ Hlen H0 Hall). lia.
  - assert (Hall0 : forall i, 0 <= i < fNumGroups a -> none_longer a i 0 0).
    { intros i Hi x y Hxy Hf. specialize (Hall i Hi x y Hxy Hf). lia. }
    pose proof (none_longer_run a 0 Hlen ltac:(lia) Hall0). lia.
Qed.

(** ** [AllocateBlocks] as a whole *)

Lemma round_down_bounds x m :
  0 < m <= x -> m <= round_down x m <= x /\ round_down x m mod m = 0.
Proof.
  intros H. unfold round_down.
  pose proof (Z.div_mod x m ltac:(lia)) as Hdm.
  pose proof (Z.mod_pos_bound x m ltac:(lia)) as Hm.
  assert (1 <= x / m) by (apply Z.div_le_lower_bound; lia).
  split; [nia|]. apply Z.mod_mul. lia.
Qed.

Lemma chosen_length_bounds bestLength maximum minimum :
  1 <= minimum -> minimum <= bestLength -> 1 <= maximum ->
  1 <= chosen_length bestLength maximum minimum
  /\ chosen_length bestLength maximum minimum <= bestLength
  /\ chosen_length bestLength maximum minimum <= maximum
  /\ (minimum <= maximum ->
      minimum <= chosen_length bestLength maximum minimum).
Proof.
  intros H1 H2 H3. unfold chosen_length.
  destruct (Z.gtb_spec bestLength maximum); [lia|].
  destruct (Z.gtb_spec minimum 1); [|lia].
  pose proof (round_down_bounds bestLength minimum ltac:(lia)). lia.
Qed.

Lemma AllocateBlocks_spec a groupIndex start maximum minimum :
  allocator_inv a -> 0 <= groupIndex -> 0 <= start < 65536 ->
  0 < maximum <= 65535 -> 1 <= minimum <= 65535 ->
  exists best a1,
    visit_groups (Z.to_nat (fNumGroups a + 1)) a groupIndex start maximum
      no_best = (Some best, a1)
    /\ allocator_inv a1 /\ hints_refreshed a a1
    /\ best_ok a best
    /\ bestLength best <= longest_free_run a
    /\ (longest_free_run a = 0 -> bestLength best <= 0)
    /\ (maximum <= bestLength best
        \/ (0 < longest_free_run a
            -> bestLength best = longest_free_run a))
    /\ if bestLength best <? minimum
       then AllocateBlocks a groupIndex start maximum minimum
            = Some (B_DEVICE_FULL, None, a1)
       else
         let len := chosen_length (bestLength best) maximum minimum in
         exists a2 c',
           AllocateBlocks a groupIndex start maximum minimum
           = Some (B_OK,
                   Some (mk_block_run (bestGroup best) (bestStart best) len),
                   a2)
           /\ run_is_free a (bestGroup best) (bestStart best)
                (bestLength best)
           /\ allocated_in a1 a2 (bestGroup best) (bestStart best) len c'.
Proof.
  intros Hinv Hgi Hs Hmax Hmin.
  destruct (search_finds_longest a groupIndex start maximum Hinv Hgi Hs
              ltac:(lia))
    as (best & a1 & Hres & Hinv1 & Href & Hbest & Hle & Hzero & Hfin).
  exists best, a1. split; [exact Hres|]. split; [assumption|].
  split; [assumption|]. split; [assumption|]. split; [assumption|].
  split; [assumption|]. split; [assumption|].
  unfold AllocateBlocks.
  rewrite (u16_small start), (u16_small maximum), (u16_small minimum) by lia.
  destruct (Z.eqb_spec maximum 0); [lia|]. rewrite Hres.
  destruct (Z.ltb_spec (bestLength best) minimum) as [Hlt|Hge];
    [reflexivity|].
  fold (chosen_length (bestLength best) maximum minimum).
  destruct (chosen_length_bounds (bestLength best) maximum minimum)
    as (Hl1 & Hl2 & Hl3 & _); try lia.
  set (len := chosen_length (bestLength best) maximum minimum) in *.
  cbv zeta.
  destruct Hbest as [E|Hrun]; [lia|].
  pose proof Hrun as (Hbg & R1 & R2 & R3 & R4).
  pose proof Hinv1 as (Hv1 & Hn1 & Hlen1 & Hgroups1).
  pose proof Href as (F1 & F2 & F3 & F4 & F5).
  destruct (F5 _ Hbg) as (E1 & E2 & E3 & E4 & E5).
  set (bg := bestGroup best) in *. set (bs := bestStart best) in *.
  pose proof (Hgroups1 bg ltac:(lia)) as Hgok.
  apply group_ok_spec in Hgok. destruct Hgok as (Hgeo & _).
  pose proof (geometry_ok_group_geometry _ _ Hv1 Hgeo) as Hgg.
  pose proof Hgg as (HN & _).
  destruct (AllocationGroup_Allocate_spec (fVolume a1) (group_at a1 bg) bs
              len Hv1 Hgg) as (c' & Hal & Hsh & Hfr & Hgb); try lia.
  rewrite Hal.
  eexists. exists c'. split; [rewrite (u16_small bs), (u16_small len) by lia;
                              reflexivity|].
  split; [exact Hrun|].
  unfold allocated_in. cbn.
  destruct (set_group_fields a1 bg (Allocate_info (group_at a1 bg) bs len))
    as (G1 & G2 & G3 & G4).
  split; [reflexivity|]. split; [assumption|]. split; [assumption|].
  split.
  { unfold set_group. destruct (Z.ltb_spec bg 0); [lia|]. reflexivity. }
  split; [assumption|]. split; assumption.
Qed.

(** ** [Free] as a whole *)

Lemma Free_spec a run :
  volume_ok (fVolume a) = true ->
  0 <= allocation_group run < fNumGroups a ->
  group_geometry (fVolume a) (group_at a (allocation_group run)) ->
  0 <= run_start run < 65536 -> 1 <= run_length run <= 65535 ->
  run_start run + run_length run
  <= fNumBits (group_at a (allocation_group run)) ->
  0 <= run_start (Log (fVolume a)) < 65536 ->
  0 <= run_length (Log (fVolume a)) < 65536 ->
  ~ (allocation_group run < allocation_group (Log (fVolume a))
     \/ (allocation_group run = allocation_group (Log (fVolume a))
         /\ run_start run
            < run_start (Log (fVolume a)) + run_length (Log (fVolume a)))) ->
  exists a' c',
    Free a run = Some (B_OK, a')
    /\ freed_in a a' (allocation_group run) (run_start run) (run_length run)
         c'.
Proof.
  intros Hv Hg Hgg Hs Hl Hfit Hls Hll Hres.
  destruct run as [gi start len]. cbn in *.
  pose proof Hgg as (HN & _).
  unfold Free. cbn [allocation_group run_start run_length].
  unfold NumBits.
  rewrite (u32_small (start + len)) by lia.
  rewrite (u32_small (run_start (Log (fVolume a)))) by lia.
  rewrite (u32_small (_ + _)) by lia.
  destruct (Z.ltb_spec gi 0); [lia|].
  destruct (Z.geb_spec gi (fNumGroups a)); [lia|].
  destruct (Z.gtb_spec start (fNumBits (group_at a gi))); [lia|].
  destruct (Z.gtb_spec (start + len) (fNumBits (group_at a gi))); [lia|].
  destruct (Z.eqb_spec len 0); [lia|]. cbn [orb].
  match goal with
  | |- context [if ?c then Some (B_BAD_VALUE, a) else _] =>
      destruct c eqn:E
  end.
  { exfalso. apply Hres. apply orb_true_iff in E.
    destruct E as [E|E]; [left; lia|right].
    apply andb_true_iff in E. destruct E as [E1 E2]. lia. }
  destruct (AllocationGroup_Free_spec (fVolume a) (group_at a gi) start len
              Hv Hgg) as (c' & Hfr & Hsh & Hfrm & Hbits); try lia.
  rewrite Hfr. eexists. exists c'. split; [reflexivity|].
  unfold freed_in. cbn.
  destruct (set_group_fields a gi (Free_info (group_at a gi) start len))
    as (G1 & G2 & G3 & G4).
  split; [reflexivity|]. split; [assumption|]. split; [assumption|].
  split.
  { unfold set_group. destruct (Z.ltb_spec gi 0); [lia|]. reflexivity. }
  split; [assumption|]. split; assumption.
Qed.

(** ** Bits of the cache and bits of a group *)

Lemma chunk_bit_past (data : list Z) bit :
  32 * Z.of_nat (length data) <= bit -> chunk_bit data bit = false.
Proof.
  intros H. unfold chunk_bit.
  assert (Z.of_nat (length data) <= bit / 32)
    by (apply Z.div_le_lower_bound; lia).
  rewrite lookup_ge_None_2 by lia. apply Z.bits_0.
Qed.

Lemma cache_bits_of_group_bits v c' g :
  volume_ok v = true -> group_geometry v g ->
  same_shape (block_cache v) c' ->
  (forall n, ~ (fStart g <= n < fStart g + fNumBitmapBlocks g) ->
     c' !! n = block_cache v !! n) ->
  (forall b, 0 <= b ->
     group_bit (set_block_cache v c') g b = group_bit v g b) ->
  forall n bit, 0 <= bit ->
    cache_bit c' n bit = cache_bit (block_cache v) n bit.
Proof.
  intros Hv Hgg Hsh Hfr Hbits n bit Hbit.
  pose proof Hgg as (HN & Hnb & Hp).
  pose proof (bitsPerBlock_range v Hv) as Hbpb.
  pose proof (bitsPerBlock_chunks v Hv) as Hch.
  unfold cache_bit.
  assert (Hdec : fStart g <= n < fStart g + fNumBitmapBlocks g
                 \/ ~ (fStart g <= n < fStart g + fNumBitmapBlocks g))
    by lia.
  destruct Hdec as [Hin|Hout].
  2:{ rewrite Hfr by assumption. reflexivity. }
  destruct (Hp (n - fStart g) ltac:(lia)) as (data & Hd & Hl).
  replace (fStart g + (n - fStart g)) with n in Hd by lia.
  pose proof (Hsh n) as Hshn. rewrite Hd in Hshn. cbn in Hshn.
  destruct (c' !! n) as [data'|] eqn:Hd'; [|discriminate].
  cbn in Hshn. injection Hshn as Hl'. rewrite Hd. f_equal.
  destruct (Z.lt_ge_cases bit (bitsPerBlock v)) as [Hlt|Hge].
  - set (k := n - fStart g) in *.
    assert (Hgg' : group_geometry (set_block_cache v c') g).
    { apply (group_geometry_preserved v g); auto. }
    assert (Hk : 0 <= k) by (unfold k; lia).
    assert (En : fStart g + k = n) by (unfold k; lia).
    pose proof (view_bits (set_block_cache v c') g Hv k data' bit Hk) as V'.
    pose proof (view_bits v g Hv k data bit Hk) as V.
    change (bitsPerBlock (set_block_cache v c')) with (bitsPerBlock v) in V'.
    change (block_cache (set_block_cache v c')) with c' in V'.
    rewrite En in V', V.
    rewrite <- (V' Hd' ltac:(lia)), <- (V Hd ltac:(lia)).
    apply Hbits. nia.
  - rewrite !chunk_bit_past by lia. reflexivity.
Qed.

(** ** The reserved prefix and the groups of the array *)

Lemma groups_used_spec a : forall count i,
  groups_used a count = true -> 0 <= i < Z.of_nat count ->
  run_used (fVolume a) (group_at a i) 0 (fNumBits (group_at a i)) = true.
Proof.
  induction count as [|k IH]; intros i H Hi; [lia|].
  cbn [groups_used] in H. apply andb_true_iff in H. destruct H as [H1 H2].
  destruct (Z.eq_dec i (Z.of_nat k)) as [->|]; [exact H2|].
  apply IH; [exact H1|lia].
Qed.

Lemma free_bit_not_reserved a gi b :
  reserved_allocated a = true ->
  0 <= gi -> 0 <= b < fNumBits (group_at a gi) ->
  group_bit (fVolume a) (group_at a gi) b = false ->
  ~ (gi < allocation_group (Log (fVolume a))
     \/ (gi = allocation_group (Log (fVolume a))
         /\ b < run_start (Log (fVolume a))
                + run_length (Log (fVolume a)))).
Proof.
  unfold reserved_allocated. cbv zeta. rewrite andb_true_iff.
  intros [H1 H2] Hgi Hb Hfree [Hlt|[-> Hlt]].
  - pose proof (groups_used_spec a _ gi H1 ltac:(lia)) as Hu.
    rewrite (run_used_spec _ _ _ _ b Hu) in Hfree by lia. discriminate.
  - rewrite (run_used_spec _ _ _ _ b H2) in Hfree by lia. discriminate.
Qed.

Lemma group_bit_set_used v x c g b :
  group_bit (set_block_cache (set_used_blocks v x) c) g b
  = group_bit (set_block_cache v c) g b.
Proof. reflexivity. Qed.

Lemma group_bit_used_blocks v x g b :
  group_bit (set_used_blocks v x) g b = group_bit v g b.
Proof. reflexivity. Qed.

Lemma group_at_insert a a' gi g :
  fGroups a' = <[Z.to_nat gi := g]> (fGroups a) ->
  0 <= gi < Z.of_nat (length (fGroups a)) ->
  forall j, 0 <= j ->
    group_at a' j = if j =? gi then g else group_at a j.
Proof.
  intros E Hgi j Hj. unfold group_at. rewrite E.
  destruct (Z.ltb_spec j 0); [lia|].
  destruct (Z.eqb_spec j gi) as [->|].
  - rewrite list_lookup_insert_eq by lia. reflexivity.
  - rewrite list_lookup_insert_ne by lia. reflexivity.
Qed.

(** ** The hints of a group stay exact *)

Lemma Allocate_info_counts g start len :
  fFirstFree (Allocate_info g start len)
  = (if start =? fFirstFree g then start + len else fFirstFree g)
  /\ fFreeBits (Allocate_info g start len) = fFreeBits g - len.
Proof.
  unfold Allocate_info.
  repeat match goal with
         | |- context [if ?c then _ else _] => destruct c
         end; cbn; auto.
Qed.

Lemma Free_info_counts g start len :
  fFirstFree (Free_info g start len)
  = (if fFirstFree g >? start then start else fFirstFree g)
  /\ fFreeBits (Free_info g start len) = fFreeBits g + len.
Proof.
  unfold Free_info.
  repeat match goal with
         | |- context [if ?c then _ else _] => destruct c
         end; cbn; auto.
Qed.

Lemma Allocate_info_largest g start len :
  fLargestValid g = true ->
  let still_largest s l :=
    negb ((l <? s) || (l <? s32 (fNumBits g) - (s + l))) in
  let g' := Allocate_info g start len in
  (fLargestStart g', fLargestLength g', fLargestValid g')
  = if fLargestStart g =? start then
      (fLargestStart g + len, fLargestLength g - len,
       still_largest (fLargestStart g + len) (fLargestLength g - len))
    else if (start >? fLargestStart g)
            && (start <? fLargestStart g + fLargestLength g) then
      (fLargestStart g, start - fLargestStart g,
       still_largest (fLargestStart g) (start - fLargestStart g))
    else (fLargestStart g, fLargestLength g, true).
Proof.
  intros Hvalid. cbv zeta. unfold Allocate_info.
  destruct (start =? fFirstFree g); cbn; rewrite Hvalid;
    destruct (fLargestStart g =? start); cbn;
    try (destruct ((start >? fLargestStart g)
                   && (start <? fLargestStart g + fLargestLength g)); cbn);
    try reflexivity;
    match goal with
    | |- context [if ?c then _ else _] => destruct c; reflexivity
    end.
Qed.

Section GroupHints.

Variable v : Volume.

Variable g : AllocationGroup.

Variable c' : gmap Z (list Z).

Variable start len : Z.

Hypothesis HN : 0 < fNumBits g <= 65536.

Hypothesis Hrun : 0 <= start /\ 0 <= len /\ start + len <= fNumBits g.

Let f := group_bit v g.

Let N := fNumBits g.

Let v' := set_block_cache v c'.

Section Allocated.

Hypothesis Hbits :
  forall b, group_bit v' g b = group_bit v g b || in_range start len b.

Let g' := Allocate_info g start len.

Lemma allocated_bit b : group_bit v' g' b = f b || in_range start len b.
Proof.
  unfold g'. destruct (Allocate_info_geometry g start len) as (_ & _ & G3).
  rewrite (group_bit_same_start v' g _ b G3). apply Hbits.
Qed.

Lemma Allocate_count_ok :
  count_ok v g = true -> run_free v g start len = true ->
  count_ok v' g' = true /\ 0 <= fFreeBits g' <= fNumBits g'.
Proof.
  intros Hc Hfree. apply run_free_spec in Hfree.
  rewrite Z.max_r in Hfree by lia. fold f in Hfree.
  unfold count_ok, free_count in *. apply Z.eqb_eq in Hc.
  destruct (Allocate_info_geometry g start len) as (G1 & _ & _).
  destruct (Allocate_info_counts g start len) as (_ & C2).
  fold g' in G1, C2. rewrite G1, C2, Hc.
  assert (E : count_unset (group_bit v' g') 0 (Z.to_nat (fNumBits g))
              = count_unset f 0 (Z.to_nat (fNumBits g)) - len).
  { apply (count_unset_run f _ 0 _ start len); try lia.
    - intros b Hb. rewrite allocated_bit.
      destruct (in_range start len b) eqn:Er; [|apply orb_false_r].
      unfold in_range in Er. rewrite (Hfree b) by lia. reflexivity.
    - intros b Hb. apply Hfree. lia. }
  rewrite E. split; [apply Z.eqb_refl|].
  pose proof (count_unset_bounds (group_bit v' g') (Z.to_nat (fNumBits g)) 0).
  fold f. lia.
Qed.

Lemma Allocate_first_free_ok :
  first_free_ok v g = true -> first_free_ok v' g' = true.
Proof.
  intros Hff. pose proof (proj1 (first_free_ok_spec v g HN) Hff) as Hlow.
  destruct (Allocate_info_geometry g start len) as (G1 & _ & _).
  destruct (Allocate_info_counts g start len) as (C1 & _).
  fold g' in G1, C1.
  apply first_free_ok_spec; [lia|]. intros b Hb HbN.
  rewrite allocated_bit. rewrite C1 in Hb. rewrite G1 in HbN.
  unfold in_range, f.
  destruct (Z.eqb_spec start (fFirstFree g)) as [E|E].
  - destruct (Z.lt_ge_cases b start).
    + rewrite Hlow by lia. reflexivity.
    + destruct (Z.leb_spec start b); [|lia].
      destruct (Z.ltb_spec b (start + len)); [|lia].
      apply orb_true_r.
  - rewrite Hlow by lia. reflexivity.
Qed.

(** The largest free run reaches a used bit, or the end of the group, on
    both sides. *)
Lemma largest_bounded ls ll :
  0 < ll -> free_run_in f N ls ll ->
  (forall x y, 0 <= x < y /\ y <= N -> free_interval f x y -> y - x <= ll) ->
  (0 < ls -> f (ls - 1) = true) /\ (ls + ll < N -> f (ls + ll) = true).
Proof.
  intros Hll (R1 & R2 & R3 & R4) Hall. split; intros H.
  - destruct (f (ls - 1)) eqn:E; [reflexivity|].
    assert (ls + ll - (ls - 1) <= ll); [|lia].
    apply Hall; [unfold N in *; lia|]. intros b Hb.
    destruct (Z.eq_dec b (ls - 1)) as [->|]; [exact E|]. apply R4. lia.
  - destruct (f (ls + ll)) eqn:E; [reflexivity|].
    assert (ls + ll + 1 - ls <= ll); [|lia].
    apply Hall; [unfold N in *; lia|]. intros b Hb.
    destruct (Z.eq_dec b (ls + ll)) as [->|]; [exact E|]. apply R4. lia.
Qed.

Lemma Allocate_largest_ok :
  largest_ok v g = true -> run_free v g start len = true -> 1 <= len ->
  largest_ok v' g' = true.
Proof.
  intros Hl Hfree Hlen. apply run_free_spec in Hfree.
  rewrite Z.max_r in Hfree by lia. fold f in Hfree.
  destruct (fLargestValid g) eqn:Hvalid.
  2:{ apply largest_ok_invalid. unfold g', Allocate_info.
      destruct (start =? fFirstFree g); cbn; rewrite Hvalid; exact Hvalid. }
  destruct (largest_ok_spec v g HN Hl Hvalid) as [Hlr Hall].
  fold f N in Hlr, Hall. pose proof Hlr as (R1 & R2 & R3 & R4).
  (* the allocated run is no longer than the largest one *)
  assert (Hle : len <= fLargestLength g).
  { replace len with (start + len - start) by lia.
    apply Hall; [unfold N; lia|exact Hfree]. }
  pose proof (largest_bounded (fLargestStart g) (fLargestLength g)
                ltac:(lia) Hlr Hall) as [Hbefore Hafter].
  pose proof (Allocate_info_largest g start len Hvalid) as E.
  cbv zeta in E. fold g' in E. rewrite (s32_small (fNumBits g)) in E by lia.
  destruct (Allocate_info_geometry g start len) as (G1 & _ & _).
  fold g' in G1.
  assert (Hnew : forall x y, 0 <= x < y /\ y <= N ->
            free_interval (group_bit v' g') x y ->
            free_interval f x y
            /\ (y <= start \/ start + len <= x)).
  { intros x y Hxy Hf. split.
    - intros b Hb. specialize (Hf b Hb). rewrite allocated_bit in Hf.
      apply orb_false_iff in Hf. apply Hf.
    - destruct (Z.le_gt_cases y start); [left; assumption|].
      destruct (Z.le_gt_cases (start + len) x); [right; assumption|].
      exfalso. set (b := Z.max x start).
      specialize (Hf b ltac:(unfold b; lia)). rewrite allocated_bit in Hf.
      apply orb_false_iff in Hf. destruct Hf as [_ Hf].
      unfold in_range in Hf. unfold b in Hf.
      destruct (Z.leb_spec start (Z.max x start)); [|lia].
      destruct (Z.ltb_spec (Z.max x start) (start + len)); [|lia].
      discriminate. }
  assert (Hkeep : forall s l, 0 <= s -> 0 <= l -> s + l <= N ->
            free_interval f s (s + l) ->
            (forall b, s <= b < s + l -> in_range start len b = false) ->
            (forall x y, 0 <= x < y /\ y <= N ->
               free_interval f x y -> y <= start \/ start + len <= x ->
               y - x <= l) ->
            fLargestStart g' = s -> fLargestLength g' = l ->
            largest_ok v' g' = true).
  { intros s l Hs0 Hl0 Hsl Hfs Hout Hbound Es El.
    apply largest_ok_intro; [lia| |].
    - rewrite Es, El, G1. repeat split; try assumption.
      intros b Hb. rewrite allocated_bit, (Hfs b Hb), (Hout b Hb).
      reflexivity.
    - rewrite El, G1. intros x y Hxy Hf.
      destruct (Hnew x y Hxy Hf) as [Hf' Hside].
      apply Hbound; assumption. }
  destruct (Z.eqb_spec (fLargestStart g) start) as [Es|Es].
  - (* cut from start *)
    injection E as E1 E2 E3.
    match type of E3 with _ = negb ?c => destruct c eqn:Ecut end;
      cbn in E3; [apply largest_ok_invalid; exact E3|].
    apply orb_false_iff in Ecut. destruct Ecut as [Ec1 Ec2].
    apply Z.ltb_ge in Ec1, Ec2.
    apply (Hkeep (fLargestStart g + len) (fLargestLength g - len));
      try assumption; try lia.
    + intros b Hb. apply R4. lia.
    + intros b Hb. unfold in_range.
      destruct (Z.ltb_spec b (start + len)); [lia|]. apply andb_false_r.
    + intros x y Hxy Hf [Hy|Hx]; [lia|].
      destruct (Z.le_gt_cases y (fLargestStart g + fLargestLength g));
        [lia|].
      destruct (Z.le_gt_cases x (fLargestStart g + fLargestLength g)).
      * rewrite Hf in Hafter by lia. discriminate Hafter. unfold N. lia.
      * unfold N in *. lia.
  - destruct (Z.gtb_spec start (fLargestStart g)) as [Hgt|Hgt];
      [destruct (Z.ltb_spec start (fLargestStart g + fLargestLength g))
         as [Hin|Hin]|]; cbn in E; injection E as E1 E2 E3.
    + (* cut from end *)
      match type of E3 with _ = negb ?c => destruct c eqn:Ecut end;
        cbn in E3; [apply largest_ok_invalid; exact E3|].
      apply orb_false_iff in Ecut. destruct Ecut as [Ec1 Ec2].
      apply Z.ltb_ge in Ec1, Ec2.
      apply (Hkeep (fLargestStart g) (start - fLargestStart g));
        try assumption; try lia.
      * intros b Hb. apply R4. lia.
      * intros b Hb. unfold in_range.
        destruct (Z.leb_spec start b); [lia|]. reflexivity.
      * intros x y Hxy Hf [Hy|Hx]; [|unfold N in *; lia].
        destruct (Z.le_gt_cases (fLargestStart g) x); [lia|].
        destruct (Z.le_gt_cases y (fLargestStart g - 1)); [lia|].
        rewrite Hf in Hbefore by lia. discriminate Hbefore. lia.
    + (* the run lies after the largest one *)
      apply (Hkeep (fLargestStart g) (fLargestLength g));
        try assumption; try lia.
      * intros b Hb. unfold in_range.
        destruct (Z.leb_spec start b); [lia|]. reflexivity.
      * intros x y Hxy Hf _. apply Hall; assumption.
    + (* the run begins before the largest one, and ends before it *)
      assert (Hend : start + len <= fLargestStart g - 1
                     \/ fLargestStart g = 0).
      { destruct (Z.eq_dec (fLargestStart g) 0); [right; assumption|left].
        destruct (Z.le_gt_cases (start + len) (fLargestStart g - 1));
          [assumption|].
        rewrite Hfree in Hbefore by lia. discriminate Hbefore. lia. }
      apply (Hkeep (fLargestStart g) (fLargestLength g));
        try assumption; try lia.
      * intros b Hb. unfold in_range.
        destruct (Z.ltb_spec b (start + len)); [lia|]. apply andb_false_r.
      * intros x y Hxy Hf _. apply Hall; assumption.
Qed.

End Allocated.

Section Freed.

Hypothesis Hbits :
  forall b,
    group_bit v' g b = group_bit v g b && negb (in_range start len b).

Let g' := Free_info g start len.

Lemma freed_bit b :
  group_bit v' g' b = f b && negb (in_range start len b).
Proof.
  unfold g'. destruct (Free_info_geometry g start len) as (_ & _ & G3).
  rewrite (group_bit_same_start v' g _ b G3). apply Hbits.
Qed.

Lemma Free_count_ok :
  count_ok v g = true -> run_used v g start len = true ->
  count_ok v' g' = true /\ 0 <= fFreeBits g' <= fNumBits g'.
Proof.
  intros Hc Hused.
  assert (Hu : forall b, start <= b < start + len -> f b = true).
  { intros b Hb. apply (run_used_spec v g start len b Hused Hb). }
  unfold count_ok, free_count in *. apply Z.eqb_eq in Hc.
  destruct (Free_info_geometry g start len) as (G1 & _ & _).
  destruct (Free_info_counts g start len) as (_ & C2).
  fold g' in G1, C2. rewrite G1, C2, Hc.
  assert (E : count_unset f 0 (Z.to_nat (fNumBits g))
              = count_unset (group_bit v' g') 0 (Z.to_nat (fNumBits g))
                - len).
  { apply (count_unset_run (group_bit v' g') f 0 _ start len); try lia.
    - intros b Hb. rewrite freed_bit.
      destruct (in_range start len b) eqn:Er; cbn.
      + unfold in_range in Er. rewrite (Hu b) by lia. reflexivity.
      + now rewrite andb_true_r.
    - intros b Hb. rewrite freed_bit. unfold in_range.
      destruct (Z.leb_spec start b); [|lia].
      destruct (Z.ltb_spec b (start + len)); [|lia].
      apply andb_false_r. }
  fold f. rewrite E.
  split; [apply Z.eqb_eq; lia|].
  pose proof (count_unset_bounds (group_bit v' g') (Z.to_nat (fNumBits g)) 0).
  pose proof (count_unset_bounds f (Z.to_nat (fNumBits g)) 0).
  lia.
Qed.

Lemma Free_first_free_ok :
  first_free_ok v g = true -> first_free_ok v' g' = true.
Proof.
  intros Hff. pose proof (proj1 (first_free_ok_spec v g HN) Hff) as Hlow.
  destruct (Free_info_geometry g start len) as (G1 & _ & _).
  destruct (Free_info_counts g start len) as (C1 & _).
  fold g' in G1, C1.
  apply first_free_ok_spec; [lia|]. intros b Hb HbN.
  rewrite freed_bit. rewrite C1 in Hb. rewrite G1 in HbN.
  unfold in_range, f.
  destruct (Z.gtb_spec (fFirstFree g) start) as [E|E].
  - rewrite Hlow by lia. destruct (Z.leb_spec start b); [lia|]. reflexivity.
  - rewrite Hlow by lia. destruct (Z.leb_spec start b); [lia|]. reflexivity.
Qed.

Lemma Free_info_largest :
  fLargestStart g' = fLargestStart g
  /\ fLargestLength g' = fLargestLength g
  /\ fLargestValid g'
     = fLargestValid g
       && negb ((start + len =? fLargestStart g)
                || (fLargestStart g + fLargestLength g =? start)
                || ((start <? fLargestStart g)
                    && (fLargestStart g >? fLargestLength g))
                || ((start >? fLargestStart g)
                    && (s32 (fNumBits g)
                        - (fLargestStart g + fLargestLength g)
                        >? fLargestLength g))).
Proof.
  unfold g', Free_info.
  destruct (fFirstFree g >? start); cbn;
    destruct (fLargestValid g) eqn:Hvalid; cbn;
    try (rewrite Hvalid; auto; fail);
    match goal with
    | |- context [if ?c then _ else _] =>
        destruct c; cbn; rewrite ?Hvalid; auto
    end.
Qed.

Lemma Free_largest_ok :
  largest_ok v g = true -> run_used v g start len = true -> 1 <= len ->
  largest_ok v' g' = true.
Proof.
  intros Hl Hused Hlen.
  assert (Hu : forall b, start <= b < start + len -> f b = true).
  { intros b Hb. apply (run_used_spec v g start len b Hused Hb). }
  destruct Free_info_largest as (E1 & E2 & E3).
  rewrite (s32_small (fNumBits g)) in E3 by lia.
  destruct (Free_info_geometry g start len) as (G1 & _ & _).
  fold g' in G1.
  destruct (fLargestValid g) eqn:Hvalid;
    [|apply largest_ok_invalid; rewrite E3; reflexivity].
  cbn [andb] in E3.
  match type of E3 with _ = negb ?c => destruct c eqn:Ec end;
    [apply largest_ok_invalid; exact E3|].
  apply orb_false_iff in Ec. destruct Ec as [Ec Ec4].
  apply orb_false_iff in Ec. destruct Ec as [Ec Ec3].
  apply orb_false_iff in Ec. destruct Ec as [Ec1 Ec2].
  apply Z.eqb_neq in Ec1, Ec2.
  destruct (largest_ok_spec v g HN Hl Hvalid) as [Hlr Hall].
  fold f N in Hlr, Hall. pose proof Hlr as (R1 & R2 & R3 & R4).
  (* the largest run is not empty *)
  assert (Hpos : 0 < fLargestLength g).
  { destruct (Z.lt_ge_cases 0 (fLargestLength g)); [assumption|exfalso].
    assert (E0 : fLargestLength g = 0) by lia. rewrite E0 in *.
    destruct (Z.lt_total start (fLargestStart g)) as [Hc|[Hc|Hc]].
    - destruct (Z.ltb_spec start (fLargestStart g)); [|lia].
      destruct (Z.gtb_spec (fLargestStart g) 0); [discriminate|lia].
    - lia.
    - destruct (Z.gtb_spec start (fLargestStart g)); [|lia].
      destruct (Z.gtb_spec (fNumBits g - (fLargestStart g + 0)) 0);
        [discriminate|]. unfold N in *. lia. }
  pose proof (largest_bounded (fLargestStart g) (fLargestLength g)
                Hpos Hlr Hall) as [Hbefore Hafter].
  (* the freed run and the largest run do not meet *)
  assert (Hside : start + len < fLargestStart g
                  \/ fLargestStart g + fLargestLength g < start).
  { destruct (Z.le_gt_cases (start + len) (fLargestStart g)); [left; lia|].
    destruct (Z.le_gt_cases (fLargestStart g + fLargestLength g) start);
      [right; lia|exfalso].
    set (b := Z.max start (fLargestStart g)).
    pose proof (Hu b ltac:(unfold b; lia)) as Hb1.
    rewrite R4 in Hb1 by (unfold b; lia). discriminate. }
  apply largest_ok_intro; [lia| |].
  - rewrite E1, E2, G1. repeat split; try assumption.
    intros b Hb. rewrite freed_bit, (R4 b Hb). reflexivity.
  - rewrite E2, G1. intros x y Hxy Hf.
    assert (Hin : (forall b, x <= b < y -> in_range start len b = false)
                  \/ exists b, x <= b < y /\ start <= b < start + len).
    { destruct (Z.le_gt_cases y start).
      - left. intros b Hb. unfold in_range.
        destruct (Z.leb_spec start b); [lia|]. reflexivity.
      - destruct (Z.le_gt_cases (start + len) x).
        + left. intros b Hb. unfold in_range.
          destruct (Z.ltb_spec b (start + len)); [lia|].
          apply andb_false_r.
        + right. exists (Z.max x start). lia. }
    destruct Hin as [Hout|(b0 & Hb0 & Hb0')].
    + apply Hall; [assumption|]. intros b Hb.
      specialize (Hf b Hb). rewrite freed_bit, (Hout b Hb) in Hf.
      now rewrite andb_true_r in Hf.
    + destruct Hside as [Hs|Hs].
      * (* freed before the largest run *)
        destruct (Z.ltb_spec start (fLargestStart g)); [|lia].
        destruct (Z.gtb_spec (fLargestStart g) (fLargestLength g));
          [discriminate|].
        assert (Hused' : group_bit v' g' (fLargestStart g - 1) = true).
        { rewrite freed_bit, Hbefore by lia. unfold in_range.
          destruct (Z.ltb_spec (fLargestStart g - 1) (start + len)); [lia|].
          now rewrite andb_false_r. }
        destruct (Z.le_gt_cases y (fLargestStart g - 1)); [lia|].
        rewrite Hf in Hused' by lia. discriminate.
      * (* freed after the largest run *)
        destruct (Z.gtb_spec start (fLargestStart g)); [|lia].
        destruct (Z.gtb_spec
                    (fNumBits g - (fLargestStart g + fLargestLength g))
                    (fLargestLength g)); [discriminate|].
        assert (Hused' :
          group_bit v' g' (fLargestStart g + fLargestLength g) = true).
        { rewrite freed_bit, Hafter by (unfold N in *; lia).
          unfold in_range.
          destruct (Z.leb_spec start (fLargestStart g + fLargestLength g));
            [lia|]. reflexivity. }
        destruct (Z.le_gt_cases x (fLargestStart g + fLargestLength g)).
        -- rewrite Hf in Hused' by lia. discriminate.
        -- unfold N in *. lia.
Qed.

End Freed.

End GroupHints.

(** ** What a group does not see *)

Lemma all_set_ext f f' : forall n from,
  (forall b, from <= b < from + Z.of_nat n -> f b = f' b) ->
  all_set f from n = all_set f' from n.
Proof.
  induction n as [|n IH]; intros from H; cbn; [reflexivity|].
  rewrite (H from) by lia. rewrite (IH (from + 1)); [reflexivity|].
  intros b Hb. apply H. lia.
Qed.

Lemma all_unset_ext f f' : forall n from,
  (forall b, from <= b < from + Z.of_nat n -> f b = f' b) ->
  all_unset f from n = all_unset f' from n.
Proof.
  induction n as [|n IH]; intros from H; cbn; [reflexivity|].
  rewrite (H from) by lia. rewrite (IH (from + 1)); [reflexivity|].
  intros b Hb. apply H. lia.
Qed.

Lemma longest_from_ext f f' : forall n from cur best,
  (forall b, from <= b < from + Z.of_nat n -> f b = f' b) ->
  longest_from f from n cur best = longest_from f' from n cur best.
Proof.
  induction n as [|n IH]; intros from cur best H; cbn; [reflexivity|].
  rewrite (H from) by lia.
  destruct (f' from); apply IH; intros b Hb; apply H; lia.
Qed.

Lemma blocks_cached_ext v v' : forall count first,
  BlockSize v' = BlockSize v ->
  (forall n, first <= n < first + Z.of_nat count ->
     block_cache v' !! n = block_cache v !! n) ->
  blocks_cached v' first count = blocks_cached v first count.
Proof.
  induction count as [|k IH]; intros first Hbs H; cbn; [reflexivity|].
  rewrite (H first) by lia. destruct (block_cache v !! first); [|reflexivity].
  rewrite Hbs. f_equal. apply IH; [assumption|]. intros n Hn. apply H. lia.
Qed.

(** A group is well formed in [v'] when it is in [v] and the two volumes
    have the bitmap blocks of the group in common. *)
Lemma group_ok_frame v v' g :
  volume_ok v = true -> BlockSize v' = BlockSize v ->
  (forall n, fStart g <= n < fStart g + fNumBitmapBlocks g ->
     block_cache v' !! n = block_cache v !! n) ->
  group_ok v g = true -> group_ok v' g = true.
Proof.
  intros Hv Hbs Hfr Hok.
  assert (Hbpb : bitsPerBlock v' = bitsPerBlock v)
    by (unfold bitsPerBlock; now rewrite Hbs).
  apply group_ok_spec in Hok. destruct Hok as (Hgeo & Hc & Hff & Hl).
  pose proof (geometry_ok_group_geometry v g Hv Hgeo) as Hgg.
  pose proof Hgg as (HN & Hnb & Hp).
  pose proof (bitsPerBlock_range v Hv) as Hb.
  pose proof (blocks_cover v g Hv HN Hnb) as (Hc1 & Hc2 & Hc3).
  assert (Hbit : forall b, 0 <= b < fNumBits g ->
                   group_bit v' g b = group_bit v g b).
  { intros b Hb'. unfold group_bit. rewrite Hbpb, Hfr; [reflexivity|].
    assert (0 <= b / bitsPerBlock v) by (apply Z.div_pos; lia).
    assert (b / bitsPerBlock v < fNumBitmapBlocks g).
    { apply Z.div_lt_upper_bound; [lia|]. nia. }
    lia. }
  apply group_ok_spec. repeat split.
  - unfold geometry_ok in *. rewrite Hbpb.
    rewrite (blocks_cached_ext v v'); [exact Hgeo|exact Hbs|].
    intros n Hn. apply Hfr. lia.
  - unfold count_ok, free_count in *.
    rewrite (count_unset_ext _ (group_bit v g)); [exact Hc|].
    intros b Hb'. apply Hbit. lia.
  - unfold first_free_ok in *.
    rewrite (all_set_ext _ (group_bit v g)); [exact Hff|].
    intros b Hb'. apply Hbit. lia.
  - unfold largest_ok in *. destruct (fLargestValid g); [|reflexivity].
    cbn in *. rewrite !andb_true_iff in *.
    destruct Hl as ((((H1 & H2) & H3) & H4) & H5).
    apply Z.leb_le in H1, H2, H3.
    repeat split; try (apply Z.leb_le; assumption).
    + unfold run_free in *.
      rewrite (all_unset_ext _ (group_bit v g)); [exact H4|].
      intros b Hb'. apply Hbit. lia.
    + unfold longest_free, longest_unset in *.
      rewrite (longest_from_ext _ (group_bit v g)); [exact H5|].
      intros b Hb'. apply Hbit. lia.
Qed.

Lemma run_used_frame v v' g start len :
  volume_ok v = true -> group_geometry v g -> BlockSize v' = BlockSize v ->
  (forall n, fStart g <= n < fStart g + fNumBitmapBlocks g ->
     block_cache v' !! n = block_cache v !! n) ->
  0 <= start -> start + len <= fNumBits g ->
  run_used v' g start len = run_used v g start len.
Proof.
  intros Hv (HN & Hnb & Hp) Hbs Hfr Hs Hfit.
  pose proof (bitsPerBlock_range v Hv) as Hb.
  pose proof (blocks_cover v g Hv HN Hnb) as (Hc1 & Hc2 & Hc3).
  unfold run_used. apply all_set_ext. intros b Hb'.
  unfold group_bit, bitsPerBlock. rewrite Hbs.
  fold (bitsPerBlock v). rewrite Hfr; [reflexivity|].
  assert (0 <= b / bitsPerBlock v) by (apply Z.div_pos; lia).
  assert (b / bitsPerBlock v < fNumBitmapBlocks g).
  { apply Z.div_lt_upper_bound; [lia|]. nia. }
  lia.
Qed.

(** ** The layout of the groups *)

Lemma groups_laid_out_spec a : forall count,
  groups_laid_out a count = true <->
  (forall i, 0 <= i < Z.of_nat count ->
     fStart (group_at a i) = 1 + i * fBlocksPerGroup a
     /\ fNumBitmapBlocks (group_at a i) <= fBlocksPerGroup a).
Proof.
  induction count as [|k IH]; cbn [groups_laid_out].
  - split; [intros _ i Hi; lia|reflexivity].
  - rewrite !andb_true_iff, IH, Z.eqb_eq, Z.leb_le. split.
    + intros [[H1 H2] H3] i Hi.
      destruct (Z.eq_dec i (Z.of_nat k)) as [->|]; [auto|].
      apply H1. lia.
    + intros H. split; [split|].
      * intros i Hi. apply H. lia.
      * apply H. lia.
      * apply H. lia.
Qed.

Lemma layout_ok_spec a :
  layout_ok a = true <->
  (forall i, 0 <= i < fNumGroups a ->
     fStart (group_at a i) = 1 + i * fBlocksPerGroup a
     /\ fNumBitmapBlocks (group_at a i) <= fBlocksPerGroup a).
Proof.
  unfold layout_ok. rewrite groups_laid_out_spec. split.
  - intros H i Hi. apply H. lia.
  - intros H i Hi. apply H. lia.
Qed.

(** The bitmap blocks of two groups are apart. *)
Lemma layout_apart a i j n :
  layout_ok a = true -> 0 <= i < fNumGroups a -> 0 <= j < fNumGroups a ->
  i <> j ->
  fStart (group_at a i) <= n
  < fStart (group_at a i) + fNumBitmapBlocks (group_at a i) ->
  ~ (fStart (group_at a j) <= n
     < fStart (group_at a j) + fNumBitmapBlocks (group_at a j)).
Proof.
  intros Hl Hi Hj Hne Hin Hin'.
  destruct (proj1 (layout_ok_spec a) Hl i Hi) as [Ei Li].
  destruct (proj1 (layout_ok_spec a) Hl j Hj) as [Ej Lj].
  rewrite Ei in Hin. rewrite Ej in Hin'.
  assert (i < j \/ j < i) as [H|H] by lia; nia.
Qed.

(** ** The allocator after the allocation or the release of a run *)

Lemma group_changed_inv a a' gi g' :
  allocator_inv a -> layout_ok a = true -> 0 <= gi < fNumGroups a ->
  group_changed a a' gi g' ->
  group_ok (fVolume a') g' = true ->
  allocator_inv a' /\ layout_ok a' = true.
Proof.
  intros (Hv & Hn & Hlen & Hgroups) Hl Hgi
         (C1 & C2 & C3 & C4 & C5 & C6 & C7 & C8 & C9) Hok.
  assert (Hat : forall j, 0 <= j ->
            group_at a' j = if j =? gi then g' else group_at a j).
  { intros j Hj. unfold group_at. rewrite C5.
    destruct (Z.ltb_spec j 0); [lia|].
    destruct (Z.eqb_spec j gi) as [->|].
    - rewrite list_lookup_insert_eq by lia. reflexivity.
    - rewrite list_lookup_insert_ne by lia. reflexivity. }
  split.
  - unfold allocator_inv. rewrite C3, C5, length_insert.
    split; [unfold volume_ok in *; rewrite C1; exact Hv|].
    split; [assumption|]. split; [assumption|].
    intros j Hj. rewrite Hat by lia.
    destruct (Z.eqb_spec j gi) as [->|Hne]; [exact Hok|].
    apply (group_ok_frame (fVolume a)); [assumption|assumption| |auto].
    intros n Hn'. apply C9. rewrite C6, C7.
    apply (layout_apart a j gi n Hl); assumption.
  - apply layout_ok_spec. rewrite C3, C4. intros j Hj.
    rewrite Hat by lia.
    destruct (Z.eqb_spec j gi) as [->|Hne].
    + rewrite C6, C7. apply (proj1 (layout_ok_spec a) Hl). assumption.
    + apply (proj1 (layout_ok_spec a) Hl). assumption.
Qed.

(** ** The invariant of the allocator is kept *)

Lemma group_ok_used_blocks v x g :
  volume_ok v = true -> group_ok v g = true ->
  group_ok (set_used_blocks v x) g = true.
Proof.
  intros Hv. apply group_ok_frame; [assumption|reflexivity|reflexivity].
Qed.

Lemma Allocate_group_ok v g c' start len :
  volume_ok v = true -> group_ok v g = true ->
  0 <= start -> 1 <= len -> start + len <= fNumBits g ->
  run_free v g start len = true ->
  same_shape (block_cache v) c' ->
  (forall b, group_bit (set_block_cache v c') g b
             = group_bit v g b || in_range start len b) ->
  group_ok (set_block_cache v c') (Allocate_info g start len) = true.
Proof.
  intros Hv Hok Hs Hl Hfit Hfree Hshape Hbits.
  apply group_ok_spec in Hok. destruct Hok as (Hgeo & Hc & Hff & Hlg).
  pose proof (geometry_ok_group_geometry v g Hv Hgeo) as Hgg.
  pose proof Hgg as (HN & _).
  destruct (Allocate_info_geometry g start len) as (G1 & G2 & G3).
  apply group_ok_spec. repeat split.
  - apply group_geometry_geometry_ok.
    apply (group_geometry_preserved v g); assumption.
  - apply (Allocate_count_ok v g c' start len HN ltac:(lia) Hbits);
      assumption.
  - apply (Allocate_first_free_ok v g c' start len HN Hbits); assumption.
  - apply (Allocate_largest_ok v g c' start len HN ltac:(lia) Hbits);
      assumption.
Qed.

Lemma Free_group_ok v g c' start len :
  volume_ok v = true -> group_ok v g = true ->
  0 <= start -> 1 <= len -> start + len <= fNumBits g ->
  run_used v g start len = true ->
  same_shape (block_cache v) c' ->
  (forall b, group_bit (set_block_cache v c') g b
             = group_bit v g b && negb (in_range start len b)) ->
  group_ok (set_block_cache v c') (Free_info g start len) = true.
Proof.
  intros Hv Hok Hs Hl Hfit Hused Hshape Hbits.
  apply group_ok_spec in Hok. destruct Hok as (Hgeo & Hc & Hff & Hlg).
  pose proof (geometry_ok_group_geometry v g Hv Hgeo) as Hgg.
  pose proof Hgg as (HN & _).
  destruct (Free_info_geometry g start len) as (G1 & G2 & G3).
  apply group_ok_spec. repeat split.
  - apply group_geometry_geometry_ok.
    apply (group_geometry_preserved v g); assumption.
  - apply (Free_count_ok v g c' start len HN ltac:(lia) Hbits);
      assumption.
  - apply (Free_first_free_ok v g c' start len HN Hbits); assumption.
  - apply (Free_largest_ok v g c' start len HN ltac:(lia) Hbits);
      assumption.
Qed.

Lemma allocated_in_changed a a' gi start len c' :
  allocated_in a a' gi start len c' ->
  group_changed a a' gi (Allocate_info (group_at a gi) start len).
Proof.
  intros (A1 & A2 & A3 & A4 & A5 & A6 & A7).
  destruct (Allocate_info_geometry (group_at a gi) start len)
    as (G1 & G2 & G3).
  unfold group_changed. rewrite A1, G1, G2, G3.
  repeat split; try assumption.
Qed.

Lemma freed_in_changed a a' gi start len c' :
  freed_in a a' gi start len c' ->
  group_changed a a' gi (Free_info (group_at a gi) start len).
Proof.
  intros (A1 & A2 & A3 & A4 & A5 & A6 & A7).
  destruct (Free_info_geometry (group_at a gi) start len)
    as (G1 & G2 & G3).
  unfold group_changed. rewrite A1, G1, G2, G3.
  repeat split; try assumption.
Qed.

Lemma allocated_in_inv a a' gi start len c' :
  allocator_inv a -> layout_ok a = true -> 0 <= gi < fNumGroups a ->
  0 <= start -> 1 <= len -> start + len <= fNumBits (group_at a gi) ->
  run_free (fVolume a) (group_at a gi) start len = true ->
  allocated_in a a' gi start len c' ->
  allocator_inv a' /\ layout_ok a' = true.
Proof.
  intros Hinv Hl Hgi Hs Hlen Hfit Hfree Hal.
  apply (group_changed_inv a a' gi _ Hinv Hl Hgi
           (allocated_in_changed _ _ _ _ _ _ Hal)).
  destruct Hinv as (Hv & _ & _ & Hgroups).
  destruct Hal as (A1 & _ & _ & _ & A5 & _ & A7).
  rewrite A1. apply group_ok_used_blocks.
  { rewrite volume_ok_set_block_cache. assumption. }
  apply Allocate_group_ok; auto.
Qed.

Lemma freed_in_inv a a' gi start len c' :
  allocator_inv a -> layout_ok a = true -> 0 <= gi < fNumGroups a ->
  0 <= start -> 1 <= len -> start + len <= fNumBits (group_at a gi) ->
  run_used (fVolume a) (group_at a gi) start len = true ->
  freed_in a a' gi start len c' ->
  allocator_inv a' /\ layout_ok a' = true.
Proof.
  intros Hinv Hl Hgi Hs Hlen Hfit Hused Hfr.
  apply (group_changed_inv a a' gi _ Hinv Hl Hgi
           (freed_in_changed _ _ _ _ _ _ Hfr)).
  destruct Hinv as (Hv & _ & _ & Hgroups).
  destruct Hfr as (A1 & _ & _ & _ & A5 & _ & A7).
  rewrite A1. apply group_ok_used_blocks.
  { rewrite volume_ok_set_block_cache. assumption. }
  apply Free_group_ok; auto.
Qed.

(** Refreshing the largest-range hints changes neither the layout nor the
    bits. *)
Lemma hints_refreshed_layout a a1 :
  hints_refreshed a a1 -> layout_ok a = true -> layout_ok a1 = true.
Proof.
  intros (R1 & R2 & R3 & R4 & R5) Hl. apply layout_ok_spec.
  rewrite R2, R3. intros i Hi.
  destruct (R5 i Hi) as (S1 & S2 & S3 & _).
  pose proof (proj1 (layout_ok_spec a) Hl i Hi) as [E1 E2].
  unfold same_group_but_largest in *. split; congruence.
Qed.

(** ** The reserved prefix *)

Lemma groups_used_iff a : forall count,
  groups_used a count = true <->
  (forall i b, 0 <= i < Z.of_nat count ->
     0 <= b < fNumBits (group_at a i) ->
     group_bit (fVolume a) (group_at a i) b = true).
Proof.
  induction count as [|k IH]; cbn [groups_used].
  - split; [intros _ i b Hi; lia|reflexivity].
  - rewrite andb_true_iff, IH. unfold run_used. rewrite all_set_spec. split.
    + intros [H1 H2] i b Hi Hb.
      destruct (Z.eq_dec i (Z.of_nat k)) as [->|].
      * apply H2. lia.
      * apply H1; lia.
    + intros H. split.
      * intros i b Hi Hb. apply H; lia.
      * intros b Hb. apply H; lia.
Qed.

Lemma reserved_allocated_iff a :
  reserved_allocated a = true <->
  (forall i b, 0 <= i < allocation_group (Log (fVolume a)) ->
     0 <= b < fNumBits (group_at a i) ->
     group_bit (fVolume a) (group_at a i) b = true)
  /\ (forall b,
        0 <= b < run_start (Log (fVolume a)) + run_length (Log (fVolume a)) ->
        b < fNumBits (group_at a (allocation_group (Log (fVolume a)))) ->
        group_bit (fVolume a)
          (group_at a (allocation_group (Log (fVolume a)))) b = true).
Proof.
  unfold reserved_allocated. cbv zeta.
  rewrite andb_true_iff, groups_used_iff. unfold run_used.
  rewrite all_set_spec. split.
  - intros [H1 H2]. split.
    + intros i b Hi Hb. apply H1; lia.
    + intros b Hb Hb'. apply H2. lia.
  - intros [H1 H2]. split.
    + intros i b Hi Hb. apply H1; lia.
    + intros b Hb. apply H2; lia.
Qed.

(** The bits of the other groups do not change with the group [gi]. *)
Lemma other_group_bits a a' gi g' j b :
  allocator_inv a -> layout_ok a = true -> 0 <= gi < fNumGroups a ->
  group_changed a a' gi g' ->
  0 <= j < fNumGroups a -> j <> gi -> 0 <= b < fNumBits (group_at a j) ->
  group_at a' j = group_at a j
  /\ group_bit (fVolume a') (group_at a' j) b
     = group_bit (fVolume a) (group_at a j) b.
Proof.
  intros (Hv & Hn & Hlen & Hgroups) Hl Hgi
         (C1 & C2 & C3 & C4 & C5 & C6 & C7 & C8 & C9) Hj Hne Hb.
  assert (E : group_at a' j = group_at a j).
  { unfold group_at. rewrite C5.
    rewrite list_lookup_insert_ne by lia. reflexivity. }
  split; [exact E|]. rewrite E.
  pose proof (Hgroups j Hj) as Hok. apply group_ok_spec in Hok.
  destruct Hok as (Hgeo & _).
  pose proof (geometry_ok_group_geometry _ _ Hv Hgeo) as (HN & Hnb & Hp).
  pose proof (bitsPerBlock_range _ Hv) as Hbpb.
  pose proof (blocks_cover _ (group_at a j) Hv HN Hnb) as (Hc1 & Hc2 & Hc3).
  unfold group_bit, bitsPerBlock. rewrite C1.
  fold (bitsPerBlock (fVolume a)). rewrite C9; [reflexivity|].
  rewrite C6, C7.
  assert (0 <= b / bitsPerBlock (fVolume a)) by (apply Z.div_pos; lia).
  assert (b / bitsPerBlock (fVolume a) < fNumBitmapBlocks (group_at a j)).
  { apply Z.div_lt_upper_bound; [lia|]. nia. }
  apply (layout_apart a j gi _ Hl); try assumption. lia.
Qed.

Lemma group_at_outside a i :
  ~ (0 <= i < Z.of_nat (length (fGroups a))) ->
  group_at a i = AllocationGroup_new.
Proof.
  intros H. unfold group_at. destruct (Z.ltb_spec i 0); [reflexivity|].
  rewrite lookup_ge_None_2 by lia. reflexivity.
Qed.

(** A bit of the group [j] is set in [a'], whose group [gi] changed, when
    it is set in [a] and the change keeps it. *)
Lemma changed_group_bit a a' gi g' j b :
  allocator_inv a -> layout_ok a = true -> 0 <= gi < fNumGroups a ->
  group_changed a a' gi g' ->
  (j = gi -> 0 <= b < fNumBits (group_at a gi) ->
     group_bit (fVolume a) (group_at a gi) b = true ->
     group_bit (fVolume a') g' b = true) ->
  0 <= b < fNumBits (group_at a' j) ->
  (0 <= b < fNumBits (group_at a j) ->
   group_bit (fVolume a) (group_at a j) b = true) ->
  group_bit (fVolume a') (group_at a' j) b = true.
Proof.
  intros Hinv Hl Hgi Hch Hkeep Hb Hset.
  pose proof Hinv as (Hv & Hn & Hlen & Hgroups).
  pose proof Hch as (C1 & C2 & C3 & C4 & C5 & C6 & C7 & C8 & C9).
  destruct (Z.eq_dec j gi) as [->|Hne].
  - assert (E : group_at a' gi = g').
    { unfold group_at. rewrite C5. destruct (Z.ltb_spec gi 0); [lia|].
      rewrite list_lookup_insert_eq by lia. reflexivity. }
    rewrite E in *. rewrite C8 in Hb. apply Hkeep; auto.
  - assert (Hin : 0 <= j < fNumGroups a \/ ~ (0 <= j < fNumGroups a))
      by lia.
    destruct Hin as [Hj|Hj].
    + assert (E : group_at a' j = group_at a j).
      { unfold group_at. rewrite C5.
        rewrite list_lookup_insert_ne by lia. reflexivity. }
      rewrite E in Hb.
      destruct (other_group_bits a a' gi g' j b Hinv Hl Hgi Hch Hj Hne Hb)
        as [_ E2].
      rewrite E2. apply Hset. exact Hb.
    + rewrite (group_at_outside a' j) in Hb.
      * cbn in Hb. lia.
      * rewrite C5, length_insert. lia.
Qed.

Lemma changed_reserved a a' gi g' :
  allocator_inv a -> layout_ok a = true -> 0 <= gi < fNumGroups a ->
  group_changed a a' gi g' ->
  (forall b, 0 <= b < fNumBits (group_at a gi) ->
     gi < allocation_group (Log (fVolume a))
     \/ (gi = allocation_group (Log (fVolume a))
         /\ b < run_start (Log (fVolume a))
                + run_length (Log (fVolume a))) ->
     group_bit (fVolume a) (group_at a gi) b = true ->
     group_bit (fVolume a') g' b = true) ->
  reserved_allocated a = true -> reserved_allocated a' = true.
Proof.
  intros Hinv Hl Hgi Hch Hkeep Hres.
  pose proof Hch as (C1 & C2 & _).
  apply reserved_allocated_iff in Hres. destruct Hres as [R1 R2].
  apply reserved_allocated_iff. rewrite C2. split.
  - intros i b Hi Hb.
    apply (changed_group_bit a a' gi g' i b Hinv Hl Hgi Hch).
    + intros -> Hb' Hset. apply Hkeep; [assumption|left; lia|assumption].
    + exact Hb.
    + intros Hb'. apply R1; assumption.
  - intros b Hb Hb'.
    apply (changed_group_bit a a' gi g' _ b Hinv Hl Hgi Hch).
    + intros E Hb'' Hset.
      apply Hkeep; [assumption|right; split; [auto|lia]|assumption].
    + lia.
    + intros Hb''. apply R2; lia.
Qed.

Lemma allocated_in_reserved a a' gi start len c' :
  allocator_inv a -> layout_ok a = true -> 0 <= gi < fNumGroups a ->
  allocated_in a a' gi start len c' ->
  reserved_allocated a = true -> reserved_allocated a' = true.
Proof.
  intros Hinv Hl Hgi Hal.
  apply (changed_reserved a a' gi _ Hinv Hl Hgi
           (allocated_in_changed _ _ _ _ _ _ Hal)).
  intros b Hb _ Hset.
  destruct Hal as (A1 & _ & _ & _ & _ & _ & A7).
  rewrite A1.
  destruct (Allocate_info_geometry (group_at a gi) start len)
    as (_ & _ & G3).
  rewrite (group_bit_same_start _ (group_at a gi) _ b G3).
  change (group_bit (set_block_cache (fVolume a) c') (group_at a gi) b
          = true).
  rewrite A7, Hset. reflexivity.
Qed.

Lemma freed_in_reserved a a' gi start len c' :
  allocator_inv a -> layout_ok a = true -> 0 <= gi < fNumGroups a ->
  freed_in a a' gi start len c' ->
  ~ (gi < allocation_group (Log (fVolume a))
     \/ (gi = allocation_group (Log (fVolume a))
         /\ start < run_start (Log (fVolume a))
                    + run_length (Log (fVolume a)))) ->
  reserved_allocated a = true -> reserved_allocated a' = true.
Proof.
  intros Hinv Hl Hgi Hfr Hnot.
  apply (changed_reserved a a' gi _ Hinv Hl Hgi
           (freed_in_changed _ _ _ _ _ _ Hfr)).
  intros b Hb Hr Hset.
  destruct Hfr as (A1 & _ & _ & _ & _ & _ & A7).
  rewrite A1.
  destruct (Free_info_geometry (group_at a gi) start len)
    as (_ & _ & G3).
  rewrite (group_bit_same_start _ (group_at a gi) _ b G3).
  change (group_bit (set_block_cache (fVolume a) c') (group_at a gi) b
          = true).
  rewrite A7, Hset. unfold in_range.
  destruct (Z.leb_spec start b); [|reflexivity]. lia.
Qed.

(** ** What a successful [AllocateBlocks] did *)

Lemma refreshed_bits a a1 i b :
  hints_refreshed a a1 -> 0 <= i < fNumGroups a ->
  fNumBits (group_at a1 i) = fNumBits (group_at a i)
  /\ group_bit (fVolume a1) (group_at a1 i) b
     = group_bit (fVolume a) (group_at a i) b.
Proof.
  intros (F1 & F2 & F3 & F4 & F5) Hi.
  destruct (F5 i Hi) as (E1 & E2 & E3 & E4 & E5).
  split; [exact E1|]. rewrite F1. apply group_bit_same_start. exact E3.
Qed.

Lemma AllocateBlocks_success a groupIndex start maximum minimum run a' :
  allocator_inv a -> 0 <= groupIndex -> 0 <= start < 65536 ->
  0 < maximum <= 65535 -> 1 <= minimum <= 65535 ->
  AllocateBlocks a groupIndex start maximum minimum
  = Some (B_OK, Some run, a') ->
  exists a1 c',
    allocator_inv a1 /\ hints_refreshed a a1
    /\ 0 <= allocation_group run < fNumGroups a
    /\ 1 <= run_length run <= maximum
    /\ free_run_in
         (group_bit (fVolume a) (group_at a (allocation_group run)))
         (fNumBits (group_at a (allocation_group run)))
         (run_start run) (run_length run)
    /\ allocated_in a1 a' (allocation_group run) (run_start run)
         (run_length run) c'.
Proof.
  intros Hinv Hgi Hs Hmax Hmin Hcall.
  destruct (AllocateBlocks_spec a groupIndex start maximum minimum Hinv Hgi Hs
              Hmax Hmin)
    as (best & a1 & _ & Hinv1 & Href & _ & _ & _ & _ & Hspec).
  destruct (Z.ltb_spec (bestLength best) minimum) as [Hlt|Hge].
  { rewrite Hspec in Hcall. discriminate. }
  destruct Hspec as (a2 & c1 & Hcall' & Hrun & Hal).
  rewrite Hcall' in Hcall. injection Hcall as <- <-.
  destruct (chosen_length_bounds (bestLength best) maximum minimum)
    as (L1 & L2 & L3 & _); try lia.
  destruct Hrun as (Hbg & R1 & R2 & R3 & R4).
  exists a1, c1. cbn [allocation_group run_start run_length].
  split; [assumption|]. split; [assumption|]. split; [assumption|].
  split; [lia|]. split; [|assumption].
  repeat split; try lia. intros b Hb. apply R4. lia.
Qed.

Lemma free_run_run_free v g start len :
  free_run_in (group_bit v g) (fNumBits g) start len ->
  run_free v g start len = true.
Proof.
  intros (R1 & R2 & R3 & R4). apply run_free_spec.
  rewrite Z.max_r by assumption. exact R4.
Qed.

Lemma AllocateBlocks_full a groupIndex start maximum minimum status a' :
  allocator_inv a -> 0 <= groupIndex -> 0 <= start < 65536 ->
  0 < maximum <= 65535 -> 1 <= minimum <= 65535 ->
  AllocateBlocks a groupIndex start maximum minimum
  = Some (status, None, a') ->
  status = B_DEVICE_FULL /\ allocator_inv a' /\ hints_refreshed a a'.
Proof.
  intros Hinv Hgi Hs Hmax Hmin Hcall.
  destruct (AllocateBlocks_spec a groupIndex start maximum minimum Hinv Hgi Hs
              Hmax Hmin)
    as (best & a1 & _ & Hinv1 & Href & _ & _ & _ & _ & Hspec).
  destruct (Z.ltb_spec (bestLength best) minimum) as [Hlt|Hge].
  - rewrite Hspec in Hcall. injection Hcall as <- <-. auto.
  - destruct Hspec as (a2 & c1 & Hcall' & _). rewrite Hcall' in Hcall.
    discriminate.
Qed.

Lemma AllocateBlocks_returns a groupIndex start maximum minimum :
  allocator_inv a -> 0 <= groupIndex -> 0 <= start < 65536 ->
  0 < maximum <= 65535 -> 1 <= minimum <= 65535 ->
  (exists a', AllocateBlocks a groupIndex start maximum minimum
              = Some (B_DEVICE_FULL, None, a'))
  \/ (exists run a', AllocateBlocks a groupIndex start maximum minimum
                     = Some (B_OK, Some run, a')).
Proof.
  intros Hinv Hgi Hs Hmax Hmin.
  destruct (AllocateBlocks_spec a groupIndex start maximum minimum Hinv Hgi Hs
              Hmax Hmin)
    as (best & a1 & _ & Hinv1 & Href & _ & _ & _ & _ & Hspec).
  destruct (Z.ltb_spec (bestLength best) minimum) as [Hlt|Hge].
  - left. eauto.
  - right. destruct Hspec as (a2 & c1 & Hcall' & _). eauto.
Qed.

Lemma refreshed_reserved a a1 :
  hints_refreshed a a1 -> allocator_inv a ->
  reserved_allocated a = true -> reserved_allocated a1 = true.
Proof.
  intros Href (_ & Hn & Hlen & _) Hres.
  pose proof Href as (F1 & F2 & F3 & F4 & F5).
  apply reserved_allocated_iff in Hres. destruct Hres as [R1 R2].
  assert (Hat : forall i b, 0 <= b < fNumBits (group_at a1 i) ->
            0 <= i < fNumGroups a).
  { intros i b Hb.
    assert (Hin : 0 <= i < fNumGroups a \/ ~ (0 <= i < fNumGroups a))
      by lia.
    destruct Hin as [|Hout]; [assumption|].
    rewrite (group_at_outside a1 i) in Hb by lia. cbn in Hb. lia. }
  apply reserved_allocated_iff. rewrite F1. split.
  - intros i b Hi Hb. pose proof (Hat i b Hb) as Hi'.
    destruct (refreshed_bits a a1 i b Href Hi') as [E1 E2].
    rewrite F1 in E2. rewrite E2. apply R1; [assumption|]. lia.
  - intros b Hb Hb'.
    pose proof (Hat _ b ltac:(split; [lia|exact Hb'])) as Hi'.
    destruct (refreshed_bits a a1 _ b Href Hi') as [E1 E2].
    rewrite F1 in E2. rewrite E2. apply R2; [assumption|]. lia.
Qed.

(** ** The allocator stays well formed *)

Lemma AllocateBlocks_invariant_step a groupIndex start maximum minimum :
  allocator_ok a = true -> layout_ok a = true ->
  0 <= groupIndex -> 0 <= start < 65536 ->
  0 < maximum <= 65535 -> 1 <= minimum <= 65535 ->
  exists status run a',
    AllocateBlocks a groupIndex start maximum minimum
    = Some (status, run, a')
    /\ (status = B_OK \/ status = B_DEVICE_FULL)
    /\ (status = B_OK <-> run <> None)
    /\ allocator_ok a' = true /\ layout_ok a' = true
    /\ (reserved_allocated a = true -> reserved_allocated a' = true).
Proof.
  intros Hok Hl Hgi Hs Hmax Hmin. apply allocator_ok_inv in Hok.
  destruct (AllocateBlocks_returns a groupIndex start maximum minimum Hok Hgi
              Hs Hmax Hmin) as [(a' & Hcall)|(run & a' & Hcall)].
  - destruct (AllocateBlocks_full a groupIndex start maximum minimum _ a'
                Hok Hgi Hs Hmax Hmin Hcall) as (_ & Hinv' & Href).
    exists B_DEVICE_FULL, None, a'. split; [exact Hcall|].
    split; [auto|]. split; [split; [discriminate|congruence]|].
    split; [apply allocator_ok_inv; exact Hinv'|].
    split; [apply (hints_refreshed_layout a); assumption|].
    apply refreshed_reserved; assumption.
  - destruct (AllocateBlocks_success a groupIndex start maximum minimum run a'
                Hok Hgi Hs Hmax Hmin Hcall)
      as (a1 & c' & Hinv1 & Href & Hg & Hlen & Hfree & Hal).
    pose proof Href as (F1 & F2 & F3 & F4 & F5).
    pose proof (hints_refreshed_layout a a1 Href Hl) as Hl1.
    destruct (refreshed_bits a a1 (allocation_group run) 0 Href Hg)
      as [EN _].
    assert (Hfree1 : free_run_in
              (group_bit (fVolume a1) (group_at a1 (allocation_group run)))
              (fNumBits (group_at a1 (allocation_group run)))
              (run_start run) (run_length run)).
    { destruct Hfree as (R1 & R2 & R3 & R4). rewrite EN.
      repeat split; try assumption. intros b Hb.
      rewrite (proj2 (refreshed_bits a a1 _ b Href Hg)). apply R4, Hb. }
    pose proof Hfree1 as (R1 & R2 & R3 & R4).
    assert (Hg1 : 0 <= allocation_group run < fNumGroups a1) by lia.
    destruct (allocated_in_inv a1 a' _ _ _ c' Hinv1 Hl1 Hg1 R1
                (proj1 Hlen) R3 (free_run_run_free _ _ _ _ Hfree1) Hal)
      as [Hinv' Hl'].
    exists B_OK, (Some run), a'. split; [exact Hcall|].
    split; [auto|]. split; [split; [discriminate|reflexivity]|].
    split; [apply allocator_ok_inv; exact Hinv'|]. split; [exact Hl'|].
    intros Hres.
    apply (allocated_in_reserved a1 a' _ _ _ c' Hinv1 Hl1 Hg1 Hal).
    apply (refreshed_reserved a); assumption.
Qed.

(** ** The run [AllocateBlocks] returns *)

Lemma allocated_in_used a a' gi start len c' :
  0 <= gi < Z.of_nat (length (fGroups a)) ->
  allocated_in a a' gi start len c' ->
  fNumBits (group_at a' gi) = fNumBits (group_at a gi)
  /\ fFreeBits (group_at a' gi) = fFreeBits (group_at a gi) - len
  /\ used_blocks (fVolume a') = used_blocks (fVolume a) + len
  /\ forall b,
       group_bit (fVolume a') (group_at a' gi) b
       = group_bit (fVolume a) (group_at a gi) b || in_range start len b.
Proof.
  intros Hgi (A1 & A2 & A3 & A4 & A5 & A6 & A7).
  assert (E : group_at a' gi = Allocate_info (group_at a gi) start len).
  { rewrite (group_at_insert a a' gi _ A4 Hgi) by lia.
    now rewrite Z.eqb_refl. }
  destruct (Allocate_info_geometry (group_at a gi) start len)
    as (G1 & G2 & G3).
  destruct (Allocate_info_counts (group_at a gi) start len) as (_ & C2).
  rewrite E, A1. split; [exact G1|]. split; [exact C2|].
  split; [reflexivity|]. intros b.
  rewrite (group_bit_same_start _ (group_at a gi) _ b G3). apply A7.
Qed.

Lemma AllocateBlocks_run_facts a groupIndex start maximum minimum run a' :
  allocator_ok a = true ->
  0 <= groupIndex -> 0 <= start < 65536 ->
  0 < maximum <= 65535 -> 1 <= minimum <= 65535 ->
  AllocateBlocks a groupIndex start maximum minimum
  = Some (B_OK, Some run, a') ->
  let g := group_at a (allocation_group run) in
  let g' := group_at a' (allocation_group run) in
  0 <= allocation_group run < fNumGroups a
  /\ 0 <= run_start run /\ 1 <= run_length run <= maximum
  /\ run_start run + run_length run <= fNumBits g
  /\ run_free (fVolume a) g (run_start run) (run_length run) = true
  /\ run_used (fVolume a') g' (run_start run) (run_length run) = true
  /\ (forall b, ~ (run_start run <= b < run_start run + run_length run) ->
        group_bit (fVolume a') g' b = group_bit (fVolume a) g b)
  /\ fFreeBits g' = fFreeBits g - run_length run
  /\ used_blocks (fVolume a') = used_blocks (fVolume a) + run_length run
  /\ (reserved_allocated a = true ->
      ~ (allocation_group run < allocation_group (Log (fVolume a))
         \/ (allocation_group run = allocation_group (Log (fVolume a))
             /\ run_start run
                < run_start (Log (fVolume a))
                  + run_length (Log (fVolume a))))).
Proof.
  intros Hok Hgi Hs Hmax Hmin Hcall. apply allocator_ok_inv in Hok.
  destruct (AllocateBlocks_success a groupIndex start maximum minimum run a'
              Hok Hgi Hs Hmax Hmin Hcall)
    as (a1 & c' & Hinv1 & Href & Hg & Hlen & Hfree & Hal).
  pose proof Href as (F1 & F2 & F3 & F4 & F5).
  pose proof Hinv1 as (_ & _ & Hlen1 & _).
  destruct (F5 _ Hg) as (E1 & E2 & E3 & E4 & E5).
  assert (Hg1 : 0 <= allocation_group run
                < Z.of_nat (length (fGroups a1))) by lia.
  destruct (allocated_in_used a1 a' _ _ _ c' Hg1 Hal)
    as (U1 & U2 & U3 & U4).
  pose proof Hfree as (R1 & R2 & R3 & R4).
  cbv zeta. split; [assumption|]. split; [assumption|].
  split; [assumption|]. split; [assumption|].
  split; [apply free_run_run_free; assumption|].
  assert (Hbits : forall b,
            group_bit (fVolume a') (group_at a' (allocation_group run)) b
            = group_bit (fVolume a) (group_at a (allocation_group run)) b
              || in_range (run_start run) (run_length run) b).
  { intros b. rewrite U4.
    rewrite (proj2 (refreshed_bits a a1 _ b Href Hg)). reflexivity. }
  split.
  { unfold run_used. apply all_set_spec. intros b Hb. rewrite Hbits.
    unfold in_range.
    destruct (Z.leb_spec (run_start run) b); [|lia].
    destruct (Z.ltb_spec b (run_start run + run_length run)); [|lia].
    apply orb_true_r. }
  split.
  { intros b Hb. rewrite Hbits. unfold in_range.
    destruct (Z.leb_spec (run_start run) b); cbn;
      [|apply orb_false_r].
    destruct (Z.ltb_spec b (run_start run + run_length run)); [lia|].
    apply orb_false_r. }
  split; [rewrite U2, E5; reflexivity|].
  split; [rewrite U3, F1; reflexivity|].
  intros Hres.
  apply (free_bit_not_reserved a _ (run_start run) Hres); [lia|lia|].
  apply R4. lia.
Qed.

(** ** What a successful [Free] did *)

Lemma Free_success a run a' :
  allocator_inv a ->
  0 <= run_start (Log (fVolume a)) < 65536 ->
  0 <= run_length (Log (fVolume a)) < 65536 ->
  0 <= run_start run < 65536 -> 0 <= run_length run <= 65535 ->
  Free a run = Some (B_OK, a') ->
  exists c',
    0 <= allocation_group run < fNumGroups a
    /\ 1 <= run_length run
    /\ run_start run + run_length run
       <= fNumBits (group_at a (allocation_group run))
    /\ ~ (allocation_group run < allocation_group (Log (fVolume a))
          \/ (allocation_group run = allocation_group (Log (fVolume a))
              /\ run_start run
                 < run_start (Log (fVolume a))
                   + run_length (Log (fVolume a))))
    /\ freed_in a a' (allocation_group run) (run_start run)
         (run_length run) c'.
Proof.
  intros Hinv Hls Hll Hs Hl Hcall.
  pose proof Hinv as (Hv & Hn & Hlen & Hgroups).
  assert (Hvalid :
    (0 <= allocation_group run < fNumGroups a
     /\ 1 <= run_length run
     /\ run_start run + run_length run
        <= fNumBits (group_at a (allocation_group run)))
    /\ ~ (allocation_group run < allocation_group (Log (fVolume a))
          \/ (allocation_group run = allocation_group (Log (fVolume a))
              /\ run_start run
                 < run_start (Log (fVolume a))
                   + run_length (Log (fVolume a))))).
  { revert Hcall. unfold Free, NumBits.
    rewrite (u32_small (run_start run + run_length run)) by lia.
    rewrite (u32_small (run_start (Log (fVolume a)))) by lia.
    rewrite (u32_small (_ + _)) by lia.
    destruct (Z.ltb_spec (allocation_group run) 0); cbn [orb];
      [discriminate|].
    destruct (Z.geb_spec (allocation_group run) (fNumGroups a)); cbn [orb];
      [discriminate|].
    destruct (Z.gtb_spec (run_start run)
                (fNumBits (group_at a (allocation_group run)))); cbn [orb];
      [discriminate|].
    destruct (Z.gtb_spec (run_start run + run_length run)
                (fNumBits (group_at a (allocation_group run)))); cbn [orb];
      [discriminate|].
    destruct (Z.eqb_spec (run_length run) 0); [discriminate|].
    destruct (Z.ltb_spec (allocation_group run)
                (allocation_group (Log (fVolume a)))); cbn [orb];
      [discriminate|].
    destruct (Z.eqb_spec (allocation_group run)
                (allocation_group (Log (fVolume a)))); cbn [andb orb].
    - destruct (Z.ltb_spec (run_start run)
                  (run_start (Log (fVolume a))
                   + run_length (Log (fVolume a)))); [discriminate|].
      intros _. split; [lia|]. lia.
    - intros _. split; [lia|]. lia. }
  destruct Hvalid as [(V1 & V2 & V3) V4].
  pose proof (Hgroups _ V1) as Hgok. apply group_ok_spec in Hgok.
  destruct Hgok as (Hgeo & _).
  pose proof (geometry_ok_group_geometry _ _ Hv Hgeo) as Hgg.
  destruct (Free_spec a run Hv V1 Hgg Hs ltac:(lia) V3 Hls Hll V4)
    as (a'' & c' & Hcall' & Hfr).
  rewrite Hcall' in Hcall. injection Hcall as <-.
  exists c'. auto.
Qed.

Lemma freed_in_free a a' gi start len c' :
  0 <= gi < Z.of_nat (length (fGroups a)) ->
  freed_in a a' gi start len c' ->
  fNumBits (group_at a' gi) = fNumBits (group_at a gi)
  /\ fFreeBits (group_at a' gi) = fFreeBits (group_at a gi) + len
  /\ used_blocks (fVolume a') = used_blocks (fVolume a) - len
  /\ forall b,
       group_bit (fVolume a') (group_at a' gi) b
       = group_bit (fVolume a) (group_at a gi) b
         && negb (in_range start len b).
Proof.
  intros Hgi (A1 & A2 & A3 & A4 & A5 & A6 & A7).
  assert (E : group_at a' gi = Free_info (group_at a gi) start len).
  { rewrite (group_at_insert a a' gi _ A4 Hgi) by lia.
    now rewrite Z.eqb_refl. }
  destruct (Free_info_geometry (group_at a gi) start len)
    as (G1 & G2 & G3).
  destruct (Free_info_counts (group_at a gi) start len) as (_ & C2).
  rewrite E, A1. split; [exact G1|]. split; [exact C2|].
  split; [reflexivity|]. intros b.
  rewrite (group_bit_same_start _ (group_at a gi) _ b G3). apply A7.
Qed.

Lemma Free_invariant_step a run a' :
  allocator_inv a -> layout_ok a = true ->
  0 <= run_start (Log (fVolume a)) < 65536 ->
  0 <= run_length (Log (fVolume a)) < 65536 ->
  0 <= run_start run < 65536 -> 0 <= run_length run <= 65535 ->
  run_used (fVolume a) (group_at a (allocation_group run)) (run_start run)
    (run_length run) = true ->
  Free a run = Some (B_OK, a') ->
  allocator_inv a' /\ layout_ok a' = true
  /\ (reserved_allocated a = true -> reserved_allocated a' = true)
  /\ run_free (fVolume a') (group_at a' (allocation_group run))
       (run_start run) (run_length run) = true
  /\ (forall b, ~ (run_start run <= b < run_start run + run_length run) ->
        group_bit (fVolume a') (group_at a' (allocation_group run)) b
        = group_bit (fVolume a) (group_at a (allocation_group run)) b)
  /\ fFreeBits (group_at a' (allocation_group run))
     = fFreeBits (group_at a (allocation_group run)) + run_length run
  /\ used_blocks (fVolume a') = used_blocks (fVolume a) - run_length run.
Proof.
  intros Hinv Hl Hls Hll Hs Hlen Hused Hcall.
  destruct (Free_success a run a' Hinv Hls Hll Hs Hlen Hcall)
    as (c' & V1 & V2 & V3 & V4 & Hfr).
  pose proof Hinv as (_ & _ & Hlength & _).
  destruct (freed_in_inv a a' _ _ _ c' Hinv Hl V1 (proj1 Hs) V2 V3 Hused
              Hfr) as [Hinv' Hl'].
  assert (Hg : 0 <= allocation_group run < Z.of_nat (length (fGroups a)))
    by lia.
  destruct (freed_in_free a a' _ _ _ c' Hg Hfr) as (U1 & U2 & U3 & U4).
  split; [assumption|]. split; [assumption|].
  split; [apply (freed_in_reserved a a' _ _ _ c' Hinv Hl V1 Hfr V4)|].
  split.
  { apply run_free_spec. intros b Hb. rewrite U4. unfold in_range.
    destruct (Z.leb_spec (run_start run) b); [|lia].
    destruct (Z.ltb_spec b (run_start run + run_length run)); [|lia].
    apply andb_false_r. }
  split.
  { intros b Hb. rewrite U4. unfold in_range.
    destruct (Z.leb_spec (run_start run) b); cbn; [|apply andb_true_r].
    destruct (Z.ltb_spec b (run_start run + run_length run)); [lia|].
    apply andb_true_r. }
  split; assumption.
Qed.

(** ** Formatting a volume *)

Lemma format_ok_spec v :
  format_ok v = true ->
  let numBits := 8 * BlocksPerAllocationGroup v * BlockSize v in
  let reserved := run_start (Log v) + run_length (Log v) in
  volume_ok v = true
  /\ 0 <= BlockShift v /\ BlockSize v = 2 ^ BlockShift v
  /\ 1 <= AllocationGroups v
  /\ 1 <= BlocksPerAllocationGroup v /\ numBits <= 65536
  /\ (AllocationGroups v - 1) * numBits < NumBlocks v
     <= AllocationGroups v * numBits
  /\ allocation_group (Log v) = 0
  /\ 0 <= run_start (Log v) /\ 0 <= run_length (Log v)
  /\ 1 <= reserved <= 65535 /\ reserved <= Z.min numBits (NumBlocks v).
Proof.
  unfold format_ok. cbv zeta.
  rewrite !andb_true_iff, !Z.leb_le, !Z.eqb_eq, !Z.ltb_lt.
  intros H. repeat match goal with H : _ /\ _ |- _ => destruct H end.
  repeat split; assumption.
Qed.

Lemma clear_blocks_lookup data : forall count offset cache n,
  clear_blocks count offset data cache !! n
  = if (offset <=? n) && (n <? offset + Z.of_nat count) then Some data
    else cache !! n.
Proof.
  induction count as [|k IH]; intros offset cache n; cbn [clear_blocks].
  - destruct (Z.leb_spec offset n); cbn; [|reflexivity].
    destruct (Z.ltb_spec n (offset + Z.of_nat 0)); [lia|reflexivity].
  - rewrite IH.
    destruct (Z.eq_dec n offset) as [->|Hne].
    + rewrite lookup_insert_eq.
      destruct (Z.leb_spec (offset + 1) offset); [lia|]. cbn.
      destruct (Z.leb_spec offset offset); [|lia]. cbn.
      destruct (Z.ltb_spec offset (offset + Z.of_nat (S k))); [|lia].
      reflexivity.
    + rewrite lookup_insert_ne by congruence.
      destruct (Z.leb_spec (offset + 1) n), (Z.leb_spec offset n);
        try lia; cbn; [|reflexivity].
      destruct (Z.ltb_spec n (offset + 1 + Z.of_nat k)),
               (Z.ltb_spec n (offset + Z.of_nat (S k)));
        try lia; reflexivity.
Qed.

Lemma clear_groups_spec numBits : forall r a i offset,
  0 <= i -> i + Z.of_nat r <= Z.of_nat (length (fGroups a)) ->
  0 <= fBlocksPerGroup a ->
  let a' := clear_groups r a numBits i offset in
  let zero := replicate (Z.to_nat (BlockSize (fVolume a) / 4)) 0 in
  fNumGroups a' = fNumGroups a
  /\ fBlocksPerGroup a' = fBlocksPerGroup a
  /\ length (fGroups a') = length (fGroups a)
  /\ fVolume a' = set_block_cache (fVolume a) (block_cache (fVolume a'))
  /\ (forall n,
        block_cache (fVolume a') !! n
        = if (offset <=? n)
             && (n <? offset + Z.of_nat r * fBlocksPerGroup a)
          then Some zero else block_cache (fVolume a) !! n)
  /\ (forall j, 0 <= j ->
        group_at a' j
        = if (i <=? j) && (j <? i + Z.of_nat r)
          then cleared_group (fVolume a) (fNumGroups a) (fBlocksPerGroup a)
                 numBits j (offset + (j - i) * fBlocksPerGroup a)
          else group_at a j).
Proof.
  induction r as [|r IH]; intros a i offset Hi Hlen Hbpg.
  - cbn [clear_groups]. cbv zeta.
    split; [reflexivity|]. split; [reflexivity|]. split; [reflexivity|].
    split; [symmetry; apply set_block_cache_id|]. split.
    + intros n. destruct (Z.leb_spec offset n); cbn; [|reflexivity].
      destruct (Z.ltb_spec n (offset + Z.of_nat 0 * fBlocksPerGroup a));
        [lia|reflexivity].
    + intros j Hj. destruct (Z.leb_spec i j); cbn; [|reflexivity].
      destruct (Z.ltb_spec j (i + Z.of_nat 0)); [lia|reflexivity].
  - cbn [clear_groups]. cbv zeta.
    set (zero := replicate (Z.to_nat (BlockSize (fVolume a) / 4)) 0).
    set (c1 := clear_blocks (Z.to_nat (fBlocksPerGroup a)) offset zero
                 (block_cache (fVolume a))).
    set (g := cleared_group (fVolume a) (fNumGroups a) (fBlocksPerGroup a)
                numBits i offset).
    set (a1 := set_group (set_fVolume a (set_block_cache (fVolume a) c1)) i
                 g).
    assert (Ea1 : clear_groups r a1 numBits (i + 1)
                    (offset + fBlocksPerGroup a)
                  = (let '(bits, blocks) :=
                       if i =? fNumGroups a - 1
                       then
                         (u32 (NumBlocks (set_block_cache (fVolume a) c1)
                               - i * numBits),
                          u32 (1 + Z.shiftr
                                 (u32 (u32 (NumBlocks
                                        (set_block_cache (fVolume a) c1)
                                        - i * numBits) - 1))
                                 (BlockShift
                                    (set_block_cache (fVolume a) c1) + 3)))
                       else (numBits, fBlocksPerGroup a) in
                     clear_groups r
                       (set_group
                          (set_fVolume a (set_block_cache (fVolume a) c1)) i
                          (mk_AllocationGroup bits blocks offset 0 bits 0
                             bits true))
                       numBits (i + 1) (offset + fBlocksPerGroup a))).
    { unfold a1, g, cleared_group. cbn [NumBlocks BlockShift set_block_cache].
      destruct (i =? fNumGroups a - 1); reflexivity. }
    rewrite <- Ea1. clear Ea1.
    assert (Hf1 : fVolume a1 = set_block_cache (fVolume a) c1
                  /\ fNumGroups a1 = fNumGroups a
                  /\ fBlocksPerGroup a1 = fBlocksPerGroup a
                  /\ length (fGroups a1) = length (fGroups a)).
    { unfold a1, set_group. destruct (Z.ltb_spec i 0); [lia|]. cbn.
      rewrite length_insert. auto. }
    destruct Hf1 as (V1 & N1 & B1 & L1).
    destruct (IH a1 (i + 1) (offset + fBlocksPerGroup a))
      as (I1 & I2 & I3 & I4 & I5 & I6); [lia|lia|lia|].
    rewrite B1 in *. rewrite N1 in *. rewrite V1 in I4, I5, I6.
    cbn [BlockSize set_block_cache block_cache] in I4, I5, I6.
    split; [rewrite I1; reflexivity|]. split; [exact I2|].
    split; [rewrite I3; exact L1|]. split.
    { rewrite I4. apply set_block_cache_twice. }
    split.
    + intros n. rewrite I5. fold zero. unfold c1.
      rewrite clear_blocks_lookup.
      replace (Z.of_nat (Z.to_nat (fBlocksPerGroup a)))
        with (fBlocksPerGroup a) by lia.
      destruct (Z.leb_spec (offset + fBlocksPerGroup a) n),
               (Z.leb_spec offset n); try lia; cbn.
      * destruct (Z.ltb_spec n (offset + fBlocksPerGroup a
                                + Z.of_nat r * fBlocksPerGroup a)),
                 (Z.ltb_spec n (offset
                                + Z.of_nat (S r) * fBlocksPerGroup a));
          try lia; try reflexivity.
        destruct (Z.ltb_spec n (offset + fBlocksPerGroup a)); [lia|].
        reflexivity.
      * destruct (Z.ltb_spec n (offset + fBlocksPerGroup a));
          destruct (Z.ltb_spec n (offset
                                  + Z.of_nat (S r) * fBlocksPerGroup a));
          try nia; reflexivity.
      * reflexivity.
    + intros j Hj. rewrite I6 by assumption.
      destruct (Z.leb_spec (i + 1) j), (Z.leb_spec i j); try lia; cbn.
      * destruct (Z.ltb_spec j (i + 1 + Z.of_nat r)),
                 (Z.ltb_spec j (i + Z.of_nat (S r))); try lia.
        -- unfold cleared_group.
           cbn [NumBlocks BlockShift set_block_cache].
           replace (offset + fBlocksPerGroup a
                    + (j - (i + 1)) * fBlocksPerGroup a)
             with (offset + (j - i) * fBlocksPerGroup a) by lia.
           reflexivity.
        -- unfold a1. rewrite group_at_set_group.
           ++ destruct (Z.eqb_spec j i); [lia|]. reflexivity.
           ++ unfold set_fVolume. cbn. lia.
           ++ lia.
      * assert (j = i) as -> by lia.
        destruct (Z.ltb_spec i (i + Z.of_nat (S r))); [|lia].
        unfold a1. rewrite group_at_set_group.
        -- rewrite Z.eqb_refl. unfold g.
           replace (offset + (i - i) * fBlocksPerGroup a) with offset by lia.
           reflexivity.
        -- unfold set_fVolume. cbn. lia.
        -- lia.
      * unfold a1. rewrite group_at_set_group.
        -- destruct (Z.eqb_spec j i); [lia|]. reflexivity.
        -- unfold set_fVolume. cbn. lia.
        -- lia.
Qed.

Lemma chunk_bit_zero n bit : chunk_bit (replicate n 0) bit = false.
Proof.
  unfold chunk_bit.
  destruct (replicate n 0 !! Z.to_nat (bit / 32)) as [x|] eqn:E; cbn.
  - apply lookup_replicate in E. destruct E as [-> _]. apply Z.testbit_0_l.
  - apply Z.testbit_0_l.
Qed.

Lemma shiftr_bits_per_block v x :
  volume_ok v = true -> 0 <= BlockShift v ->
  BlockSize v = 2 ^ BlockShift v ->
  Z.shiftr x (BlockShift v + 3) = x / bitsPerBlock v.
Proof.
  intros Hv Hs Hbs. destruct (volume_ok_spec v Hv) as (_ & _ & Hbpb).
  rewrite Z.shiftr_div_pow2 by lia. rewrite Hbpb, Hbs.
  rewrite Z.pow_add_r by lia. f_equal. lia.
Qed.

(** The groups after the first loop: all their bits are unset and the
    hints say so. *)
Lemma cleared_group_ok v c i :
  format_ok v = true -> 0 <= i < AllocationGroups v ->
  (forall n, 1 <= n < 1 + AllocationGroups v * BlocksPerAllocationGroup v ->
     c !! n = Some (replicate (Z.to_nat (BlockSize v / 4)) 0)) ->
  let numBits := u32 (8 * BlocksPerAllocationGroup v * BlockSize v) in
  let g := cleared_group v (AllocationGroups v) (BlocksPerAllocationGroup v)
             numBits i (1 + i * BlocksPerAllocationGroup v) in
  group_ok (set_block_cache v c) g = true
  /\ fStart g = 1 + i * BlocksPerAllocationGroup v
  /\ fNumBitmapBlocks g <= BlocksPerAllocationGroup v
  /\ fNumBits g
     = (if i =? AllocationGroups v - 1
        then NumBlocks v
             - i * (8 * BlocksPerAllocationGroup v * BlockSize v)
        else 8 * BlocksPerAllocationGroup v * BlockSize v)
  /\ fFreeBits g = fNumBits g
  /\ (forall b, 0 <= b < fNumBits g ->
        group_bit (set_block_cache v c) g b = false).
Proof.
  intros Hf Hi Hc.
  destruct (format_ok_spec v Hf)
    as (Hv & Hsh & Hbs & Hn & Hbpg & Hnb & Hblocks & Hlg & Hls & Hll & Hr
        & Hrm).
  cbv zeta in Hnb, Hblocks, Hr, Hrm.
  destruct (volume_ok_spec v Hv) as (Hbs1 & Hbs2 & Hbpb).
  set (bpg := BlocksPerAllocationGroup v) in *.
  set (bpb := bitsPerBlock v) in *.
  assert (Hnum : 8 * bpg * BlockSize v = bpg * bpb) by lia.
  assert (Hbpg' : bpg <= 65536) by nia.
  rewrite (u32_small (8 * bpg * BlockSize v)) by nia.
  cbv zeta.
  set (g := cleared_group v (AllocationGroups v) bpg (8 * bpg * BlockSize v)
              i (1 + i * bpg)).
  assert (Hg : fStart g = 1 + i * bpg
               /\ fFirstFree g = 0 /\ fFreeBits g = fNumBits g
               /\ fLargestStart g = 0 /\ fLargestLength g = fNumBits g
               /\ fLargestValid g = true
               /\ 0 < fNumBits g <= bpg * bpb
               /\ fNumBitmapBlocks g = (fNumBits g + bpb - 1) / bpb
               /\ fNumBits g
                  = (if i =? AllocationGroups v - 1
                     then NumBlocks v - i * (8 * bpg * BlockSize v)
                     else 8 * bpg * BlockSize v)).
  { unfold g, cleared_group.
    destruct (Z.eqb_spec i (AllocationGroups v - 1)) as [->|Hne]; cbn.
    - rewrite (u32_small (NumBlocks v - _)) by nia.
      set (bits := NumBlocks v - _) in *.
      assert (Hbits : 0 < bits <= bpg * bpb) by (unfold bits; nia).
      rewrite (u32_small (bits - 1)) by lia.
      rewrite (shiftr_bits_per_block v _ Hv Hsh Hbs). fold bpb.
      assert (0 <= (bits - 1) / bpb) by (apply Z.div_pos; lia).
      assert ((bits - 1) / bpb < bpg)
        by (apply Z.div_lt_upper_bound; nia).
      rewrite u32_small by lia.
      repeat split; try lia.
      replace (bits + bpb - 1) with (bits - 1 + 1 * bpb) by lia.
      rewrite Z.div_add by lia. lia.
    - repeat split; try nia.
      rewrite Hnum.
      replace (bpg * bpb + bpb - 1) with (bpb - 1 + bpg * bpb) by lia.
      rewrite Z.div_add by lia. rewrite Z.div_small by lia. lia. }
  destruct Hg as (G1 & G2 & G3 & G4 & G5 & G6 & G7 & G8 & G9).
  assert (Hle : fNumBitmapBlocks g <= bpg).
  { rewrite G8.
    assert ((fNumBits g + bpb - 1) / bpb < bpg + 1); [|lia].
    apply Z.div_lt_upper_bound; nia. }
  assert (Hge : 0 <= fNumBitmapBlocks g).
  { rewrite G8. apply Z.div_pos; lia. }
  assert (Hzero : forall k, 0 <= k < fNumBitmapBlocks g ->
            c !! (fStart g + k)
            = Some (replicate (Z.to_nat (BlockSize v / 4)) 0)).
  { intros k Hk. apply Hc. rewrite G1. nia. }
  assert (Hbit : forall b, 0 <= b < fNumBits g ->
            group_bit (set_block_cache v c) g b = false).
  { intros b Hb. unfold group_bit. cbn [block_cache set_block_cache].
    change (bitsPerBlock (set_block_cache v c)) with bpb.
    rewrite Hzero; [apply chunk_bit_zero|].
    split; [apply Z.div_pos; lia|].
    rewrite G8. apply Z.div_lt_upper_bound; [lia|].
    pose proof (Z.div_mod (fNumBits g + bpb - 1) bpb ltac:(lia)).
    pose proof (Z.mod_pos_bound (fNumBits g + bpb - 1) bpb ltac:(lia)).
    nia. }
  split; [|repeat split; try assumption; lia].
  apply group_ok_spec. repeat split.
  - apply group_geometry_geometry_ok. unfold group_geometry.
    split; [nia|]. split; [exact G8|].
    intros k Hk. eexists. cbn [block_cache set_block_cache BlockSize].
    split; [apply Hzero; exact Hk|].
    rewrite length_replicate.
    assert (0 <= BlockSize v / 4) by (apply Z.div_pos; lia). lia.
  - unfold count_ok, free_count. apply Z.eqb_eq. rewrite G3.
    rewrite count_unset_all_unset; [lia|].
    intros b Hb. apply Hbit. lia.
  - unfold first_free_ok. rewrite G2.
    replace (Z.to_nat (Z.min 0 (fNumBits g))) with O by lia. reflexivity.
  - apply largest_ok_intro; [nia| |].
    + rewrite G4, G5. repeat split; try lia.
      intros b Hb. apply Hbit. lia.
    + intros x y Hxy _. lia.
Qed.

Lemma Initialize_fields v :
  fVolume (Initialize v) = v
  /\ fNumGroups (Initialize v) = AllocationGroups v
  /\ fBlocksPerGroup (Initialize v) = BlocksPerAllocationGroup v
  /\ length (fGroups (Initialize v)) = Z.to_nat (AllocationGroups v).
Proof. unfold Initialize. cbn. rewrite length_replicate. auto. Qed.

(** The allocator after the first loop of [InitializeAndClearBitmap]. *)
Lemma cleared_allocator v :
  format_ok v = true ->
  let numBits := u32 (8 * BlocksPerAllocationGroup v * BlockSize v) in
  let a := clear_groups (Z.to_nat (AllocationGroups v)) (Initialize v)
             numBits 0 1 in
  allocator_inv a /\ layout_ok a = true
  /\ fNumGroups a = AllocationGroups v
  /\ fBlocksPerGroup a = BlocksPerAllocationGroup v
  /\ fVolume a = set_block_cache v (block_cache (fVolume a))
  /\ (forall i, 0 <= i < AllocationGroups v ->
        fNumBits (group_at a i)
        = (if i =? AllocationGroups v - 1
           then NumBlocks v
                - i * (8 * BlocksPerAllocationGroup v * BlockSize v)
           else 8 * BlocksPerAllocationGroup v * BlockSize v)
        /\ fFreeBits (group_at a i) = fNumBits (group_at a i)
        /\ forall b, 0 <= b < fNumBits (group_at a i) ->
             group_bit (fVolume a) (group_at a i) b = false).
Proof.
  intros Hf. cbv zeta.
  destruct (format_ok_spec v Hf)
    as (Hv & Hsh & Hbs & Hn & Hbpg & Hnb & Hblocks & Hlg & Hls & Hll & Hr
        & Hrm).
  destruct (Initialize_fields v) as (I1 & I2 & I3 & I4).
  set (numBits := u32 (8 * BlocksPerAllocationGroup v * BlockSize v)).
  destruct (clear_groups_spec numBits (Z.to_nat (AllocationGroups v))
              (Initialize v) 0 1)
    as (C1 & C2 & C3 & C4 & C5 & C6); [lia|lia|lia|].
  set (a := clear_groups (Z.to_nat (AllocationGroups v)) (Initialize v)
              numBits 0 1) in *.
  rewrite I1 in C4, C5, C6. rewrite I2 in C1, C6. rewrite I3 in C2, C5, C6.
  rewrite I4 in C3.
  assert (Hgroup : forall i, 0 <= i < AllocationGroups v ->
            group_at a i
            = cleared_group v (AllocationGroups v)
                (BlocksPerAllocationGroup v) numBits i
                (1 + i * BlocksPerAllocationGroup v)).
  { intros i Hi. rewrite C6 by lia.
    destruct (Z.leb_spec 0 i); [|lia]. cbn.
    destruct (Z.ltb_spec i (0 + Z.of_nat (Z.to_nat (AllocationGroups v))));
      [|lia].
    f_equal. lia. }
  assert (Hcache : forall n,
            1 <= n < 1 + AllocationGroups v * BlocksPerAllocationGroup v ->
            block_cache (fVolume a) !! n
            = Some (replicate (Z.to_nat (BlockSize v / 4)) 0)).
  { intros n Hn'. rewrite C5.
    destruct (Z.leb_spec 1 n); [|lia]. cbn.
    destruct (Z.ltb_spec n
                (1 + Z.of_nat (Z.to_nat (AllocationGroups v))
                     * BlocksPerAllocationGroup v)); [reflexivity|lia]. }
  assert (Hall : forall i, 0 <= i < AllocationGroups v ->
            _) by
    (intros i Hi;
     exact (cleared_group_ok v (block_cache (fVolume a)) i Hf Hi Hcache)).
  cbv zeta in Hall. fold numBits in Hall.
  split; [|split; [|split; [assumption|split; [assumption|
                   split; [assumption|]]]]].
  - unfold allocator_inv. rewrite C4 at 1.
    rewrite volume_ok_set_block_cache, C1, C3.
    split; [assumption|]. split; [lia|]. split; [lia|].
    intros i Hi. rewrite Hgroup by assumption. rewrite C4.
    apply (Hall i Hi).
  - apply layout_ok_spec. rewrite C1, C2. intros i Hi.
    rewrite Hgroup by assumption.
    destruct (Hall i Hi) as (_ & H1 & H2 & _). auto.
  - intros i Hi. rewrite Hgroup by assumption. rewrite C4.
    destruct (Hall i Hi) as (_ & _ & _ & H3 & H4 & H5). auto.
Qed.

Lemma InitializeAndClearBitmap_fields v :
  format_ok v = true ->
  let reserved := run_start (Log v) + run_length (Log v) in
  exists a,
    InitializeAndClearBitmap v = Some (B_OK, a)
    /\ allocator_inv a /\ layout_ok a = true
    /\ reserved_allocated a = true
    /\ fNumGroups a = AllocationGroups v
    /\ used_blocks (fVolume a) = reserved
    /\ Log (fVolume a) = Log v
    /\ NumBlocks (fVolume a) = NumBlocks v
    /\ BlockSize (fVolume a) = BlockSize v
    /\ BlockShift (fVolume a) = BlockShift v
    /\ forall i, 0 <= i < AllocationGroups v ->
         fNumBits (group_at a i)
         = (if i =? AllocationGroups v - 1
            then NumBlocks v
                 - i * (8 * BlocksPerAllocationGroup v * BlockSize v)
            else 8 * BlocksPerAllocationGroup v * BlockSize v)
         /\ fFreeBits (group_at a i)
            = fNumBits (group_at a i) - (if i =? 0 then reserved else 0)
         /\ forall b, 0 <= b < fNumBits (group_at a i) ->
              group_bit (fVolume a) (group_at a i) b
              = (i =? 0) && (b <? reserved).
Proof.
  intros Hf. cbv zeta.
  destruct (format_ok_spec v Hf)
    as (Hv & Hsh & Hbs & Hn & Hbpg & Hnb & Hblocks & Hlg & Hls & Hll & Hr
        & Hrm).
  cbv zeta in Hnb, Hblocks, Hr, Hrm.
  destruct (cleared_allocator v Hf) as (Hinv & Hl & C1 & C2 & C4 & Hgroups).
  cbv zeta in Hinv, Hl, C1, C2, C4, Hgroups.
  unfold InitializeAndClearBitmap. cbv zeta.
  destruct (Initialize_fields v) as (I1 & I2 & I3 & I4).
  rewrite ?I1, ?I2, ?I3.
  set (numBits := u32 (8 * BlocksPerAllocationGroup v * BlockSize v)) in *.
  assert (HnumBits : numBits = 8 * BlocksPerAllocationGroup v * BlockSize v).
  { unfold numBits. apply u32_small.
    destruct (volume_ok_spec v Hv) as (? & _). nia. }
  set (a := clear_groups (Z.to_nat (AllocationGroups v)) (Initialize v)
              numBits 0 1) in *.
  set (reserved := run_start (Log v) + run_length (Log v)) in *.
  assert (HLog : Log (fVolume a) = Log v) by (rewrite C4; reflexivity).
  assert (Hres : u32 (ToBlock (fVolume a) (Log (fVolume a))
                      + run_length (Log (fVolume a))) = reserved).
  { unfold ToBlock. rewrite HLog, Hlg, Z.shiftl_0_l, Z.lor_0_l.
    apply u32_small. unfold reserved. lia. }
  rewrite Hres, C1.
  pose proof Hinv as (Hva & Hna & Hlena & Hgok).
  assert (H0 : 0 <= 0 < AllocationGroups v) by lia.
  destruct (Hgroups 0 H0) as (HN0 & HF0 & Hbits0).
  set (g := group_at a 0) in *.
  assert (HN0' : reserved <= fNumBits g).
  { rewrite HN0. destruct (Z.eqb_spec 0 (AllocationGroups v - 1)); lia. }
  pose proof (Hgok 0 ltac:(lia)) as Hg0. fold g in Hg0.
  pose proof Hg0 as Hg0'. apply group_ok_spec in Hg0'.
  destruct Hg0' as (Hgeo & _).
  pose proof (geometry_ok_group_geometry _ _ Hva Hgeo) as Hgg.
  destruct (AllocationGroup_Allocate_spec (fVolume a) g 0 reserved Hva Hgg)
    as (c' & Hal & Hshape & Hframe & Hbits); [lia|lia|lia|].
  destruct (Z.to_nat (AllocationGroups v)) as [|r] eqn:Er; [lia|].
  cbn [reserve_groups]. fold g.
  rewrite Z.min_l by lia. rewrite (s32_small reserved) by lia.
  rewrite Hal. rewrite Z.sub_diag. change (u32 0 =? 0) with true. cbv iota.
  set (g' := Allocate_info g 0 reserved) in *.
  set (v' := set_block_cache (fVolume a) c') in *.
  set (a' := set_fVolume (set_fVolume (set_group a 0 g') v')
               (set_used_blocks v' reserved)).
  exists a'.
  replace (set_fVolume (set_fVolume (set_group a 0 g') v')
             (set_used_blocks (fVolume (set_fVolume (set_group a 0 g') v'))
                reserved)) with a' by reflexivity.
  split; [reflexivity|].
  destruct (Allocate_info_geometry g 0 reserved) as (G1 & G2 & G3).
  destruct (Allocate_info_counts g 0 reserved) as (_ & Cn).
  fold g' in G1, G2, G3, Cn.
  assert (Hfields : fVolume a' = set_used_blocks v' reserved
                    /\ fNumGroups a' = fNumGroups a
                    /\ fBlocksPerGroup a' = fBlocksPerGroup a
                    /\ fGroups a' = <[Z.to_nat 0 := g']> (fGroups a)).
  { unfold a', set_fVolume, set_group. cbn. auto. }
  destruct Hfields as (F1 & F2 & F3 & F4).
  assert (Hch : group_changed a a' 0 g').
  { unfold group_changed. rewrite F1, G1, G2, G3. fold g.
    repeat split; try assumption. }
  assert (Hfree : run_free (fVolume a) g 0 reserved = true).
  { apply run_free_spec. intros b Hb. apply Hbits0. fold g. lia. }
  assert (Hok' : group_ok (fVolume a') g' = true).
  { rewrite F1. apply group_ok_used_blocks.
    { unfold v'. rewrite volume_ok_set_block_cache. assumption. }
    apply Allocate_group_ok; auto; lia. }
  destruct (group_changed_inv a a' 0 g' Hinv Hl ltac:(lia) Hch Hok')
    as [Hinv' Hl'].
  assert (Hat : forall j, 0 <= j ->
            group_at a' j = if j =? 0 then g' else group_at a j).
  { apply (group_at_insert a a' 0 g' F4). lia. }
  assert (Hbit' : forall i b, 0 <= i < AllocationGroups v ->
            0 <= b < fNumBits (group_at a' i) ->
            group_bit (fVolume a') (group_at a' i) b
            = (i =? 0) && (b <? reserved)).
  { intros i b Hi Hb. destruct (Z.eqb_spec i 0) as [->|Hne].
    - rewrite Hat in * by lia. cbn [Z.eqb andb] in *.
      rewrite F1.
      rewrite (group_bit_same_start _ g g' b G3).
      change (group_bit (set_used_blocks v' reserved) g b)
        with (group_bit v' g b).
      unfold v'. rewrite Hbits, Hbits0 by (rewrite <- G1; exact Hb).
      unfold in_range. destruct (Z.leb_spec 0 b); [|lia]. reflexivity.
    - assert (Hb0 : 0 <= b < fNumBits (group_at a i)).
      { rewrite Hat in Hb by lia.
        destruct (Z.eqb_spec i 0); [lia|]. exact Hb. }
      destruct (other_group_bits a a' 0 g' i b Hinv Hl ltac:(lia) Hch
                  ltac:(lia) Hne Hb0) as [_ E].
      rewrite E. apply (Hgroups i Hi). exact Hb0. }
  split; [assumption|]. split; [assumption|]. split.
  { apply reserved_allocated_iff. rewrite F1.
    change (Log (set_used_blocks v' reserved)) with (Log (fVolume a)).
    rewrite HLog, Hlg. split; [intros; lia|].
    intros b Hb Hb'. rewrite <- F1.
    rewrite (Hbit' 0 b H0) by lia. fold reserved in Hb.
    destruct (Z.ltb_spec b reserved); [reflexivity|lia]. }
  split; [rewrite F2; exact C1|]. split; [rewrite F1; reflexivity|].
  split; [rewrite F1; exact HLog|].
  split.
  { rewrite F1. change (NumBlocks (fVolume a) = NumBlocks v).
    rewrite C4. reflexivity. }
  split.
  { rewrite F1. change (BlockSize (fVolume a) = BlockSize v).
    rewrite C4. reflexivity. }
  split.
  { rewrite F1. change (BlockShift (fVolume a) = BlockShift v).
    rewrite C4. reflexivity. }
  intros i Hi. rewrite Hat by lia.
  destruct (Z.eqb_spec i 0) as [->|Hne].
  - split; [rewrite G1; exact HN0|]. split; [rewrite Cn, G1, HF0; lia|].
    intros b Hb. specialize (Hbit' 0 b H0).
    rewrite Hat in Hbit' by lia. apply Hbit'. exact Hb.
  - destruct (Hgroups i Hi) as (K1 & K2 & K3).
    split; [exact K1|]. split; [lia|].
    intros b Hb. specialize (Hbit' i b Hi).
    rewrite Hat in Hbit' by lia.
    destruct (Z.eqb_spec i 0); [lia|]. apply Hbit'. exact Hb.
Qed.

Lemma InitializeAndClearBitmap_result v :
  format_ok v = true ->
  let reserved := run_start (Log v) + run_length (Log v) in
  exists a,
    InitializeAndClearBitmap v = Some (B_OK, a)
    /\ allocator_inv a /\ layout_ok a = true
    /\ reserved_allocated a = true
    /\ fNumGroups a = AllocationGroups v
    /\ used_blocks (fVolume a) = reserved
    /\ Log (fVolume a) = Log v
    /\ forall i, 0 <= i < AllocationGroups v ->
         fNumBits (group_at a i)
         = (if i =? AllocationGroups v - 1
            then NumBlocks v
                 - i * (8 * BlocksPerAllocationGroup v * BlockSize v)
            else 8 * BlocksPerAllocationGroup v * BlockSize v)
         /\ fFreeBits (group_at a i)
            = fNumBits (group_at a i) - (if i =? 0 then reserved else 0)
         /\ forall b, 0 <= b < fNumBits (group_at a i) ->
              group_bit (fVolume a) (group_at a i) b
              = (i =? 0) && (b <? reserved).
Proof.
  intros Hf. cbv zeta.
  destruct (InitializeAndClearBitmap_fields v Hf)
    as (a & H1 & H2 & H3 & H4 & H5 & H6 & H7 & _ & _ & _ & H8).
  exists a. auto 10.
Qed.

(** ** The groups' counts and the used blocks of the volume *)

Lemma sum_insert (f : AllocationGroup -> Z) : forall l i g g',
  l !! i = Some g ->
  foldr Z.add 0 (map f (<[i := g']> l))
  = foldr Z.add 0 (map f l) - f g + f g'.
Proof.
  induction l as [|x l IH]; intros i g g' H; [discriminate|].
  destruct i as [|i].
  - injection H as ->.
    change (<[0%nat := g']> (g :: l)) with (g' :: l). cbn [map foldr]. lia.
  - change (<[S i := g']> (x :: l)) with (x :: <[i := g']> l).
    change ((x :: l) !! S i) with (l !! i) in H.
    cbn [map foldr]. rewrite (IH i g g' H). lia.
Qed.

Lemma group_changed_free_blocks a a' gi g' :
  0 <= gi < Z.of_nat (length (fGroups a)) ->
  fGroups a' = <[Z.to_nat gi := g']> (fGroups a) ->
  free_blocks a'
  = free_blocks a - fFreeBits (group_at a gi) + fFreeBits g'.
Proof.
  intros Hgi E. unfold free_blocks. rewrite E.
  destruct (fGroups a !! Z.to_nat gi) as [g|] eqn:El.
  - rewrite (sum_insert fFreeBits _ _ g g' El). unfold group_at.
    destruct (Z.ltb_spec gi 0); [lia|]. rewrite El. reflexivity.
  - apply lookup_ge_None in El. lia.
Qed.

Lemma refreshed_free_blocks a a1 :
  hints_refreshed a a1 -> fNumGroups a = Z.of_nat (length (fGroups a)) ->
  free_blocks a1 = free_blocks a.
Proof.
  intros (F1 & F2 & F3 & F4 & F5) Hn. unfold free_blocks. f_equal.
  apply list_eq. intros i. rewrite !list_lookup_fmap.
  destruct (fGroups a !! i) as [g|] eqn:E.
  - assert (Hi : (i < length (fGroups a))%nat)
      by (apply lookup_lt_is_Some; eauto).
    destruct (fGroups a1 !! i) as [g1|] eqn:E1.
    + specialize (F5 (Z.of_nat i) ltac:(lia)).
      unfold group_at in F5.
      destruct (Z.ltb_spec (Z.of_nat i) 0); [lia|].
      rewrite Nat2Z.id, E, E1 in F5. cbn in *.
      destruct F5 as (_ & _ & _ & _ & ->). reflexivity.
    + apply lookup_ge_None in E1. lia.
  - apply lookup_ge_None in E.
    rewrite (lookup_ge_None_2 (fGroups a1)) by lia. reflexivity.
Qed.

Lemma AllocateBlocks_accounts a groupIndex start maximum minimum status run a' :
  allocator_inv a -> 0 <= groupIndex -> 0 <= start < 65536 ->
  0 < maximum <= 65535 -> 1 <= minimum <= 65535 ->
  AllocateBlocks a groupIndex start maximum minimum
  = Some (status, run, a') ->
  used_blocks (fVolume a') + free_blocks a'
  = used_blocks (fVolume a) + free_blocks a.
Proof.
  intros Hinv Hgi Hs Hmax Hmin Hcall.
  pose proof Hinv as (_ & _ & Hlen & _).
  destruct run as [run|].
  - destruct (AllocateBlocks_returns a groupIndex start maximum minimum Hinv
                Hgi Hs Hmax Hmin) as [(a2 & E)|(r2 & a2 & E)];
      rewrite E in Hcall; [discriminate|].
    injection Hcall as <- <- <-.
    destruct (AllocateBlocks_success a groupIndex start maximum minimum r2 a2
                Hinv Hgi Hs Hmax Hmin E)
      as (a1 & c' & Hinv1 & Href & Hg & Hl & Hfree & Hal).
    pose proof Href as (F1 & F2 & F3 & F4 & F5).
    pose proof Hal as (A1 & _ & _ & A4 & _).
    assert (Hg1 : 0 <= allocation_group r2
                  < Z.of_nat (length (fGroups a1))) by lia.
    rewrite (group_changed_free_blocks a1 a2 _ _ Hg1 A4).
    destruct (Allocate_info_counts (group_at a1 (allocation_group r2))
                (run_start r2) (run_length r2)) as (_ & ->).
    rewrite A1, (refreshed_free_blocks a a1 Href Hlen), F1. cbn. lia.
  - destruct (AllocateBlocks_full a groupIndex start maximum minimum status a'
                Hinv Hgi Hs Hmax Hmin Hcall) as (_ & _ & Href).
    pose proof Href as (F1 & _).
    rewrite (refreshed_free_blocks a a' Href Hlen), F1. reflexivity.
Qed.

Lemma Free_accounts a run a' :
  allocator_inv a ->
  0 <= run_start (Log (fVolume a)) < 65536 ->
  0 <= run_length (Log (fVolume a)) < 65536 ->
  0 <= run_start run < 65536 -> 0 <= run_length run <= 65535 ->
  Free a run = Some (B_OK, a') ->
  used_blocks (fVolume a') + free_blocks a'
  = used_blocks (fVolume a) + free_blocks a.
Proof.
  intros Hinv Hls Hll Hs Hl Hcall.
  pose proof Hinv as (_ & _ & Hlen & _).
  destruct (Free_success a run a' Hinv Hls Hll Hs Hl Hcall)
    as (c' & V1 & V2 & V3 & V4 & Hfr).
  pose proof Hfr as (A1 & _ & _ & A4 & _).
  assert (Hg : 0 <= allocation_group run < Z.of_nat (length (fGroups a)))
    by lia.
  rewrite (group_changed_free_blocks a a' _ _ Hg A4).
  destruct (Free_info_counts (group_at a (allocation_group run))
              (run_start run) (run_length run)) as (_ & ->).
  rewrite A1. cbn. lia.
Qed.

(** ** A bitmap block that cannot be read *)

Lemma AllocationGroup_Allocate_unreadable v g start len :
  0 <= start < 65536 -> 1 <= len ->
  block_cache v !! (fStart g + u16 (start / bitsPerBlock v)) = None ->
  AllocationGroup_Allocate v g start len
  = Some (B_IO_ERROR, set_fLargestValid (Allocate_info g start len) false, v).
Proof.
  intros Hs Hl Hmiss. unfold AllocationGroup_Allocate.
  rewrite (u16_small start) by lia. fold (bitsPerBlock v).
  destruct (Z.to_nat len) as [|r] eqn:E; [lia|].
  cbn [Allocate_blocks].
  destruct (Z.gtb_spec len 0); [|lia].
  unfold AllocationBlock_SetToWritable, CachedBlock_SetTo, Start.
  destruct (Allocate_info_geometry g start len) as (_ & _ & G3).
  rewrite G3, Hmiss. reflexivity.
Qed.

(** ** Checking a range of blocks *)

Lemma check_bits_spec cached allocated : forall rounds o l B,
  0 <= o -> NumBlockBits cached - o <= Z.of_nat rounds -> 0 <= l ->
  let cnt := Z.max 0 (Z.min (NumBlockBits cached - o) l) in
  (check_bits rounds cached allocated o l B = (None, l - cnt, B + cnt)
   /\ forall q, o <= q < o + cnt ->
        AllocationBlock_IsUsed cached q = allocated)
  \/ exists q, o <= q < o + cnt
       /\ (forall q', o <= q' < q ->
             AllocationBlock_IsUsed cached q' = allocated)
       /\ AllocationBlock_IsUsed cached q = negb allocated
       /\ (check_bits rounds cached allocated o l B).1.1 = Some (B + (q - o)).
Proof.
  induction rounds as [|r IH]; intros o l B Ho Hr Hl; cbv zeta.
  - left. cbn [check_bits].
    replace (Z.max 0 (Z.min (NumBlockBits cached - o) l)) with 0 by lia.
    split; [f_equal; [f_equal|]; lia|]. intros q Hq. lia.
  - cbn [check_bits].
    destruct (Z.ltb_spec o (NumBlockBits cached)) as [Hlt|Hge]; cbn [andb].
    2:{ left.
        replace (Z.max 0 (Z.min (NumBlockBits cached - o) l)) with 0 by lia.
        split; [f_equal; [f_equal|]; lia|]. intros q Hq. lia. }
    destruct (Z.gtb_spec l 0) as [Hpos|Hz].
    2:{ left.
        replace (Z.max 0 (Z.min (NumBlockBits cached - o) l)) with 0 by lia.
        split; [f_equal; [f_equal|]; lia|]. intros q Hq. lia. }
    destruct (eqb (AllocationBlock_IsUsed cached o) allocated) eqn:E;
      cbn [negb].
    + apply eqb_prop in E.
      destruct (IH (o + 1) (l - 1) (B + 1)) as [[H1 H2]|(q & Hq & H1 & H2 & H3)];
        try lia.
      * left. rewrite H1. split; [f_equal; [f_equal|]; lia|].
        intros q Hq. destruct (Z.eq_dec q o) as [->|]; [exact E|].
        apply H2. lia.
      * right. exists q. split; [lia|]. split.
        { intros q' Hq'. destruct (Z.eq_dec q' o) as [->|]; [exact E|].
          apply H1. lia. }
        split; [exact H2|]. rewrite H3. f_equal. lia.
    + right. exists o. split; [lia|]. split; [intros; lia|]. split.
      * apply eqb_false_iff in E.
        destruct (AllocationBlock_IsUsed cached o), allocated;
          try reflexivity; exfalso; apply E; reflexivity.
      * cbn. f_equal. lia.
Qed.

Lemma check_blocks_done rounds a allocated group groupBlock blockOffset
    length block :
  length <= 0 ->
  check_blocks rounds a allocated group groupBlock blockOffset length block
  = Some (B_OK, None).
Proof.
  intros Hl.
  destruct rounds; cbn [check_blocks];
    destruct (Z.gtb_spec length 0); try lia;
    rewrite andb_false_r; reflexivity.
Qed.

Section CheckGroup.

Variable a : BlockAllocator.

Variable gi : Z.

Variable allocated : bool.

Variable e : Z.

Hypothesis Hv : volume_ok (fVolume a) = true.

Hypothesis Hg : group_geometry (fVolume a) (group_at a gi).

Hypothesis He : e <= fNumBits (group_at a gi).

(** The loop from bit [k * bitsPerBlock + o] of the group on, [l] bits
    before the end [e] of the range, which is within the group: the
    answer is [B_OK] when every bit up to [e] is in the expected
    state, and [B_BAD_DATA] with the block of the first one that is not
    otherwise. *)
Lemma check_blocks_spec : forall rounds k o l B,
  0 <= k -> 0 <= o -> 0 <= l ->
  k * bitsPerBlock (fVolume a) + o + l = e ->
  (0 < l -> o < bitsPerBlock (fVolume a)) ->
  fNumBitmapBlocks (group_at a gi) - k <= Z.of_nat rounds ->
  let p := k * bitsPerBlock (fVolume a) + o in
  ((forall b, p <= b < e ->
      group_bit (fVolume a) (group_at a gi) b = allocated)
   /\ check_blocks rounds a allocated gi k o l B = Some (B_OK, None))
  \/ exists q, p <= q < e
       /\ (forall b, p <= b < q ->
             group_bit (fVolume a) (group_at a gi) b = allocated)
       /\ group_bit (fVolume a) (group_at a gi) q = negb allocated
       /\ check_blocks rounds a allocated gi k o l B
          = Some (B_BAD_DATA, Some (B + (q - p))).
Proof.
  pose proof Hg as (HN & Hnb & Hp).
  pose proof (bitsPerBlock_range _ Hv) as Hb.
  pose proof (blocks_cover _ _ Hv HN Hnb) as (Hc1 & Hc2 & Hc3).
  set (v := fVolume a) in *. set (g := group_at a gi) in *.
  set (bpb := bitsPerBlock v) in *. set (nb := fNumBitmapBlocks g) in *.
  induction rounds as [|r IH]; intros k o l B Hk Ho Hl Hpe Hob Hr;
    cbv zeta.
  - destruct (Z.eq_dec l 0) as [->|Hl0].
    + left. split; [intros b Hb'; lia|]. apply check_blocks_done. lia.
    + exfalso. assert (Hlt : k * bpb < fNumBits g) by nia.
      pose proof (block_index_lt v g Hv HN Hnb k Hk Hlt). fold nb in H.
      cbn in Hr. lia.
  - destruct (Z.eq_dec l 0) as [->|Hl0].
    { left. split; [intros b Hb'; lia|]. apply check_blocks_done. lia. }
    assert (Hlpos : 0 < l) by lia. specialize (Hob Hlpos).
    assert (Hlt : k * bpb < fNumBits g) by nia.
    pose proof (block_index_lt v g Hv HN Hnb k Hk Hlt) as Hkn. fold nb in Hkn.
    cbn [check_blocks]. unfold NumBitmapBlocks. fold g nb.
    destruct (Z.ltb_spec k nb); [|lia].
    destruct (Z.gtb_spec l 0); [|lia]. cbn [andb].
    destruct (Hp k ltac:(fold nb; lia)) as (data & Hd & Hlen).
    pose proof (block_bits_eq v g Hv HN Hnb k ltac:(fold nb; lia))
      as [Hbb Hbbpos].
    fold bpb in Hbb.
    unfold AllocationBlock_SetTo, CachedBlock_SetTo, Start. fold v.
    rewrite (u16_small k) by lia. rewrite Hd.
    set (NBB := block_bits v g k) in *.
    set (cached := mk_AllocationBlock (fStart g + k) data NBB).
    change (NumBlockBits cached) with NBB.
    assert (Hused : forall q, 0 <= q < NBB ->
              AllocationBlock_IsUsed cached q = group_bit v g (k * bpb + q)).
    { intros q Hq. rewrite IsUsed_chunk_bit by (cbn; lia).
      cbn [fBlock cached]. symmetry.
      apply (view_bits v g Hv k data q); [lia|assumption|fold bpb; lia]. }
    assert (HoN : o < NBB) by lia.
    destruct (check_bits_spec cached allocated (Z.to_nat NBB) o l B Ho
                ltac:(change (NumBlockBits cached) with NBB; lia) Hl)
      as [[H1 H2]|(q & Hq & H1 & H2 & H3)];
      change (NumBlockBits cached) with NBB in *.
    + rewrite H1.
      set (cnt := Z.max 0 (Z.min (NBB - o) l)) in *.
      assert (Hcnt : 0 < cnt <= l /\ cnt <= NBB - o) by (unfold cnt; lia).
      assert (Hdone : forall b, k * bpb + o <= b < k * bpb + o + cnt ->
                group_bit v g b = allocated).
      { intros b Hb'. replace b with (k * bpb + (b - k * bpb)) by lia.
        rewrite <- Hused by lia. apply H2. lia. }
      destruct (Z.eq_dec (l - cnt) 0) as [Hz|Hnz].
      * left. split; [intros b Hb'; apply Hdone; lia|].
        destruct (u32 (k + 1) >=? nb); apply check_blocks_done; lia.
      * assert (Hfull : cnt = NBB - o) by (unfold cnt in *; lia).
        assert (HNBB : NBB = bpb) by lia.
        assert (Hk1 : k + 1 < nb).
        { apply (block_index_lt v g Hv HN Hnb); [lia|]. fold bpb. nia. }
        rewrite (u32_small (k + 1)) by lia.
        destruct (Z.geb_spec (k + 1) nb); [lia|].
        destruct (IH (k + 1) 0 (l - cnt) (B + cnt))
          as [[I1 I2]|(q & Iq & I1 & I2 & I3)]; try lia.
        -- left. split; [|exact I2]. intros b Hb'.
           destruct (Z.lt_ge_cases b (k * bpb + o + cnt));
             [apply Hdone; lia|apply I1; lia].
        -- right. exists q. split; [lia|]. split.
           { intros b Hb'.
             destruct (Z.lt_ge_cases b (k * bpb + o + cnt));
               [apply Hdone; lia|apply I1; lia]. }
           split; [exact I2|]. rewrite I3. do 3 f_equal. lia.
    + right. exists (k * bpb + q).
      set (cnt := Z.max 0 (Z.min (NBB - o) l)) in *.
      assert (Hcnt : 0 < cnt <= l /\ cnt <= NBB - o) by (unfold cnt; lia).
      split; [lia|]. split.
      { intros b Hb'. replace b with (k * bpb + (b - k * bpb)) by lia.
        rewrite <- Hused by lia. apply H1. lia. }
      split; [rewrite <- Hused by lia; exact H2|].
      destruct (check_bits (Z.to_nat NBB) cached allocated o l B)
        as [[err l'] B'].
      cbn in H3. subst err. do 3 f_equal. lia.
Qed.

End CheckGroup.

Lemma groups_fit_spec a : forall count,
  groups_fit a count = true <->
  (forall i, 0 <= i < Z.of_nat count ->
     i * 2 ^ AllocationGroupShift (fVolume a) + fNumBits (group_at a i)
     <= NumBlocks (fVolume a)).
Proof.
  induction count as [|k IH]; cbn [groups_fit].
  - split; [intros _ i Hi; lia|reflexivity].
  - rewrite andb_true_iff, IH, Z.leb_le. split.
    + intros [H1 H2] i Hi.
      destruct (Z.eq_dec i (Z.of_nat k)) as [->|]; [exact H2|].
      apply H1. lia.
    + intros H. split; [intros i Hi; apply H; lia|apply H; lia].
Qed.

Lemma addressing_ok_spec a :
  addressing_ok a = true ->
  0 <= AllocationGroupShift (fVolume a)
  /\ 2 ^ AllocationGroupShift (fVolume a)
     = fBlocksPerGroup a * bitsPerBlock (fVolume a)
  /\ fNumGroups a <= 2147483647
  /\ fNumGroups a * fBlocksPerGroup a < 4294967296
  /\ (forall i, 0 <= i < fNumGroups a ->
        i * 2 ^ AllocationGroupShift (fVolume a) + fNumBits (group_at a i)
        <= NumBlocks (fVolume a)).
Proof.
  unfold addressing_ok. cbv zeta.
  rewrite !andb_true_iff, !Z.leb_le, Z.eqb_eq, Z.ltb_lt, groups_fit_spec.
  intros ((((H1 & H2) & H3) & H4) & H5).
  repeat split; try assumption. intros i Hi. apply H5. lia.
Qed.

Lemma lor_shiftl_add x s y :
  0 <= s -> 0 <= y < 2 ^ s -> Z.lor (Z.shiftl x s) y = x * 2 ^ s + y.
Proof.
  intros Hs Hy.
  assert (Hland : Z.land (Z.shiftl x s) y = 0).
  { apply Z.bits_inj'. intros n Hn. rewrite Z.land_spec, Z.bits_0.
    destruct (Z.lt_ge_cases n s).
    - rewrite Z.shiftl_spec_low by assumption. reflexivity.
    - destruct (Z.eq_dec y 0) as [->|Hy0];
        [rewrite Z.bits_0; apply andb_false_r|].
      rewrite (Z.bits_above_log2 y n); [apply andb_false_r|lia|].
      apply Z.log2_lt_pow2; [lia|].
      apply Z.lt_le_trans with (2 ^ s); [lia|].
      apply Z.pow_le_mono_r; lia. }
  rewrite <- Z.lxor_lor by assumption.
  rewrite <- Z.add_nocarry_lxor by assumption.
  rewrite Z.shiftl_mul_pow2 by assumption. reflexivity.
Qed.

Lemma bitmap_blocks_ge a i :
  0 <= i < Z.of_nat (length (fGroups a)) ->
  fNumBitmapBlocks (group_at a i) <= bitmap_blocks a.
Proof.
  intros Hi. unfold group_at, bitmap_blocks.
  destruct (Z.ltb_spec i 0); [lia|].
  assert (Hlt : (Z.to_nat i < length (fGroups a))%nat) by lia.
  clear H Hi. revert Hlt. generalize (Z.to_nat i). clear i.
  induction (fGroups a) as [|g l IH]; intros n Hn; [cbn in Hn; lia|].
  cbn [map foldr].
  assert (Hnn : 0 <= foldr Z.add 0
                       (map (fun g => Z.max 0 (fNumBitmapBlocks g)) l)).
  { clear. induction l as [|x l IH]; cbn; lia. }
  destruct n as [|n]; cbn.
  - lia.
  - change (length (g :: l)) with (S (length l)) in Hn.
    eapply Z.le_trans; [apply IH; lia|].
    pose proof (Z.le_max_l 0 (fNumBitmapBlocks g)). lia.
Qed.

Lemma IsValidBlockRun_spec a run :
  0 <= run_start run < 65536 -> 0 <= run_length run <= 65535 ->
  (IsValidBlockRun a run = true
   <-> 0 <= allocation_group run < fNumGroups a
       /\ 1 <= run_length run
       /\ run_start run + run_length run
          <= fNumBits (group_at a (allocation_group run))).
Proof.
  intros Hs Hl. unfold IsValidBlockRun. cbv zeta.
  rewrite (u32_small (_ + _)) by lia.
  rewrite negb_true_iff, !orb_false_iff.
  rewrite Z.ltb_ge, Z.geb_leb, Z.leb_gt, !Z.gtb_ltb, !Z.ltb_ge, Z.eqb_neq.
  split.
  - intros ((((H1 & H2) & H3) & H4) & H5). lia.
  - intros (H1 & H2 & H3). repeat split; lia.
Qed.

Lemma run_in_state_spec v g allocated start len :
  run_in_state v g allocated start len = true
  <-> (forall b, start <= b < start + Z.max 0 len ->
         group_bit v g b = allocated).
Proof.
  unfold run_in_state, run_used, run_free.
  destruct allocated; [rewrite all_set_spec|rewrite all_unset_spec];
    replace (Z.of_nat (Z.to_nat len)) with (Z.max 0 len) by lia;
    reflexivity.
Qed.

(** [CheckBlocks] on the blocks of a valid run. *)
Lemma CheckBlocks_run a run allocated :
  allocator_inv a -> layout_ok a = true -> addressing_ok a = true ->
  0 <= run_start run < 65536 -> 0 <= run_length run <= 65535 ->
  IsValidBlockRun a run = true ->
  let v := fVolume a in
  let g := group_at a (allocation_group run) in
  (run_in_state v g allocated (run_start run) (run_length run) = true
   /\ CheckBlocks a (ToBlock v run) (run_length run) allocated
      = Some (B_OK, None))
  \/ exists q,
       run_start run <= q < run_start run + run_length run
       /\ (forall b, run_start run <= b < q -> group_bit v g b = allocated)
       /\ group_bit v g q = negb allocated
       /\ CheckBlocks a (ToBlock v run) (run_length run) allocated
          = Some (B_BAD_DATA,
                  Some (ToBlock v (mk_block_run (allocation_group run) q
                                     (run_length run)))).
Proof.
  intros Hinv Hlay Haddr Hs Hl Hvalid. cbv zeta.
  apply (IsValidBlockRun_spec a run Hs Hl) in Hvalid.
  destruct Hvalid as (Hgi & Hl1 & Hfit).
  destruct run as [gi start len]. cbn [allocation_group run_start run_length]
    in *.
  pose proof Hinv as (Hv & Hn & Hlen & Hgroups).
  pose proof (Hgroups gi Hgi) as Hok. apply group_ok_spec in Hok.
  destruct Hok as (Hgeo & _).
  pose proof (geometry_ok_group_geometry _ _ Hv Hgeo) as Hgg.
  pose proof Hgg as (HN & Hnb & Hp).
  destruct (addressing_ok_spec a Haddr) as (Hsh & Hpow & Hng & Htot & Hfits).
  destruct (proj1 (layout_ok_spec a) Hlay gi Hgi) as [_ Hle].
  pose proof (bitsPerBlock_range _ Hv) as Hb.
  pose proof (blocks_cover _ _ Hv HN Hnb) as (Hc1 & Hc2 & Hc3).
  set (v := fVolume a) in *. set (g := group_at a gi) in *.
  set (bpb := bitsPerBlock v) in *. set (bpg := fBlocksPerGroup a) in *.
  set (sh := AllocationGroupShift v) in *.
  assert (Hbpg : 0 < bpg) by lia.
  assert (Hsmall : start < 2 ^ sh) by nia.
  assert (Habs : ToBlock v (mk_block_run gi start len) = gi * 2 ^ sh + start).
  { unfold ToBlock. cbn. fold sh. apply lor_shiftl_add; lia. }
  assert (Hk0 : 0 <= start / bpb < bpg).
  { split; [apply Z.div_pos; lia|]. apply Z.div_lt_upper_bound; nia. }
  pose proof (Z.mod_pos_bound start bpb ltac:(lia)) as Hmod.
  pose proof (Z.div_mod start bpb ltac:(lia)) as Hdm.
  assert (Hcall :
    CheckBlocks a (gi * 2 ^ sh + start) len allocated
    = check_blocks (S (Z.to_nat (bitmap_blocks a))) a allocated gi
        (start / bpb) (start mod bpb) len (gi * 2 ^ sh + start)).
  { unfold CheckBlocks. fold v sh bpg. change (u32 (Z.shiftl (BlockSize v) 3))
      with bpb.
    specialize (Hfits gi Hgi). fold g sh v in Hfits.
    destruct (Z.ltb_spec (gi * 2 ^ sh + start) 0); [nia|].
    destruct (Z.gtb_spec (gi * 2 ^ sh + start + len) (NumBlocks v)); [lia|].
    cbn [orb].
    assert (E1 : Z.shiftr (gi * 2 ^ sh + start) sh = gi).
    { rewrite Z.shiftr_div_pow2 by lia.
      rewrite Z.add_comm, Z.div_add by lia.
      rewrite Z.div_small by lia. lia. }
    assert (E2 : (gi * 2 ^ sh + start) / bpb = gi * bpg + start / bpb).
    { rewrite Hpow.
      replace (gi * (bpg * bpb) + start) with (start + gi * bpg * bpb)
        by lia.
      rewrite Z.div_add by lia. lia. }
    assert (E3 : (gi * 2 ^ sh + start) mod bpb = start mod bpb).
    { rewrite Hpow.
      replace (gi * (bpg * bpb) + start) with (start + gi * bpg * bpb)
        by lia.
      apply Z.mod_add. lia. }
    rewrite E1, E2, E3. rewrite (s32_small gi) by lia.
    rewrite (u32_small (gi * bpg + start / bpb)) by nia.
    rewrite (u32_small (start mod bpb)) by lia.
    replace ((gi * bpg + start / bpb) mod bpg) with (start / bpb);
      [reflexivity|].
    rewrite Z.add_comm, Z.mod_add by lia.
    symmetry. apply Z.mod_small. lia. }
  rewrite Habs, Hcall.
  assert (Hfuel : fNumBitmapBlocks g - start / bpb
                  <= Z.of_nat (S (Z.to_nat (bitmap_blocks a)))).
  { pose proof (bitmap_blocks_ge a gi ltac:(lia)). fold g in H. lia. }
  destruct (check_blocks_spec a gi allocated (start + len) Hv Hgg Hfit
              (S (Z.to_nat (bitmap_blocks a))) (start / bpb) (start mod bpb)
              len (gi * 2 ^ sh + start))
    as [[H1 H2]|(q & Hq & H1 & H2 & H3)];
    fold v g bpb; try lia.
  - left. split; [|exact H2].
    apply run_in_state_spec. intros b Hb'. apply H1. fold v bpb. lia.
  - right. fold v bpb in Hq, H1, H3. exists q. split; [lia|].
    split; [intros b Hb'; apply H1; lia|]. split; [exact H2|].
    rewrite H3. do 3 f_equal.
    assert (Hq2 : q < 2 ^ sh) by nia.
    unfold ToBlock. cbn. fold sh. rewrite lor_shiftl_add by lia. lia.
Qed.

(** ** The scan of the bitmap at mount time *)

Lemma AddFreeRange_geometry g start blocks :
  same_geometry g (AddFreeRange g start blocks).
Proof.
  unfold AddFreeRange, same_geometry.
  destruct (fFirstFree g =? -1); cbn;
    match goal with
    | |- context [if ?c then _ else _] => destruct c
    end; cbn; auto.
Qed.

Lemma same_geometry_trans g1 g2 g3 :
  same_geometry g1 g2 -> same_geometry g2 g3 -> same_geometry g1 g3.
Proof.
  unfold same_geometry. intros (A1 & A2 & A3) (B1 & B2 & B3).
  repeat split; congruence.
Qed.

Lemma count_unset_snoc f n :
  count_unset f 0 (S n)
  = count_unset f 0 n + (if f (Z.of_nat n) then 0 else 1).
Proof.
  replace (S n) with (n + 1)%nat by lia.
  rewrite count_unset_app. cbn. rewrite Z.add_0_l. lia.
Qed.

Lemma count_unset_range f c p :
  0 <= c <= p -> (forall b, c <= b < p -> f b = false) ->
  count_unset f 0 (Z.to_nat p) = count_unset f 0 (Z.to_nat c) + (p - c).
Proof.
  intros Hc Hfree.
  replace (Z.to_nat p) with (Z.to_nat c + Z.to_nat (p - c))%nat by lia.
  rewrite count_unset_app.
  rewrite (count_unset_all_unset f (Z.to_nat (p - c))); [lia|].
  intros b Hb. apply Hfree. lia.
Qed.

(** The free range that was running is closed by the used bit [p]. *)
Lemma scanned_close f p start range g :
  scanned f p start range g -> 0 < range -> f p = true ->
  scanned f (p + 1) start 0 (AddFreeRange g start range).
Proof.
  intros (H1 & H2 & H3 & H4 & H5 & H6 & H7) Hr Hp.
  specialize (H2 Hr). subst start.
  set (c := p - range) in *.
  assert (Hcount : count_unset f 0 (Z.to_nat (p + 1))
                   = count_unset f 0 (Z.to_nat c) + range).
  { replace (Z.to_nat (p + 1)) with (S (Z.to_nat p)) by lia.
    rewrite count_unset_snoc, Z2Nat.id by lia. rewrite Hp.
    rewrite (count_unset_range f c p) by (auto; lia). lia. }
  unfold scanned. cbv zeta. rewrite Z.sub_0_r.
  split; [lia|]. split; [lia|]. split; [intros; lia|].
  split; [intros _; replace (p + 1 - 1) with p by lia; exact Hp|].
  unfold AddFreeRange.
  assert (Hfirst :
    let g1 := if fFirstFree g =? -1 then set_fFirstFree g c else g in
    0 <= fFirstFree g1 < p + 1 /\ f (fFirstFree g1) = false
    /\ (forall b, 0 <= b < fFirstFree g1 -> f b = true)
    /\ fFreeBits g1 = fFreeBits g /\ fLargestValid g1 = fLargestValid g
    /\ fLargestStart g1 = fLargestStart g
    /\ fLargestLength g1 = fLargestLength g).
  { cbv zeta. destruct H6 as [[E Hall]|(Hff & Hf0 & Hall)].
    - rewrite E. cbn. split; [lia|]. split; [apply H3; lia|].
      repeat split; auto.
    - destruct (Z.eqb_spec (fFirstFree g) (-1)); [lia|].
      split; [lia|]. repeat split; auto. }
  cbv zeta in Hfirst.
  set (g1 := if fFirstFree g =? -1 then set_fFirstFree g c else g) in *.
  destruct Hfirst as (F1 & F2 & F3 & F4 & F5 & F6 & F7).
  assert (Hrun : free_run_in f (p + 1) c range).
  { repeat split; try lia. intros b Hb. apply H3. lia. }
  assert (Hmax : forall x y, 0 <= x < y /\ y <= p + 1 ->
            free_interval f x y ->
            y - x <= range
            \/ (y <= c /\ forall b, x <= b < y -> f b = false)).
  { intros x y Hxy Hfree.
    assert (y <= p).
    { destruct (Z.eq_dec y (p + 1)) as [->|]; [|lia].
      rewrite (Hfree p) in Hp by lia. discriminate. }
    destruct (Z.le_gt_cases y c) as [|Hyc]; [right; auto|].
    left. destruct (Z.lt_ge_cases x c) as [Hxc|]; [|lia].
    specialize (H4 ltac:(lia)). rewrite (Hfree (c - 1)) in H4 by lia.
    discriminate. }
  match goal with
  | |- context [if ?cond then _ else _] => destruct cond eqn:Econd
  end; cbn [fFreeBits fFirstFree fLargestValid fLargestStart fLargestLength
            set_fFreeBits set_fLargest].
  - split; [rewrite F4, H5, Hcount; reflexivity|].
    split; [right; auto|]. right.
    split; [reflexivity|]. split; [exact Hrun|]. split; [lia|].
    intros x y Hxy Hfree.
    destruct (Hmax x y Hxy Hfree) as [|[Hyc Hall]]; [assumption|].
    apply orb_true_iff in Econd. rewrite F5, F7 in Econd.
    destruct H7 as [[E Hused]|(E & _ & _ & Hlong)].
    + pose proof (Hused x ltac:(lia)) as Hu.
      rewrite (Hall x) in Hu by lia. discriminate.
    + rewrite E in Econd. destruct Econd as [Econd|Econd];
        [discriminate|].
      apply Z.ltb_lt in Econd.
      specialize (Hlong x y ltac:(lia) Hfree). lia.
  - split; [rewrite F4, H5, Hcount; reflexivity|].
    split; [right; auto|].
    apply orb_false_iff in Econd. destruct Econd as [E1 E2].
    rewrite F5 in E1. rewrite F7 in E2.
    apply negb_false_iff in E1. apply Z.ltb_ge in E2.
    destruct H7 as [[E _]|(_ & (R1 & R2 & R3 & R4) & Hpos & Hlong)];
      [congruence|].
    right. rewrite F5, F6, F7. split; [exact E1|].
    split; [repeat split; try lia; exact R4|]. split; [exact Hpos|].
    intros x y Hxy Hfree.
    destruct (Hmax x y Hxy Hfree) as [|[Hyc Hall]]; [lia|].
    apply Hlong; [lia|exact Hfree].
Qed.

Lemma scanned_used f p start g :
  scanned f p start 0 g -> f p = true -> scanned f (p + 1) start 0 g.
Proof.
  intros (H1 & H2 & H3 & H4 & H5 & H6 & H7) Hp.
  unfold scanned in *. cbv zeta in *. rewrite Z.sub_0_r in *.
  assert (Hall : forall b, 0 <= b < p + 1 -> (0 <= b < p -> f b = true) ->
            f b = true).
  { intros b Hb Hold. destruct (Z.eq_dec b p) as [->|]; [exact Hp|].
    apply Hold. lia. }
  split; [lia|]. split; [lia|]. split; [intros; lia|].
  split; [intros _; replace (p + 1 - 1) with p by lia; exact Hp|].
  split.
  { replace (Z.to_nat (p + 1)) with (S (Z.to_nat p)) by lia.
    rewrite count_unset_snoc, Z2Nat.id by lia. rewrite Hp. lia. }
  split.
  { destruct H6 as [[E Hu]|(Hff & Hf0 & Hu)]; [left|right].
    - split; [exact E|]. intros b Hb. apply Hall; auto.
    - split; [lia|]. auto. }
  destruct H7 as [[E Hu]|(E & (R1 & R2 & R3 & R4) & Hpos & Hlong)];
    [left|right].
  - split; [exact E|]. intros b Hb. apply Hall; auto.
  - split; [exact E|]. split; [repeat split; try lia; exact R4|].
    split; [exact Hpos|]. intros x y Hxy Hfree.
    apply Hlong; [|exact Hfree].
    destruct (Z.eq_dec y (p + 1)) as [->|]; [|lia].
    rewrite (Hfree p) in Hp by lia. discriminate.
Qed.

Lemma scanned_free f p start range g :
  scanned f p start range g -> 0 <= p -> f p = false ->
  scanned f (p + 1) (if range =? 0 then p else start) (range + 1) g.
Proof.
  intros (H1 & H2 & H3 & H4 & H5 & H6 & H7) Hp0 Hp.
  unfold scanned in *. cbv zeta in *.
  replace (p + 1 - (range + 1)) with (p - range) by lia.
  split; [lia|]. split.
  { intros _. destruct (Z.eqb_spec range 0); [lia|]. apply H2. lia. }
  split.
  { intros b Hb. destruct (Z.eq_dec b p) as [->|]; [exact Hp|].
    apply H3. lia. }
  auto.
Qed.

Lemma scanned_ext f f' p start range g :
  (forall b, 0 <= b < p -> f' b = f b) ->
  scanned f p start range g -> scanned f' p start range g.
Proof.
  intros Hext (H1 & H2 & H3 & H4 & H5 & H6 & H7).
  unfold scanned in *. cbv zeta in *.
  split; [lia|]. split; [exact H2|].
  split; [intros b Hb; rewrite Hext by lia; auto|].
  split; [intros Hc; rewrite Hext by lia; auto|].
  split.
  { rewrite H5. apply count_unset_ext. intros b Hb. symmetry.
    apply Hext. lia. }
  split.
  { destruct H6 as [[E Hu]|(Hff & Hf0 & Hu)]; [left|right].
    - split; [exact E|]. intros b Hb. rewrite Hext by lia. auto.
    - split; [lia|]. split; [rewrite Hext by lia; exact Hf0|].
      intros b Hb. rewrite Hext by lia. auto. }
  destruct H7 as [[E Hu]|(E & (R1 & R2 & R3 & R4) & Hpos & Hlong)];
    [left|right].
  - split; [exact E|]. intros b Hb. rewrite Hext by lia. auto.
  - split; [exact E|]. split.
    { repeat split; try lia. intros b Hb. rewrite Hext by lia.
      apply R4. exact Hb. }
    split; [exact Hpos|]. intros x y Hxy Hfree. apply Hlong; [lia|].
    intros b Hb. rewrite <- Hext by lia. apply Hfree. exact Hb.
Qed.

Lemma scan_chunk_done rounds chunk numBits j bit start range g :
  numBits <= bit ->
  scan_chunk rounds chunk numBits j bit start range g
  = (bit, start, range, g).
Proof.
  intros H. destruct rounds; cbn [scan_chunk]; [reflexivity|].
  destruct (Z.ltb_spec bit numBits); [lia|].
  rewrite andb_false_r. reflexivity.
Qed.

Lemma scan_chunk_spec f chunk numBits base :
  0 <= base ->
  (forall j, 0 <= j < 32 -> base + j < numBits ->
     Z.testbit chunk j = f (base + j)) ->
  forall rounds j start range g,
    0 <= j <= 32 -> 32 - j <= Z.of_nat rounds -> base + j <= numBits ->
    scanned f (base + j) start range g ->
    exists start' range' g',
      scan_chunk rounds chunk numBits j (base + j) start range g
      = (Z.min (base + 32) numBits, start', range', g')
      /\ scanned f (Z.min (base + 32) numBits) start' range' g'
      /\ same_geometry g g'.
Proof.
  intros Hbase Hbits.
  induction rounds as [|r IH]; intros j start range g Hj Hr Hle Hsc.
  - assert (j = 32) by lia. subst j. cbn [scan_chunk].
    rewrite Z.min_l by lia. exists start, range, g.
    split; [reflexivity|]. split; [exact Hsc|]. repeat split.
  - cbn [scan_chunk].
    destruct (Z.ltb_spec j 32) as [Hj32|]; cbn [andb].
    2:{ assert (j = 32) by lia. subst j. rewrite Z.min_l by lia.
        exists start, range, g. split; [reflexivity|].
        split; [exact Hsc|]. repeat split. }
    destruct (Z.ltb_spec (base + j) numBits) as [Hlt|Hge].
    2:{ assert (Heq : base + j = numBits) by lia. rewrite Z.min_r by lia.
        exists start, range, g. rewrite Heq in *. split; [reflexivity|].
        split; [exact Hsc|]. repeat split. }
    rewrite land_bit_test by lia. rewrite Hbits by lia.
    replace (base + j + 1) with (base + (j + 1)) by lia.
    destruct (f (base + j)) eqn:Ef.
    + destruct (Z.gtb_spec range 0) as [Hpos|Hz].
      * destruct (IH (j + 1) start 0 (AddFreeRange g start range))
          as (s' & r' & g' & E & Hs' & Hg'); try lia.
        { replace (base + (j + 1)) with (base + j + 1) by lia.
          apply scanned_close; assumption. }
        exists s', r', g'. split; [exact E|]. split; [exact Hs'|].
        eapply same_geometry_trans; [apply AddFreeRange_geometry|exact Hg'].
      * assert (range = 0) by (destruct Hsc as (? & _); lia). subst range.
        destruct (IH (j + 1) start 0 g) as (s' & r' & g' & E & Hs' & Hg');
          try lia.
        { replace (base + (j + 1)) with (base + j + 1) by lia.
          apply scanned_used; assumption. }
        exists s', r', g'. auto.
    + destruct (IH (j + 1) (if range =? 0 then base + j else start)
                  (range + 1) g) as (s' & r' & g' & E & Hs' & Hg');
        try lia.
      { replace (base + (j + 1)) with (base + j + 1) by lia.
        apply scanned_free; [assumption|lia|assumption]. }
      exists s', r', g'. auto.
Qed.

Lemma scan_buffer_spec f buffer numBits :
  0 <= numBits ->
  (forall k j, 0 <= k -> 0 <= j < 32 -> 32 * k + j < numBits ->
     Z.testbit (default 0 (buffer !! Z.to_nat k)) j = f (32 * k + j)) ->
  forall rounds k start range g,
    0 <= k ->
    scanned f (Z.min (32 * k) numBits) start range g ->
    exists start' range' g',
      scan_buffer rounds buffer numBits k (Z.min (32 * k) numBits) start
        range g = (start', range', g')
      /\ scanned f (Z.min (32 * (k + Z.of_nat rounds)) numBits) start'
           range' g'
      /\ same_geometry g g'.
Proof.
  intros HN Hbits.
  induction rounds as [|r IH]; intros k start range g Hk Hsc.
  - cbn [scan_buffer]. exists start, range, g.
    replace (k + Z.of_nat 0) with k by lia.
    split; [reflexivity|]. split; [exact Hsc|]. repeat split.
  - cbn [scan_buffer].
    replace (k + Z.of_nat (S r)) with (k + 1 + Z.of_nat r) by lia.
    destruct (Z.le_gt_cases (32 * k) numBits) as [Hle|Hgt].
    + rewrite Z.min_l in * by lia.
      destruct (scan_chunk_spec f (default 0 (buffer !! Z.to_nat k)) numBits
                  (32 * k) ltac:(lia) (fun j Hj Hlt => Hbits k j Hk Hj Hlt)
                  32%nat 0 start range g)
        as (s' & r' & g' & E & Hs' & Hg'); try lia.
      { rewrite Z.add_0_r. exact Hsc. }
      rewrite Z.add_0_r in E. rewrite E.
      replace (32 * k + 32) with (32 * (k + 1)) in * by lia.
      destruct (IH (k + 1) s' r' g' ltac:(lia) Hs')
        as (s2 & r2 & g2 & E2 & Hs2 & Hg2).
      exists s2, r2, g2. split; [exact E2|]. split; [exact Hs2|].
      eapply same_geometry_trans; eassumption.
    + rewrite Z.min_r in * by lia.
      rewrite scan_chunk_done by lia.
      specialize (IH (k + 1) start range g ltac:(lia)).
      rewrite Z.min_r in IH by lia.
      destruct (IH Hsc) as (s2 & r2 & g2 & E2 & Hs2 & Hg2).
      exists s2, r2, g2. split; [exact E2|].
      rewrite Z.min_r in * by lia. auto.
Qed.

Lemma scanned_finish f N start range g :
  0 <= N -> scanned f N start range g ->
  let g' := if negb (range =? 0) then AddFreeRange g start range else g in
  hints_exact f N g' /\ same_geometry g g'.
Proof.
  intros HN Hsc. cbv zeta.
  destruct (Z.eqb_spec range 0) as [->|Hne]; cbn [negb].
  - split; [|repeat split].
    destruct Hsc as (H1 & H2 & H3 & H4 & H5 & H6 & H7).
    cbv zeta in *. rewrite Z.sub_0_r in *. repeat split; assumption.
  - split; [|apply AddFreeRange_geometry].
    set (f' := fun b => if b <? N then f b else true).
    assert (Hext : forall b, 0 <= b < N -> f' b = f b).
    { intros b Hb. unfold f'. destruct (Z.ltb_spec b N); [reflexivity|lia]. }
    assert (HfN : f' N = true).
    { unfold f'. destruct (Z.ltb_spec N N); [lia|reflexivity]. }
    pose proof (scanned_ext f f' N start range g Hext Hsc) as Hsc'.
    assert (Hr : 0 < range <= N) by (destruct Hsc as (? & _); lia).
    pose proof (scanned_close f' N start range g Hsc' (proj1 Hr) HfN)
      as (H1 & H2 & H3 & H4 & H5 & H6 & H7).
    cbv zeta in *. rewrite Z.sub_0_r in *.
    set (g' := AddFreeRange g start range) in *.
    split; [|split].
    + rewrite H5.
      replace (Z.to_nat (N + 1)) with (S (Z.to_nat N)) by lia.
      rewrite count_unset_snoc, Z2Nat.id, HfN by lia.
      rewrite Z.add_0_r. apply count_unset_ext. intros b Hb.
      apply Hext. lia.
    + destruct H6 as [[E Hu]|(Hff & Hf0 & Hu)].
      * exfalso. destruct Hsc as (_ & S2 & S3 & _).
        pose proof (Hu (N - 1) ltac:(lia)) as Hu1.
        rewrite Hext in Hu1 by lia. rewrite S3 in Hu1 by lia.
        discriminate.
      * right.
        assert (fFirstFree g' < N).
        { destruct (Z.eq_dec (fFirstFree g') N) as [E|]; [|lia].
          rewrite E, HfN in Hf0. discriminate. }
        split; [lia|]. split; [rewrite <- Hext by lia; exact Hf0|].
        intros b Hb. rewrite <- Hext by lia. apply Hu. exact Hb.
    + destruct H7 as [[E Hu]|(E & (R1 & R2 & R3 & R4) & Hpos & Hlong)].
      * exfalso. destruct Hsc as (_ & S2 & S3 & _).
        pose proof (Hu (N - 1) ltac:(lia)) as Hu1.
        rewrite Hext in Hu1 by lia. rewrite S3 in Hu1 by lia.
        discriminate.
      * right. split; [exact E|].
        assert (Hend : fLargestStart g' + fLargestLength g' <= N).
        { destruct (Z.eq_dec (fLargestStart g' + fLargestLength g') (N + 1))
            as [E1|]; [|lia].
          rewrite (R4 N) in HfN by lia. discriminate. }
        split.
        { repeat split; try lia. intros b Hb. rewrite <- Hext by lia.
          apply R4. exact Hb. }
        split; [exact Hpos|]. intros x y Hxy Hfree.
        apply Hlong; [lia|]. intros b Hb. rewrite Hext by lia.
        apply Hfree. exact Hb.
Qed.

Lemma scanned_start f start g :
  fFirstFree g = -1 -> fFreeBits g = 0 -> fLargestValid g = false ->
  scanned f 0 start 0 g.
Proof.
  intros E1 E2 E3. unfold scanned. cbv zeta. rewrite Z.sub_0_r.
  split; [lia|]. split; [lia|]. split; [intros; lia|].
  split; [lia|]. split; [rewrite E2; reflexivity|].
  split; left; (split; [assumption|intros; lia]).
Qed.

(** A group with exact hints over well-formed bitmap blocks is well
    formed. *)
Lemma hints_exact_group_ok v g :
  volume_ok v = true -> geometry_ok v g = true ->
  hints_exact (group_bit v g) (fNumBits g) g ->
  group_ok v g = true.
Proof.
  intros Hv Hgeo (H1 & H2 & H3).
  pose proof (geometry_ok_group_geometry v g Hv Hgeo) as (HN & _).
  apply group_ok_spec. repeat split; [assumption| | |].
  - unfold count_ok, free_count. apply Z.eqb_eq. exact H1.
  - apply (first_free_ok_spec v g HN).
    destruct H2 as [[E _]|(_ & _ & Hu)]; intros b Hb HbN.
    + lia.
    + apply Hu. exact Hb.
  - destruct H3 as [[E _]|(E & Hrun & _ & Hlong)].
    + apply largest_ok_invalid. exact E.
    + apply (largest_ok_intro v g HN); assumption.
Qed.

(** ** The buffer of a group's bitmap blocks *)

Lemma chunk_index k j c :
  0 <= k -> 0 <= j < 32 -> 0 < c ->
  (32 * k + j) / (32 * c) = k / c
  /\ (32 * k + j) mod (32 * c) = 32 * (k mod c) + j.
Proof.
  intros Hk Hj Hc.
  pose proof (Z.div_mod k c ltac:(lia)) as Hdm.
  pose proof (Z.mod_pos_bound k c ltac:(lia)) as Hm.
  assert (E : 32 * k + j = (32 * c) * (k / c) + (32 * (k mod c) + j))
    by lia.
  split.
  - symmetry. apply (Z.div_unique_pos _ _ _ (32 * (k mod c) + j)); lia.
  - symmetry. apply (Z.mod_unique_pos _ _ (k / c)); lia.
Qed.

Lemma chunk_bit_chunk data k j :
  0 <= k -> 0 <= j < 32 ->
  chunk_bit data (32 * k + j)
  = Z.testbit (default 0 (data !! Z.to_nat k)) j.
Proof.
  intros Hk Hj. unfold chunk_bit.
  replace ((32 * k + j) / 32) with k.
  - replace ((32 * k + j) mod 32) with j; [reflexivity|].
    rewrite Z.add_comm, Z.mul_comm, Z.mod_add by lia.
    symmetry. apply Z.mod_small. lia.
  - rewrite Z.add_comm, Z.mul_comm, Z.div_add by lia.
    rewrite Z.div_small by lia. reflexivity.
Qed.

(** The chunks of the buffer are the chunks of the blocks. *)
Lemma read_blocks_spec v : forall count offset,
  0 < BlockSize v / 4 ->
  blocks_cached v offset count = true ->
  exists buffer,
    read_blocks count v offset = Some buffer
    /\ forall k j, 0 <= k < Z.of_nat count * (BlockSize v / 4) ->
         0 <= j < 32 ->
         exists data,
           block_cache v !! (offset + k / (BlockSize v / 4)) = Some data
           /\ Z.testbit (default 0 (buffer !! Z.to_nat k)) j
              = chunk_bit data (32 * (k mod (BlockSize v / 4)) + j).
Proof.
  set (c := BlockSize v / 4).
  induction count as [|n IH]; intros offset Hc Hcached.
  - exists []. split; [reflexivity|]. intros k j Hk. lia.
  - cbn [blocks_cached] in Hcached. cbn [read_blocks].
    destruct (block_cache v !! offset) as [data|] eqn:Hd; [|discriminate].
    apply andb_true_iff in Hcached. destruct Hcached as [Hlen Hrest].
    apply Z.eqb_eq in Hlen. fold c in Hlen.
    destruct (IH (offset + 1) Hc Hrest) as (rest & Hread & Hbits).
    rewrite Hread. exists (data ++ rest). split; [reflexivity|].
    intros k j Hk Hj.
    destruct (Z.lt_ge_cases k c) as [Hlt|Hge].
    + exists data. rewrite Z.div_small, Z.add_0_r by lia.
      split; [exact Hd|].
      rewrite lookup_app_l by lia.
      rewrite Z.mod_small by lia. symmetry. apply chunk_bit_chunk; lia.
    + destruct (Hbits (k - c) j ltac:(lia) Hj) as (data' & Hd' & Hb').
      exists data'.
      assert (E1 : k / c = (k - c) / c + 1).
      { replace k with (k - c + 1 * c) at 1 by lia.
        rewrite Z.div_add by lia. reflexivity. }
      assert (E2 : k mod c = (k - c) mod c).
      { replace k with (k - c + 1 * c) at 1 by lia.
        apply Z.mod_add. lia. }
      rewrite E1, E2. split.
      * rewrite <- Hd'. f_equal. lia.
      * rewrite <- Hb'. rewrite lookup_app_r by lia.
        do 3 f_equal. lia.
Qed.

Lemma blocks_cached_sub v first count first' count' :
  first <= first' ->
  first' + Z.of_nat count' <= first + Z.of_nat count ->
  blocks_cached v first count = true ->
  blocks_cached v first' count' = true.
Proof.
  intros H1 H2 Hc. rewrite blocks_cached_spec in *.
  intros k Hk. replace (first' + k) with (first + (first' - first + k))
    by lia.
  apply Hc. lia.
Qed.

Lemma mount_ok_spec v :
  mount_ok v = true ->
  let numBits := 8 * BlocksPerAllocationGroup v * BlockSize v in
  let reserved := run_start (Log v) + run_length (Log v) in
  volume_ok v = true
  /\ 0 <= BlockShift v /\ BlockSize v = 2 ^ BlockShift v
  /\ 1 <= AllocationGroups v <= 2147483647
  /\ AllocationGroups v * BlocksPerAllocationGroup v < 4294967296
  /\ 1 <= BlocksPerAllocationGroup v /\ numBits <= 65536
  /\ (AllocationGroups v - 1) * numBits < NumBlocks v
     <= AllocationGroups v * numBits
  /\ 0 <= AllocationGroupShift v
  /\ 2 ^ AllocationGroupShift v = numBits
  /\ allocation_group (Log v) = 0
  /\ 0 <= run_start (Log v) /\ 0 <= run_length (Log v)
  /\ 1 <= reserved <= 65535 /\ reserved <= Z.min numBits (NumBlocks v)
  /\ blocks_cached v 1
       (Z.to_nat (AllocationGroups v * BlocksPerAllocationGroup v)) = true.
Proof.
  unfold mount_ok. cbv zeta.
  rewrite !andb_true_iff, !Z.leb_le, !Z.eqb_eq, !Z.ltb_lt.
  intros H. repeat match goal with H : _ /\ _ |- _ => destruct H end.
  repeat split; assumption.
Qed.

Lemma scan_group_bitmap_spec a i :
  mount_ok (fVolume a) = true ->
  fNumGroups a = AllocationGroups (fVolume a) ->
  fBlocksPerGroup a = BlocksPerAllocationGroup (fVolume a) ->
  0 <= i < fNumGroups a ->
  group_at a i = AllocationGroup_new ->
  exists g,
    scan_group_bitmap a
      (8 * BlocksPerAllocationGroup (fVolume a) * BlockSize (fVolume a)) i
      (1 + i * fBlocksPerGroup a) = Some g
    /\ scanned_group (fVolume a) i g.
Proof.
  intros Hm En Eb Hi Hnew.
  destruct (mount_ok_spec _ Hm)
    as (Hv & Hsh & Hbs & Hn & Htot & Hbpg & Hnb & Hblocks & Hags & Hpow & Hlg
        & Hls & Hll & Hr & Hrm & Hcached).
  cbv zeta in *.
  destruct (volume_ok_spec _ Hv) as (Hbs1 & Hbs2 & Hbpb).
  set (v := fVolume a) in *.
  set (bpg := BlocksPerAllocationGroup v) in *.
  set (bpb := bitsPerBlock v) in *.
  set (c := BlockSize v / 4) in *.
  assert (Hc : 0 < c /\ bpb = 32 * c).
  { pose proof (Z.div_mod (BlockSize v) 4 ltac:(lia)).
    unfold c. rewrite Hbs2 in H. lia. }
  assert (Hnum : 8 * bpg * BlockSize v = bpg * bpb) by lia.
  assert (Hbpg' : bpg <= 65536) by nia.
  unfold scan_group_bitmap. fold v. rewrite Eb, En.
  rewrite (u32_small bpg) by lia.
  assert (Hsub : blocks_cached v (1 + i * bpg) (Z.to_nat bpg) = true).
  { apply (blocks_cached_sub v 1 (Z.to_nat (AllocationGroups v * bpg)));
      [nia| |exact Hcached]. nia. }
  destruct (read_blocks_spec v (Z.to_nat bpg) (1 + i * bpg) (proj1 Hc) Hsub)
    as (buffer & Hread & Hbuf).
  rewrite Hread, Hnew.
  cbn [fFirstFree fFreeBits fLargestStart fLargestLength fLargestValid
       AllocationGroup_new].
  (* the size of the group *)
  set (sizes := if i =? AllocationGroups v - 1
                then (u32 (NumBlocks v - i * (8 * bpg * BlockSize v)),
                      u32 (1 + Z.shiftr
                             (u32 (u32 (NumBlocks v
                                        - i * (8 * bpg * BlockSize v)) - 1))
                             (u32 (BlockShift v) + 3)))
                else (8 * bpg * BlockSize v, bpg)).
  assert (Hshift : BlockShift v < 4294967296).
  { destruct (Z.lt_ge_cases (BlockShift v) 32) as [|Hge]; [lia|].
    assert (2 ^ 32 <= 2 ^ BlockShift v) by (apply Z.pow_le_mono_r; lia).
    lia. }
  assert (Hsizes : exists bits blocks,
            sizes = (bits, blocks) /\ bits = group_bits v i
            /\ 0 < bits <= bpg * bpb
            /\ blocks = (bits + bpb - 1) / bpb /\ 0 < blocks <= bpg).
  { unfold sizes, group_bits. fold bpg.
    destruct (Z.eqb_spec i (AllocationGroups v - 1)) as [->|Hne].
    - rewrite (u32_small (NumBlocks v - _)) by nia.
      set (bits := NumBlocks v - _) in *.
      assert (Hbits : 0 < bits <= bpg * bpb) by (unfold bits; nia).
      rewrite (u32_small (bits - 1)) by lia.
      rewrite (u32_small (BlockShift v)) by lia.
      rewrite (shiftr_bits_per_block v _ Hv Hsh Hbs). fold bpb.
      assert (0 <= (bits - 1) / bpb) by (apply Z.div_pos; lia).
      assert ((bits - 1) / bpb < bpg)
        by (apply Z.div_lt_upper_bound; nia).
      rewrite u32_small by lia.
      eexists _, _. split; [reflexivity|]. split; [reflexivity|].
      split; [lia|]. split; [|lia].
      replace (bits + bpb - 1) with (bits - 1 + 1 * bpb) by lia.
      rewrite Z.div_add by lia. lia.
    - eexists _, _. split; [reflexivity|]. split; [reflexivity|].
      split; [nia|]. split; [|lia]. rewrite Hnum.
      replace (bpg * bpb + bpb - 1) with (bpb - 1 + bpg * bpb) by lia.
      rewrite Z.div_add by lia. rewrite Z.div_small by lia. lia. }
  destruct Hsizes as (bits & blocks & Es & Ebits & Hbits & Eblocks & Hblk).
  fold sizes. rewrite Es.
  set (g0 := mk_AllocationGroup bits blocks (1 + i * bpg) (-1) 0 0 0 false).
  change (fNumBits g0) with bits.
  rewrite (s32_small bits) by nia.
  rewrite Z.quot_div_nonneg by lia.
  set (f := group_bit v g0).
  assert (Hchunks : forall k j, 0 <= k -> 0 <= j < 32 ->
            32 * k + j < bits ->
            Z.testbit (default 0 (buffer !! Z.to_nat k)) j = f (32 * k + j)).
  { intros k j Hk Hj Hlt.
    destruct (Hbuf k j) as (data & Hd & Hb); [|assumption|].
    { rewrite Z2Nat.id by lia. fold c. nia. }
    fold c in Hd, Hb. rewrite Hb. unfold f, group_bit.
    cbn [fStart g0]. fold bpb.
    destruct (chunk_index k j c Hk Hj (proj1 Hc)) as [E1 E2].
    rewrite (proj2 Hc), E1, E2, Hd. reflexivity. }
  destruct (scan_buffer_spec f buffer bits ltac:(lia) Hchunks
              (Z.to_nat ((bits + 31) / 32)) 0 (-1) 0 g0 ltac:(lia))
    as (s' & r' & g' & E & Hsc & Hgeo).
  { rewrite Z.mul_0_r, Z.min_l by lia.
    apply scanned_start; reflexivity. }
  rewrite Z.mul_0_r, Z.min_l in E by lia. rewrite E.
  assert (Hcover : bits <= 32 * (0 + Z.of_nat (Z.to_nat ((bits + 31) / 32)))).
  { pose proof (Z.div_mod (bits + 31) 32 ltac:(lia)).
    pose proof (Z.mod_pos_bound (bits + 31) 32 ltac:(lia)).
    assert (0 <= (bits + 31) / 32) by (apply Z.div_pos; lia). lia. }
  rewrite Z.min_r in Hsc by exact Hcover.
  destruct (scanned_finish f bits s' r' g' ltac:(lia) Hsc) as [Hex Hgeo2].
  cbv zeta in Hex, Hgeo2.
  set (g2 := if negb (r' =? 0) then AddFreeRange g' s' r' else g') in *.
  exists g2. split; [reflexivity|].
  pose proof (same_geometry_trans _ _ _ Hgeo Hgeo2) as (G1 & G2 & G3).
  cbn [fNumBits fNumBitmapBlocks fStart g0] in G1, G2, G3.
  assert (Hfg : forall b, group_bit v g2 b = f b).
  { intros b. unfold f. apply group_bit_same_start. rewrite G3.
    reflexivity. }
  assert (Hex2 : hints_exact (group_bit v g2) (fNumBits g2) g2).
  { rewrite G1. destruct Hex as (X1 & X2 & X3). split; [|split].
    - rewrite X1. apply count_unset_ext. intros b Hb. symmetry. apply Hfg.
    - destruct X2 as [[E1 Hu]|(Hff & Hf0 & Hu)]; [left|right].
      + split; [exact E1|]. intros b Hb. rewrite Hfg. auto.
      + split; [exact Hff|]. split; [rewrite Hfg; exact Hf0|].
        intros b Hb. rewrite Hfg. auto.
    - destruct X3 as [[E1 Hu]|(E1 & (R1 & R2 & R3 & R4) & Hpos & Hlong)];
        [left|right].
      + split; [exact E1|]. intros b Hb. rewrite Hfg. auto.
      + split; [exact E1|]. split.
        { repeat split; try lia. intros b Hb. rewrite Hfg. apply R4, Hb. }
        split; [exact Hpos|]. intros x y Hxy Hfree. apply Hlong; [lia|].
        intros b Hb. rewrite <- Hfg. apply Hfree, Hb. }
  unfold scanned_group. fold bpg.
  split; [|split; [exact G3|split; [lia|split; [lia|exact Hex2]]]].
  apply hints_exact_group_ok; [exact Hv| |exact Hex2].
  apply group_geometry_geometry_ok. unfold group_geometry.
  split; [rewrite G1; nia|]. split; [rewrite G1, G2; exact Eblocks|].
  intros k Hk. rewrite G2 in Hk. rewrite G3.
  assert (Hsub2 : blocks_cached v (1 + i * bpg) (Z.to_nat blocks) = true).
  { apply (blocks_cached_sub v (1 + i * bpg) (Z.to_nat bpg));
      [lia|lia|exact Hsub]. }
  rewrite blocks_cached_spec in Hsub2. apply Hsub2. lia.
Qed.

(** ** The allocator after the scan of all the groups *)

Lemma scan_groups_spec v :
  mount_ok v = true ->
  forall rounds a i,
    groups_scanned v a i -> 0 <= i ->
    i + Z.of_nat rounds = AllocationGroups v ->
    exists a',
      scan_groups rounds a
        (8 * BlocksPerAllocationGroup v * BlockSize v) i
        (1 + i * BlocksPerAllocationGroup v) (free_blocks a)
      = (a', free_blocks a')
      /\ groups_scanned v a' (AllocationGroups v).
Proof.
  intros Hm. induction rounds as [|r IH]; intros a i Hsc Hi Hr.
  - cbn [scan_groups]. exists a. split; [reflexivity|].
    replace (AllocationGroups v) with i by lia. exact Hsc.
  - cbn [scan_groups].
    destruct Hsc as (S1 & S2 & S3 & S4 & S5 & S6).
    destruct (mount_ok_spec _ Hm) as (_ & _ & _ & Hn & Htot & Hbpg & _).
    assert (Hg' : exists g,
              scan_group_bitmap a
                (8 * BlocksPerAllocationGroup v * BlockSize v) i
                (1 + i * fBlocksPerGroup a) = Some g
              /\ scanned_group v i g).
    { rewrite <- S1. apply scan_group_bitmap_spec.
      - rewrite S1. exact Hm.
      - rewrite S1. exact S2.
      - rewrite S1. exact S3.
      - lia.
      - apply S5. lia. }
    destruct Hg' as (g & Hg & Hgood).
    rewrite S3 in Hg. rewrite Hg. rewrite S3.
    rewrite (u32_small (BlocksPerAllocationGroup v)) by nia.
    set (a1 := set_group a i g).
    destruct (set_group_fields a i g) as (F1 & F2 & F3 & F4).
    fold a1 in F1, F2, F3, F4.
    assert (Hat : forall j, 0 <= j ->
              group_at a1 j = if j =? i then g else group_at a j).
    { intros j Hj. apply group_at_set_group; lia. }
    assert (Hfree : free_blocks a1 = free_blocks a + fFreeBits g).
    { rewrite (group_changed_free_blocks a a1 i g); [|lia|].
      - rewrite (S5 i) by lia. cbn. lia.
      - unfold a1, set_group. destruct (Z.ltb_spec i 0); [lia|].
        reflexivity. }
    rewrite <- Hfree.
    replace (1 + i * BlocksPerAllocationGroup v + BlocksPerAllocationGroup v)
      with (1 + (i + 1) * BlocksPerAllocationGroup v) by lia.
    apply IH; [|lia|lia].
    unfold groups_scanned. rewrite F1, F2, F3, F4.
    split; [exact S1|]. split; [exact S2|]. split; [exact S3|].
    split; [exact S4|]. split.
    + intros j Hj. rewrite Hat by lia.
      destruct (Z.eqb_spec j i); [lia|]. apply S5. lia.
    + intros j Hj. rewrite Hat by lia.
      destruct (Z.eqb_spec j i) as [->|]; [exact Hgood|].
      apply S6. lia.
Qed.

Lemma Initialize_scanned v :
  1 <= AllocationGroups v ->
  groups_scanned v (Initialize v) 0 /\ free_blocks (Initialize v) = 0.
Proof.
  intros Hn. unfold groups_scanned, Initialize, free_blocks.
  cbn [fVolume fNumGroups fBlocksPerGroup fGroups].
  rewrite length_replicate. split.
  - repeat split; try lia. intros j Hj. unfold group_at.
    destruct (Z.ltb_spec j 0); [reflexivity|]. cbn [fGroups].
    rewrite lookup_replicate_2 by lia. reflexivity.
  - induction (Z.to_nat (AllocationGroups v)) as [|k IH]; [reflexivity|].
    cbn. cbn in IH. rewrite IH. reflexivity.
Qed.

Lemma group_bits_range v i :
  mount_ok v = true -> 0 <= i < AllocationGroups v ->
  0 < group_bits v i
  <= 8 * BlocksPerAllocationGroup v * BlockSize v
  /\ i * (8 * BlocksPerAllocationGroup v * BlockSize v) + group_bits v i
     <= NumBlocks v.
Proof.
  intros Hm Hi.
  destruct (mount_ok_spec _ Hm)
    as (Hv & _ & _ & Hn & _ & Hbpg & Hnb & Hblocks & _).
  cbv zeta in *. destruct (volume_ok_spec _ Hv) as (Hbs & _).
  unfold group_bits.
  destruct (Z.eqb_spec i (AllocationGroups v - 1)) as [->|]; nia.
Qed.

Lemma scanned_allocator v a :
  mount_ok v = true -> groups_scanned v a (AllocationGroups v) ->
  allocator_inv a /\ layout_ok a = true /\ addressing_ok a = true.
Proof.
  intros Hm (S1 & S2 & S3 & S4 & _ & S6).
  destruct (mount_ok_spec _ Hm)
    as (Hv & Hsh & Hbs & Hn & Htot & Hbpg & Hnb & Hblocks & Hags & Hpow & _).
  cbv zeta in *. destruct (volume_ok_spec _ Hv) as (Hbs1 & _ & Hbpb).
  split; [|split].
  - unfold allocator_inv. rewrite S1, S2.
    split; [exact Hv|]. split; [lia|]. split; [lia|].
    intros i Hi. apply (S6 i Hi).
  - apply layout_ok_spec. rewrite S2, S3. intros i Hi.
    destruct (S6 i Hi) as (_ & E1 & E2 & _). auto.
  - unfold addressing_ok. cbv zeta. rewrite S1, S2, S3.
    rewrite !andb_true_iff, !Z.leb_le, Z.eqb_eq, Z.ltb_lt.
    split; [split; [split; [split|]|]|]; try lia.
    apply groups_fit_spec. rewrite S1. intros i Hi.
    destruct (S6 i ltac:(lia)) as (_ & _ & _ & E & _). rewrite E, Hpow.
    apply (group_bits_range v i Hm). lia.
Qed.

(** Setting the used-block counter changes nothing else. *)
Lemma set_used_blocks_invariants a x :
  allocator_inv a -> layout_ok a = true -> addressing_ok a = true ->
  let a' := set_fVolume a (set_used_blocks (fVolume a) x) in
  allocator_inv a' /\ layout_ok a' = true /\ addressing_ok a' = true
  /\ (reserved_allocated a = true -> reserved_allocated a' = true)
  /\ free_blocks a' = free_blocks a
  /\ (forall i, group_at a' i = group_at a i).
Proof.
  intros Hinv Hlay Haddr. cbv zeta.
  set (a' := set_fVolume a (set_used_blocks (fVolume a) x)).
  assert (Hat : forall i, group_at a' i = group_at a i) by reflexivity.
  pose proof Hinv as (Hv & Hn & Hlen & Hgroups).
  split; [|split; [|split; [|split; [|split]]]].
  - split; [exact Hv|]. split; [exact Hn|]. split; [exact Hlen|].
    intros i Hi. rewrite Hat.
    apply group_ok_used_blocks; [exact Hv|]. apply Hgroups. exact Hi.
  - apply layout_ok_spec. intros i Hi. rewrite Hat.
    apply (proj1 (layout_ok_spec a) Hlay i Hi).
  - destruct (addressing_ok_spec a Haddr) as (A1 & A2 & A3 & A4 & A5).
    unfold addressing_ok. cbv zeta.
    rewrite !andb_true_iff, !Z.leb_le, Z.eqb_eq, Z.ltb_lt.
    split; [split; [split; [split|]|]|]; try assumption.
    apply groups_fit_spec. intros i Hi. rewrite Hat. apply A5.
    change (fNumGroups a') with (fNumGroups a) in Hi. lia.
  - intros Hres. apply reserved_allocated_iff in Hres.
    apply reserved_allocated_iff. exact Hres.
  - reflexivity.
  - exact Hat.
Qed.

Lemma bits_per_group v :
  mount_ok v = true ->
  u32 (8 * u32 (Z.shiftl (u32 (BlocksPerAllocationGroup v))
                  (u32 (BlockShift v))))
  = 8 * BlocksPerAllocationGroup v * BlockSize v.
Proof.
  intros Hm.
  destruct (mount_ok_spec _ Hm)
    as (Hv & Hsh & Hbs & Hn & Htot & Hbpg & Hnb & _).
  cbv zeta in *. destruct (volume_ok_spec _ Hv) as (Hbs1 & _).
  assert (Hshift : BlockShift v < 4294967296).
  { destruct (Z.lt_ge_cases (BlockShift v) 32) as [|Hge]; [lia|].
    assert (2 ^ 32 <= 2 ^ BlockShift v) by (apply Z.pow_le_mono_r; lia).
    lia. }
  rewrite (u32_small (BlocksPerAllocationGroup v)) by nia.
  rewrite (u32_small (BlockShift v)) by lia.
  rewrite Z.shiftl_mul_pow2 by lia. rewrite <- Hbs.
  rewrite (u32_small (BlocksPerAllocationGroup v * BlockSize v)) by nia.
  rewrite u32_small by nia. lia.
Qed.

Lemma first_group_bit_eq v g b :
  fStart g = 1 -> group_bit v g b = first_group_bit v b.
Proof. intros E. unfold first_group_bit. apply group_bit_same_start. exact E. Qed.

(** The allocator the scan leaves, and what [CheckBlocks] says of the
    reserved prefix. *)
Lemma mount_scan v :
  mount_ok v = true ->
  let reserved := run_start (Log v) + run_length (Log v) in
  exists a1,
    scan_groups (Z.to_nat (AllocationGroups v)) (Initialize v)
      (8 * BlocksPerAllocationGroup v * BlockSize v) 0 1 0
    = (a1, free_blocks a1)
    /\ groups_scanned v a1 (AllocationGroups v)
    /\ allocator_inv a1 /\ layout_ok a1 = true /\ addressing_ok a1 = true
    /\ IsValidBlockRun a1 (mk_block_run 0 0 reserved) = true
    /\ ToBlock v (mk_block_run 0 0 reserved) = 0
    /\ u32 (ToBlock v (Log v) + run_length (Log v)) = reserved
    /\ fStart (group_at a1 0) = 1
    /\ reserved <= fNumBits (group_at a1 0).
Proof.
  intros Hm. cbv zeta.
  destruct (mount_ok_spec _ Hm)
    as (Hv & Hsh & Hbs & Hn & Htot & Hbpg & Hnb & Hblocks & Hags & Hpow & Hlg
        & Hls & Hll & Hr & Hrm & Hcached).
  cbv zeta in *.
  destruct (Initialize_scanned v ltac:(lia)) as [Hsc0 Hfree0].
  destruct (scan_groups_spec v Hm (Z.to_nat (AllocationGroups v))
              (Initialize v) 0 Hsc0 ltac:(lia) ltac:(lia))
    as (a1 & Hscan & Hsc1).
  rewrite Hfree0 in Hscan.
  replace (1 + 0 * BlocksPerAllocationGroup v) with 1 in Hscan by lia.
  exists a1. split; [exact Hscan|]. split; [exact Hsc1|].
  destruct (scanned_allocator v a1 Hm Hsc1) as (Hinv & Hlay & Haddr).
  split; [exact Hinv|]. split; [exact Hlay|]. split; [exact Haddr|].
  destruct Hsc1 as (S1 & S2 & S3 & S4 & _ & S6).
  destruct (S6 0 ltac:(lia)) as (_ & E1 & _ & E2 & _).
  assert (HN0 : run_start (Log v) + run_length (Log v)
                <= fNumBits (group_at a1 0)).
  { rewrite E2. unfold group_bits.
    destruct (Z.eqb_spec 0 (AllocationGroups v - 1)); lia. }
  split.
  { apply IsValidBlockRun_spec;
      cbn [allocation_group run_start run_length]; [lia|lia|].
    rewrite S2. lia. }
  split; [unfold ToBlock; cbn; rewrite Z.shiftl_0_l; reflexivity|].
  split.
  { unfold ToBlock. rewrite Hlg, Z.shiftl_0_l, Z.lor_0_l.
    apply u32_small. lia. }
  split; [rewrite E1; lia|exact HN0].
Qed.

(** [_Initialize] on a volume whose reserved prefix is allocated in the
    bitmap. *)
Lemma Initialize_mount v readOnly :
  mount_ok v = true -> reserved_on_disk v true = true ->
  exists a',
    _Initialize (Initialize v) readOnly = Some (B_OK, a')
    /\ allocator_inv a' /\ layout_ok a' = true /\ addressing_ok a' = true
    /\ reserved_allocated a' = true
    /\ block_cache (fVolume a') = block_cache v
    /\ used_blocks (fVolume a') + free_blocks a' = NumBlocks v
    /\ fNumGroups a' = AllocationGroups v
    /\ forall i, 0 <= i < AllocationGroups v ->
         fNumBits (group_at a' i) = group_bits v i
         /\ fStart (group_at a' i) = 1 + i * BlocksPerAllocationGroup v
         /\ hints_exact (group_bit v (group_at a' i))
              (fNumBits (group_at a' i)) (group_at a' i).
Proof.
  intros Hm Hdisk.
  destruct (mount_scan v Hm)
    as (a1 & Hscan & Hsc1 & Hinv & Hlay & Haddr & Hvalid & Hblock & Hres
        & Hstart & HN0).
  cbv zeta in *.
  set (reserved := run_start (Log v) + run_length (Log v)) in *.
  destruct (mount_ok_spec _ Hm)
    as (Hv & Hsh & Hbs & Hn & Htot & Hbpg & Hnb & Hblocks & Hags & Hpow & Hlg
        & Hls & Hll & Hr & Hrm & Hcached).
  cbv zeta in *. fold reserved in Hr, Hrm.
  pose proof Hsc1 as (S1 & S2 & S3 & S4 & _ & S6).
  unfold _Initialize.
  destruct (Initialize_fields v) as (I1 & I2 & I3 & I4).
  rewrite I1, I2, I3, (bits_per_group v Hm), Hscan.
  rewrite S1, Hres.
  assert (Hused : run_used v (group_at a1 0) 0 reserved = true).
  { unfold run_used. apply all_set_spec. intros b Hb.
    rewrite (first_group_bit_eq v _ b Hstart).
    unfold reserved_on_disk in Hdisk. cbv zeta in Hdisk. fold reserved in Hdisk.
    rewrite all_set_spec in Hdisk. apply Hdisk. exact Hb. }
  destruct (CheckBlocks_run a1 (mk_block_run 0 0 reserved) true Hinv Hlay
              Haddr ltac:(cbn; lia) ltac:(cbn; lia) Hvalid)
    as [[_ Hcheck]|(q & Hq & _ & Hbad & _)].
  2:{ exfalso. cbn [allocation_group run_start run_length] in Hq, Hbad.
      rewrite S1 in Hbad.
      rewrite (run_used_spec v _ 0 reserved q Hused) in Hbad by lia.
      discriminate. }
  rewrite S1, Hblock in Hcheck. cbn [run_length] in Hcheck.
  rewrite Hcheck. rewrite S1. unfold UsedBlocks.
  set (used := NumBlocks v - free_blocks a1).
  set (a' := if used_blocks v =? used then a1
             else set_fVolume a1 (set_used_blocks v used)).
  exists a'. split; [reflexivity|].
  assert (Hres1 : reserved_allocated a1 = true).
  { apply reserved_allocated_iff. rewrite S1, Hlg. split; [intros; lia|].
    intros b Hb Hb'. apply (run_used_spec v _ 0 reserved b Hused).
    fold reserved in Hb. lia. }
  assert (Ha' : allocator_inv a' /\ layout_ok a' = true
                /\ addressing_ok a' = true /\ reserved_allocated a' = true
                /\ free_blocks a' = free_blocks a1
                /\ (forall i, group_at a' i = group_at a1 i)
                /\ block_cache (fVolume a') = block_cache v
                /\ used_blocks (fVolume a') = used
                /\ fNumGroups a' = fNumGroups a1).
  { unfold a'. destruct (Z.eqb_spec (used_blocks v) used) as [E|Hne].
    - split; [exact Hinv|]. split; [exact Hlay|]. split; [exact Haddr|].
      split; [exact Hres1|]. split; [reflexivity|].
      split; [reflexivity|]. split; [rewrite S1; reflexivity|].
      split; [rewrite S1; exact E|reflexivity].
    - destruct (set_used_blocks_invariants a1 used Hinv Hlay Haddr)
        as (J1 & J2 & J3 & J4 & J5 & J6).
      cbv zeta in *. rewrite S1 in *.
      split; [exact J1|]. split; [exact J2|]. split; [exact J3|].
      split; [exact (J4 Hres1)|]. split; [exact J5|].
      split; [exact J6|]. repeat split. }
  destruct Ha' as (J1 & J2 & J3 & J4 & J5 & J6 & J7 & J8 & J9).
  split; [exact J1|]. split; [exact J2|]. split; [exact J3|].
  split; [exact J4|]. split; [exact J7|].
  split; [rewrite J8, J5; unfold used; lia|].
  split; [rewrite J9; exact S2|].
  intros i Hi. rewrite J6.
  destruct (S6 i Hi) as (_ & E1 & _ & E2 & E3). auto.
Qed.

Lemma set_used_blocks_inv a x :
  allocator_inv a -> layout_ok a = true ->
  let a' := set_fVolume a (set_used_blocks (fVolume a) x) in
  allocator_inv a' /\ layout_ok a' = true
  /\ (reserved_allocated a = true -> reserved_allocated a' = true).
Proof.
  intros Hinv Hlay. cbv zeta.
  set (a' := set_fVolume a (set_used_blocks (fVolume a) x)).
  assert (Hat : forall i, group_at a' i = group_at a i) by reflexivity.
  pose proof Hinv as (Hv & Hn & Hlen & Hgroups).
  split; [|split].
  - split; [exact Hv|]. split; [exact Hn|]. split; [exact Hlen|].
    intros i Hi. rewrite Hat.
    apply group_ok_used_blocks; [exact Hv|]. apply Hgroups. exact Hi.
  - apply layout_ok_spec. intros i Hi. rewrite Hat.
    apply (proj1 (layout_ok_spec a) Hlay i Hi).
  - intros Hres. apply reserved_allocated_iff in Hres.
    apply reserved_allocated_iff. exact Hres.
Qed.

(** [_Initialize] on a writable volume whose reserved prefix is free in
    the bitmap: the prefix is allocated, and the used blocks are those
    the scan before that counted. *)
Lemma Initialize_mount_unreserved_groups v :
  mount_ok v = true -> reserved_on_disk v false = true ->
  let reserved := run_start (Log v) + run_length (Log v) in
  exists a',
    _Initialize (Initialize v) false = Some (B_OK, a')
    /\ allocator_inv a' /\ layout_ok a' = true
    /\ reserved_allocated a' = true
    /\ used_blocks (fVolume a') + free_blocks a' = NumBlocks v - reserved
    /\ fNumGroups a' = AllocationGroups v.
Proof.
  intros Hm Hdisk.
  destruct (mount_scan v Hm)
    as (a1 & Hscan & Hsc1 & Hinv & Hlay & Haddr & Hvalid & Hblock & Hres
        & Hstart & HN0).
  cbv zeta in *.
  set (reserved := run_start (Log v) + run_length (Log v)) in *.
  destruct (mount_ok_spec _ Hm)
    as (Hv & Hsh & Hbs & Hn & Htot & Hbpg & Hnb & Hblocks & Hags & Hpow & Hlg
        & Hls & Hll & Hr & Hrm & Hcached).
  cbv zeta in *. fold reserved in Hr, Hrm.
  pose proof Hsc1 as (S1 & S2 & S3 & S4 & _ & S6).
  pose proof Hinv as (_ & Hn1 & Hlen1 & Hgroups1).
  unfold _Initialize.
  destruct (Initialize_fields v) as (I1 & I2 & I3 & I4).
  rewrite I1, I2, I3, (bits_per_group v Hm), Hscan.
  rewrite S1, Hres.
  set (g := group_at a1 0) in *.
  assert (Hfree : run_free v g 0 reserved = true).
  { unfold run_free. apply all_unset_spec. intros b Hb.
    rewrite (first_group_bit_eq v _ b Hstart).
    unfold reserved_on_disk in Hdisk. cbv zeta in Hdisk.
    fold reserved in Hdisk.
    rewrite all_unset_spec in Hdisk. apply Hdisk. exact Hb. }
  assert (Hfree0 : group_bit v g 0 = false).
  { unfold run_free in Hfree. rewrite all_unset_spec in Hfree.
    apply Hfree. lia. }
  destruct (CheckBlocks_run a1 (mk_block_run 0 0 reserved) true Hinv Hlay
              Haddr ltac:(cbn; lia) ltac:(cbn; lia) Hvalid)
    as [[Hstate _]|(q & Hq & _ & _ & Hcheck)].
  { exfalso. cbn [allocation_group run_start run_length] in Hstate.
    rewrite S1 in Hstate. fold g in Hstate.
    rewrite (run_used_spec v g 0 reserved 0 Hstate) in Hfree0 by lia.
    discriminate. }
  rewrite S1, Hblock in Hcheck. cbn [run_length] in Hcheck.
  rewrite Hcheck. rewrite (s32_small reserved) by lia.
  pose proof (Hgroups1 0 ltac:(lia)) as Hgok. rewrite S1 in Hgok.
  fold g in Hgok.
  pose proof Hgok as Hgok'. apply group_ok_spec in Hgok'.
  destruct Hgok' as (Hgeo & _).
  pose proof (geometry_ok_group_geometry v g Hv Hgeo) as Hgg.
  destruct (AllocationGroup_Allocate_spec v g 0 reserved Hv Hgg)
    as (c' & Hal & Hshape & Hframe & Hbits); [lia|lia|lia|].
  rewrite Hal.
  set (g' := Allocate_info g 0 reserved) in *.
  set (v' := set_block_cache v c') in *.
  set (a2 := set_fVolume (set_group a1 0 g') v').
  unfold UsedBlocks.
  set (used := NumBlocks (fVolume a2) - free_blocks a1).
  destruct (Allocate_info_geometry g 0 reserved) as (G1 & G2 & G3).
  destruct (Allocate_info_counts g 0 reserved) as (_ & Cn).
  fold g' in G1, G2, G3, Cn.
  assert (Hfields : fVolume a2 = v'
                    /\ fNumGroups a2 = fNumGroups a1
                    /\ fBlocksPerGroup a2 = fBlocksPerGroup a1
                    /\ fGroups a2 = <[Z.to_nat 0 := g']> (fGroups a1)).
  { unfold a2, set_fVolume, set_group. cbn. auto. }
  destruct Hfields as (F1 & F2 & F3 & F4).
  assert (Hch : group_changed a1 a2 0 g').
  { unfold group_changed. rewrite F1, S1, G1, G2, G3. fold g.
    repeat split; try assumption. }
  assert (Hok' : group_ok (fVolume a2) g' = true).
  { rewrite F1. apply Allocate_group_ok; auto; lia. }
  destruct (group_changed_inv a1 a2 0 g' Hinv Hlay ltac:(lia) Hch Hok')
    as [Hinv2 Hlay2].
  assert (Hat : forall j, 0 <= j ->
            group_at a2 j = if j =? 0 then g' else group_at a1 j).
  { apply (group_at_insert a1 a2 0 g' F4). lia. }
  assert (Hres2 : reserved_allocated a2 = true).
  { apply reserved_allocated_iff. rewrite F1.
    change (Log v') with (Log v). rewrite Hlg. split; [intros; lia|].
    intros b Hb Hb'. rewrite Hat by lia. cbn [Z.eqb].
    rewrite (group_bit_same_start _ g g' b G3). unfold v'.
    rewrite Hbits. unfold in_range. fold reserved in Hb.
    destruct (Z.leb_spec 0 b); [|lia].
    destruct (Z.ltb_spec b (0 + reserved)); [|lia]. apply orb_true_r. }
  assert (Hfree2 : free_blocks a2 = free_blocks a1 - reserved).
  { rewrite (group_changed_free_blocks a1 a2 0 g' ltac:(lia) F4).
    fold g. rewrite Cn. lia. }
  set (a' := if used_blocks (fVolume a2) =? used then a2
             else set_fVolume a2 (set_used_blocks (fVolume a2) used)).
  exists a'. split; [reflexivity|].
  assert (Hnum : NumBlocks (fVolume a2) = NumBlocks v)
    by (rewrite F1; reflexivity).
  unfold a'. destruct (Z.eqb_spec (used_blocks (fVolume a2)) used) as [E|Hne].
  - split; [exact Hinv2|]. split; [exact Hlay2|]. split; [exact Hres2|].
    split; [rewrite E, Hfree2; unfold used; lia|].
    rewrite F2. exact S2.
  - destruct (set_used_blocks_inv a2 used Hinv2 Hlay2) as (J1 & J2 & J3).
    cbv zeta in *.
    split; [exact J1|]. split; [exact J2|]. split; [exact (J3 Hres2)|].
    split.
    + change (used + free_blocks a2 = NumBlocks v - reserved).
      rewrite Hfree2. unfold used. lia.
    + change (fNumGroups a2 = AllocationGroups v). rewrite F2. exact S2.
Qed.

Lemma Initialize_mount_unreserved v :
  mount_ok v = true -> reserved_on_disk v false = true ->
  let reserved := run_start (Log v) + run_length (Log v) in
  exists a',
    _Initialize (Initialize v) false = Some (B_OK, a')
    /\ allocator_inv a' /\ layout_ok a' = true
    /\ reserved_allocated a' = true
    /\ used_blocks (fVolume a') + free_blocks a' = NumBlocks v - reserved.
Proof.
  intros Hm Hdisk. cbv zeta.
  destruct (Initialize_mount_unreserved_groups v Hm Hdisk)
    as (a' & H1 & H2 & H3 & H4 & H5 & _).
  exists a'. auto.
Qed.

(** [_Initialize] on a read-only volume whose reserved prefix is free in
    the bitmap: nothing is allocated. *)
Lemma Initialize_mount_read_only v :
  mount_ok v = true -> reserved_on_disk v false = true ->
  exists a',
    _Initialize (Initialize v) true = Some (B_OK, a')
    /\ allocator_inv a' /\ layout_ok a' = true
    /\ reserved_allocated a' = false
    /\ block_cache (fVolume a') = block_cache v
    /\ used_blocks (fVolume a') + free_blocks a' = NumBlocks v.
Proof.
  intros Hm Hdisk.
  destruct (mount_scan v Hm)
    as (a1 & Hscan & Hsc1 & Hinv & Hlay & Haddr & Hvalid & Hblock & Hres
        & Hstart & HN0).
  cbv zeta in *.
  set (reserved := run_start (Log v) + run_length (Log v)) in *.
  destruct (mount_ok_spec _ Hm)
    as (Hv & Hsh & Hbs & Hn & Htot & Hbpg & Hnb & Hblocks & Hags & Hpow & Hlg
        & Hls & Hll & Hr & Hrm & Hcached).
  cbv zeta in *. fold reserved in Hr, Hrm.
  pose proof Hsc1 as (S1 & S2 & S3 & S4 & _ & S6).
  unfold _Initialize.
  destruct (Initialize_fields v) as (I1 & I2 & I3 & I4).
  rewrite I1, I2, I3, (bits_per_group v Hm), Hscan.
  rewrite S1, Hres.
  set (g := group_at a1 0) in *.
  assert (Hfree0 : group_bit v g 0 = false).
  { rewrite (first_group_bit_eq v _ 0 Hstart).
    unfold reserved_on_disk in Hdisk. cbv zeta in Hdisk.
    fold reserved in Hdisk.
    rewrite all_unset_spec in Hdisk. apply Hdisk. lia. }
  destruct (CheckBlocks_run a1 (mk_block_run 0 0 reserved) true Hinv Hlay
              Haddr ltac:(cbn; lia) ltac:(cbn; lia) Hvalid)
    as [[Hstate _]|(q & Hq & _ & _ & Hcheck)].
  { exfalso. cbn [allocation_group run_start run_length] in Hstate.
    rewrite S1 in Hstate. fold g in Hstate.
    rewrite (run_used_spec v g 0 reserved 0 Hstate) in Hfree0 by lia.
    discriminate. }
  rewrite S1, Hblock in Hcheck. cbn [run_length] in Hcheck.
  rewrite Hcheck. rewrite S1. unfold UsedBlocks.
  set (used := NumBlocks v - free_blocks a1).
  set (a' := if used_blocks v =? used then a1
             else set_fVolume a1 (set_used_blocks v used)).
  exists a'. split; [reflexivity|].
  assert (Hnot : forall a2, Log (fVolume a2) = Log v -> group_at a2 0 = g ->
            (forall b, group_bit (fVolume a2) g b = group_bit v g b) ->
            reserved_allocated a2 = false).
  { intros a2 L2 G2 B2.
    destruct (reserved_allocated a2) eqn:E; [|reflexivity]. exfalso.
    apply reserved_allocated_iff in E. destruct E as [_ E].
    rewrite L2, Hlg, G2 in E.
    rewrite <- B2, (E 0) in Hfree0; [discriminate|fold reserved; lia|lia]. }
  unfold a'. destruct (Z.eqb_spec (used_blocks v) used) as [E|Hne].
  - split; [exact Hinv|]. split; [exact Hlay|]. split.
    { apply Hnot; [rewrite S1; reflexivity|reflexivity|].
      intros b. rewrite S1. reflexivity. }
    split; [rewrite S1; reflexivity|]. rewrite S1, E. unfold used. lia.
  - destruct (set_used_blocks_inv a1 used Hinv Hlay) as (J1 & J2 & _).
    cbv zeta in *. rewrite S1 in *.
    split; [exact J1|]. split; [exact J2|]. split.
    { apply Hnot; [reflexivity|reflexivity|]. intros b. reflexivity. }
    split; [reflexivity|].
    change (used + free_blocks a1 = NumBlocks v). unfold used. lia.
Qed.

(** A read-only mount leaves the allocator as the scan of the bitmap made
    it, whatever the state of the reserved prefix. *)
Lemma Initialize_mount_read_only_any v :
  mount_ok v = true ->
  exists a',
    _Initialize (Initialize v) true = Some (B_OK, a')
    /\ allocator_inv a' /\ layout_ok a' = true
    /\ fNumGroups a' = AllocationGroups v
    /\ block_cache (fVolume a') = block_cache v.
Proof.
  intros Hm.
  destruct (mount_scan v Hm)
    as (a1 & Hscan & Hsc1 & Hinv & Hlay & Haddr & Hvalid & Hblock & Hres
        & Hstart & HN0).
  cbv zeta in *.
  set (reserved := run_start (Log v) + run_length (Log v)) in *.
  destruct (mount_ok_spec _ Hm)
    as (Hv & Hsh & Hbs & Hn & Htot & Hbpg & Hnb & Hblocks & Hags & Hpow & Hlg
        & Hls & Hll & Hr & Hrm & Hcached).
  cbv zeta in *. fold reserved in Hr, Hrm.
  pose proof Hsc1 as (S1 & S2 & S3 & S4 & _ & S6).
  unfold _Initialize.
  destruct (Initialize_fields v) as (I1 & I2 & I3 & I4).
  rewrite I1, I2, I3, (bits_per_group v Hm), Hscan.
  rewrite S1, Hres.
  assert (Hfixed : exists status block,
            CheckBlocks a1 0 reserved true = Some (status, block)).
  { destruct (CheckBlocks_run a1 (mk_block_run 0 0 reserved) true Hinv Hlay
                Haddr ltac:(cbn; lia) ltac:(cbn; lia) Hvalid)
      as [[_ Hcheck]|(q & _ & _ & _ & Hcheck)];
      rewrite S1, Hblock in Hcheck; cbn [run_length] in Hcheck; eauto. }
  destruct Hfixed as (status & block & Hcheck). rewrite Hcheck.
  set (used := NumBlocks v - free_blocks a1).
  set (a' := if used_blocks v =? used then a1
             else set_fVolume a1 (set_used_blocks v used)).
  exists a'. split.
  { unfold a', used. destruct status; cbv iota; rewrite S1; reflexivity. }
  unfold a'. destruct (Z.eqb_spec (used_blocks v) used) as [E|Hne].
  - split; [exact Hinv|]. split; [exact Hlay|].
    split; [exact S2|]. rewrite S1. reflexivity.
  - destruct (set_used_blocks_inv a1 used Hinv Hlay) as (J1 & J2 & _).
    cbv zeta in *. rewrite S1 in *.
    split; [exact J1|]. split; [exact J2|]. split; [exact S2|reflexivity].
Qed.

(** ** The hint group answers *)

Lemma set_group_same a i :
  0 <= i < Z.of_nat (length (fGroups a)) -> set_group a i (group_at a i) = a.
Proof.
  intros Hi. unfold set_group, group_at.
  destruct (Z.ltb_spec i 0); [lia|].
  destruct (fGroups a !! Z.to_nat i) as [g|] eqn:E.
  - cbn. rewrite list_insert_id by exact E. destruct a; reflexivity.
  - apply lookup_ge_None in E. lia.
Qed.

(** The first round of the loop over the groups, when the valid
    largest-range hint of the hint group begins at or after the start
    offset and is at least [maximum] long. *)
Lemma visit_groups_hint a groupIndex start maximum rounds :
  allocator_inv a -> 0 <= groupIndex < fNumGroups a ->
  0 <= start < 65536 -> 0 < maximum ->
  let g := group_at a groupIndex in
  fLargestValid g = true -> start <= fLargestStart g ->
  maximum <= fLargestLength g ->
  visit_groups (S rounds) a groupIndex start maximum no_best
  = (Some (set_best no_best groupIndex (fLargestStart g) (fLargestLength g)),
     a).
Proof.
  intros Hinv Hgi Hs Hmax g Hvalid Hstart Hlen.
  pose proof Hinv as (Hv & Hn & Hlength & Hgroups).
  pose proof (Hgroups groupIndex Hgi) as Hok. fold g in Hok.
  apply group_ok_spec in Hok. destruct Hok as (Hgeo & Hc & Hff & Hl).
  pose proof (geometry_ok_group_geometry _ _ Hv Hgeo) as (HN & _).
  destruct (largest_ok_spec _ g HN Hl Hvalid) as ((R1 & R2 & R3 & R4) & _).
  assert (Hfree : group_bit (fVolume a) g (fLargestStart g) = false)
    by (apply R4; lia).
  assert (Hffle : fFirstFree g <= fLargestStart g).
  { destruct (Z.le_gt_cases (fFirstFree g) (fLargestStart g)); [assumption|].
    rewrite (proj1 (first_free_ok_spec _ g HN) Hff (fLargestStart g))
      in Hfree by lia.
    discriminate. }
  assert (Hnotfull : IsFull g = false).
  { destruct (IsFull g) eqn:E; [|reflexivity].
    rewrite (full_group_used _ g HN Hc E (fLargestStart g)) in Hfree by lia.
    discriminate. }
  cbn [visit_groups].
  rewrite Z.rem_small by lia. fold g.
  unfold visit_group, NumBits. rewrite Hnotfull, Hvalid.
  destruct (Z.geb_spec start (fNumBits g)); [lia|]. cbn [orb andb].
  change (bestLength no_best) with (-1).
  destruct (Z.ltb_spec (fLargestLength g) (-1)); [lia|].
  assert (Hstart' : (fLargestStart g
                     >=? (if start <? fFirstFree g then u16 (fFirstFree g)
                          else start)) = true).
  { apply Z.geb_le. destruct (Z.ltb_spec start (fFirstFree g)); [|lia].
    rewrite u16_small by lia. lia. }
  rewrite Hstart'.
  destruct (Z.geb_spec (fLargestLength g) (-1)); [|lia].
  cbn [bestLength set_best].
  destruct (Z.geb_spec (fLargestLength g) maximum); [|lia].
  rewrite set_group_same by lia. reflexivity.
Qed.

(** ** Trim *)

Lemma u64_small x : 0 <= x < 18446744073709551616 -> u64 x = x.
Proof. intros H. unfold u64. apply Z.mod_small. lia. Qed.

Section TrimWalk.

Context {Device : Type}.

Variable B_TRIM_DEVICE : Device -> list (Z * Z) -> Device * (Z + Z).

Variable blockShift : Z.

Definition next_block (s : trim_state Device) : trim_state Device :=
  mk_trim_state (trimData s) (firstFree s) (freeLength s)
    (u64 (currentBlock s + 1)) (trimmedSize s) (device s).

(** The loops of [Trim] as one walk along the bits. *)
Fixpoint trim_walk (bits : list bool) (s : trim_state Device)
  : option trim_status_t * trim_state Device :=
  match bits with
  | [] => (None, s)
  | used :: rest =>
      match trim_bit B_TRIM_DEVICE blockShift used s with
      | (Some status, s) => (Some status, s)
      | (None, s) => trim_walk rest (next_block s)
      end
  end.

Lemma trim_walk_app l1 : forall l2 s,
  trim_walk (l1 ++ l2) s
  = match trim_walk l1 s with
    | (Some status, s) => (Some status, s)
    | (None, s) => trim_walk l2 s
    end.
Proof.
  induction l1 as [|b l1 IH]; intros l2 s; cbn [app trim_walk].
  - reflexivity.
  - destruct (trim_bit B_TRIM_DEVICE blockShift b s) as [[status|] s'].
    + reflexivity.
    + apply IH.
Qed.

Lemma trim_bits_walk cached : forall rounds i s,
  0 <= i -> i + Z.of_nat rounds <= 4294967296 ->
  trim_bits B_TRIM_DEVICE rounds cached blockShift i s
  = trim_walk (map (AllocationBlock_IsUsed cached) (seqZ i (Z.of_nat rounds)))
      s.
Proof.
  induction rounds as [|r IH]; intros i s Hi Hle.
  - reflexivity.
  - rewrite seqZ_cons by lia. cbn [map trim_walk trim_bits].
    destruct (trim_bit _ _ _ s) as [[status|] s']; [reflexivity|].
    destruct (Z.eq_dec (Z.of_nat r) 0) as [E|E].
    + assert (r = O) as -> by lia. reflexivity.
    + rewrite u32_small by lia. rewrite IH by lia.
      unfold next_block. do 3 f_equal. lia.
Qed.

Lemma trim_blocks_walk v g :
  volume_ok v = true -> group_geometry v g ->
  forall rounds k s,
    0 <= k -> Z.of_nat rounds = fNumBitmapBlocks g - k ->
    trim_blocks B_TRIM_DEVICE rounds v g blockShift k s
    = Some (trim_walk
              (map (group_bit v g)
                 (seqZ (k * bitsPerBlock v)
                    (fNumBits g - k * bitsPerBlock v))) s).
Proof.
  intros Hv (HN & Hnb & Hp).
  pose proof (bitsPerBlock_range v Hv) as Hb.
  pose proof (blocks_cover v g Hv HN Hnb) as (Hc1 & Hc2 & Hc3).
  set (bpb := bitsPerBlock v) in *.
  induction rounds as [|r IH]; intros k s Hk Hr.
  - assert (E : fNumBits g - k * bpb <= 0) by nia.
    cbn [trim_blocks]. rewrite seqZ_nil by lia. reflexivity.
  - assert (Hk' : 0 <= k < fNumBitmapBlocks g) by lia.
    destruct (Hp k Hk') as (data & Hd & Hlen).
    destruct (block_bits_eq v g Hv HN Hnb k Hk') as [Hbb Hpos].
    fold bpb in Hbb.
    cbn [trim_blocks].
    unfold AllocationBlock_SetTo, CachedBlock_SetTo, Start.
    rewrite (u16_small k) by lia. rewrite Hd.
    unfold NumBlockBits. cbn [fNumBlockBits].
    set (m := block_bits v g k) in *.
    set (cached := mk_AllocationBlock (fStart g + k) data m).
    rewrite trim_bits_walk by lia.
    rewrite Z2Nat.id by lia.
    assert (Hmap : map (AllocationBlock_IsUsed cached) (seqZ 0 m)
                   = map (group_bit v g) (seqZ (k * bpb) m)).
    { replace (seqZ (k * bpb) m) with ((λ i, k * bpb + i) <$> seqZ 0 m).
      2:{ transitivity (Z.add (k * bpb) <$> seqZ 0 m); [reflexivity|].
          rewrite fmap_add_seqZ. f_equal. lia. }
      change (map (group_bit v g) ((λ i, k * bpb + i) <$> seqZ 0 m))
        with (group_bit v g <$> ((λ i, k * bpb + i) <$> seqZ 0 m)).
      rewrite <- list_fmap_compose.
      apply list_fmap_ext. intros n i Hi.
      apply lookup_seqZ in Hi. destruct Hi as [-> Hn].
      rewrite IsUsed_chunk_bit by (unfold cached; cbn [fNumBlockBits]; lia).
      unfold cached. cbn [fBlock compose]. symmetry.
      apply (view_bits v g Hv k data); [lia|exact Hd|fold bpb; lia]. }
    rewrite Hmap.
    destruct (Z.le_gt_cases ((k + 1) * bpb) (fNumBits g)) as [Hrest|Hrest].
    + replace (fNumBits g - k * bpb)
        with (m + (fNumBits g - (k + 1) * bpb)) by lia.
      rewrite seqZ_app by lia.
      rewrite map_app, trim_walk_app.
      destruct (trim_walk _ s) as [[status|] s']; [reflexivity|].
      rewrite u32_small by lia. rewrite IH by lia.
      replace ((k + 1) * bpb) with (k * bpb + m) by lia. reflexivity.
    + assert (r = O) as -> by nia.
      replace (fNumBits g - k * bpb) with m by lia.
      destruct (trim_walk _ s) as [[status|] s']; reflexivity.
Qed.

Lemma trim_groups_walk a :
  allocator_inv a ->
  forall rounds i s,
    0 <= i -> Z.of_nat rounds = fNumGroups a - i ->
    trim_groups B_TRIM_DEVICE rounds a blockShift i s
    = Some (trim_walk
              (concat (map (group_bitmap (fVolume a))
                         (drop (Z.to_nat i) (fGroups a)))) s).
Proof.
  intros (Hv & Hn & Hlength & Hgroups).
  induction rounds as [|r IH]; intros i s Hi Hr.
  - cbn [trim_groups]. rewrite drop_ge by lia. reflexivity.
  - assert (Hi' : 0 <= i < fNumGroups a) by lia.
    pose proof (Hgroups i Hi') as Hg.
    apply group_ok_spec in Hg. destruct Hg as (Hgeo & _).
    pose proof (geometry_ok_group_geometry _ _ Hv Hgeo) as Hgg.
    pose proof Hgg as (HN & Hnb & Hp).
    pose proof (blocks_cover _ _ Hv HN Hnb) as (Hc1 & Hc2 & Hc3).
    cbn [trim_groups]. unfold NumBitmapBlocks.
    rewrite (trim_blocks_walk _ _ Hv Hgg _ 0) by lia.
    rewrite Z.mul_0_l, Z.sub_0_r.
    rewrite (drop_S _ (group_at a i) (Z.to_nat i))
      by (apply group_at_lookup; lia).
    cbn [map concat]. rewrite trim_walk_app.
    fold (group_bitmap (fVolume a) (group_at a i)).
    destruct (trim_walk _ s) as [[status|] s']; [reflexivity|].
    rewrite IH by lia.
    replace (Z.to_nat (i + 1)) with (S (Z.to_nat i)) by lia. reflexivity.
Qed.

End TrimWalk.

Lemma take_insert_snoc {A} (l : list A) (n : nat) (x : A) :
  (n < length l)%nat -> take (S n) (<[n := x]> l) = take n l ++ [x].
Proof.
  intros Hn.
  rewrite (take_S_r _ _ x) by (apply list_lookup_insert_eq; exact Hn).
  rewrite take_insert_ge by lia. reflexivity.
Qed.

Section TrimRefines.

Context {Device : Type}.

Variable B_TRIM_DEVICE : Device -> list (Z * Z) -> Device * (Z + Z).

Variable blockShift : Z.

Hypothesis Hshift : 0 <= blockShift.

(** The number of bits of the walk, in bytes, fits 64 bits. *)
Variable total : Z.

Hypothesis Htotal : total * 2 ^ blockShift < 18446744073709551616.

Lemma shifted_small x :
  0 <= x <= total ->
  u64 (Z.shiftl x blockShift) = x * 2 ^ blockShift
  /\ Z.shiftr (u64 (Z.shiftl x blockShift)) blockShift = x.
Proof.
  intros Hx. assert (0 < 2 ^ blockShift) by (apply Z.pow_pos_nonneg; lia).
  rewrite Z.shiftl_mul_pow2 by lia.
  rewrite u64_small by nia. split; [reflexivity|].
  rewrite Z.shiftr_div_pow2 by lia. apply Z.div_mul. lia.
Qed.

(** What [Trim] returns after its loops. *)
Definition trim_finish (r : option trim_status_t * trim_state Device)
  : trim_status_t * Z * Device :=
  match r with
  | (Some status, s) => (status, trimmedSize s, device s)
  | (None, s) =>
      let '(status, _, trimmed, d) :=
        _TrimNext B_TRIM_DEVICE (trimData s) kTrimRanges
          (u64 (Z.shiftl (firstFree s) blockShift))
          (u64 (Z.shiftl (freeLength s) blockShift)) true (trimmedSize s)
          (device s) in
      (status, trimmed, d)
  end.

Definition pending_ranges (s : trim_state Device) : list (Z * Z) :=
  take (Z.to_nat (range_count (trimData s))) (ranges (trimData s)).

Lemma trim_walk_refines : forall bits s pos,
  currentBlock s = pos -> 0 <= pos -> pos + Z.of_nat (length bits) <= total ->
  0 <= firstFree s <= pos -> 0 <= freeLength s <= pos ->
  0 <= range_count (trimData s) < 128 ->
  length (ranges (trimData s)) = 128%nat ->
  trim_finish (trim_walk B_TRIM_DEVICE blockShift bits s)
  = send_ranges B_TRIM_DEVICE
      (in_bytes (2 ^ blockShift)
       <$> closed_runs bits pos (firstFree s) (freeLength s))
      (in_bytes (2 ^ blockShift)
       <$> open_run bits pos (firstFree s) (freeLength s))
      (pending_ranges s) (trimmedSize s) (device s).
Proof.
  assert (HB : 0 < 2 ^ blockShift) by (apply Z.pow_pos_nonneg; lia).
  assert (H64 : total < 18446744073709551616) by nia.
  induction bits as [|used bits IH]; intros s pos Hcur Hpos Htot Hff Hfl Hrc
    Hlen.
  - (* after the loops *)
    cbn [trim_walk trim_finish closed_runs open_run fmap list_fmap
         send_ranges length] in *.
    destruct (shifted_small (firstFree s) ltac:(lia)) as [Eff _].
    destruct (shifted_small (freeLength s) ltac:(lia)) as [Efl _].
    rewrite Eff, Efl. unfold _TrimNext, _AddTrim, pending_ranges.
    destruct (Z.eqb_spec (freeLength s) 0) as [E0|E0].
    + rewrite E0, Z.mul_0_l.
      cbn [Z.eqb orb range_count ranges fmap list_fmap].
      rewrite app_nil_r.
      destruct (B_TRIM_DEVICE _ _) as [d [e|n]]; reflexivity.
    + destruct (Z.eqb_spec (freeLength s * 2 ^ blockShift) 0); [nia|].
      rewrite orb_true_r. cbn [range_count ranges fmap list_fmap].
      rewrite (u32_small (range_count (trimData s) + 1)) by lia.
      replace (Z.to_nat (range_count (trimData s) + 1))
        with (S (Z.to_nat (range_count (trimData s)))) by lia.
      rewrite take_insert_snoc by lia.
      unfold in_bytes. cbn [fst snd].
      destruct (B_TRIM_DEVICE _ _) as [d [e|n']]; reflexivity.
  - cbn [length] in Htot. destruct used.
    + (* the block is in use *)
      cbn [trim_walk closed_runs open_run]. unfold trim_bit.
      destruct (Z.gtb_spec (freeLength s) 0) as [Hgt|Hle].
      * destruct (shifted_small (firstFree s) ltac:(lia)) as [Eff Eff'].
        destruct (shifted_small (freeLength s) ltac:(lia)) as [Efl Efl'].
        rewrite Eff', Efl', !Z.eqb_refl. cbn [negb orb].
        rewrite Eff, Efl. unfold _TrimNext, _AddTrim.
        destruct (Z.eqb_spec (freeLength s * 2 ^ blockShift) 0); [nia|].
        cbn [range_count ranges orb fmap list_fmap send_ranges].
        rewrite (u32_small (range_count (trimData s) + 1)) by lia.
        replace (Z.to_nat (range_count (trimData s) + 1))
          with (S (Z.to_nat (range_count (trimData s)))) by lia.
        rewrite take_insert_snoc by lia.
        fold (pending_ranges s).
        assert (Hpl : Z.of_nat (length (pending_ranges s))
                      = range_count (trimData s)).
        { unfold pending_ranges. rewrite length_take. lia. }
        rewrite Hpl. unfold kTrimRanges, in_bytes. cbn [fst snd].
        rewrite orb_false_r.
        destruct (Z.eqb_spec (range_count (trimData s) + 1) 128) as [E|E].
        -- destruct (B_TRIM_DEVICE _ _) as [d [e|n']].
           ++ reflexivity.
           ++ rewrite (IH _ (pos + 1)); cbn; try lia.
              ** reflexivity.
              ** rewrite Hcur. apply u64_small. lia.
              ** rewrite length_insert. exact Hlen.
        -- rewrite (IH _ (pos + 1)); cbn; try lia.
           ++ unfold pending_ranges at 1. unfold next_block.
              cbn [trimData range_count ranges].
              replace (Z.to_nat (range_count (trimData s) + 1))
                with (S (Z.to_nat (range_count (trimData s)))) by lia.
              rewrite take_insert_snoc by lia. reflexivity.
           ++ rewrite Hcur. apply u64_small. lia.
           ++ rewrite length_insert. exact Hlen.
      * assert (Hz : freeLength s = 0) by lia.
        destruct (Z.gtb_spec (freeLength s) 0); [lia|].
        rewrite (IH _ (pos + 1)); cbn; try lia.
        -- reflexivity.
        -- rewrite Hcur. apply u64_small. lia.
    + (* the block is free *)
      cbn [trim_walk closed_runs open_run]. unfold trim_bit.
      rewrite (IH _ (pos + 1)); cbn; try lia.
      * rewrite (u64_small (freeLength s + 1)) by lia.
        rewrite Hcur. reflexivity.
      * rewrite Hcur. apply u64_small. lia.
      * destruct (Z.eqb_spec (freeLength s) 0); lia.
      * rewrite u64_small; lia.
Qed.

End TrimRefines.

Lemma length_group_bitmap v g :
  length (group_bitmap v g) = Z.to_nat (fNumBits g).
Proof. unfold group_bitmap. rewrite length_map. apply length_seqZ. Qed.

Lemma length_bitmaps_le v : forall gs,
  forallb (group_ok v) gs = true ->
  Z.of_nat (length (concat (map (group_bitmap v) gs)))
  <= 65536 * Z.of_nat (length gs).
Proof.
  induction gs as [|g gs IH]; intros H; cbn [map concat length].
  - lia.
  - cbn [forallb] in H. apply andb_true_iff in H. destruct H as [Hg Hgs].
    apply group_ok_spec in Hg. destruct Hg as (Hgeo & _).
    apply geometry_ok_spec in Hgeo. destruct Hgeo as (HN & _).
    rewrite length_app, length_group_bitmap. specialize (IH Hgs). lia.
Qed.

Lemma trim_ok_spec a :
  trim_ok a = true ->
  allocator_ok a = true /\ fNumGroups a <= 2147483647
  /\ 0 <= BlockShift (fVolume a) <= 13
  /\ BlockSize (fVolume a) = 2 ^ BlockShift (fVolume a)
  /\ 0 <= NumBlocks (fVolume a)
  /\ NumBlocks (fVolume a) * BlockSize (fVolume a) < 18446744073709551616.
Proof.
  unfold trim_ok. rewrite !andb_true_iff, !Z.leb_le, Z.eqb_eq, Z.ltb_lt.
  intros (((((H1 & H2) & H3) & H4) & H5) & H6).
  repeat split; try assumption.
  apply allocator_ok_inv in H1. destruct H1 as (Hv & _).
  destruct (volume_ok_spec _ Hv) as ((_ & Hle) & _).
  destruct (Z.le_gt_cases (BlockShift (fVolume a)) 13); [assumption|].
  assert (2 ^ 14 <= 2 ^ BlockShift (fVolume a))
    by (apply Z.pow_le_mono_r; lia).
  lia.
Qed.


Lemma Trim_refines {Device} dev a size trimmed (d : Device) :
  trim_ok a = true ->
  NumBlocks (fVolume a) * BlockSize (fVolume a) <= size ->
  Trim dev a 0 size trimmed d
  = Some (send_ranges dev
            (in_bytes (BlockSize (fVolume a))
             <$> closed_runs (volume_bitmap a) 0 0 0)
            (in_bytes (BlockSize (fVolume a))
             <$> open_run (volume_bitmap a) 0 0 0) [] 0 d).
Proof.
  intros Hok Hsize.
  destruct (trim_ok_spec a Hok) as (Hall & Hn & Hsh & Hbs & Hnb & H64).
  pose proof Hall as Hinv. apply allocator_ok_inv in Hinv.
  pose proof Hinv as (Hv & Hn0 & Hlength & Hgroups).
  destruct (volume_ok_spec _ Hv) as ((Hbs0 & Hbs1) & _).
  unfold Trim.
  rewrite (u64_small (NumBlocks (fVolume a))) by nia.
  rewrite u64_small by nia.
  cbn [Z.eqb negb orb].
  destruct (Z.ltb_spec (NumBlocks (fVolume a)) 0); [lia|]. cbn [orb].
  destruct (Z.ltb_spec size (NumBlocks (fVolume a) * BlockSize (fVolume a)));
    [lia|].
  rewrite s32_small by lia. rewrite (u32_small (BlockShift (fVolume a))) by lia.
  replace (fNumGroups a - 1 + 1) with (fNumGroups a) by lia.
  rewrite (trim_groups_walk dev _ a Hinv) by lia.
  change (drop (Z.to_nat 0) (fGroups a)) with (fGroups a).
  fold (volume_bitmap a).
  assert (Hlen : Z.of_nat (length (volume_bitmap a))
                 <= 65536 * fNumGroups a).
  { unfold volume_bitmap. rewrite Hlength. apply length_bitmaps_le.
    unfold allocator_ok in Hall. apply andb_true_iff in Hall. apply Hall. }
  pose proof (trim_walk_refines dev (BlockShift (fVolume a)) ltac:(lia)
                (65536 * fNumGroups a)) as Href.
  rewrite <- Hbs in Href.
  specialize (Href ltac:(nia) (volume_bitmap a)
                (mk_trim_state
                   (mk_fs_trim_data 0
                      (replicate (Z.to_nat kTrimRanges) (0, 0)) 0)
                   0 0 0 0 d) 0).
  unfold pending_ranges in Href.
  cbn [firstFree freeLength trimmedSize device currentBlock trimData
       range_count ranges] in Href.
  change (take (Z.to_nat 0) _) with (@nil (Z * Z)) in Href.
  rewrite <- Href; try lia; try reflexivity.
  unfold trim_finish.
  destruct (trim_walk dev (BlockShift (fVolume a)) (volume_bitmap a) _)
    as [[status|] s']; [reflexivity|].
  destruct (_TrimNext _ _ _ _ _ _ _ _) as [[[status ?] t] d']. reflexivity.
Qed.

Lemma runs_from_nil pos start len :
  runs_from [] pos start len = if len =? 0 then [] else [(start, len)].
Proof. reflexivity. Qed.

Lemma runs_from_used bits pos start len :
  0 <= len ->
  runs_from (true :: bits) pos start len
  = (if len =? 0 then [] else [(start, len)])
    ++ runs_from bits (pos + 1) start 0.
Proof.
  intros Hlen. unfold runs_from. cbn [closed_runs open_run].
  destruct (Z.gtb_spec len 0), (Z.eqb_spec len 0); try lia.
  - reflexivity.
  - subst len. reflexivity.
Qed.

Lemma runs_from_free bits pos start len :
  runs_from (false :: bits) pos start len
  = runs_from bits (pos + 1) (if len =? 0 then pos else start) (len + 1).
Proof. reflexivity. Qed.

Lemma unset_bits_app l1 l2 :
  unset_bits (l1 ++ l2) = unset_bits l1 + unset_bits l2.
Proof.
  unfold unset_bits. induction l1 as [|b l1 IH]; cbn; [reflexivity|].
  cbn in IH. rewrite IH. lia.
Qed.

Lemma ranges_size_app l1 l2 :
  ranges_size (l1 ++ l2) = ranges_size l1 + ranges_size l2.
Proof.
  unfold ranges_size. induction l1 as [|r l1 IH]; cbn; [reflexivity|].
  cbn in IH. rewrite IH. lia.
Qed.

Lemma ranges_size_in_bytes blockSize l :
  ranges_size (in_bytes blockSize <$> l) = ranges_size l * blockSize.
Proof.
  unfold ranges_size. induction l as [|r l IH]; cbn; [reflexivity|].
  cbn in IH. rewrite IH. lia.
Qed.

Lemma runs_from_size : forall bits pos start len,
  0 <= len ->
  ranges_size (runs_from bits pos start len) = len + unset_bits bits.
Proof.
  induction bits as [|b bits IH]; intros pos start len Hlen.
  - rewrite runs_from_nil. unfold ranges_size, unset_bits.
    destruct (Z.eqb_spec len 0); cbn [map foldr snd]; lia.
  - destruct b.
    + rewrite runs_from_used, ranges_size_app, IH by lia.
      change (unset_bits (true :: bits)) with (0 + unset_bits bits).
      unfold ranges_size.
      destruct (Z.eqb_spec len 0); cbn [map foldr snd]; lia.
    + rewrite runs_from_free, IH by lia.
      change (unset_bits (false :: bits)) with (1 + unset_bits bits). lia.
Qed.

Lemma count_unset_bits f : forall n from,
  count_unset f from n = unset_bits (map f (seqZ from (Z.of_nat n))).
Proof.
  induction n as [|n IH]; intros from; [reflexivity|].
  rewrite seqZ_cons by lia. cbn [count_unset map].
  change (unset_bits (f from :: ?l))
    with ((if f from then 0 else 1) + unset_bits l).
  rewrite IH.
  replace (Z.pred (Z.of_nat (S n))) with (Z.of_nat n) by lia.
  reflexivity.
Qed.

Lemma unset_bits_bitmaps v : forall gs,
  forallb (group_ok v) gs = true ->
  unset_bits (concat (map (group_bitmap v) gs))
  = foldr Z.add 0 (map fFreeBits gs).
Proof.
  induction gs as [|g gs IH]; intros H; [reflexivity|].
  cbn [forallb] in H. apply andb_true_iff in H. destruct H as [Hg Hgs].
  apply group_ok_spec in Hg. destruct Hg as (Hgeo & Hc & _).
  apply geometry_ok_spec in Hgeo. destruct Hgeo as (HN & _).
  cbn [map concat foldr]. rewrite unset_bits_app, (IH Hgs). f_equal.
  unfold count_ok in Hc. apply Z.eqb_eq in Hc. rewrite Hc.
  unfold free_count, group_bitmap. rewrite count_unset_bits.
  rewrite Z2Nat.id by lia. reflexivity.
Qed.

Lemma unset_bits_volume a :
  allocator_ok a = true -> unset_bits (volume_bitmap a) = free_blocks a.
Proof.
  intros H. unfold allocator_ok in H. apply andb_true_iff in H.
  apply unset_bits_bitmaps. apply H.
Qed.

Lemma unset_bits_bounds bits :
  0 <= unset_bits bits <= Z.of_nat (length bits).
Proof.
  induction bits as [|b bits IH]; [cbn; lia|].
  change (unset_bits (b :: bits))
    with ((if b then 0 else 1) + unset_bits bits).
  cbn [length]. destruct b; lia.
Qed.

Lemma separated_mono runs lo lo' :
  lo' <= lo -> separated lo runs -> separated lo' runs.
Proof.
  destruct runs as [|r rest]; [auto|]. cbn. intros H (H1 & H2 & H3).
  split; [lia|]. split; assumption.
Qed.

Lemma runs_from_separated : forall bits pos start len,
  0 <= len -> (0 < len -> start = pos - len) ->
  separated (pos - len) (runs_from bits pos start len).
Proof.
  induction bits as [|b bits IH]; intros pos start len Hlen Hstart.
  - rewrite runs_from_nil. destruct (Z.eqb_spec len 0); cbn; [exact I|].
    repeat split; lia.
  - destruct b.
    + rewrite runs_from_used by lia.
      destruct (Z.eqb_spec len 0) as [->|Hne]; cbn [app].
      * apply (separated_mono _ (pos + 1 - 0)); [lia|].
        apply IH; lia.
      * cbn [separated fst snd]. split; [lia|]. split; [lia|].
        replace (start + len + 1) with (pos + 1 - 0) by lia.
        apply IH; lia.
    + rewrite runs_from_free.
      replace (pos - len) with (pos + 1 - (len + 1)) by lia.
      apply IH; [lia|]. intros _. destruct (Z.eqb_spec len 0); lia.
Qed.

Lemma unset_at_cons b bits pos len n :
  0 <= len ->
  unset_at (b :: bits) pos len n
  <-> pos - len <= n < pos \/ (n = pos /\ b = false)
      \/ unset_at bits (pos + 1) 0 n.
Proof.
  intros Hlen. unfold unset_at. split.
  - intros [H|[H1 H2]]; [left; exact H|].
    destruct (Z.eq_dec n pos) as [->|Hne].
    + rewrite Z.sub_diag in H2. change (Some b = Some false) in H2.
      right. left. split; congruence.
    + right. right. right. split; [lia|].
      replace (Z.to_nat (n - pos)) with (S (Z.to_nat (n - (pos + 1))))
        in H2 by lia.
      exact H2.
  - intros [H|[[-> ->]|[H|[H1 H2]]]].
    + left. exact H.
    + right. split; [lia|]. rewrite Z.sub_diag. reflexivity.
    + lia.
    + right. split; [lia|].
      replace (Z.to_nat (n - pos)) with (S (Z.to_nat (n - (pos + 1))))
        by lia.
      exact H2.
Qed.

Lemma runs_from_unset : forall bits pos start len,
  0 <= len -> (0 < len -> start = pos - len) ->
  forall n,
    unset_at bits pos len n
    <-> exists run, run ∈ runs_from bits pos start len
                    /\ run.1 <= n < run.1 + run.2.
Proof.
  induction bits as [|b bits IH]; intros pos start len Hlen Hstart n.
  - rewrite runs_from_nil. unfold unset_at. rewrite lookup_nil. split.
    + intros [H|[_ H]]; [|discriminate].
      destruct (Z.eqb_spec len 0); [lia|].
      exists (start, len). split; [apply list_elem_of_singleton; reflexivity|].
      cbn. lia.
    + intros (run & Hin & Hn). destruct (Z.eqb_spec len 0).
      * apply elem_of_nil in Hin. contradiction.
      * apply list_elem_of_singleton in Hin. subst run. cbn in Hn.
        left. lia.
  - rewrite unset_at_cons by lia. destruct b.
    + rewrite runs_from_used by lia.
      rewrite (IH (pos + 1) start 0 ltac:(lia) ltac:(lia) n).
      split.
      * intros [H|[[_ H]|(run & Hin & Hn)]]; [|discriminate|].
        -- destruct (Z.eqb_spec len 0); [lia|].
           exists (start, len). split; [|cbn; lia].
           apply elem_of_app. left. apply list_elem_of_singleton.
           reflexivity.
        -- exists run. split; [|exact Hn]. apply elem_of_app. right.
           exact Hin.
      * intros (run & Hin & Hn). apply elem_of_app in Hin.
        destruct Hin as [Hin|Hin].
        -- destruct (Z.eqb_spec len 0).
           ++ apply elem_of_nil in Hin. contradiction.
           ++ apply list_elem_of_singleton in Hin. subst run. cbn in Hn.
              left. lia.
        -- right. right. exists run. split; assumption.
    + rewrite runs_from_free.
      rewrite <- (IH (pos + 1) (if len =? 0 then pos else start) (len + 1)
                    ltac:(lia)
                    ltac:(intros _; destruct (Z.eqb_spec len 0); lia) n).
      unfold unset_at. split.
      * intros [H|[[-> _]|[H|H]]].
        -- left. lia.
        -- left. lia.
        -- lia.
        -- right. exact H.
      * intros [H|H].
        -- destruct (Z.eq_dec n pos) as [->|Hne].
           ++ right. left. split; reflexivity.
           ++ left. lia.
        -- right. right. right. exact H.
Qed.

Lemma runs_from_within : forall bits pos start len,
  0 <= len -> (0 < len -> start = pos - len) ->
  forall run, run ∈ runs_from bits pos start len ->
    pos - len <= run.1 /\ 0 < run.2
    /\ run.1 + run.2 <= pos + Z.of_nat (length bits).
Proof.
  induction bits as [|b bits IH]; intros pos start len Hlen Hstart run Hin.
  - rewrite runs_from_nil in Hin. destruct (Z.eqb_spec len 0).
    + apply elem_of_nil in Hin. contradiction.
    + apply list_elem_of_singleton in Hin. subst run. cbn. lia.
  - cbn [length]. destruct b.
    + rewrite runs_from_used in Hin by lia. apply elem_of_app in Hin.
      destruct Hin as [Hin|Hin].
      * destruct (Z.eqb_spec len 0).
        -- apply elem_of_nil in Hin. contradiction.
        -- apply list_elem_of_singleton in Hin. subst run. cbn. lia.
      * destruct (IH (pos + 1) start 0 ltac:(lia) ltac:(lia) run Hin)
          as (H1 & H2 & H3).
        lia.
    + rewrite runs_from_free in Hin.
      destruct (IH (pos + 1) (if len =? 0 then pos else start) (len + 1)
                  ltac:(lia)
                  ltac:(intros _; destruct (Z.eqb_spec len 0); lia) run Hin)
        as (H1 & H2 & H3).
      lia.
Qed.

(** ** The requests of a trim *)

Lemma recording_device_trims_all : trims_all recording_device.
Proof. intros d request. reflexivity. Qed.

Lemma ranges_size_nonneg l :
  Forall (fun r : Z * Z => 0 <= r.2) l -> 0 <= ranges_size l.
Proof.
  unfold ranges_size. induction 1 as [|r l Hr _ IH]; cbn [map foldr]; lia.
Qed.


Lemma send_ranges_trims_all {Device} dev :
  trims_all dev ->
  forall todo last pending t (d : Device),
    Forall (fun r : Z * Z => 0 <= r.2) (pending ++ todo ++ last) ->
    0 <= t ->
    t + ranges_size (pending ++ todo ++ last) < 18446744073709551616 ->
    exists d',
      send_ranges dev todo last pending t d
      = (Status B_OK, t + ranges_size (pending ++ todo ++ last), d').
Proof.
  intros Hdev.
  induction todo as [|r todo IH]; intros last pending t d Hpos Ht Hsum;
    cbn [send_ranges].
  - cbn [app] in *. pose proof (Hdev d (pending ++ last)) as E.
    destruct (dev d (pending ++ last)) as [d' res]. cbn in E. subst res.
    pose proof (ranges_size_nonneg _ Hpos).
    rewrite u64_small by lia. eauto.
  - assert (Hsplit : pending ++ (r :: todo) ++ last
                     = (pending ++ [r]) ++ todo ++ last).
    { rewrite <- app_assoc. reflexivity. }
    rewrite Hsplit in *.
    destruct (Z.of_nat (length pending) + 1 =? kTrimRanges).
    + pose proof (Hdev d (pending ++ [r])) as E.
      destruct (dev d (pending ++ [r])) as [d' res]. cbn in E. subst res.
      rewrite (ranges_size_app (pending ++ [r])) in Hsum.
      rewrite (ranges_size_app (pending ++ [r])).
      apply Forall_app in Hpos. destruct Hpos as [Hp1 Hp2].
      pose proof (ranges_size_nonneg _ Hp1).
      pose proof (ranges_size_nonneg _ Hp2).
      rewrite u64_small by lia.
      destruct (IH last [] (t + ranges_size (pending ++ [r])) d')
        as (d'' & E); cbn [app]; try assumption; try lia.
      exists d''. rewrite E. f_equal. f_equal. cbn [app]. lia.
    + apply IH; assumption.
Qed.

Lemma send_ranges_recording : forall todo last pending t requests,
  (length pending < 128)%nat ->
  exists t' full final,
    send_ranges recording_device todo last pending t requests
    = (Status B_OK, t', final :: reverse full ++ requests)
    /\ concat full ++ final = pending ++ todo ++ last
    /\ Forall (fun request => length request = 128%nat) full
    /\ (length final <= 127 + length last)%nat.
Proof.
  induction todo as [|r todo IH]; intros last pending t requests Hp;
    cbn [send_ranges].
  - exists (u64 (t + ranges_size (pending ++ last))), [], (pending ++ last).
    split; [reflexivity|]. split; [reflexivity|]. split; [constructor|].
    rewrite length_app. lia.
  - unfold kTrimRanges.
    destruct (Z.eqb_spec (Z.of_nat (length pending) + 1) 128) as [E|E].
    + change (recording_device requests (pending ++ [r]))
        with ((pending ++ [r]) :: requests,
              @inr Z Z (ranges_size (pending ++ [r]))).
      cbv beta iota.
      destruct (IH last [] (u64 (t + ranges_size (pending ++ [r])))
                  ((pending ++ [r]) :: requests))
        as (t' & full & final & H1 & H2 & H3 & H4); [cbn; lia|].
      exists t', ((pending ++ [r]) :: full), final.
      split.
      { rewrite H1, reverse_cons, <- app_assoc. reflexivity. }
      split.
      { cbn [concat]. rewrite <- !app_assoc. cbn [app] in H2.
        rewrite H2. reflexivity. }
      split; [|exact H4].
      constructor; [|exact H3]. rewrite length_app. cbn. lia.
    + destruct (IH last (pending ++ [r]) t requests)
        as (t' & full & final & H1 & H2 & H3 & H4).
      { rewrite length_app. cbn. lia. }
      exists t', full, final. split; [exact H1|].
      split; [|split; assumption].
      rewrite H2, <- app_assoc. reflexivity.
Qed.

Lemma sizes_nonneg blockSize runs :
  0 <= blockSize -> Forall (fun r : Z * Z => 0 < r.2) runs ->
  Forall (fun r : Z * Z => 0 <= r.2) (in_bytes blockSize <$> runs).
Proof.
  intros Hb H. apply Forall_fmap. eapply Forall_impl; [exact H|].
  intros [st len] Hr. unfold compose, in_bytes. simpl in *. nia.
Qed.

(** What [Trim] sends to a device that trims all it is given. *)
Lemma Trim_trims_all {Device} dev a size trimmed (d : Device) :
  trim_ok a = true -> trims_all dev ->
  NumBlocks (fVolume a) * BlockSize (fVolume a) <= size ->
  exists d',
    Trim dev a 0 size trimmed d
    = Some (Status B_OK, free_blocks a * BlockSize (fVolume a), d').
Proof.
  intros Hok Hdev Hsize.
  rewrite (Trim_refines dev a size trimmed d Hok Hsize).
  destruct (trim_ok_spec a Hok) as (Hall & Hn & Hsh & Hbs & Hnb & H64).
  pose proof Hall as Hinv. apply allocator_ok_inv in Hinv.
  destruct Hinv as (Hv & Hn0 & Hlength & _).
  destruct (volume_ok_spec _ Hv) as ((Hbs0 & Hbs1) & _).
  set (bits := volume_bitmap a).
  set (BS := BlockSize (fVolume a)) in *.
  assert (Hlen : Z.of_nat (length bits) <= 65536 * fNumGroups a).
  { unfold bits, volume_bitmap. rewrite Hlength. apply length_bitmaps_le.
    unfold allocator_ok in Hall. apply andb_true_iff in Hall. apply Hall. }
  pose proof (runs_from_size bits 0 0 0 ltac:(lia)) as Hsum.
  unfold runs_from in Hsum.
  pose proof (unset_bits_bounds bits) as Hub.
  assert (Hfree : unset_bits bits = free_blocks a)
    by (apply unset_bits_volume; exact Hall).
  assert (Hpos : Forall (fun r : Z * Z => 0 < r.2)
                   (closed_runs bits 0 0 0 ++ open_run bits 0 0 0)).
  { apply Forall_forall. intros run Hin.
    apply (runs_from_within bits 0 0 0 ltac:(lia) ltac:(lia) run Hin). }
  destruct (send_ranges_trims_all dev Hdev
              (in_bytes BS <$> closed_runs bits 0 0 0)
              (in_bytes BS <$> open_run bits 0 0 0) [] 0 d) as (d' & E).
  - cbn [app]. rewrite <- fmap_app. apply sizes_nonneg; [lia|exact Hpos].
  - lia.
  - cbn [app]. rewrite <- fmap_app, ranges_size_in_bytes, Hsum. nia.
  - exists d'. rewrite E. cbn [app].
    rewrite <- fmap_app, ranges_size_in_bytes, Hsum, Hfree, !Z.add_0_l.
    reflexivity.
Qed.

Lemma open_run_length : forall bits pos start len,
  (length (open_run bits pos start len) <= 1)%nat.
Proof.
  induction bits as [|b bits IH]; intros pos start len; cbn [open_run].
  - destruct (len =? 0); cbn; lia.
  - destruct b; apply IH.
Qed.

(** The requests [Trim] makes of the recording device. *)
Lemma Trim_recording a size trimmed :
  trim_ok a = true ->
  NumBlocks (fVolume a) * BlockSize (fVolume a) <= size ->
  exists full final runs,
    Trim recording_device a 0 size trimmed []
    = Some (Status B_OK, free_blocks a * BlockSize (fVolume a),
            final :: reverse full)
    /\ Forall (fun request => length request = 128%nat) full
    /\ (length final <= 128)%nat
    /\ concat full ++ final = in_bytes (BlockSize (fVolume a)) <$> runs
    /\ runs = free_runs (volume_bitmap a)
    /\ separated 0 runs
    /\ forall n, 0 <= n ->
         volume_bitmap a !! Z.to_nat n = Some false
         <-> exists run, run ∈ runs /\ run.1 <= n < run.1 + run.2.
Proof.
  intros Hok Hsize.
  destruct (Trim_trims_all recording_device a size trimmed [] Hok
              recording_device_trims_all Hsize) as (d' & Hres).
  pose proof (Trim_refines recording_device a size trimmed [] Hok Hsize)
    as Href.
  set (bits := volume_bitmap a) in *.
  destruct (send_ranges_recording
              (in_bytes (BlockSize (fVolume a)) <$> closed_runs bits 0 0 0)
              (in_bytes (BlockSize (fVolume a)) <$> open_run bits 0 0 0)
              [] 0 []) as (t' & full & final & E & Hcat & Hfull & Hfinal);
    [cbn; lia|].
  rewrite E, Hres in Href. injection Href as Ht Hd. subst d' t'.
  rewrite app_nil_r in Hres.
  exists full, final, (free_runs bits).
  split; [exact Hres|]. split; [exact Hfull|]. split.
  { pose proof (open_run_length bits 0 0 0). rewrite length_fmap in Hfinal.
    lia. }
  split.
  { rewrite Hcat. cbn [app]. unfold free_runs. rewrite fmap_app.
    reflexivity. }
  split; [reflexivity|]. split.
  { apply (runs_from_separated bits 0 0 0); lia. }
  intros n Hn.
  rewrite <- (runs_from_unset bits 0 0 0 ltac:(lia) ltac:(lia) n).
  unfold unset_at. rewrite !Z.sub_0_r. split.
  - intros H. right. split; [lia|exact H].
  - intros [H|[_ H]]; [lia|exact H].
Qed.

Lemma sum_snoc {A} (f : A -> Z) l x :
  foldr Z.add 0 (map f (l ++ [x])) = foldr Z.add 0 (map f l) + f x.
Proof.
  induction l as [|y l IH]; cbn [app map foldr]; [lia|]. rewrite IH. lia.
Qed.

(** The free blocks of a freshly formatted volume. *)
Lemma formatted_free_blocks v :
  format_ok v = true ->
  exists a,
    InitializeAndClearBitmap v = Some (B_OK, a)
    /\ allocator_ok a = true
    /\ fNumGroups a = AllocationGroups v
    /\ NumBlocks (fVolume a) = NumBlocks v
    /\ BlockSize (fVolume a) = BlockSize v
    /\ BlockShift (fVolume a) = BlockShift v
    /\ free_blocks a
       = NumBlocks v - (run_start (Log v) + run_length (Log v)).
Proof.
  intros Hf.
  destruct (InitializeAndClearBitmap_fields v Hf)
    as (a & H1 & H2 & _ & _ & H5 & _ & _ & H8 & H9 & H10 & Hgroups).
  cbv zeta in Hgroups.
  exists a. split; [exact H1|]. split; [apply allocator_ok_inv; exact H2|].
  split; [exact H5|]. split; [exact H8|]. split; [exact H9|].
  split; [exact H10|].
  destruct H2 as (_ & Hn & Hlen & _). rewrite H5 in *.
  set (bits := 8 * BlocksPerAllocationGroup v * BlockSize v) in *.
  set (reserved := run_start (Log v) + run_length (Log v)) in *.
  assert (Hsum : forall k : nat,
            Z.of_nat k <= AllocationGroups v - 1 ->
            foldr Z.add 0 (map fFreeBits (take k (fGroups a)))
            = Z.of_nat k * bits - (if Z.of_nat k =? 0 then 0 else reserved)).
  { induction k as [|k IH]; intros Hk; [reflexivity|].
    rewrite (take_S_r _ _ (group_at a (Z.of_nat k))).
    2:{ rewrite <- (Nat2Z.id k) at 1. apply group_at_lookup. lia. }
    rewrite sum_snoc, IH by lia.
    destruct (Hgroups (Z.of_nat k) ltac:(lia)) as (HN & HF & _).
    rewrite HF, HN.
    destruct (Z.eqb_spec (Z.of_nat k) (AllocationGroups v - 1)); [lia|].
    destruct (Z.eqb_spec (Z.of_nat (S k)) 0); [lia|].
    destruct (Z.eqb_spec (Z.of_nat k) 0); lia. }
  unfold free_blocks.
  rewrite <- (firstn_all (fGroups a)).
  change firstn with (@take AllocationGroup).
  replace (length (fGroups a))
    with (S (Z.to_nat (AllocationGroups v - 1))) by lia.
  rewrite (take_S_r _ _ (group_at a (AllocationGroups v - 1)))
    by (apply group_at_lookup; lia).
  rewrite sum_snoc, Hsum by lia.
  destruct (Hgroups (AllocationGroups v - 1) ltac:(lia)) as (HN & HF & _).
  rewrite HF, HN, Z.eqb_refl, Z2Nat.id by lia.
  destruct (Z.eqb_spec (AllocationGroups v - 1) 0); lia.
Qed.

(** * The claims of the specification *)

(** C9: [AllocateBlocks] called with a maximum of 0 returns [B_BAD_VALUE]
    at once: no group is looked at and the allocator, the bitmap and the
    used-block counter are as they were. *)
Theorem AllocateBlocks_zero_maximum a groupIndex start minimum :
  AllocateBlocks a groupIndex start 0 minimum = Some (B_BAD_VALUE, None, a).
Proof. reflexivity. Qed.



(** C3: [Free] of a run in a group before the log's group, or in the
    log's group with a start below the end of the log, returns
    [B_BAD_VALUE] and leaves the allocator - bitmap, group hints and
    counts, used-block counter - as it was. *)
Theorem Free_rejects_reserved a run :
  0 <= run_start (Log (fVolume a)) < 65536 ->
  0 <= run_length (Log (fVolume a)) < 65536 ->
  allocation_group run < allocation_group (Log (fVolume a))
  \/ (allocation_group run = allocation_group (Log (fVolume a))
      /\ run_start run
         < run_start (Log (fVolume a)) + run_length (Log (fVolume a))) ->
  Free a run = Some (B_BAD_VALUE, a).
Proof.
  intros Hs Hl Hres. unfold Free.
  match goal with
  | |- (if ?c then _ else _) = _ => destruct c; [reflexivity|]
  end.
  rewrite (u32_small (run_start (Log (fVolume a)))) by lia.
  rewrite u32_small by lia.
  match goal with
  | |- (if ?c then _ else _) = _ => destruct c eqn:E; [reflexivity|]
  end.
  exfalso. apply orb_false_iff in E. destruct E as [E1 E2].
  apply Z.ltb_ge in E1. apply andb_false_iff in E2.
  destruct Hres as [H|[H1 H2]]; [lia|].
  destruct E2 as [E2|E2]; [apply Z.eqb_neq in E2|apply Z.ltb_ge in E2]; lia.
Qed.

Lemma Free_rejects_reserved_witness :
  Free example_allocator (mk_block_run 0 10 5)
  = Some (B_BAD_VALUE, example_allocator).
Proof.
  apply Free_rejects_reserved.
  - vm_compute. split; [discriminate|reflexivity].
  - vm_compute. split; [discriminate|reflexivity].
  - right. vm_compute. split; reflexivity.
Defined.

(** C2, at a failing input: on the freshly formatted example volume the
    best run is the group's largest free run of 8128 blocks; a request
    for at most 100 blocks in multiples of 64 is clamped to 100 blocks,
    which is no multiple of 64. *)
Theorem AllocateBlocks_clamp_not_multiple :
  exists a',
    AllocateBlocks example_allocator 0 0 100 64
    = Some (B_OK, Some (mk_block_run 0 64 100), a')
    /\ 100 mod 64 <> 0.
Proof.
  eexists. split; [vm_compute; reflexivity|]. vm_compute. discriminate.
Qed.

(** ** The hints of a group under [Allocate] and [Free] *)

Lemma AllocationGroup_Allocate_ok v g start len g' v' :
  AllocationGroup_Allocate v g start len = Some (B_OK, g', v') ->
  g' = Allocate_info g (u16 start) len.
Proof.
  unfold AllocationGroup_Allocate.
  destruct (Allocate_blocks _ _ _ _ _ _) as [[[] ?]|]; intros H;
    try discriminate; now injection H as <- _.
Qed.

Lemma AllocationGroup_Free_ok v g start len status g' v' :
  AllocationGroup_Free v g start len = Some (status, g', v') ->
  g' = Free_info g (u16 start) len.
Proof.
  unfold AllocationGroup_Free.
  destruct (Free_blocks _ _ _ _ _ _) as [[? ?]|]; intros H;
    try discriminate; now injection H as _ <- _.
Qed.

(** C8, counterexample: on the freshly formatted example volume group 0
    has the valid largest free run (64, 8128); allocating the run (64, 10)
    at its start leaves the hint valid, cut to (74, 8118). *)
Lemma Allocate_keeps_largest_valid :
  let g := group_at example_allocator 0 in
  fLargestValid g = true /\ fLargestStart g = 64 /\ fLargestLength g = 8128
  /\ exists g' v',
       AllocationGroup_Allocate (fVolume example_allocator) g 64 10
       = Some (B_OK, g', v')
       /\ fLargestValid g' = true
       /\ fLargestStart g' = 74 /\ fLargestLength g' = 8118.
Proof.
  cbv zeta. split; [reflexivity|]. split; [reflexivity|].
  split; [reflexivity|]. eexists. eexists.
  split; [vm_compute; reflexivity|]. repeat split.
Qed.

(** C8, amended: a successful group allocate that starts at the start of
    the valid largest free run cuts the hint from its start, one that
    starts strictly inside it cuts the hint to the part before the
    allocated run; the cut hint stays valid unless it is shorter than the
    bits before it or than the bits after it. In a well-formed group
    every run of free bits that touches or overlaps the hinted run lies
    within it, so that it starts at its start or strictly inside it and
    one of the two cuts is made. *)
Theorem Allocate_cuts_largest v g start len g' v' :
  0 <= start < 65536 -> 0 < fNumBits g <= 65536 ->
  fLargestValid g = true ->
  AllocationGroup_Allocate v g start len = Some (B_OK, g', v') ->
  let still_largest s l :=
    negb ((l <? s) || (l <? fNumBits g - (s + l))) in
  (start = fLargestStart g ->
     fLargestStart g' = fLargestStart g + len
     /\ fLargestLength g' = fLargestLength g - len
     /\ fLargestValid g'
        = still_largest (fLargestStart g + len) (fLargestLength g - len))
  /\ (fLargestStart g < start < fLargestStart g + fLargestLength g ->
        fLargestStart g' = fLargestStart g
        /\ fLargestLength g' = start - fLargestStart g
        /\ fLargestValid g'
           = still_largest (fLargestStart g) (start - fLargestStart g))
  /\ (group_ok v g = true -> 0 < len -> start + len <= fNumBits g ->
      run_free v g start len = true ->
      start <= fLargestStart g + fLargestLength g ->
      fLargestStart g <= start + len ->
      fLargestStart g <= start < fLargestStart g + fLargestLength g
      /\ start + len <= fLargestStart g + fLargestLength g).
Proof.
  intros Hs HN Hvalid Hal. cbv zeta.
  apply AllocationGroup_Allocate_ok in Hal. rewrite u16_small in Hal by lia.
  subst g'.
  pose proof (Allocate_info_largest g start len Hvalid) as E.
  cbv zeta in E. rewrite (s32_small (fNumBits g)) in E by lia.
  split; [|split].
  - intros H. destruct (Z.eqb_spec (fLargestStart g) start); [|lia].
    injection E as E1 E2 E3. auto.
  - intros H. destruct (Z.eqb_spec (fLargestStart g) start); [lia|].
    destruct (Z.gtb_spec start (fLargestStart g)); [|lia].
    destruct (Z.ltb_spec start (fLargestStart g + fLargestLength g)); [|lia].
    injection E as E1 E2 E3. auto.
  - intros Hok Hlen Hfit Hfree Htouch1 Htouch2.
    apply group_ok_spec in Hok. destruct Hok as (_ & _ & _ & Hl).
    destruct (largest_ok_spec v g HN Hl Hvalid)
      as ((R1 & R2 & R3 & R4) & Hall).
    apply run_free_spec in Hfree. rewrite Z.max_r in Hfree by lia.
    set (LS := fLargestStart g) in *. set (LL := fLargestLength g) in *.
    assert (Hunion : free_interval (group_bit v g) (Z.min start LS)
                       (Z.max (start + len) (LS + LL))).
    { intros b Hb.
      destruct (Z.lt_ge_cases b LS) as [Hlt|Hge].
      - destruct (Z.le_gt_cases start b); [apply Hfree; lia|lia].
      - destruct (Z.lt_ge_cases b (LS + LL)); [apply R4; lia|].
        apply Hfree. lia. }
    pose proof (Hall (Z.min start LS) (Z.max (start + len) (LS + LL))
                  ltac:(lia) Hunion) as Hle.
    lia.
Qed.

Lemma Allocate_cuts_largest_witness :
  (exists g' v',
     AllocationGroup_Allocate (fVolume example_allocator)
       (group_at example_allocator 0) 64 10 = Some (B_OK, g', v')
     /\ fLargestStart g' = 74 /\ fLargestLength g' = 8118
     /\ fLargestValid g' = true)
  /\ 64 + 10 <= fLargestStart (group_at example_allocator 0)
                + fLargestLength (group_at example_allocator 0).
Proof.
  destruct (Allocate_cuts_largest (fVolume example_allocator)
              (group_at example_allocator 0) 64 10 _ _
              ltac:(lia) ltac:(vm_compute; split; [reflexivity|discriminate])
              eq_refl eq_refl) as (H & _ & Hin).
  split.
  - eexists. eexists. split; [vm_compute; reflexivity|].
    destruct (H eq_refl) as (H1 & H2 & H3).
    split; [exact H1|]. split; [exact H2|exact H3].
  - apply Hin.
    + vm_compute; reflexivity.
    + lia.
    + vm_compute; discriminate.
    + vm_compute; reflexivity.
    + vm_compute; discriminate.
    + vm_compute; discriminate.
Defined.

(** C7: the first-free hint of a group is a lower bound of its first free
    bit - every bit below it is allocated - and a successful [Allocate]
    and a successful [Free] keep it one: [Allocate] moves the hint, to the
    end of the run, only when the run starts at the hint, and [Free]
    moves it, to the start of the run, only when the run starts below
    it. *)
Theorem first_free_hint_lower_bound v g start len :
  volume_ok v = true -> geometry_ok v g = true ->
  first_free_ok v g = true ->
  0 <= start < 65536 -> 0 <= len <= 65535 -> start + len <= fNumBits g ->
  (exists g' v',
     AllocationGroup_Allocate v g start len = Some (B_OK, g', v')
     /\ first_free_ok v' g' = true
     /\ fFirstFree g'
        = (if start =? fFirstFree g then start + len else fFirstFree g))
  /\ (exists g' v',
        AllocationGroup_Free v g start len = Some (B_OK, g', v')
        /\ first_free_ok v' g' = true
        /\ fFirstFree g'
           = (if fFirstFree g >? start then start else fFirstFree g)).
Proof.
  intros Hv Hgeo Hff Hs Hl Hfit.
  pose proof (geometry_ok_group_geometry v g Hv Hgeo) as Hgg.
  pose proof Hgg as (HN & _).
  pose proof (proj1 (first_free_ok_spec v g HN) Hff) as Hlow.
  split.
  - destruct (AllocationGroup_Allocate_spec v g start len Hv Hgg Hs Hl Hfit)
      as (c' & Hal & _ & _ & Hbits).
    destruct (Allocate_info_geometry g start len) as (G1 & G2 & G3).
    destruct (Allocate_info_counts g start len) as (C1 & C2).
    eexists. eexists. split; [exact Hal|]. split; [|exact C1].
    apply first_free_ok_spec; [lia|]. intros b Hb HbN.
    rewrite (group_bit_same_start _ g) by assumption.
    rewrite Hbits. rewrite C1 in Hb. rewrite G1 in HbN.
    unfold in_range.
    destruct (Z.eqb_spec start (fFirstFree g)) as [E|E].
    + destruct (Z.lt_ge_cases b start).
      * rewrite Hlow by lia. reflexivity.
      * destruct (Z.leb_spec start b); [|lia].
        destruct (Z.ltb_spec b (start + len)); [|lia].
        apply orb_true_r.
    + rewrite Hlow by lia. reflexivity.
  - destruct (AllocationGroup_Free_spec v g start len Hv Hgg Hs Hl Hfit)
      as (c' & Hfr & _ & _ & Hbits).
    destruct (Free_info_geometry g start len) as (G1 & G2 & G3).
    destruct (Free_info_counts g start len) as (C1 & C2).
    eexists. eexists. split; [exact Hfr|]. split; [|exact C1].
    apply first_free_ok_spec; [lia|]. intros b Hb HbN.
    rewrite (group_bit_same_start _ g) by assumption.
    rewrite Hbits. rewrite C1 in Hb. rewrite G1 in HbN.
    unfold in_range.
    destruct (Z.gtb_spec (fFirstFree g) start) as [E|E].
    + rewrite Hlow by lia. destruct (Z.leb_spec start b); [lia|]. reflexivity.
    + rewrite Hlow by lia. destruct (Z.leb_spec start b); [lia|]. reflexivity.
Qed.

Lemma first_free_hint_lower_bound_witness :
  exists g' v',
    AllocationGroup_Allocate (fVolume example_allocator)
      (group_at example_allocator 0) 64 10 = Some (B_OK, g', v')
    /\ first_free_ok v' g' = true /\ fFirstFree g' = 74.
Proof.
  destruct (first_free_hint_lower_bound (fVolume example_allocator)
              (group_at example_allocator 0) 64 10)
    as [(g' & v' & H1 & H2 & H3) _].
  - vm_compute. reflexivity.
  - vm_compute. reflexivity.
  - vm_compute. reflexivity.
  - lia.
  - lia.
  - vm_compute. discriminate.
  - exists g', v'. split; [exact H1|]. split; [exact H2|exact H3].
Defined.

(** ** Allocation requests against the longest free run *)

(** C4: for a request with 1 <= minimum <= maximum on a well-formed
    allocator, [AllocateBlocks] fails with [B_DEVICE_FULL] exactly when
    the best run its search finds is shorter than [minimum], which is
    exactly when the longest free run of the volume is; and with a
    minimum of 1 and a longest free run of L blocks, 1 <= L < maximum, it
    succeeds with a run of exactly L blocks. *)
Theorem device_full_iff_no_run a groupIndex start maximum minimum :
  allocator_ok a = true ->
  0 <= groupIndex -> 0 <= start < 65536 ->
  1 <= minimum <= maximum -> maximum <= 65535 ->
  ((exists a', AllocateBlocks a groupIndex start maximum minimum
               = Some (B_DEVICE_FULL, None, a'))
   <-> (exists best a',
          visit_groups (Z.to_nat (fNumGroups a + 1)) a groupIndex start
            maximum no_best = (Some best, a')
          /\ bestLength best < minimum))
  /\ ((exists a', AllocateBlocks a groupIndex start maximum minimum
                  = Some (B_DEVICE_FULL, None, a'))
      <-> longest_free_run a < minimum)
  /\ (minimum = 1 -> 1 <= longest_free_run a < maximum ->
      exists group first a',
        AllocateBlocks a groupIndex start maximum minimum
        = Some (B_OK,
                Some (mk_block_run group first (longest_free_run a)), a')).
Proof.
  intros Hok Hgi Hs Hmin Hmax. apply allocator_ok_inv in Hok.
  destruct (AllocateBlocks_spec a groupIndex start maximum minimum Hok Hgi Hs
              ltac:(lia) ltac:(lia))
    as (best & a1 & Hres & _ & _ & Hbest & Hle & Hzero & Hfin & Hcall).
  assert (Hiff : bestLength best < minimum <-> longest_free_run a < minimum).
  { split; [|lia]. intros Hlt.
    destruct Hfin as [Hge|Heq]; [lia|].
    pose proof (longest_free_run_nonneg a).
    destruct (Z.eq_dec (longest_free_run a) 0); [lia|].
    rewrite <- Heq by lia. exact Hlt. }
  destruct (Z.ltb_spec (bestLength best) minimum) as [Hlt|Hge].
  - split; [|split].
    + split; [intros _; exists best, a1; auto|intros _; exists a1; exact Hcall].
    + split; [intros _; apply Hiff; exact Hlt|intros _; exists a1; exact Hcall].
    + intros -> HL. apply Hiff in Hlt. lia.
  - destruct Hcall as (a2 & c' & Hcall & _).
    split; [|split].
    + split.
      * intros [a' H]. rewrite Hcall in H. discriminate.
      * intros (best' & a' & Hres' & Hlt). rewrite Hres in Hres'.
        injection Hres' as <- _. lia.
    + split.
      * intros [a' H]. rewrite Hcall in H. discriminate.
      * intros HL. apply Hiff in HL. lia.
    + intros -> HL.
      destruct Hfin as [Hge'|Heq]; [lia|].
      exists (bestGroup best), (bestStart best), a2.
      rewrite Hcall. unfold chosen_length.
      destruct (Z.gtb_spec (bestLength best) maximum); [lia|].
      cbn. rewrite Heq by lia. reflexivity.
Qed.

Lemma device_full_iff_no_run_witness :
  exists group first a',
    longest_free_run example_allocator = 8192
    /\ AllocateBlocks example_allocator 0 0 10000 1
       = Some (B_OK, Some (mk_block_run group first 8192), a').
Proof.
  destruct (device_full_iff_no_run example_allocator 0 0 10000 1)
    as (_ & _ & H).
  - vm_compute. reflexivity.
  - lia.
  - lia.
  - lia.
  - lia.
  - destruct (H eq_refl) as (group & first & a' & Hcall).
    + vm_compute. split; [discriminate|reflexivity].
    + exists group, first, a'. split; [vm_compute; reflexivity|].
      exact Hcall.
Defined.

(** C5: the loop over the groups starts at the group of the hint and makes
    [fNumGroups + 1] rounds, from the start of the group in every round
    but the first, so that a full hint group does not stand in the way:
    when the group of the hint is full and another group has a free run
    of at least [minimum] blocks, the request succeeds with a run of
    another group. *)
Theorem full_hint_group_wraps a groupIndex start maximum minimum other :
  allocator_ok a = true ->
  0 <= groupIndex -> 0 <= start < 65536 ->
  1 <= minimum <= maximum -> maximum <= 65535 ->
  IsFull (group_at a (groupIndex mod fNumGroups a)) = true ->
  0 <= other < fNumGroups a ->
  minimum <= longest_free (fVolume a) (group_at a other) ->
  exists run a',
    AllocateBlocks a groupIndex start maximum minimum
    = Some (B_OK, Some run, a')
    /\ allocation_group run <> groupIndex mod fNumGroups a
    /\ 0 <= allocation_group run < fNumGroups a
    /\ minimum <= run_length run <= maximum
    /\ run_free (fVolume a) (group_at a (allocation_group run))
         (run_start run) (run_length run) = true.
Proof.
  intros Hok Hgi Hs Hmin Hmax Hfull Hother Hlong.
  apply allocator_ok_inv in Hok.
  pose proof Hok as (Hv & Hn & Hlen & Hgroups).
  destruct (AllocateBlocks_spec a groupIndex start maximum minimum Hok Hgi Hs
              ltac:(lia) ltac:(lia))
    as (best & a1 & Hres & _ & _ & Hbest & Hle & Hzero & Hfin & Hcall).
  pose proof (longest_free_le a other Hlen Hother) as HL.
  assert (Hge : minimum <= bestLength best).
  { destruct Hfin as [H|H]; [lia|]. rewrite H; lia. }
  destruct (Z.ltb_spec (bestLength best) minimum); [lia|].
  destruct Hcall as (a2 & c' & Hcall & Hrun & _).
  destruct (chosen_length_bounds (bestLength best) maximum minimum)
    as (L1 & L2 & L3 & L4); try lia.
  eexists. exists a2. split; [exact Hcall|]. cbn.
  destruct Hrun as (Hbg & R1 & R2 & R3 & R4).
  split.
  - intros E. rewrite E in *.
    pose proof (Hgroups _ Hbg) as Hgok. apply group_ok_spec in Hgok.
    destruct Hgok as (Hgeo & Hc & _).
    pose proof (geometry_ok_group_geometry _ _ Hv Hgeo) as (HN & _).
    pose proof (full_group_used _ _ HN Hc Hfull (bestStart best)
                  ltac:(lia)) as Hu.
    rewrite R4 in Hu by lia. discriminate.
  - split; [assumption|]. split; [lia|].
    apply run_free_spec. intros b Hb. apply R4. lia.
Qed.

Lemma full_hint_group_wraps_witness :
  exists run a',
    AllocateBlocks example_full_first 0 0 10 1 = Some (B_OK, Some run, a')
    /\ allocation_group run <> 0 mod fNumGroups example_full_first
    /\ 1 <= run_length run <= 10.
Proof.
  destruct (full_hint_group_wraps example_full_first 0 0 10 1 1)
    as (run & a' & H1 & H2 & _ & H3 & _).
  - vm_compute; reflexivity.
  - lia.
  - lia.
  - lia.
  - lia.
  - vm_compute; reflexivity.
  - split; vm_compute; [discriminate|reflexivity].
  - vm_compute; discriminate.
  - exists run, a'. split; [exact H1|]. split; [exact H2|exact H3].
Defined.

(** ** Allocate, then free *)

(** C6: when [AllocateBlocks] succeeds on a well-formed allocator whose
    reserved prefix is allocated, [Free] of the returned run succeeds and
    every bit of the bitmap has again the value it had before the
    allocation; the used-block counter and the free-bit counts of the
    groups are restored too. *)
Theorem allocate_then_free_restores_bits
    a groupIndex start maximum minimum run a' :
  allocator_ok a = true -> reserved_allocated a = true ->
  0 <= run_start (Log (fVolume a)) < 65536 ->
  0 <= run_length (Log (fVolume a)) < 65536 ->
  0 <= groupIndex -> 0 <= start < 65536 ->
  0 < maximum <= 65535 -> 1 <= minimum <= 65535 ->
  AllocateBlocks a groupIndex start maximum minimum
  = Some (B_OK, Some run, a') ->
  exists a'',
    Free a' run = Some (B_OK, a'')
    /\ (forall n bit, 0 <= bit ->
          cache_bit (block_cache (fVolume a'')) n bit
          = cache_bit (block_cache (fVolume a)) n bit)
    /\ used_blocks (fVolume a'') = used_blocks (fVolume a)
    /\ (forall i, 0 <= i < fNumGroups a ->
          fFreeBits (group_at a'' i) = fFreeBits (group_at a i)).
Proof.
  intros Hok Hres Hls Hll Hgi Hs Hmax Hmin Hcall.
  apply allocator_ok_inv in Hok.
  destruct (AllocateBlocks_spec a groupIndex start maximum minimum Hok Hgi Hs
              Hmax Hmin)
    as (best & a1 & _ & Hinv1 & Href & _ & _ & _ & _ & Hspec).
  destruct (Z.ltb_spec (bestLength best) minimum) as [Hlt|Hge].
  { rewrite Hspec in Hcall. discriminate. }
  destruct Hspec as (a2 & c1 & Hcall' & Hrun & Hal).
  rewrite Hcall' in Hcall. injection Hcall as <- <-.
  destruct (chosen_length_bounds (bestLength best) maximum minimum)
    as (L1 & L2 & L3 & _); try lia.
  set (len := chosen_length (bestLength best) maximum minimum) in *.
  set (bg := bestGroup best) in *. set (bs := bestStart best) in *.
  destruct Hrun as (Hbg & R1 & R2 & R3 & R4).
  pose proof Hinv1 as (Hv1 & Hn1 & Hlen1 & Hgroups1).
  pose proof Href as (F1 & F2 & F3 & F4 & F5).
  destruct (F5 bg Hbg) as (E1 & E2 & E3 & E4 & E5).
  destruct Hal as (A1 & A2 & A3 & A4 & A5 & A6 & A7).
  cbv zeta in A4, A6, A7.
  set (g1 := group_at a1 bg) in *.
  pose proof (Hgroups1 bg ltac:(lia)) as Hgok.
  apply group_ok_spec in Hgok. destruct Hgok as (Hgeo & _).
  pose proof (geometry_ok_group_geometry _ _ Hv1 Hgeo) as Hgg1.
  fold g1 in Hgg1. pose proof Hgg1 as (HN & _).
  destruct (Allocate_info_geometry g1 bs len) as (G1 & G2 & G3).
  destruct (Allocate_info_counts g1 bs len) as (_ & C2).
  pose proof (group_at_insert a1 a2 bg _ A4 ltac:(lia)) as Hat2.
  assert (Hg2 : group_at a2 bg = Allocate_info g1 bs len).
  { rewrite Hat2 by lia. now rewrite Z.eqb_refl. }
  assert (Hgg2 : group_geometry (fVolume a2) (group_at a2 bg)).
  { rewrite A1, Hg2.
    apply (group_geometry_preserved (fVolume a1) g1 _ c1 Hgg1 A5 G1 G2 G3). }
  destruct (Free_spec a2 (mk_block_run bg bs len)) as (a3 & c2 & Hfree & Hfr).
  { rewrite A1. exact Hv1. }
  { cbn. lia. } { exact Hgg2. } { cbn. lia. } { cbn. lia. }
  { cbn. rewrite Hg2, G1. lia. }
  { rewrite A1. cbn. rewrite F1. exact Hls. }
  { rewrite A1. cbn. rewrite F1. exact Hll. }
  { rewrite A1. cbn. rewrite F1.
    apply (free_bit_not_reserved a bg bs Hres); [lia|lia|].
    apply R4. lia. }
  exists a3. split; [exact Hfree|].
  destruct Hfr as (B1 & B2 & B3 & B4 & B5 & B6 & B7).
  cbn [allocation_group run_start run_length] in *.
  cbv zeta in B4, B6, B7. rewrite Hg2 in B4, B6, B7.
  rewrite A1 in B1, B5, B6, B7. cbn in B1, B5, B6, B7.
  split; [|split].
  - rewrite B1. cbn. rewrite <- F1.
    apply (cache_bits_of_group_bits (fVolume a1) c2 g1 Hv1 Hgg1).
    + eapply same_shape_trans; eassumption.
    + intros n Hn. rewrite B6 by (rewrite G2, G3; exact Hn).
      apply A6. exact Hn.
    + intros b Hb.
      rewrite <- (group_bit_same_start _ _ _ b G3).
      rewrite <- (group_bit_set_used (set_block_cache (fVolume a1) c1)
                    (used_blocks (fVolume a1) + len) c2).
      rewrite B7, group_bit_used_blocks.
      rewrite (group_bit_same_start _ _ _ b G3), A7.
      unfold in_range.
      destruct (Z.leb_spec bs b); cbn; [|now rewrite orb_false_r, andb_true_r].
      destruct (Z.ltb_spec b (bs + len)); cbn;
        [|now rewrite orb_false_r, andb_true_r].
      rewrite orb_true_r. cbn. symmetry.
      rewrite F1. rewrite (group_bit_same_start _ (group_at a bg))
        by exact E3.
      apply R4. lia.
  - rewrite B1. cbn. rewrite F1. lia.
  - intros i Hi.
    pose proof (group_at_insert a2 a3 bg _ B4
                  ltac:(rewrite A4, length_insert; lia) i ltac:(lia)) as Hat3.
    rewrite Hat3. destruct (F5 i Hi) as (_ & _ & _ & _ & Ei).
    destruct (Z.eqb_spec i bg) as [->|Hne].
    + destruct (Free_info_counts (Allocate_info g1 bs len) bs len) as (_ & D2).
      rewrite D2, C2. fold g1 in Ei. lia.
    + rewrite Hat2 by lia. destruct (Z.eqb_spec i bg); [lia|]. exact Ei.
Qed.

Lemma allocate_then_free_restores_bits_witness :
  exists a'',
    Free example_allocated (mk_block_run 0 64 10) = Some (B_OK, a'')
    /\ used_blocks (fVolume a'') = used_blocks (fVolume example_allocator).
Proof.
  destruct (allocate_then_free_restores_bits example_allocator 0 0 10 1
              (mk_block_run 0 64 10) example_allocated)
    as (a'' & H1 & _ & H2 & _).
  - vm_compute; reflexivity.
  - vm_compute; reflexivity.
  - split; vm_compute; [discriminate|reflexivity].
  - split; vm_compute; [discriminate|reflexivity].
  - lia.
  - lia.
  - lia.
  - lia.
  - vm_compute; reflexivity.
  - exists a''. split; [exact H1|exact H2].
Defined.

(** ** The free-bit count *)

(** In a well-formed allocator the count of every group is the number of
    unset bits of its region of the bitmap, and within [[0, numBits]]. *)
Lemma allocator_inv_counts a :
  allocator_inv a ->
  forall i, 0 <= i < fNumGroups a ->
    count_ok (fVolume a) (group_at a i) = true
    /\ 0 <= fFreeBits (group_at a i) <= fNumBits (group_at a i).
Proof.
  intros (Hva & _ & _ & Hgroups) i Hi.
  pose proof (Hgroups i Hi) as Hok. apply group_ok_spec in Hok.
  destruct Hok as (Hgeo' & Hcount & _). split; [exact Hcount|].
  pose proof (geometry_ok_group_geometry _ _ Hva Hgeo') as (HN' & _).
  unfold count_ok, free_count in Hcount. apply Z.eqb_eq in Hcount.
  rewrite Hcount.
  pose proof (count_unset_bounds
                (group_bit (fVolume a) (group_at a i))
                (Z.to_nat (fNumBits (group_at a i))) 0). lia.
Qed.

(** C1, as stated, fails after a free and after an initialisation. On the
    freshly formatted volume the group [Free] of ten bits that are
    already free succeeds and leaves the count of the group at 8138, ten
    more than the 8128 unset bits of its region of the bitmap. And the
    mount of the writable volume in whose bitmap only block 0 of the
    64 blocks of the reserved prefix is allocated returns [B_OK] and
    leaves the count of the first group at 8127, one less than its 8128
    unset bits: [_Initialize] allocates the whole prefix with a group
    [Allocate], which takes 64 from the count although only 63 bits were
    free. (In a build with [KDEBUG] the kernel panics in that
    [Allocate].) *)
Lemma Free_of_free_run_miscounts :
  count_ok (fVolume example_allocator) (group_at example_allocator 0) = true
  /\ (exists g' v',
        AllocationGroup_Free (fVolume example_allocator)
          (group_at example_allocator 0) 100 10 = Some (B_OK, g', v')
        /\ fFreeBits g' = 8138 /\ free_count v' g' = 8128
        /\ count_ok v' g' = false)
  /\ mount_ok example_partial = true
  /\ (exists a,
        _Initialize (Initialize example_partial) false = Some (B_OK, a)
        /\ fFreeBits (group_at a 0) = 8127
        /\ free_count (fVolume a) (group_at a 0) = 8128
        /\ count_ok (fVolume a) (group_at a 0) = false).
Proof.
  split; [vm_compute; reflexivity|]. split.
  - eexists _, _. split; [vm_compute; reflexivity|].
    repeat split; vm_compute; reflexivity.
  - split; [vm_compute; reflexivity|].
    eexists. split; [vm_compute; reflexivity|].
    repeat split; vm_compute; reflexivity.
Qed.

(** C1 (amended): the free-bit count of a group equals the number of unset
    bits of the group's region of the bitmap, and lies within
    [[0, numBits]],
    - for every group after the format-time initialisation of a volume;
    - for every group after the mount-time initialisation of a volume
      that is read-only, or whose reserved prefix is allocated throughout
      or free throughout in the bitmap on the disk;
    - when it holds before, the run is within the group and the bitmap
      blocks of the group can be read, after the group [Allocate] of a
      run of free bits and after the group [Free] of a run of allocated
      bits, both of which then succeed. *)
Theorem free_bit_count_invariant
    vol mvol readOnly v g astart alen fstart flen :
  format_ok vol = true ->
  mount_ok mvol = true ->
  readOnly = true \/ reserved_on_disk mvol true = true
  \/ reserved_on_disk mvol false = true ->
  volume_ok v = true -> geometry_ok v g = true -> count_ok v g = true ->
  0 <= astart < 65536 -> 0 <= alen <= 65535 ->
  astart + alen <= fNumBits g ->
  run_free v g astart alen = true ->
  0 <= fstart < 65536 -> 0 <= flen <= 65535 ->
  fstart + flen <= fNumBits g ->
  run_used v g fstart flen = true ->
  (exists a,
     InitializeAndClearBitmap vol = Some (B_OK, a)
     /\ fNumGroups a = AllocationGroups vol
     /\ forall i, 0 <= i < fNumGroups a ->
          count_ok (fVolume a) (group_at a i) = true
          /\ 0 <= fFreeBits (group_at a i) <= fNumBits (group_at a i))
  /\ (exists a,
        _Initialize (Initialize mvol) readOnly = Some (B_OK, a)
        /\ fNumGroups a = AllocationGroups mvol
        /\ forall i, 0 <= i < fNumGroups a ->
             count_ok (fVolume a) (group_at a i) = true
             /\ 0 <= fFreeBits (group_at a i) <= fNumBits (group_at a i))
  /\ 0 <= fFreeBits g <= fNumBits g
  /\ (exists g' v',
        AllocationGroup_Allocate v g astart alen = Some (B_OK, g', v')
        /\ count_ok v' g' = true
        /\ fFreeBits g' = fFreeBits g - alen
        /\ 0 <= fFreeBits g' <= fNumBits g')
  /\ (exists g' v',
        AllocationGroup_Free v g fstart flen = Some (B_OK, g', v')
        /\ count_ok v' g' = true
        /\ fFreeBits g' = fFreeBits g + flen
        /\ 0 <= fFreeBits g' <= fNumBits g').
Proof.
  intros Hf Hm Hcase Hv Hgeo Hc Has Hal Hafit Hfree Hfs Hfl Hffit Hused.
  pose proof (geometry_ok_group_geometry v g Hv Hgeo) as Hgg.
  pose proof Hgg as (HN & _).
  split; [|split; [|split; [|split]]].
  - destruct (InitializeAndClearBitmap_result vol Hf)
      as (a & Hcall & Hinv & _ & _ & Hn & _).
    exists a. split; [exact Hcall|]. split; [exact Hn|].
    apply allocator_inv_counts. exact Hinv.
  - assert (Hmount : exists a,
              _Initialize (Initialize mvol) readOnly = Some (B_OK, a)
              /\ fNumGroups a = AllocationGroups mvol
              /\ allocator_inv a).
    { destruct Hcase as [->|[Hres|Hres]].
      - destruct (Initialize_mount_read_only_any mvol Hm)
          as (a & H1 & H2 & _ & H3 & _).
        exists a. auto.
      - destruct (Initialize_mount mvol readOnly Hm Hres)
          as (a & H1 & H2 & _ & _ & _ & _ & _ & H3 & _).
        exists a. auto.
      - destruct readOnly.
        + destruct (Initialize_mount_read_only_any mvol Hm)
            as (a & H1 & H2 & _ & H3 & _).
          exists a. auto.
        + destruct (Initialize_mount_unreserved_groups mvol Hm Hres)
            as (a & H1 & H2 & _ & _ & _ & H3).
          exists a. auto. }
    destruct Hmount as (a & H1 & H2 & H3).
    exists a. split; [exact H1|]. split; [exact H2|].
    apply allocator_inv_counts. exact H3.
  - unfold count_ok, free_count in Hc. apply Z.eqb_eq in Hc. rewrite Hc.
    pose proof (count_unset_bounds (group_bit v g)
                  (Z.to_nat (fNumBits g)) 0). lia.
  - destruct (AllocationGroup_Allocate_spec v g astart alen Hv Hgg Has Hal
                Hafit) as (c' & Hcall & _ & _ & Hbits).
    exists (Allocate_info g astart alen), (set_block_cache v c').
    split; [exact Hcall|].
    destruct (Allocate_count_ok v g c' astart alen HN ltac:(lia) Hbits Hc
                Hfree) as [H1 H2].
    destruct (Allocate_info_counts g astart alen) as (_ & C2).
    auto.
  - destruct (AllocationGroup_Free_spec v g fstart flen Hv Hgg Hfs Hfl
                Hffit) as (c' & Hcall & _ & _ & Hbits).
    exists (Free_info g fstart flen), (set_block_cache v c').
    split; [exact Hcall|].
    destruct (Free_count_ok v g c' fstart flen HN ltac:(lia) Hbits Hc
                Hused) as [H1 H2].
    destruct (Free_info_counts g fstart flen) as (_ & C2).
    auto.
Qed.

Lemma free_bit_count_invariant_witness :
  (exists a,
     _Initialize (Initialize (fVolume example_allocated)) false
     = Some (B_OK, a)
     /\ count_ok (fVolume a) (group_at a 0) = true)
  /\ (exists g' v',
        AllocationGroup_Allocate (fVolume example_allocator)
          (group_at example_allocator 0) 64 10 = Some (B_OK, g', v')
        /\ count_ok v' g' = true /\ fFreeBits g' = 8128 - 10)
  /\ (exists g' v',
        AllocationGroup_Free (fVolume example_allocator)
          (group_at example_allocator 0) 3 61 = Some (B_OK, g', v')
        /\ count_ok v' g' = true /\ fFreeBits g' = 8128 + 61).
Proof.
  assert (Hfit : forall n, n <= 8192 ->
            n <= fNumBits (group_at example_allocator 0)).
  { intros n Hn.
    let x := eval vm_compute in (fNumBits (group_at example_allocator 0)) in
    change (fNumBits (group_at example_allocator 0)) with x.
    exact Hn. }
  destruct (free_bit_count_invariant example_volume
              (fVolume example_allocated) false
              (fVolume example_allocator) (group_at example_allocator 0)
              64 10 3 61)
    as (_ & (a & M1 & M2 & M3) & _ & (g1 & v1 & A1 & A2 & A3 & _)
        & (g2 & v2 & F1 & F2 & F3 & _)).
  - vm_compute; reflexivity.
  - vm_compute; reflexivity.
  - right. left. vm_compute; reflexivity.
  - vm_compute; reflexivity.
  - vm_compute; reflexivity.
  - vm_compute; reflexivity.
  - lia.
  - lia.
  - apply Hfit. lia.
  - vm_compute; reflexivity.
  - lia.
  - lia.
  - apply Hfit. lia.
  - vm_compute; reflexivity.
  - split; [|split].
    + exists a. split; [exact M1|]. apply (M3 0). rewrite M2.
      vm_compute. split; [discriminate|reflexivity].
    + exists g1, v1. split; [exact A1|]. split; [exact A2|]. exact A3.
    + exists g2, v2. split; [exact F1|]. split; [exact F2|]. exact F3.
Defined.

(** * Further properties of the allocator *)

(** ** The invariant of the allocator *)

(** [AllocateBlocks] on a well-formed allocator returns, either with a run
    or with the device full and no run, and leaves a well-formed
    allocator: in every group the bitmap blocks are cached, the free-bit
    count is the number of unset bits, no bit before the first-free hint
    is unset and a valid largest-range hint is a longest free run of the
    group; the groups keep their places in the bitmap and the reserved
    prefix stays allocated. *)
Theorem AllocateBlocks_keeps_invariant a groupIndex start maximum minimum :
  allocator_ok a = true -> layout_ok a = true ->
  0 <= groupIndex -> 0 <= start < 65536 ->
  0 < maximum <= 65535 -> 1 <= minimum <= 65535 ->
  exists status run a',
    AllocateBlocks a groupIndex start maximum minimum
    = Some (status, run, a')
    /\ (status = B_OK \/ status = B_DEVICE_FULL)
    /\ (status = B_OK <-> run <> None)
    /\ allocator_ok a' = true /\ layout_ok a' = true
    /\ (reserved_allocated a = true -> reserved_allocated a' = true).
Proof. exact (AllocateBlocks_invariant_step a groupIndex start maximum minimum). Qed.

Lemma AllocateBlocks_keeps_invariant_witness :
  exists status run a',
    AllocateBlocks example_allocator 0 0 100 64 = Some (status, run, a')
    /\ (status = B_OK \/ status = B_DEVICE_FULL)
    /\ (status = B_OK <-> run <> None)
    /\ allocator_ok a' = true /\ layout_ok a' = true
    /\ (reserved_allocated example_allocator = true ->
        reserved_allocated a' = true).
Proof.
  apply (AllocateBlocks_keeps_invariant example_allocator 0 0 100 64).
  - vm_compute; reflexivity.
  - vm_compute; reflexivity.
  - lia.
  - lia.
  - lia.
  - lia.
Defined.

(** The run of a successful [AllocateBlocks] lies within its group, is at
    most [maximum] long, was free before the call and is allocated after
    it, outside the reserved prefix; every other bit of its group is as
    before; the free-bit count of the group went down, and the used
    blocks of the volume up, by the length of the run. *)
Theorem AllocateBlocks_run_was_free
    a groupIndex start maximum minimum run a' :
  allocator_ok a = true ->
  0 <= groupIndex -> 0 <= start < 65536 ->
  0 < maximum <= 65535 -> 1 <= minimum <= 65535 ->
  AllocateBlocks a groupIndex start maximum minimum
  = Some (B_OK, Some run, a') ->
  let g := group_at a (allocation_group run) in
  let g' := group_at a' (allocation_group run) in
  0 <= allocation_group run < fNumGroups a
  /\ 0 <= run_start run /\ 1 <= run_length run <= maximum
  /\ run_start run + run_length run <= fNumBits g
  /\ run_free (fVolume a) g (run_start run) (run_length run) = true
  /\ run_used (fVolume a') g' (run_start run) (run_length run) = true
  /\ (forall b, ~ (run_start run <= b < run_start run + run_length run) ->
        group_bit (fVolume a') g' b = group_bit (fVolume a) g b)
  /\ fFreeBits g' = fFreeBits g - run_length run
  /\ used_blocks (fVolume a') = used_blocks (fVolume a) + run_length run
  /\ (reserved_allocated a = true ->
      ~ (allocation_group run < allocation_group (Log (fVolume a))
         \/ (allocation_group run = allocation_group (Log (fVolume a))
             /\ run_start run
                < run_start (Log (fVolume a))
                  + run_length (Log (fVolume a))))).
Proof.
  exact (AllocateBlocks_run_facts a groupIndex start maximum minimum run a').
Qed.

Lemma AllocateBlocks_run_was_free_witness :
  run_free (fVolume example_allocator) (group_at example_allocator 0) 64 10
  = true
  /\ run_used (fVolume example_allocated) (group_at example_allocated 0)
       64 10 = true.
Proof.
  destruct (AllocateBlocks_run_was_free example_allocator 0 0 10 1
              (mk_block_run 0 64 10) example_allocated)
    as (_ & _ & _ & _ & Hfree & Hused & _).
  - vm_compute; reflexivity.
  - lia.
  - lia.
  - lia.
  - lia.
  - vm_compute; reflexivity.
  - split; [exact Hfree|exact Hused].
Defined.

(** Two allocations in a row never hand out a block twice: the runs of two
    successive successful calls of [AllocateBlocks] are in different
    groups or do not overlap. *)
Theorem successive_runs_disjoint
    a gi1 start1 max1 min1 run1 a1 gi2 start2 max2 min2 run2 a2 :
  allocator_ok a = true -> layout_ok a = true ->
  0 <= gi1 -> 0 <= start1 < 65536 ->
  0 < max1 <= 65535 -> 1 <= min1 <= 65535 ->
  0 <= gi2 -> 0 <= start2 < 65536 ->
  0 < max2 <= 65535 -> 1 <= min2 <= 65535 ->
  AllocateBlocks a gi1 start1 max1 min1 = Some (B_OK, Some run1, a1) ->
  AllocateBlocks a1 gi2 start2 max2 min2 = Some (B_OK, Some run2, a2) ->
  allocation_group run1 <> allocation_group run2
  \/ run_start run1 + run_length run1 <= run_start run2
  \/ run_start run2 + run_length run2 <= run_start run1.
Proof.
  intros Hok Hl Hg1 Hs1 Hmax1 Hmin1 Hg2 Hs2 Hmax2 Hmin2 Hcall1 Hcall2.
  destruct (AllocateBlocks_invariant_step a gi1 start1 max1 min1 Hok Hl Hg1
              Hs1 Hmax1 Hmin1) as (st & r & a' & Hcall & _ & _ & Hok1 & _).
  rewrite Hcall1 in Hcall. injection Hcall as <- <- <-.
  destruct (AllocateBlocks_run_facts a gi1 start1 max1 min1 run1 a1 Hok
              Hg1 Hs1 Hmax1 Hmin1 Hcall1)
    as (_ & P1 & P2 & _ & _ & Hused & _).
  destruct (AllocateBlocks_run_facts a1 gi2 start2 max2 min2 run2 a2 Hok1
              Hg2 Hs2 Hmax2 Hmin2 Hcall2)
    as (_ & Q1 & Q2 & _ & Hfree & _).
  destruct (Z.eq_dec (allocation_group run1) (allocation_group run2))
    as [E|]; [right|left; assumption].
  rewrite <- E in Hfree.
  assert (Hcases : run_start run1 + run_length run1 <= run_start run2
                   \/ run_start run2 + run_length run2 <= run_start run1
                   \/ exists b,
                        run_start run1 <= b < run_start run1 + run_length run1
                        /\ run_start run2 <= b
                           < run_start run2 + run_length run2).
  { destruct (Z.le_gt_cases (run_start run1 + run_length run1)
                (run_start run2)); [auto|].
    destruct (Z.le_gt_cases (run_start run2 + run_length run2)
                (run_start run1)); [auto|].
    right. right. exists (Z.max (run_start run1) (run_start run2)). lia. }
  destruct Hcases as [H|[H|(b & Hb1 & Hb2)]]; [auto|auto|].
  exfalso.
  pose proof (run_used_spec _ _ _ _ b Hused Hb1) as Hset.
  apply run_free_spec in Hfree. rewrite Hfree in Hset; [discriminate|lia].
Qed.

Lemma successive_runs_disjoint_witness :
  allocation_group (mk_block_run 0 64 10)
  <> allocation_group (mk_block_run 0 74 10)
  \/ 64 + 10 <= 74 \/ 74 + 10 <= 64.
Proof.
  apply (successive_runs_disjoint example_allocator 0 0 10 1
           (mk_block_run 0 64 10) example_allocated 0 0 10 1
           (mk_block_run 0 74 10)
           (match AllocateBlocks example_allocated 0 0 10 1 with
            | Some (_, _, a) => a
            | None => example_allocated
            end)).
  - vm_compute; reflexivity.
  - vm_compute; reflexivity.
  - lia.
  - lia.
  - lia.
  - lia.
  - lia.
  - lia.
  - lia.
  - lia.
  - vm_compute; reflexivity.
  - vm_compute; reflexivity.
Defined.

(** A successful [Free] of a run whose bits are all allocated leaves a
    well-formed allocator, with the reserved prefix allocated as before:
    the bits of the run are free, every other bit of its group is as
    before, the free-bit count of the group went up, and the used blocks
    of the volume down, by the length of the run. *)
Theorem Free_keeps_invariant a run a' :
  allocator_ok a = true -> layout_ok a = true ->
  0 <= run_start (Log (fVolume a)) < 65536 ->
  0 <= run_length (Log (fVolume a)) < 65536 ->
  0 <= run_start run < 65536 -> 0 <= run_length run <= 65535 ->
  run_used (fVolume a) (group_at a (allocation_group run)) (run_start run)
    (run_length run) = true ->
  Free a run = Some (B_OK, a') ->
  allocator_ok a' = true /\ layout_ok a' = true
  /\ (reserved_allocated a = true -> reserved_allocated a' = true)
  /\ run_free (fVolume a') (group_at a' (allocation_group run))
       (run_start run) (run_length run) = true
  /\ (forall b, ~ (run_start run <= b < run_start run + run_length run) ->
        group_bit (fVolume a') (group_at a' (allocation_group run)) b
        = group_bit (fVolume a) (group_at a (allocation_group run)) b)
  /\ fFreeBits (group_at a' (allocation_group run))
     = fFreeBits (group_at a (allocation_group run)) + run_length run
  /\ used_blocks (fVolume a') = used_blocks (fVolume a) - run_length run.
Proof.
  intros Hok Hl Hls Hll Hs Hlen Hused Hcall.
  apply allocator_ok_inv in Hok.
  destruct (Free_invariant_step a run a' Hok Hl Hls Hll Hs Hlen Hused Hcall)
    as (H1 & H2).
  split; [apply allocator_ok_inv; exact H1|exact H2].
Qed.

Lemma Free_keeps_invariant_witness :
  allocator_ok example_freed = true
  /\ fFreeBits (group_at example_freed 0)
     = fFreeBits (group_at example_allocated 0) + 10.
Proof.
  destruct (Free_keeps_invariant example_allocated (mk_block_run 0 64 10)
              example_freed) as (H1 & _ & _ & _ & _ & H2 & _).
  - vm_compute; reflexivity.
  - vm_compute; reflexivity.
  - split; vm_compute; [discriminate|reflexivity].
  - split; vm_compute; [discriminate|reflexivity].
  - cbn; lia.
  - cbn; lia.
  - vm_compute; reflexivity.
  - vm_compute; reflexivity.
  - split; [exact H1|exact H2].
Defined.

(** [Free] answers with the invalid-argument error exactly for a run that
    is not within a group of the volume, is empty, or starts in the
    reserved prefix; the allocator is then as it was. *)
Theorem Free_bad_value_iff a run :
  0 <= run_start (Log (fVolume a)) < 65536 ->
  0 <= run_length (Log (fVolume a)) < 65536 ->
  0 <= run_start run < 65536 -> 0 <= run_length run <= 65535 ->
  ((exists a', Free a run = Some (B_BAD_VALUE, a'))
   <-> (~ (0 <= allocation_group run < fNumGroups a)
        \/ run_length run = 0
        \/ fNumBits (group_at a (allocation_group run))
           < run_start run + run_length run
        \/ allocation_group run < allocation_group (Log (fVolume a))
        \/ (allocation_group run = allocation_group (Log (fVolume a))
            /\ run_start run
               < run_start (Log (fVolume a))
                 + run_length (Log (fVolume a)))))
  /\ forall a', Free a run = Some (B_BAD_VALUE, a') -> a' = a.
Proof.
  intros Hls Hll Hs Hl.
  unfold Free, NumBits.
  rewrite (u32_small (run_start run + run_length run)) by lia.
  rewrite (u32_small (run_start (Log (fVolume a)))) by lia.
  rewrite (u32_small (_ + _)) by lia.
  destruct (Z.ltb_spec (allocation_group run) 0); cbn [orb].
  { split; [split; [intros _; left; lia|eauto]|congruence]. }
  destruct (Z.geb_spec (allocation_group run) (fNumGroups a)); cbn [orb].
  { split; [split; [intros _; left; lia|eauto]|congruence]. }
  destruct (Z.gtb_spec (run_start run)
              (fNumBits (group_at a (allocation_group run)))); cbn [orb].
  { split; [split; [intros _; right; right; left; lia|eauto]|congruence]. }
  destruct (Z.gtb_spec (run_start run + run_length run)
              (fNumBits (group_at a (allocation_group run)))); cbn [orb].
  { split; [split; [intros _; right; right; left; lia|eauto]|congruence]. }
  destruct (Z.eqb_spec (run_length run) 0).
  { split; [split; [intros _; right; left; lia|eauto]|congruence]. }
  destruct (Z.ltb_spec (allocation_group run)
              (allocation_group (Log (fVolume a)))); cbn [orb].
  { split; [split; [intros _; right; right; right; left; lia|eauto]
           |congruence]. }
  destruct (Z.eqb_spec (allocation_group run)
              (allocation_group (Log (fVolume a)))); cbn [andb orb].
  - destruct (Z.ltb_spec (run_start run)
                (run_start (Log (fVolume a))
                 + run_length (Log (fVolume a)))).
    { split; [split; [intros _; right; right; right; right; lia|eauto]
             |congruence]. }
    destruct (AllocationGroup_Free _ _ _ _) as [[[[] g] v]|];
      (split; [split; [intros [a' Ha']; discriminate|lia]
              |intros a' Ha'; discriminate]).
  - destruct (AllocationGroup_Free _ _ _ _) as [[[[] g] v]|];
      (split; [split; [intros [a' Ha']; discriminate|lia]
              |intros a' Ha'; discriminate]).
Qed.

Lemma Free_bad_value_iff_witness :
  Free example_allocator (mk_block_run 0 8190 10)
  = Some (B_BAD_VALUE, example_allocator).
Proof.
  destruct (Free_bad_value_iff example_allocator (mk_block_run 0 8190 10))
    as [[_ Hbad] Hsame].
  - split; vm_compute; [discriminate|reflexivity].
  - split; vm_compute; [discriminate|reflexivity].
  - cbn; lia.
  - cbn; lia.
  - destruct Hbad as [a' Ha'].
    + right. right. left. vm_compute. reflexivity.
    + rewrite Ha'. rewrite (Hsame a' Ha'). reflexivity.
Defined.

(** ** Formatting *)

(** [InitializeAndClearBitmap] on a volume that can be formatted succeeds
    and leaves a well-formed allocator: the groups lie one after the other
    in the bitmap, every group but the last has
    [8 * BlocksPerAllocationGroup * BlockSize] bits and the last the rest
    of the volume, exactly the bits of the reserved prefix - the first
    blocks up to the end of the log - are allocated, the hints of every
    group are exact, and the used blocks of the volume are the reserved
    ones. *)
Theorem format_establishes_invariant v :
  format_ok v = true ->
  let reserved := run_start (Log v) + run_length (Log v) in
  exists a,
    InitializeAndClearBitmap v = Some (B_OK, a)
    /\ allocator_ok a = true /\ layout_ok a = true
    /\ reserved_allocated a = true
    /\ fNumGroups a = AllocationGroups v
    /\ used_blocks (fVolume a) = reserved
    /\ Log (fVolume a) = Log v
    /\ forall i, 0 <= i < AllocationGroups v ->
         fNumBits (group_at a i)
         = (if i =? AllocationGroups v - 1
            then NumBlocks v
                 - i * (8 * BlocksPerAllocationGroup v * BlockSize v)
            else 8 * BlocksPerAllocationGroup v * BlockSize v)
         /\ fFreeBits (group_at a i)
            = fNumBits (group_at a i) - (if i =? 0 then reserved else 0)
         /\ forall b, 0 <= b < fNumBits (group_at a i) ->
              group_bit (fVolume a) (group_at a i) b
              = (i =? 0) && (b <? reserved).
Proof.
  intros Hf. cbv zeta.
  destruct (InitializeAndClearBitmap_result v Hf) as (a & H1 & H2 & H3).
  exists a. split; [exact H1|].
  split; [apply allocator_ok_inv; exact H2|exact H3].
Qed.

Lemma format_establishes_invariant_witness :
  exists a,
    InitializeAndClearBitmap example_volume = Some (B_OK, a)
    /\ allocator_ok a = true /\ layout_ok a = true
    /\ reserved_allocated a = true.
Proof.
  destruct (format_establishes_invariant example_volume)
    as (a & H1 & H2 & H3 & H4 & _).
  - vm_compute; reflexivity.
  - exists a. auto.
Defined.

(** ** One group *)

(** The group [Allocate] of a run of free bits within a well-formed group
    succeeds and leaves the group well formed - the count, the first-free
    hint and the largest-range hint, when it is still valid, are exact -
    with exactly the bits of the run set in addition. *)
Theorem Allocate_keeps_group_exact v g start len :
  volume_ok v = true -> group_ok v g = true ->
  0 <= start < 65536 -> 1 <= len <= 65535 -> start + len <= fNumBits g ->
  run_free v g start len = true ->
  exists g' v',
    AllocationGroup_Allocate v g start len = Some (B_OK, g', v')
    /\ group_ok v' g' = true
    /\ run_used v' g' start len = true
    /\ forall b, ~ (start <= b < start + len) ->
         group_bit v' g' b = group_bit v g b.
Proof.
  intros Hv Hok Hs Hl Hfit Hfree.
  pose proof Hok as Hok'. apply group_ok_spec in Hok'.
  destruct Hok' as (Hgeo & _).
  pose proof (geometry_ok_group_geometry v g Hv Hgeo) as Hgg.
  destruct (AllocationGroup_Allocate_spec v g start len Hv Hgg Hs
              ltac:(lia) Hfit) as (c' & Hcall & Hshape & _ & Hbits).
  exists (Allocate_info g start len), (set_block_cache v c').
  split; [exact Hcall|].
  split; [apply Allocate_group_ok; auto; lia|].
  destruct (Allocate_info_geometry g start len) as (_ & _ & G3).
  split.
  - unfold run_used. apply all_set_spec. intros b Hb.
    rewrite (group_bit_same_start _ g _ b G3), Hbits. unfold in_range.
    destruct (Z.leb_spec start b); [|lia].
    destruct (Z.ltb_spec b (start + len)); [|lia]. apply orb_true_r.
  - intros b Hb. rewrite (group_bit_same_start _ g _ b G3), Hbits.
    unfold in_range. destruct (Z.leb_spec start b); cbn;
      [|apply orb_false_r].
    destruct (Z.ltb_spec b (start + len)); [lia|]. apply orb_false_r.
Qed.

Lemma Allocate_keeps_group_exact_witness :
  exists g' v',
    AllocationGroup_Allocate (fVolume example_allocator)
      (group_at example_allocator 0) 100 20 = Some (B_OK, g', v')
    /\ group_ok v' g' = true.
Proof.
  destruct (Allocate_keeps_group_exact (fVolume example_allocator)
              (group_at example_allocator 0) 100 20)
    as (g' & v' & H1 & H2 & _).
  - vm_compute; reflexivity.
  - vm_compute; reflexivity.
  - lia.
  - lia.
  - vm_compute; discriminate.
  - vm_compute; reflexivity.
  - exists g', v'. split; [exact H1|exact H2].
Defined.

(** The group [Free] of a run of allocated bits within a well-formed group
    succeeds and leaves the group well formed, with exactly the bits of
    the run cleared. *)
Theorem Free_keeps_group_exact v g start len :
  volume_ok v = true -> group_ok v g = true ->
  0 <= start < 65536 -> 1 <= len <= 65535 -> start + len <= fNumBits g ->
  run_used v g start len = true ->
  exists g' v',
    AllocationGroup_Free v g start len = Some (B_OK, g', v')
    /\ group_ok v' g' = true
    /\ run_free v' g' start len = true
    /\ forall b, ~ (start <= b < start + len) ->
         group_bit v' g' b = group_bit v g b.
Proof.
  intros Hv Hok Hs Hl Hfit Hused.
  pose proof Hok as Hok'. apply group_ok_spec in Hok'.
  destruct Hok' as (Hgeo & _).
  pose proof (geometry_ok_group_geometry v g Hv Hgeo) as Hgg.
  destruct (AllocationGroup_Free_spec v g start len Hv Hgg Hs
              ltac:(lia) Hfit) as (c' & Hcall & Hshape & _ & Hbits).
  exists (Free_info g start len), (set_block_cache v c').
  split; [exact Hcall|].
  split; [apply Free_group_ok; auto; lia|].
  destruct (Free_info_geometry g start len) as (_ & _ & G3).
  split.
  - apply run_free_spec. intros b Hb.
    rewrite (group_bit_same_start _ g _ b G3), Hbits. unfold in_range.
    destruct (Z.leb_spec start b); [|lia].
    destruct (Z.ltb_spec b (start + len)); [|lia]. apply andb_false_r.
  - intros b Hb. rewrite (group_bit_same_start _ g _ b G3), Hbits.
    unfold in_range. destruct (Z.leb_spec start b); cbn;
      [|apply andb_true_r].
    destruct (Z.ltb_spec b (start + len)); [lia|]. apply andb_true_r.
Qed.

Lemma Free_keeps_group_exact_witness :
  exists g' v',
    AllocationGroup_Free (fVolume example_allocator)
      (group_at example_allocator 0) 20 30 = Some (B_OK, g', v')
    /\ group_ok v' g' = true.
Proof.
  destruct (Free_keeps_group_exact (fVolume example_allocator)
              (group_at example_allocator 0) 20 30)
    as (g' & v' & H1 & H2 & _).
  - vm_compute; reflexivity.
  - vm_compute; reflexivity.
  - lia.
  - lia.
  - vm_compute; discriminate.
  - vm_compute; reflexivity.
  - exists g', v'. split; [exact H1|exact H2].
Defined.

(** When the first bitmap block of the run cannot be obtained, the group
    [Allocate] fails with the I/O error, the bitmap untouched and the
    largest-range hint invalidated; the group info is already updated, so
    that the free-bit count is too low by the length of the run. *)
Theorem Allocate_unreadable_block v g start len :
  0 <= start < 65536 -> 1 <= len ->
  block_cache v !! (fStart g + u16 (start / bitsPerBlock v)) = None ->
  exists g',
    AllocationGroup_Allocate v g start len = Some (B_IO_ERROR, g', v)
    /\ fLargestValid g' = false
    /\ fFreeBits g' = fFreeBits g - len.
Proof.
  intros Hs Hl Hmiss.
  exists (set_fLargestValid (Allocate_info g start len) false).
  split; [apply AllocationGroup_Allocate_unreadable; assumption|].
  split; [reflexivity|].
  destruct (Allocate_info_counts g start len) as (_ & C2). exact C2.
Qed.

Lemma Allocate_unreadable_block_witness :
  exists g',
    AllocationGroup_Allocate (set_block_cache example_volume ∅)
      (group_at example_allocator 0) 100 20
    = Some (B_IO_ERROR, g', set_block_cache example_volume ∅)
    /\ fLargestValid g' = false
    /\ fFreeBits g' = fFreeBits (group_at example_allocator 0) - 20.
Proof.
  apply (Allocate_unreadable_block (set_block_cache example_volume ∅)
           (group_at example_allocator 0) 100 20).
  - lia.
  - lia.
  - apply lookup_empty.
Defined.

(** ** The counters *)

(** Whatever [AllocateBlocks] answers on a well-formed allocator, the used
    blocks of the volume and the free bits the groups count add up to the
    same number as before. *)
Theorem AllocateBlocks_keeps_total
    a groupIndex start maximum minimum status run a' :
  allocator_ok a = true -> 0 <= groupIndex -> 0 <= start < 65536 ->
  0 < maximum <= 65535 -> 1 <= minimum <= 65535 ->
  AllocateBlocks a groupIndex start maximum minimum
  = Some (status, run, a') ->
  used_blocks (fVolume a') + free_blocks a'
  = used_blocks (fVolume a) + free_blocks a.
Proof.
  intros Hok. apply allocator_ok_inv in Hok.
  exact (AllocateBlocks_accounts a groupIndex start maximum minimum status
           run a' Hok).
Qed.

Lemma AllocateBlocks_keeps_total_witness :
  used_blocks (fVolume example_allocated) + free_blocks example_allocated
  = used_blocks (fVolume example_allocator) + free_blocks example_allocator.
Proof.
  apply (AllocateBlocks_keeps_total example_allocator 0 0 10 1 B_OK
           (Some (mk_block_run 0 64 10)) example_allocated).
  - vm_compute; reflexivity.
  - lia.
  - lia.
  - lia.
  - lia.
  - vm_compute; reflexivity.
Defined.

(** A successful [Free] on a well-formed allocator keeps the sum of the
    used blocks of the volume and the free bits the groups count. *)
Theorem Free_keeps_total a run a' :
  allocator_ok a = true ->
  0 <= run_start (Log (fVolume a)) < 65536 ->
  0 <= run_length (Log (fVolume a)) < 65536 ->
  0 <= run_start run < 65536 -> 0 <= run_length run <= 65535 ->
  Free a run = Some (B_OK, a') ->
  used_blocks (fVolume a') + free_blocks a'
  = used_blocks (fVolume a) + free_blocks a.
Proof.
  intros Hok. apply allocator_ok_inv in Hok.
  exact (Free_accounts a run a' Hok).
Qed.

Lemma Free_keeps_total_witness :
  used_blocks (fVolume example_freed) + free_blocks example_freed
  = used_blocks (fVolume example_allocated) + free_blocks example_allocated.
Proof.
  apply (Free_keeps_total example_allocated (mk_block_run 0 64 10)
           example_freed).
  - vm_compute; reflexivity.
  - split; vm_compute; [discriminate|reflexivity].
  - split; vm_compute; [discriminate|reflexivity].
  - cbn; lia.
  - cbn; lia.
  - vm_compute; reflexivity.
Defined.

(** ** Checking runs *)

(** On a well-formed allocator [CheckBlockRun] answers [B_OK] exactly for
    a valid run all of whose bits are in the expected state, and
    [B_BAD_DATA] for every other run. *)
Theorem CheckBlockRun_decides a run allocated :
  allocator_ok a = true -> layout_ok a = true -> addressing_ok a = true ->
  0 <= run_start run < 65536 -> 0 <= run_length run <= 65535 ->
  CheckBlockRun a run allocated
  = Some (if IsValidBlockRun a run
             && run_in_state (fVolume a) (group_at a (allocation_group run))
                  allocated (run_start run) (run_length run)
          then B_OK else B_BAD_DATA).
Proof.
  intros Hok Hlay Haddr Hs Hl. apply allocator_ok_inv in Hok.
  unfold CheckBlockRun.
  destruct (IsValidBlockRun a run) eqn:Hvalid; cbn [negb andb];
    [|reflexivity].
  destruct (CheckBlocks_run a run allocated Hok Hlay Haddr Hs Hl Hvalid)
    as [[H1 H2]|(q & Hq & H1 & H2 & H3)].
  - rewrite H1, H2. reflexivity.
  - rewrite H3.
    destruct (run_in_state _ _ allocated _ _) eqn:E; [|reflexivity].
    exfalso. rewrite run_in_state_spec in E. rewrite E in H2 by lia.
    destruct allocated; discriminate.
Qed.

Lemma CheckBlockRun_decides_witness :
  CheckBlockRun example_allocated (mk_block_run 0 64 10) true = Some B_OK
  /\ CheckBlockRun example_allocated (mk_block_run 0 64 11) true
     = Some B_BAD_DATA.
Proof.
  split.
  - rewrite (CheckBlockRun_decides example_allocated (mk_block_run 0 64 10)
               true).
    + vm_compute; reflexivity.
    + vm_compute; reflexivity.
    + vm_compute; reflexivity.
    + vm_compute; reflexivity.
    + cbn; lia.
    + cbn; lia.
  - rewrite (CheckBlockRun_decides example_allocated (mk_block_run 0 64 11)
               true).
    + vm_compute; reflexivity.
    + vm_compute; reflexivity.
    + vm_compute; reflexivity.
    + vm_compute; reflexivity.
    + cbn; lia.
    + cbn; lia.
Defined.

(** [CheckBlocks] on the blocks of a valid run of a well-formed allocator:
    it answers [B_OK] when every bit of the run is in the expected state;
    otherwise it answers [B_BAD_DATA] and reports as first error the block
    of the first bit of the run that is not. *)
Theorem CheckBlocks_reports_first_error a run allocated :
  allocator_ok a = true -> layout_ok a = true -> addressing_ok a = true ->
  0 <= run_start run < 65536 -> 0 <= run_length run <= 65535 ->
  IsValidBlockRun a run = true ->
  let v := fVolume a in
  let g := group_at a (allocation_group run) in
  (run_in_state v g allocated (run_start run) (run_length run) = true
   /\ CheckBlocks a (ToBlock v run) (run_length run) allocated
      = Some (B_OK, None))
  \/ exists q,
       run_start run <= q < run_start run + run_length run
       /\ (forall b, run_start run <= b < q -> group_bit v g b = allocated)
       /\ group_bit v g q = negb allocated
       /\ CheckBlocks a (ToBlock v run) (run_length run) allocated
          = Some (B_BAD_DATA,
                  Some (ToBlock v (mk_block_run (allocation_group run) q
                                     (run_length run)))).
Proof.
  intros Hok. apply allocator_ok_inv in Hok.
  exact (CheckBlocks_run a run allocated Hok).
Qed.

Lemma CheckBlocks_reports_first_error_witness :
  CheckBlocks example_allocated 8256 65 false = Some (B_OK, None)
  \/ exists q,
       CheckBlocks example_allocated 8256 65 false
       = Some (B_BAD_DATA, Some q).
Proof.
  destruct (CheckBlocks_reports_first_error example_allocated
              (mk_block_run 1 64 65) false)
    as [[_ H]|(q & _ & _ & _ & H)].
  - vm_compute; reflexivity.
  - vm_compute; reflexivity.
  - vm_compute; reflexivity.
  - cbn; lia.
  - cbn; lia.
  - vm_compute; reflexivity.
  - left. exact H.
  - right. eexists. exact H.
Defined.

(** ** Blocks for inodes *)

(** [AllocateForInode] asks for one block, from the start of the parent's
    group, or of the group eight further on for a directory: on a
    well-formed allocator it returns a run of exactly one block when the
    volume has a free block, and fails with the device full, all the bits
    as they were, when it has none. *)
Theorem AllocateForInode_one_block a parent directory :
  allocator_ok a = true ->
  (0 < longest_free_run a ->
   exists run a',
     AllocateForInode a parent directory = Some (B_OK, Some run, a')
     /\ run_length run = 1
     /\ 0 <= allocation_group run < fNumGroups a
     /\ run_free (fVolume a) (group_at a (allocation_group run))
          (run_start run) 1 = true)
  /\ (longest_free_run a = 0 ->
      exists a',
        AllocateForInode a parent directory = Some (B_DEVICE_FULL, None, a')
        /\ fVolume a' = fVolume a).
Proof.
  intros Hok. apply allocator_ok_inv in Hok. unfold AllocateForInode.
  set (group := if directory then u16 (u16 (allocation_group parent) + 8)
                else u16 (allocation_group parent)).
  assert (Hgroup : 0 <= group).
  { unfold group. destruct directory;
      [pose proof (u16_range (u16 (allocation_group parent) + 8))
      |pose proof (u16_range (allocation_group parent))]; lia. }
  destruct (AllocateBlocks_spec a group 0 1 1 Hok Hgroup ltac:(lia)
              ltac:(lia) ltac:(lia))
    as (best & a1 & _ & Hinv1 & Href & Hbest & Hle & Hzero & Hfin & Hres).
  split.
  - intros Hpos.
    assert (Hb1 : 1 <= bestLength best) by lia.
    destruct (Z.ltb_spec (bestLength best) 1); [lia|].
    cbv zeta in Hres. destruct Hres as (a2 & c' & Hcall & Hfree & _).
    assert (Hlen : chosen_length (bestLength best) 1 1 = 1).
    { unfold chosen_length.
      destruct (Z.gtb_spec (bestLength best) 1); [reflexivity|].
      destruct (Z.gtb_spec 1 1); lia. }
    rewrite Hlen in Hcall. eexists _, a2. split; [exact Hcall|].
    cbn [allocation_group run_start run_length].
    destruct Hfree as (Hg & R1 & R2 & R3 & R4).
    split; [reflexivity|]. split; [exact Hg|].
    apply run_free_spec. intros b Hb. apply R4. lia.
  - intros Hz. specialize (Hzero Hz).
    destruct (Z.ltb_spec (bestLength best) 1); [|lia].
    exists a1. split; [exact Hres|]. destruct Href as (F1 & _). exact F1.
Qed.

Lemma AllocateForInode_one_block_witness :
  exists run a',
    AllocateForInode example_full_first (mk_block_run 0 0 1) true
    = Some (B_OK, Some run, a')
    /\ run_length run = 1.
Proof.
  destruct (AllocateForInode_one_block example_full_first
              (mk_block_run 0 0 1) true) as [H _].
  - vm_compute; reflexivity.
  - destruct H as (run & a' & H1 & H2 & _).
    + vm_compute; reflexivity.
    + exists run, a'. split; [exact H1|exact H2].
Defined.

(** ** Mounting *)

(** [_Initialize] on a volume that can be mounted, with the reserved
    prefix allocated in its bitmap, returns [B_OK] and leaves a
    well-formed allocator over the unchanged bitmap: the groups lie one
    after the other, the reserved prefix is allocated, the hints of every
    group are exact, and the used blocks of the volume and the free bits
    the groups count add up to the blocks of the volume. *)
Theorem mount_establishes_invariant v readOnly :
  mount_ok v = true -> reserved_on_disk v true = true ->
  exists a,
    _Initialize (Initialize v) readOnly = Some (B_OK, a)
    /\ allocator_ok a = true /\ layout_ok a = true
    /\ addressing_ok a = true /\ reserved_allocated a = true
    /\ block_cache (fVolume a) = block_cache v
    /\ used_blocks (fVolume a) + free_blocks a = NumBlocks v
    /\ fNumGroups a = AllocationGroups v
    /\ forall i, 0 <= i < AllocationGroups v ->
         fNumBits (group_at a i)
         = (if i =? AllocationGroups v - 1
            then NumBlocks v
                 - i * (8 * BlocksPerAllocationGroup v * BlockSize v)
            else 8 * BlocksPerAllocationGroup v * BlockSize v)
         /\ fStart (group_at a i) = 1 + i * BlocksPerAllocationGroup v.
Proof.
  intros Hm Hdisk.
  destruct (Initialize_mount v readOnly Hm Hdisk)
    as (a & H1 & H2 & H3 & H4 & H5 & H6 & H7 & H8 & H9).
  exists a. split; [exact H1|]. split; [apply allocator_ok_inv; exact H2|].
  repeat (split; [assumption|]).
  intros i Hi. destruct (H9 i Hi) as (E1 & E2 & _). auto.
Qed.

Lemma mount_establishes_invariant_witness :
  exists a,
    _Initialize (Initialize (fVolume example_allocated)) false
    = Some (B_OK, a)
    /\ allocator_ok a = true
    /\ used_blocks (fVolume a) + free_blocks a = 16384.
Proof.
  destruct (mount_establishes_invariant (fVolume example_allocated) false)
    as (a & H1 & H2 & _ & _ & _ & _ & H3 & _).
  - vm_compute; reflexivity.
  - vm_compute; reflexivity.
  - exists a. split; [exact H1|]. split; [exact H2|exact H3].
Defined.

(** The hints the scan of [_Initialize] gives a group are exact: the
    free-bit count is the number of unset bits; the first-free hint is the
    first unset bit, or [-1] when the group has none; the largest-range
    hint is valid exactly when the group has an unset bit, and is then a
    longest run of unset bits. *)
Theorem mount_scan_hints_exact v readOnly i :
  mount_ok v = true -> reserved_on_disk v true = true ->
  0 <= i < AllocationGroups v ->
  exists a,
    _Initialize (Initialize v) readOnly = Some (B_OK, a)
    /\ let g := group_at a i in
       let f := group_bit v g in
       fFreeBits g = free_count v g
       /\ ((fFirstFree g = -1 /\ forall b, 0 <= b < fNumBits g -> f b = true)
           \/ (0 <= fFirstFree g < fNumBits g /\ f (fFirstFree g) = false
               /\ forall b, 0 <= b < fFirstFree g -> f b = true))
       /\ ((fLargestValid g = false
            /\ forall b, 0 <= b < fNumBits g -> f b = true)
           \/ (fLargestValid g = true
               /\ 0 <= fLargestStart g /\ 0 < fLargestLength g
               /\ fLargestStart g + fLargestLength g <= fNumBits g
               /\ run_free v g (fLargestStart g) (fLargestLength g) = true
               /\ fLargestLength g = longest_free v g)).
Proof.
  intros Hm Hdisk Hi.
  destruct (Initialize_mount v readOnly Hm Hdisk)
    as (a & H1 & H2 & _ & _ & _ & Hc & _ & Hn & H9).
  exists a. split; [exact H1|]. cbv zeta.
  destruct (H9 i Hi) as (E1 & E2 & (X1 & X2 & X3)).
  set (g := group_at a i) in *.
  destruct H2 as (Hv & _ & _ & Hgroups).
  pose proof (Hgroups i ltac:(lia)) as Hok. fold g in Hok.
  apply group_ok_spec in Hok. destruct Hok as (Hgeo & _ & _ & Hlok).
  pose proof (geometry_ok_group_geometry _ _ Hv Hgeo) as (HN & _).
  split; [exact X1|]. split; [exact X2|].
  destruct X3 as [X3|(E & (R1 & R2 & R3 & R4) & Hpos & Hlong)];
    [left; exact X3|right].
  split; [exact E|]. split; [exact R1|]. split; [exact Hpos|].
  split; [exact R3|]. split.
  { apply run_free_spec. rewrite Z.max_r by lia. exact R4. }
  unfold longest_free.
  pose proof (longest_unset_upper (group_bit v g) (Z.to_nat (fNumBits g))
                (fLargestStart g) (fLargestStart g + fLargestLength g)
                ltac:(lia) ltac:(lia) R4) as Hu.
  destruct (longest_unset_attained (group_bit v g) (Z.to_nat (fNumBits g)))
    as (x & Hx & Hle & Hf).
  pose proof (longest_unset_nonneg (group_bit v g) (Z.to_nat (fNumBits g)))
    as Hnn.
  set (L := longest_unset (group_bit v g) 0 (Z.to_nat (fNumBits g))) in *.
  destruct (Z.eq_dec L 0) as [E0|Hne]; [lia|].
  specialize (Hlong x (x + L) ltac:(lia) Hf). lia.
Qed.

Lemma mount_scan_hints_exact_witness :
  exists a,
    _Initialize (Initialize (fVolume example_allocated)) false
    = Some (B_OK, a)
    /\ fFreeBits (group_at a 0)
       = free_count (fVolume example_allocated) (group_at a 0).
Proof.
  destruct (mount_scan_hints_exact (fVolume example_allocated) false 0)
    as (a & H1 & H2 & _).
  - vm_compute; reflexivity.
  - vm_compute; reflexivity.
  - split; vm_compute; [discriminate|reflexivity].
  - exists a. split; [exact H1|exact H2].
Defined.

(** On a writable volume whose reserved prefix is free in the bitmap,
    [_Initialize] allocates the prefix and leaves a well-formed allocator
    with the prefix allocated; the used blocks of the volume are those of
    the scan before, so that the used blocks and the free bits the groups
    count fall short of the blocks of the volume by the reserved
    blocks. *)
Theorem mount_reserves_free_prefix v :
  mount_ok v = true -> reserved_on_disk v false = true ->
  let reserved := run_start (Log v) + run_length (Log v) in
  exists a,
    _Initialize (Initialize v) false = Some (B_OK, a)
    /\ allocator_ok a = true /\ layout_ok a = true
    /\ reserved_allocated a = true
    /\ used_blocks (fVolume a) + free_blocks a = NumBlocks v - reserved.
Proof.
  intros Hm Hdisk. cbv zeta.
  destruct (Initialize_mount_unreserved v Hm Hdisk)
    as (a & H1 & H2 & H3).
  exists a. split; [exact H1|]. split; [apply allocator_ok_inv; exact H2|].
  exact H3.
Qed.

Lemma mount_reserves_free_prefix_witness :
  exists a,
    _Initialize (Initialize example_blank) false = Some (B_OK, a)
    /\ reserved_allocated a = true
    /\ used_blocks (fVolume a) + free_blocks a = 16384 - 64.
Proof.
  destruct (mount_reserves_free_prefix example_blank)
    as (a & H1 & _ & _ & H2 & H3).
  - vm_compute; reflexivity.
  - vm_compute; reflexivity.
  - exists a. split; [exact H1|]. split; [exact H2|exact H3].
Defined.

(** On a read-only volume whose reserved prefix is free in the bitmap,
    [_Initialize] still returns [B_OK]: the bitmap is as it was, the
    allocator is well formed, and the reserved prefix is not allocated. *)
Theorem mount_read_only_keeps_bitmap v :
  mount_ok v = true -> reserved_on_disk v false = true ->
  exists a,
    _Initialize (Initialize v) true = Some (B_OK, a)
    /\ allocator_ok a = true /\ layout_ok a = true
    /\ reserved_allocated a = false
    /\ block_cache (fVolume a) = block_cache v
    /\ used_blocks (fVolume a) + free_blocks a = NumBlocks v.
Proof.
  intros Hm Hdisk.
  destruct (Initialize_mount_read_only v Hm Hdisk) as (a & H1 & H2 & H3).
  exists a. split; [exact H1|]. split; [apply allocator_ok_inv; exact H2|].
  exact H3.
Qed.

Lemma mount_read_only_keeps_bitmap_witness :
  exists a,
    _Initialize (Initialize example_blank) true = Some (B_OK, a)
    /\ reserved_allocated a = false
    /\ used_blocks (fVolume a) + free_blocks a = 16384.
Proof.
  destruct (mount_read_only_keeps_bitmap example_blank)
    as (a & H1 & _ & _ & H2 & _ & H3).
  - vm_compute; reflexivity.
  - vm_compute; reflexivity.
  - exists a. split; [exact H1|]. split; [exact H2|exact H3].
Defined.

(** ** The view of a bitmap block *)

(** [SetTo] on a bitmap block of a well-formed group gives a view with as
    many valid bits as the group has in that block - a full block, but in
    the last block the rest of the group when the bits of the group do not
    fill it - and [IsUsed] reads the bits of the group through it. *)
Theorem SetTo_views_group_bits v g block :
  volume_ok v = true -> geometry_ok v g = true ->
  0 <= block < fNumBitmapBlocks g ->
  exists cached,
    AllocationBlock_SetTo v g block = Some cached
    /\ NumBlockBits cached
       = (if (block =? fNumBitmapBlocks g - 1)
             && negb (fNumBits g mod bitsPerBlock v =? 0)
          then fNumBits g mod bitsPerBlock v else bitsPerBlock v)
    /\ 0 < NumBlockBits cached
    /\ forall bit, 0 <= bit < NumBlockBits cached ->
         AllocationBlock_IsUsed cached bit
         = group_bit v g (block * bitsPerBlock v + bit).
Proof.
  intros Hv Hgeo Hk.
  pose proof (geometry_ok_group_geometry v g Hv Hgeo) as (HN & Hnb & Hp).
  pose proof (bitsPerBlock_range v Hv) as Hb.
  pose proof (blocks_cover v g Hv HN Hnb) as (Hc1 & Hc2 & Hc3).
  destruct (Hp block Hk) as (data & Hd & Hlen).
  destruct (block_bits_eq v g Hv HN Hnb block Hk) as [Hbb Hpos].
  unfold AllocationBlock_SetTo, CachedBlock_SetTo, Start.
  rewrite (u16_small block) by lia. rewrite Hd.
  eexists. split; [reflexivity|]. unfold NumBlockBits. cbn [fNumBlockBits].
  split; [|split; [exact Hpos|]].
  - rewrite Hbb. set (bpb := bitsPerBlock v) in *.
    set (nb := fNumBitmapBlocks g) in *.
    destruct (Z.eqb_spec block (nb - 1)) as [->|Hne]; cbn [andb].
    + pose proof (Z.div_mod (fNumBits g) bpb ltac:(lia)) as Hdm.
      pose proof (Z.mod_pos_bound (fNumBits g) bpb ltac:(lia)) as Hm.
      destruct (Z.eqb_spec (fNumBits g mod bpb) 0) as [E|E]; cbn [negb].
      * assert (fNumBits g / bpb = nb) by nia. nia.
      * assert (fNumBits g / bpb = nb - 1) by nia. nia.
    + assert ((block + 1) * bpb <= (nb - 1) * bpb)
        by (apply Z.mul_le_mono_nonneg_r; lia).
      lia.
  - intros bit Hbit. rewrite IsUsed_chunk_bit by (cbn; lia).
    cbn [fBlock]. symmetry.
    apply (view_bits v g Hv block data bit); [lia|exact Hd|].
    rewrite Hbb in Hbit. lia.
Qed.

Lemma SetTo_views_group_bits_witness :
  exists cached,
    AllocationBlock_SetTo (fVolume example_allocator)
      (group_at example_allocator 0) 0 = Some cached
    /\ NumBlockBits cached = 8192
    /\ AllocationBlock_IsUsed cached 63
       = group_bit (fVolume example_allocator)
           (group_at example_allocator 0) 63.
Proof.
  destruct (SetTo_views_group_bits (fVolume example_allocator)
              (group_at example_allocator 0) 0)
    as (cached & H1 & H2 & H3 & H4).
  - vm_compute; reflexivity.
  - vm_compute; reflexivity.
  - split; vm_compute; [discriminate|reflexivity].
  - exists cached. split; [exact H1|]. split.
    + rewrite H2. vm_compute. reflexivity.
    + apply (H4 63). rewrite H2. split; vm_compute; [discriminate|reflexivity].
Defined.

(** [AllocationBlock::Allocate] sets exactly the bits of the run, and
    [AllocationBlock::Free] after it clears them again: allocating and
    freeing a run of bits that were free leaves every bit of the block as
    it was. *)
Theorem block_allocate_then_free b start n :
  0 <= start < 65536 -> 0 <= n < 65536 ->
  start + n <= 32 * Z.of_nat (length (fBlock b)) ->
  let b1 := AllocationBlock_Allocate b start n in
  let b2 := AllocationBlock_Free b1 start n in
  (forall bit, 0 <= bit ->
     chunk_bit (fBlock b1) bit
     = chunk_bit (fBlock b) bit || in_range start n bit)
  /\ (forall bit, 0 <= bit ->
        chunk_bit (fBlock b2) bit
        = chunk_bit (fBlock b) bit && negb (in_range start n bit))
  /\ ((forall bit, start <= bit < start + n ->
         chunk_bit (fBlock b) bit = false) ->
      forall bit, 0 <= bit ->
        chunk_bit (fBlock b2) bit = chunk_bit (fBlock b) bit).
Proof.
  intros Hs Hn Hfit. cbv zeta.
  destruct (AllocationBlock_Allocate_spec b start n Hs Hn Hfit)
    as (A1 & A2 & A3 & A4).
  cbv zeta in *.
  destruct (AllocationBlock_Free_spec (AllocationBlock_Allocate b start n)
              start n Hs Hn ltac:(rewrite A3; exact Hfit))
    as (F1 & F2 & F3 & F4).
  cbv zeta in *.
  assert (Hboth : forall bit, 0 <= bit ->
            chunk_bit (fBlock (AllocationBlock_Free
                                 (AllocationBlock_Allocate b start n)
                                 start n)) bit
            = chunk_bit (fBlock b) bit && negb (in_range start n bit)).
  { intros bit Hbit. rewrite F4, A4 by assumption.
    destruct (chunk_bit (fBlock b) bit), (in_range start n bit);
      reflexivity. }
  split; [exact A4|]. split; [exact Hboth|].
  intros Hfree bit Hbit. rewrite Hboth by assumption.
  unfold in_range.
  destruct (Z.leb_spec start bit); cbn; [|apply andb_true_r].
  destruct (Z.ltb_spec bit (start + n)); cbn; [|apply andb_true_r].
  rewrite Hfree by lia. reflexivity.
Qed.

Lemma block_allocate_then_free_witness :
  let b := mk_AllocationBlock 1 (replicate 256 0) 8192 in
  chunk_bit (fBlock (AllocationBlock_Allocate b 30 40)) 35 = true
  /\ chunk_bit (fBlock (AllocationBlock_Free
                          (AllocationBlock_Allocate b 30 40) 30 40)) 35
     = chunk_bit (fBlock b) 35.
Proof.
  cbv zeta.
  destruct (block_allocate_then_free
              (mk_AllocationBlock 1 (replicate 256 0) 8192) 30 40)
    as (H1 & _ & H).
  - lia.
  - lia.
  - vm_compute. discriminate.
  - split.
    + rewrite (H1 35) by lia. vm_compute. reflexivity.
    + apply H; [|lia]. intros bit Hbit. apply chunk_bit_zero.
Defined.

(** ** The length of an allocated run *)

(** The run of a successful [AllocateBlocks] is as long as [maximum], or
    its length is a multiple of [minimum]: the length is a multiple of
    [minimum] whenever [maximum] is one, and whenever the run is shorter
    than [maximum]. *)
Theorem AllocateBlocks_length_multiple
    a groupIndex start maximum minimum run a' :
  allocator_ok a = true ->
  0 <= groupIndex -> 0 <= start < 65536 ->
  0 < maximum <= 65535 -> 1 <= minimum <= 65535 ->
  AllocateBlocks a groupIndex start maximum minimum
  = Some (B_OK, Some run, a') ->
  (run_length run = maximum \/ run_length run mod minimum = 0)
  /\ (maximum mod minimum = 0 -> run_length run mod minimum = 0)
  /\ (run_length run < maximum -> run_length run mod minimum = 0)
  /\ (minimum <= maximum -> minimum <= run_length run <= maximum).
Proof.
  intros Hok Hgi Hs Hmax Hmin Hcall. apply allocator_ok_inv in Hok.
  destruct (AllocateBlocks_spec a groupIndex start maximum minimum Hok Hgi Hs
              Hmax Hmin)
    as (best & a1 & _ & _ & _ & _ & _ & _ & _ & Hspec).
  destruct (Z.ltb_spec (bestLength best) minimum) as [Hlt|Hge].
  { rewrite Hspec in Hcall. discriminate. }
  destruct Hspec as (a2 & c1 & Hcall' & _ & _).
  rewrite Hcall' in Hcall. injection Hcall as <- <-.
  cbn [run_length].
  destruct (chosen_length_bounds (bestLength best) maximum minimum)
    as (L1 & L2 & L3 & L4); try lia.
  assert (Hcase : chosen_length (bestLength best) maximum minimum = maximum
                  \/ chosen_length (bestLength best) maximum minimum
                     mod minimum = 0).
  { unfold chosen_length.
    destruct (Z.gtb_spec (bestLength best) maximum); [left; reflexivity|].
    right. destruct (Z.gtb_spec minimum 1).
    - apply (round_down_bounds (bestLength best) minimum). lia.
    - assert (minimum = 1) by lia. subst minimum. apply Z.mod_1_r. }
  set (len := chosen_length (bestLength best) maximum minimum) in *.
  split; [exact Hcase|]. split; [|split].
  - intros Hm. destruct Hcase as [->|]; assumption.
  - intros Hlt. destruct Hcase as [E|]; [lia|assumption].
  - intros Hle. split; [apply L4; exact Hle|exact L3].
Qed.

Lemma AllocateBlocks_length_multiple_witness :
  run_length (mk_block_run 0 64 10) = 10
  \/ run_length (mk_block_run 0 64 10) mod 1 = 0.
Proof.
  destruct (AllocateBlocks_length_multiple example_allocator 0 0 10 1
              (mk_block_run 0 64 10) example_allocated) as (H & _).
  - vm_compute; reflexivity.
  - lia.
  - lia.
  - lia.
  - lia.
  - vm_compute; reflexivity.
  - exact H.
Defined.

(** When the largest-range hint of the hint group is valid, begins at or
    after the start offset and is at least [maximum] blocks long,
    [AllocateBlocks] answers from the hint without looking at the bitmap:
    the run begins where the hinted range begins, in the hint group.  It is
    [maximum] blocks long when the hinted range is longer than [maximum];
    when the two are equal the length is rounded down to a multiple of
    [minimum]. *)
Theorem AllocateBlocks_takes_largest_hint a groupIndex start maximum minimum :
  allocator_ok a = true -> 0 <= groupIndex < fNumGroups a ->
  0 <= start < 65536 -> 0 < maximum <= 65535 -> 1 <= minimum <= maximum ->
  fLargestValid (group_at a groupIndex) = true ->
  start <= fLargestStart (group_at a groupIndex) ->
  maximum <= fLargestLength (group_at a groupIndex) ->
  exists a',
    AllocateBlocks a groupIndex start maximum minimum
    = Some (B_OK,
            Some (mk_block_run groupIndex
                    (fLargestStart (group_at a groupIndex))
                    (if fLargestLength (group_at a groupIndex) >? maximum
                     then maximum else round_down maximum minimum)),
            a')
    /\ fGroups a'
       = <[Z.to_nat groupIndex :=
             Allocate_info (group_at a groupIndex)
               (fLargestStart (group_at a groupIndex))
               (if fLargestLength (group_at a groupIndex) >? maximum
                then maximum else round_down maximum minimum)]> (fGroups a).
Proof.
  intros Hok Hgi Hs Hmax Hmin Hvalid Hstart Hlen.
  apply allocator_ok_inv in Hok. pose proof Hok as (Hv & Hn & Hlength & Hgroups).
  pose proof (Hgroups groupIndex Hgi) as Hg.
  apply group_ok_spec in Hg. destruct Hg as (Hgeo & Hc & Hff & Hl).
  pose proof (geometry_ok_group_geometry _ _ Hv Hgeo) as Hgg.
  pose proof Hgg as (HN & _).
  destruct (largest_ok_spec _ _ HN Hl Hvalid) as ((R1 & R2 & R3 & R4) & _).
  set (g := group_at a groupIndex) in *.
  set (len := if fLargestLength g >? maximum then maximum
              else round_down maximum minimum).
  assert (Hlenb : 1 <= len <= maximum).
  { unfold len. destruct (Z.gtb_spec (fLargestLength g) maximum); [lia|].
    destruct (round_down_bounds maximum minimum); lia. }
  assert (Hchosen : (if fLargestLength g >? maximum then maximum
                     else if minimum >? 1
                          then round_down (fLargestLength g) minimum
                          else fLargestLength g) = len).
  { unfold len. destruct (Z.gtb_spec (fLargestLength g) maximum);
      [reflexivity|].
    assert (fLargestLength g = maximum) as -> by lia.
    destruct (Z.gtb_spec minimum 1); [reflexivity|].
    assert (minimum = 1) as -> by lia.
    unfold round_down. rewrite Z.div_1_r. lia. }
  destruct (AllocationGroup_Allocate_spec (fVolume a) g (fLargestStart g) len
              Hv Hgg ltac:(lia) ltac:(lia) ltac:(lia))
    as (c' & Hcall & _).
  unfold AllocateBlocks.
  rewrite (u16_small start), (u16_small maximum), (u16_small minimum) by lia.
  destruct (Z.eqb_spec maximum 0); [lia|].
  replace (Z.to_nat (fNumGroups a + 1)) with (S (Z.to_nat (fNumGroups a)))
    by lia.
  rewrite (visit_groups_hint a groupIndex start maximum _ Hok Hgi Hs
             ltac:(lia) Hvalid Hstart Hlen).
  fold g. cbn [set_best bestLength bestStart bestGroup].
  destruct (Z.ltb_spec (fLargestLength g) minimum); [lia|].
  rewrite Hchosen. fold g. rewrite Hcall.
  rewrite (u16_small (fLargestStart g)), (u16_small len) by lia.
  eexists. split; [reflexivity|].
  cbn. unfold set_group. destruct (Z.ltb_spec groupIndex 0); [lia|].
  reflexivity.
Qed.

Lemma AllocateBlocks_takes_largest_hint_witness :
  exists a',
    AllocateBlocks example_allocator 0 0 100 64
    = Some (B_OK, Some (mk_block_run 0 64 100), a').
Proof.
  destruct (AllocateBlocks_takes_largest_hint example_allocator 0 0 100 64)
    as (a' & H & _).
  - vm_compute; reflexivity.
  - vm_compute. split; [discriminate|reflexivity].
  - lia.
  - lia.
  - lia.
  - vm_compute; reflexivity.
  - vm_compute; discriminate.
  - vm_compute; discriminate.
  - exists a'. exact H.
Defined.

(** When the hint group has free blocks and no valid largest-range hint,
    its bits are scanned from the start offset, or from the first-free
    hint when this is further on; if the bitmap block that holds this bit
    cannot be read, [AllocateBlocks] fails with [B_ERROR] and leaves the
    allocator as it was. *)
Theorem AllocateBlocks_unreadable_block a groupIndex start maximum minimum :
  0 <= groupIndex < fNumGroups a ->
  0 < maximum <= 65535 ->
  let g := group_at a groupIndex in
  let from := Z.max start (fFirstFree g) in
  let block := from / bitsPerBlock (fVolume a) in
  0 <= start < fNumBits g -> fNumBits g <= 65536 ->
  fFirstFree g < 65536 ->
  IsFull g = false -> fLargestValid g = false ->
  0 < bitsPerBlock (fVolume a) -> block < fNumBitmapBlocks g ->
  block_cache (fVolume a) !! (fStart g + block) = None ->
  AllocateBlocks a groupIndex start maximum minimum
  = Some (B_ERROR, None, a).
Proof.
  intros Hgi Hmax g from block Hs HN Hff Hfull Hvalid Hb Hblock Hcache.
  assert (Hfrom : 0 <= from < 65536) by (unfold from; lia).
  assert (Hblock0 : 0 <= block < 65536).
  { unfold block. split; [apply Z.div_pos; lia|].
    apply Z.div_lt_upper_bound; nia. }
  unfold AllocateBlocks.
  rewrite (u16_small start), (u16_small maximum) by lia.
  destruct (Z.eqb_spec maximum 0); [lia|].
  replace (Z.to_nat (fNumGroups a + 1)) with (S (Z.to_nat (fNumGroups a)))
    by lia.
  cbn [visit_groups]. rewrite Z.rem_small by lia. fold g.
  unfold visit_group, NumBits. rewrite Hfull, Hvalid.
  destruct (Z.geb_spec start (fNumBits g)); [lia|]. cbn [orb andb].
  assert (Hstart : (if start <? fFirstFree g then u16 (fFirstFree g)
                    else start) = from).
  { unfold from. destruct (Z.ltb_spec start (fFirstFree g)).
    - rewrite u16_small by lia. lia.
    - lia. }
  rewrite Hstart. unfold scan_group, NumBitmapBlocks.
  change (u32 (Z.shiftl (BlockSize (fVolume a)) 3))
    with (bitsPerBlock (fVolume a)).
  fold block.
  destruct (Z.to_nat (fNumBitmapBlocks g - block)) as [|r] eqn:E; [lia|].
  cbn [scan_blocks]. unfold AllocationBlock_SetTo, CachedBlock_SetTo, Start.
  rewrite (u16_small block) by lia. rewrite Hcache. reflexivity.
Qed.

Lemma AllocateBlocks_unreadable_block_witness :
  let a := set_fVolume example_freed
             (set_block_cache (fVolume example_freed) ∅) in
  AllocateBlocks a 0 0 10 1 = Some (B_ERROR, None, a).
Proof.
  intros a. apply (AllocateBlocks_unreadable_block a 0 0 10 1).
  - vm_compute. split; [discriminate|reflexivity].
  - lia.
  - vm_compute. split; [discriminate|reflexivity].
  - vm_compute; discriminate.
  - vm_compute; reflexivity.
  - vm_compute; reflexivity.
  - vm_compute; reflexivity.
  - vm_compute; reflexivity.
  - vm_compute; reflexivity.
  - vm_compute; reflexivity.
Defined.

(** ** Trim *)

(** On a well-formed volume [Trim] of the whole volume walks the bits of
    all the groups in the order of the bitmap and hands the device the
    maximal runs of free blocks, in bytes, in ascending order: a run goes
    into the list of ranges when the used block after it is reached, the
    list is sent whenever it holds 128 ranges, and what is left is sent at
    the end together with the run that lasts to the end of the bitmap;
    [trimmedSize] adds up what the device reports. The first failure of
    the device ends the walk with its [errno]. No bitmap block is left
    unread and the overflow check never fires. *)
Theorem Trim_sends_free_runs {Device : Type}
    (B_TRIM_DEVICE : Device -> list (Z * Z) -> Device * (Z + Z))
    a size trimmed (d : Device) :
  trim_ok a = true ->
  NumBlocks (fVolume a) * BlockSize (fVolume a) <= size ->
  Trim B_TRIM_DEVICE a 0 size trimmed d
  = Some (send_ranges B_TRIM_DEVICE
            (in_bytes (BlockSize (fVolume a))
             <$> closed_runs (volume_bitmap a) 0 0 0)
            (in_bytes (BlockSize (fVolume a))
             <$> open_run (volume_bitmap a) 0 0 0) [] 0 d).
Proof. intros Hok Hsize. apply Trim_refines; assumption. Qed.

Lemma Trim_sends_free_runs_witness :
  Trim recording_device example_allocated 0 16777216 0 []
  = Some (send_ranges recording_device
            (in_bytes 1024
             <$> closed_runs (volume_bitmap example_allocated) 0 0 0)
            (in_bytes 1024
             <$> open_run (volume_bitmap example_allocated) 0 0 0) [] 0 []).
Proof.
  apply (Trim_sends_free_runs recording_device example_allocated 16777216 0
           []).
  - vm_compute; reflexivity.
  - vm_compute; discriminate.
Defined.

(** With a device that trims all of every range it is given, [Trim] of
    the whole of a well-formed volume returns [B_OK] and reports as
    trimmed the bytes of all the free blocks the groups count. *)
Theorem Trim_reports_free_blocks {Device : Type}
    (B_TRIM_DEVICE : Device -> list (Z * Z) -> Device * (Z + Z))
    a size trimmed (d : Device) :
  trim_ok a = true -> trims_all B_TRIM_DEVICE ->
  NumBlocks (fVolume a) * BlockSize (fVolume a) <= size ->
  exists d',
    Trim B_TRIM_DEVICE a 0 size trimmed d
    = Some (Status B_OK, free_blocks a * BlockSize (fVolume a), d').
Proof. intros Hok Hdev Hsize. apply Trim_trims_all; assumption. Qed.

Lemma Trim_reports_free_blocks_witness :
  exists d',
    Trim recording_device example_allocated 0 16777216 0 []
    = Some (Status B_OK, 16310 * 1024, d').
Proof.
  destruct (Trim_reports_free_blocks recording_device example_allocated
              16777216 0 []) as (d' & H).
  - vm_compute; reflexivity.
  - intros d request. reflexivity.
  - vm_compute; discriminate.
  - exists d'. exact H.
Defined.

(** The requests a trim of the whole volume makes: every request but the
    last holds 128 ranges and the last at most 128; taken together, in the
    order they were made, the ranges are runs of blocks in bytes, the runs
    lie one after the other without touching, and a block of the bitmap is
    free exactly when it is in one of them. *)
Theorem Trim_requests_cover_free_blocks a size trimmed :
  trim_ok a = true ->
  NumBlocks (fVolume a) * BlockSize (fVolume a) <= size ->
  exists full final runs,
    Trim recording_device a 0 size trimmed []
    = Some (Status B_OK, free_blocks a * BlockSize (fVolume a),
            final :: reverse full)
    /\ Forall (fun request => length request = 128%nat) full
    /\ (length final <= 128)%nat
    /\ concat full ++ final = in_bytes (BlockSize (fVolume a)) <$> runs
    /\ separated 0 runs
    /\ forall n, 0 <= n ->
         volume_bitmap a !! Z.to_nat n = Some false
         <-> exists run, run ∈ runs /\ run.1 <= n < run.1 + run.2.
Proof.
  intros Hok Hsize.
  destruct (Trim_recording a size trimmed Hok Hsize)
    as (full & final & runs & H1 & H2 & H3 & H4 & _ & H5 & H6).
  exists full, final, runs. auto 10.
Qed.

Lemma Trim_requests_cover_free_blocks_witness :
  exists full final runs,
    Trim recording_device example_allocated 0 16777216 0 []
    = Some (Status B_OK, 16310 * 1024, final :: reverse full)
    /\ concat full ++ final = in_bytes 1024 <$> runs
    /\ separated 0 runs.
Proof.
  destruct (Trim_requests_cover_free_blocks example_allocated 16777216 0)
    as (full & final & runs & H1 & _ & _ & H4 & H5 & _).
  - vm_compute; reflexivity.
  - vm_compute; discriminate.
  - exists full, final, runs. split; [exact H1|]. split; [exact H4|exact H5].
Defined.



(** Trim of a freshly formatted volume, with a device that trims all it
    is given, reports the bytes of the volume less those of the reserved
    prefix. *)
Theorem Trim_after_format {Device : Type}
    (B_TRIM_DEVICE : Device -> list (Z * Z) -> Device * (Z + Z))
    v size trimmed (d : Device) :
  format_ok v = true -> AllocationGroups v <= 2147483647 ->
  trims_all B_TRIM_DEVICE ->
  NumBlocks v * BlockSize v <= size ->
  exists a d',
    InitializeAndClearBitmap v = Some (B_OK, a)
    /\ Trim B_TRIM_DEVICE a 0 size trimmed d
       = Some (Status B_OK,
               (NumBlocks v - (run_start (Log v) + run_length (Log v)))
               * BlockSize v,
               d').
Proof.
  intros Hf Hgroups Hdev Hsize.
  destruct (formatted_free_blocks v Hf)
    as (a & H1 & H2 & H3 & H4 & H5 & H6 & H7).
  destruct (format_ok_spec v Hf)
    as (Hv & Hsh & Hbs & Hn & Hbpg & Hnb & Hblocks & Hlg & Hls & Hll & Hr
        & Hrm).
  cbv zeta in Hnb, Hblocks, Hr, Hrm.
  destruct (volume_ok_spec v Hv) as ((Hbs0 & Hbs1) & _).
  assert (Hok : trim_ok a = true).
  { unfold trim_ok. rewrite H2, H3, H4, H5, H6.
    rewrite !andb_true_iff, !Z.leb_le, Z.eqb_eq, Z.ltb_lt.
    repeat split; try assumption; try lia. nia. }
  destruct (Trim_trims_all B_TRIM_DEVICE a size trimmed d Hok Hdev)
    as (d' & E).
  { rewrite H4, H5. exact Hsize. }
  exists a, d'. split; [exact H1|]. rewrite E, H7, H5. reflexivity.
Qed.

Lemma Trim_after_format_witness :
  exists a d',
    InitializeAndClearBitmap example_volume = Some (B_OK, a)
    /\ Trim recording_device a 0 16777216 0 []
       = Some (Status B_OK, (16384 - 64) * 1024, d').
Proof.
  destruct (Trim_after_format recording_device example_volume 16777216 0 [])
    as (a & d' & H1 & H2).
  - vm_compute; reflexivity.
  - vm_compute; discriminate.
  - intros d request. reflexivity.
  - vm_compute; discriminate.
  - exists a, d'. split; [exact H1|exact H2].
Defined.
